(* ===== verification/_CoqProject ===== *)
-Q . S2P
Prelude.v
GoString.v
Calendar.v
GoTime.v
JsonString.v
Json.v
JsonCompact.v
Model.v
ModelJson.v
StrictJson.v
JsonSize.v
Profile.v
Scheduler.v
Journal.v
JournalLog.v
JournalFindings.v
JournalOrder.v
JournalDemo.v
GoHttp.v
GoLib.v
GoUrl.v
GoCrypto.v
Scan.v
ScanFacts.v
ScanText.v
Ingest.v
BridgeEvents.v
IngestFacts.v
BridgeDemo.v
Base64.v
DemoCrypto.v
ControllerTypes.v
ControllerHttp.v
ControllerStore.v
ControllerAuth.v
ControllerSteps.v
ControllerSpec.v
ControllerInvariant.v
ControllerLifecycle.v
ControllerQueries.v
ControllerDemo.v
ControllerServer.v
ControllerServerFacts.v
Managed.v
Redact.v
ManagedFacts.v
ManagedDemo.v
ManagedClient.v
Limits.v
Delivery.v
Enrollment.v
ServerDemo.v
IntelTypes.v
IntelCanonical.v
IntelNormal.v
IntelTrust.v
IntelSign.v
IntelInstall.v
IntelInstallFacts.v
IntelDemo.v
GoRegexp.v
NotifierRegistry.v
NotifierHttp.v
NotifierChannels.v
NotifierFacts.v
NotifierDemo.v
Exposure.v
ExposureFacts.v
GoFile.v
ScannerContract.v
ScannerExecutable.v
ScannerExecutableFacts.v
ScannerStill.v
ScannerSecret.v
ScannerScan.v
ScannerScanFacts.v
ScannerComplete.v
ScannerDemo.v
Agent.v
AgentFacts.v
