(* ===== verification/Prelude.v ===== *)
(** * oh-my-safety: verification library

    This file is the root of the library and its prelude: the error and
    effect monads, the tactics, the hint databases and the generic lemmas on
    lists, sorting and integers that all components share.

    ** The program

    oh-my-safety is an endpoint security tool in Go.  A command-line agent
    scans the machine; [internal/bridge] parses the scan and appends its
    results as events to [internal/journal], a SQLite event log that projects
    lifecycle events into current findings; [internal/model] holds the
    contracts of both, [internal/profile] the configuration presets and
    [internal/scheduler] the recurring tasks.  [internal/controller] manages a
    fleet over HTTP: enrollment tokens, device credentials, policies and their
    assignment to groups, redacted reports, an audit log.  An enrolled agent,
    [internal/managed], installs the signed policies of its controller and
    sends it redacted findings.  [internal/intel] signs, verifies and installs
    bundles of detection data.  [internal/notifier] delivers notifications to
    a webhook, Discord, Telegram and SendGrid; [internal/exposure] asks two
    breach services about a password and an account; [internal/scanner] looks
    for secrets in files and at changed executables.

    ** What models what

    Go itself.  [GoString]: byte strings, runes and the parts of strings,
    unicode and strconv in use.  [GoTime], [Calendar]: [time.Time] as an
    instant and an offset, civil dates, RFC 3339 and fixed-width text.
    [JsonString], [Json], [JsonCompact]: encoding/json at the level of text;
    [StrictJson]: decoding that refuses unknown fields; [JsonSize]: bounds on
    encoded texts.  [GoLib], [GoUrl], [GoHttp]: path.Clean, ParseIP, ParseBool,
    bufio lines, net/url, mime.ParseMediaType, the requests and answers of
    net/http.  [GoRegexp]: regular expressions with leftmost-first
    search, sound and complete for the language they denote.  [GoCrypto]: SHA-256
    and SHA-1 (executable), the classes [Hash] and [Ed25519]; [Base64].

    [Model], [ModelJson] (internal/model/contracts.go): events, findings,
    observations, transitions, their [Validate] methods and [NewID]; the
    documents of the struct tags, as instances of the class [Codec] with its
    law [CodecLaws].

    [Profile] (internal/profile/profile.go) and [Scheduler]
    (internal/scheduler/scheduler.go): one definition per function; the
    planner's map of next runs is explicit state.

    [Journal] (internal/journal/sqlite.go): [Store] is the content of the
    tables, [Append], [Read], [CurrentFinding], [ListFindings],
    [RebuildFindings], [SortFindings] and the migration are functions on it.
    [JournalLog] proves the log append-only, idempotent and ordered;
    [JournalFindings] proves the projection a replay of the log, its lifecycle
    a step relation ([lifecycle_step]), and occurrence counts exact;
    [JournalOrder] is about the two listing orders; [JournalDemo] applies all
    of it to concrete events.

    [Scan], [ScanFacts], [ScanText] (internal/bridge/scan.go): validation,
    parsing, digest.  [Ingest] (ingest.go, query.go): [IngestScan] against the
    interface [IngestStore] of the source; [StoreLaws] is the class of what
    the theorems ask of a store, and the journal is an instance.
    [BridgeEvents], [IngestFacts]: a scan is ingested once, with exactly its
    events, and moves its findings as it should.  [BridgeDemo]: a worked scan.

    [ControllerTypes] (internal/controller/types.go): contracts, validation,
    documents.  [ControllerStore] (store.go): the
    tables as maps, one definition per statement and per method, with
    [transaction] for rollback; constraint violations carry SQLite's text,
    which the code inspects.  [ControllerSteps]: the requests as a type [op],
    [run], [step] and [reachable], and their atomicity.  [ControllerSpec]: the
    relation [effect], what each request promises, and the theorem that [run]
    refines it both ways.  [ControllerInvariant]: [store_ok] for every
    reachable store.  [ControllerLifecycle]: tokens, credentials, revocation.
    [ControllerQueries]: policies, assignments, audit trail, reports.
    [ControllerAuth] (auth.go, signing.go): principals and bearer headers,
    signed policies.  [ControllerDemo]: a worked run.

    [ControllerHttp], [ControllerServer] (server.go): request and response
    documents, routing, roles, handlers; [serve] is one request.
    [ControllerServerFacts]: a served request is a request of [op] that its
    body and path ask for ([asked]) and its sender is [entitled] to, or changes
    nothing.

    [Managed] and [ManagedFacts] (internal/managed/policy.go, state.go): the
    revision ledger and the policy cache, whose two files are the value
    [PolicyFiles]; the endpoint never goes back to an earlier revision.
    [Redact] (sync.go): [RedactFindings].  [ManagedClient] (client.go,
    state.go, sync.go): the enrollment state file, the requests, [Sync].
    [ManagedDemo]: a worked run.

    The protocol, client against server: [Limits] (documents fit the limits of
    both sides), [Delivery] (policies and reports arrive, [Sync] as a whole),
    [Enrollment] (enrollment and rotation agree on a credential); [ServerDemo] applies them to a concrete fleet.

    [IntelTypes], [IntelCanonical], [IntelNormal] (internal/intel/contract.go,
    canonical.go, errors.go, json.go): bundles, their canonical form and when
    two bundles have the same one.  [IntelTrust] (trust.go): trust stores.
    [IntelSign] (sign.go): signing and verification.  [IntelInstall]
    (install.go): the directory of installed bundles, whose changes may fail
    or stop midway ([fate]); [IntelInstallFacts]: no rollback, atomicity.
    [IntelDemo]: a worked run.

    [NotifierRegistry] (internal/notifier/registry.go): notifications, the
    registry and its fan-out, over channels that act on any world; the
    relation [asked] says what asking each distinct name once does.  [NotifierHttp]
    (http_delivery.go): the one request of a delivery, what becomes of its
    answer, and the checks of endpoints and secrets.  [NotifierChannels]
    (webhook.go, discord.go, telegram.go, sendgrid.go): configuration, payload
    and answer of the four channels.  [NotifierFacts]: what is sent and where
    ([target]), which credentials are never reported ([secret_of]), the delays;
    [NotifierDemo]: a worked run, and a credential that is reported.

    [Exposure] (internal/exposure, all four files): the module [Adapter] has
    the gate, the requests and the reading of the answers.  [ExposureFacts]:
    the gate, the privacy of a password and the count of a listing,
    each applied.

    [GoFile]: package os as the class [FileSystem] of calls on a world that
    other processes may change, filepath.WalkDir, what a run has read of a file
    ([call], [later], [read_between]), and the instance [StillSystem] of a
    system nobody else writes to; clean paths.
    [ScannerContract] (internal/scanner/contract.go): the coverage report, a
    summary of the limits reached.  [ScannerExecutable] (executable.go,
    ownership_unix.go): the triage; [ScannerExecutableFacts]: its bounds and
    bookkeeping on any file system; [ScannerStill]: equality with a reference
    on a still one.  [ScannerSecret] (secret.go): the patterns and the scan of
    one text, equal to a reference.  [ScannerScan]
    (secret.go): the walk of the roots and its limits; [ScannerScanFacts]: the
    bounds, the reading a finding comes from, and that the walk ends;
    [ScannerComplete]: an unlimited scan misses nothing.  [ScannerDemo]: a
    worked run.

    [Agent] (cmd/oh-my-safety-agent): [choose] is the operation that parsed
    flags ask for; arguments, one value from standard input, the key file of
    the secret scan, the local scans, the exposure checks, the printed policy.
    [AgentFacts]: their properties, on any reader, network and policy, and for
    the key file on [Disk], a file system nobody else writes to.

    ** Conventions

    A fallible function returns [result]; a function on a store is an [eff],
    store passing with a [result].  Integers are [Z]; where the code wraps
    around or checks a range the definition does, and the theorems state the
    range of arguments ([Policy_typed], [Report_typed], [event_ok]).  SQL
    statements have their relational meaning; AUTOINCREMENT counters stop at
    the largest int64.  The clock and the random source are arguments.

    Parameters: the hash in the generic theorems is the class [Hash], with
    [HashLaws] (32 bytes; SHA-256 is an instance, a checksum that of the long
    worked runs, [DemoCrypto]), Ed25519 is the class [Ed25519] with
    [Ed25519Laws] (sizes, and verification accepts what signing made;
    [DemoCrypto] has a concrete instance), regexp compilation is the class
    [Regexp] with [RegexpLaws], and the network is the class [Transport].
    HTTP dates, mail addresses and the Unicode lower case are the classes
    [HttpDate], [NetMail] and [UnicodeLower], of which nothing is assumed.  Of a
    file system [FileLaws] says that a read fills at most its buffer and that
    the entries of a directory have names; of the working directory and the
    temporary directory, the class [Environment], nothing is assumed.
    Fuel: [eventByID] and so [IngestScan] take the number of pages they may
    read; more fuel than pages of the log is enough ([eventByID_terminates]).
    A secret scan walks with one more unit of fuel than its depth limit, which
    [walk_ends] proves enough, and a file is read with as much as there are
    bytes to read ([bounded_loop_fuel]).  Every other recursion is structural
    or has its measure proved sufficient where it is defined.

    ** What is not modelled

    Engine failures of SQLite, locks, and concurrency inside one process
    beyond the atomicity of a transaction or of a mutex; except in the scanner
    and for the fingerprint key, files replaced by another process between two
    steps of a check; deadlines
    other than as the error of a request.  Of the controller's server: the listener, its TLS
    configuration and the files it is started from (bootstrap.go), redirects
    of unclean paths, chunked bodies.  Of the endpoint: the modes and the
    replacement of its files, its TLS configuration, the lock of the policy
    cache.  Of the scanner: rounding in the float64 sum of an entropy, and
    ownership_other.go, which is for other systems.  Of the agent's command:
    package flag, the reading of a scan file, the managed calls around
    [internal/managed] and the JSON of the outputs.  The commands of the
    controller and of intel, which are wiring around flags and files. *)

From Stdlib Require Export ZArith Lia Ascii.
From Stdlib Require String.
From stdpp Require Export base tactics list strings gmap sorting.

(** ** Scopes, automation databases *)

#[export] Set Warnings "-clear-no-such-hyp".

Declare Scope oms_scope.
Delimit Scope oms_scope with oms.
Open Scope oms_scope.

Create HintDb oms.
#[global] Create Rewrite HintDb oms_simpl.

(** ** Go errors

    [ErrorsNew] is [errors.New] of a literal, [Errorf] is [fmt.Errorf] without
    [%w] (the format and its operands are kept apart instead of being printed),
    [Wrapf] is [fmt.Errorf] with a [%w] operand, [Sentinel] is a package-level
    error variable, [Join] is [errors.Join]. *)

Inductive farg :=
  | FStr (s : string)
  | FInt (z : Z).

Inductive error :=
  | ErrorsNew (msg : string)
  | Errorf (format : string) (args : list farg)
  | Wrapf (format : string) (inner : error) (args : list farg)
  | Sentinel (name : string)
  | Join (left right : error).

#[export] Instance farg_eq_dec : EqDecision farg.
Proof. solve_decision. Defined.
#[export] Instance error_eq_dec : EqDecision error.
Proof. solve_decision. Defined.

(** [errors.Is(err, target)] for a package-level target. *)
Fixpoint errors_is (e : error) (target : string) : bool :=
  match e with
  | Sentinel n => bool_decide (n = target)
  | Wrapf _ inner _ => errors_is inner target
  | Join l r => errors_is l target || errors_is r target
  | _ => false
  end.

(** ** Results: the [(value, error)] pairs of Go, read as a sum *)

Inductive result (A : Type) : Type :=
  | Ok (a : A)
  | Err (e : error).
Arguments Ok {A} a.
Arguments Err {A} e.

#[export] Instance result_eq_dec `{EqDecision A} : EqDecision (result A).
Proof. solve_decision. Defined.

#[export] Instance result_ret : MRet result := @Ok.
#[export] Instance result_bind : MBind result :=
  λ A B f m, match m with Ok a => f a | Err e => Err e end.
#[export] Instance result_fmap : FMap result :=
  λ A B f m, match m with Ok a => Ok (f a) | Err e => Err e end.

Definition is_ok {A} (r : result A) : bool :=
  match r with Ok _ => true | Err _ => false end.

(** [if cond { return err }] in front of the rest of a body. *)
Definition fail_if (c : bool) (e : error) : result unit :=
  if c then Err e else Ok tt.

(** Replacing the error of a call, [if err != nil { return ..., e }]. *)
Definition map_err {A} (f : error → error) (r : result A) : result A :=
  match r with Ok a => Ok a | Err e => Err (f e) end.

Lemma bind_ok {A B} (f : A → result B) (a : A) : (Ok a ≫= f) = f a.
Proof. done. Qed.

Lemma bind_ok_inv {A B} (f : A → result B) (m : result A) (b : B) :
  m ≫= f = Ok b → ∃ a, m = Ok a ∧ f a = Ok b.
Proof. destruct m as [a|e]; [by exists a | done]. Qed.

Lemma bind_err_inv {A B} (f : A → result B) (m : result A) (e : error) :
  m ≫= f = Err e → m = Err e ∨ ∃ a, m = Ok a ∧ f a = Err e.
Proof. destruct m as [a|e']; simpl; [right; eauto | intros [= ->]; by left]. Qed.

Lemma fail_if_ok_inv c e : fail_if c e = Ok tt → c = false.
Proof. by destruct c. Qed.

Lemma map_err_ok_inv {A} f (r : result A) a : map_err f r = Ok a → r = Ok a.
Proof. by destruct r; simpl; intros [=]; subst. Qed.

#[export] Hint Rewrite @bind_ok : oms_simpl.

(** Inverts a chain of binds, guards and error maps that ended in [Ok]. *)
Ltac ok_inv1 :=
  match goal with
  | H : Ok _ = Ok _ |- _ => injection H as H; try subst
  | H : Err _ = Ok _ |- _ => discriminate H
  | H : Ok _ = Err _ |- _ => discriminate H
  | H : (_ ≫= _) = Ok _ |- _ =>
      apply bind_ok_inv in H; destruct H as (? & ? & H)
  | H : mret _ = Ok _ |- _ => injection H as H; try subst
  | H : fail_if _ _ = Ok ?u |- _ => destruct u; apply fail_if_ok_inv in H
  | H : map_err _ _ = Ok _ |- _ => apply map_err_ok_inv in H
  | u : unit |- _ => destruct u
  end.
Ltac ok_inv := repeat ok_inv1.

(** Case analysis on the scrutinee of an [if]/[match] in a hypothesis. *)
Ltac case_in H :=
  match type of H with
  | context [ if ?b then _ else _ ] => destruct b eqn:?
  | context [ match ?x with _ => _ end ] => destruct x eqn:?
  end.

(** Turns boolean guards into propositions. *)
Ltac bool_prop :=
  repeat match goal with
  | H : _ && _ = true |- _ => apply andb_true_iff in H; destruct H
  | H : _ || _ = false |- _ => apply orb_false_iff in H; destruct H
  | H : negb _ = true |- _ => apply negb_true_iff in H
  | H : negb _ = false |- _ => apply negb_false_iff in H
  | H : bool_decide _ = true |- _ => apply bool_decide_eq_true in H
  | H : bool_decide _ = false |- _ => apply bool_decide_eq_false in H
  | H : String.eqb _ _ = true |- _ => apply String.eqb_eq in H
  | H : String.eqb _ _ = false |- _ => apply String.eqb_neq in H
  | H : (_ =? _)%Z = true |- _ => apply Z.eqb_eq in H
  | H : (_ =? _)%Z = false |- _ => apply Z.eqb_neq in H
  | H : (_ <? _)%Z = true |- _ => apply Z.ltb_lt in H
  | H : (_ <? _)%Z = false |- _ => apply Z.ltb_ge in H
  | H : (_ <=? _)%Z = true |- _ => apply Z.leb_le in H
  | H : (_ <=? _)%Z = false |- _ => apply Z.leb_gt in H
  end.

(** ** Effects: a store threaded through calls that may fail

    The store keeps what was written before a failure, as it does in Go. *)

Definition eff (S A : Type) : Type := S → S * result A.

#[export] Instance eff_ret {S} : MRet (eff S) := λ A a s, (s, Ok a).
#[export] Instance eff_bind {S} : MBind (eff S) :=
  λ A B f m s, match m s with
               | (s', Ok a) => f a s'
               | (s', Err e) => (s', Err e)
               end.

(** A call that does not touch the store. *)
Definition pure_ {S A} (r : result A) : eff S A := λ s, (s, r).
(** A query. *)
Definition query {S A} (f : S → result A) : eff S A := λ s, (s, f s).
(** Wrapping the error of a call. *)
Definition wrap_err {S A} (w : error → error) (m : eff S A) : eff S A :=
  λ s, let '(s', r) := m s in (s', map_err w r).

Lemma eff_bind_ok_inv {S A B} (f : A → eff S B) (m : eff S A) s s' b :
  (m ≫= f) s = (s', Ok b) → ∃ s1 a, m s = (s1, Ok a) ∧ f a s1 = (s', Ok b).
Proof.
  unfold mbind, eff_bind. destruct (m s) as [s1 [a|e]] eqn:E; [|by intros [=]].
  eauto.
Qed.

Lemma eff_bind_ok {S A B} (f : A → eff S B) (m : eff S A) s s1 a :
  m s = (s1, Ok a) → (m ≫= f) s = f a s1.
Proof. unfold mbind, eff_bind. by intros ->. Qed.

Lemma pure_bind {S A B} (f : A → eff S B) a s : (pure_ (Ok a) ≫= f) s = f a s.
Proof. done. Qed.

Lemma query_bind {S A B} (g : S → result A) (f : A → eff S B) s a :
  g s = Ok a → (query g ≫= f) s = f a s.
Proof. intros H. unfold mbind, eff_bind, query. by rewrite H. Qed.

Lemma wrap_err_ok_inv {S A} w (m : eff S A) s s' a :
  wrap_err w m s = (s', Ok a) → m s = (s', Ok a).
Proof. unfold wrap_err. destruct (m s) as [s1 [x|e]]; simpl; congruence. Qed.

Lemma pure_ok_inv {S A} (r : result A) (s s' : S) a :
  pure_ r s = (s', Ok a) → s' = s ∧ r = Ok a.
Proof. unfold pure_. by intros [= -> ->]. Qed.

(** ** Byte-wise string order, the [<] of Go strings *)

Abbreviation str_ltb := String.ltb.

Lemma ascii_compare_lt_trans a b c :
  Ascii.compare a b = Lt → Ascii.compare b c = Lt → Ascii.compare a c = Lt.
Proof. unfold Ascii.compare. rewrite !N.compare_lt_iff. lia. Qed.

Lemma ascii_compare_eq a b : Ascii.compare a b = Eq → a = b.
Proof.
  unfold Ascii.compare. rewrite N.compare_eq_iff. intros H.
  by rewrite <-(ascii_N_embedding a), <-(ascii_N_embedding b), H.
Qed.

Lemma ascii_compare_refl a : Ascii.compare a a = Eq.
Proof. unfold Ascii.compare. apply N.compare_refl. Qed.

Lemma string_compare_refl s : String.compare s s = Eq.
Proof. induction s as [|a s IH]; simpl; [done|]. by rewrite ascii_compare_refl. Qed.

Lemma string_compare_lt_trans s1 s2 s3 :
  String.compare s1 s2 = Lt → String.compare s2 s3 = Lt → String.compare s1 s3 = Lt.
Proof.
  revert s2 s3. induction s1 as [|a s1 IH]; intros [|b s2] [|c s3]; simpl; try done.
  destruct (Ascii.compare a b) eqn:E1; try done;
    destruct (Ascii.compare b c) eqn:E2; try done; intros H1 H2.
  - apply ascii_compare_eq in E1 as ->, E2 as ->. rewrite ascii_compare_refl. eauto.
  - apply ascii_compare_eq in E1 as ->. by rewrite E2.
  - apply ascii_compare_eq in E2 as ->. by rewrite E1.
  - by rewrite (ascii_compare_lt_trans _ _ _ E1 E2).
Qed.

Lemma str_ltb_irrefl s : str_ltb s s = false.
Proof. unfold String.ltb. by rewrite string_compare_refl. Qed.

Lemma str_ltb_trans s1 s2 s3 :
  str_ltb s1 s2 = true → str_ltb s2 s3 = true → str_ltb s1 s3 = true.
Proof.
  unfold String.ltb. destruct (String.compare s1 s2) eqn:E1; try done.
  destruct (String.compare s2 s3) eqn:E2; try done.
  by rewrite (string_compare_lt_trans _ _ _ E1 E2).
Qed.

Lemma str_ltb_total s1 s2 :
  str_ltb s1 s2 = false → str_ltb s2 s1 = false → s1 = s2.
Proof.
  unfold String.ltb. rewrite (String.compare_antisym s1 s2).
  destruct (String.compare s2 s1) eqn:E; simpl; try done.
  intros _ _. symmetry. by apply String.compare_eq_iff.
Qed.

Lemma str_ltb_neg_trans s1 s2 s3 :
  str_ltb s1 s2 = false → str_ltb s2 s3 = false → str_ltb s1 s3 = false.
Proof.
  intros H1 H2. destruct (str_ltb s1 s3) eqn:E; [|done].
  destruct (str_ltb s2 s1) eqn:E1.
  - by rewrite (str_ltb_trans _ _ _ E1 E) in H2.
  - apply (str_ltb_total _ _ H1) in E1 as ->. congruence.
Qed.

(** ** Sorting with a [less] callback, [sort.Slice]

    [sort.Slice] leaves the order of elements that compare equal open;
    [sort_by] is the stable outcome.  Where a property depends on the order,
    the keys are shown to be distinct. *)

Class StrictLess {A} (less : A → A → bool) : Prop := {
  less_irrefl x : less x x = false;
  less_trans x y z : less x y = true → less y z = true → less x z = true;
  less_neg_trans x y z : less x y = false → less y z = false → less x z = false;
}.

#[export] Instance str_ltb_strict : StrictLess str_ltb.
Proof.
  split; [apply str_ltb_irrefl | apply str_ltb_trans | apply str_ltb_neg_trans].
Qed.

#[export] Instance less_on_strict {A B} (f : A → B) (less : B → B → bool) :
  StrictLess less → StrictLess (λ x y, less (f x) (f y)).
Proof.
  intros HL. split; [intros; apply less_irrefl | | ].
  - intros x y z. apply less_trans.
  - intros x y z. apply less_neg_trans.
Qed.

Section sorting.
Context {A : Type} (less : A → A → bool).

Fixpoint insert_by (x : A) (l : list A) : list A :=
  match l with
  | [] => [x]
  | y :: l' => if less x y then x :: y :: l' else y :: insert_by x l'
  end.

Definition sort_by (l : list A) : list A := foldl (λ acc x, insert_by x acc) [] l.

Definition le_by (x y : A) : Prop := less y x = false.

Lemma insert_by_perm x l : insert_by x l ≡ₚ x :: l.
Proof.
  induction l as [|y l IH]; simpl; [done|].
  case_match; [done|]. rewrite IH. constructor.
Qed.

Lemma foldl_insert_perm l acc : foldl (λ acc x, insert_by x acc) acc l ≡ₚ acc ++ l.
Proof.
  revert acc. induction l as [|x l IH]; intros acc; simpl.
  - by rewrite app_nil_r.
  - rewrite IH, insert_by_perm. by rewrite <-Permutation_middle.
Qed.

Lemma sort_by_perm l : sort_by l ≡ₚ l.
Proof. apply foldl_insert_perm. Qed.

Lemma elem_of_sort_by x l : x ∈ sort_by l ↔ x ∈ l.
Proof. by rewrite sort_by_perm. Qed.

Lemma length_sort_by l : length (sort_by l) = length l.
Proof. by rewrite sort_by_perm. Qed.

Context `{HL : !StrictLess less}.

#[local] Instance le_by_trans : Transitive le_by.
Proof. intros x y z H1 H2. unfold le_by in *. eapply less_neg_trans; eauto. Qed.

Lemma less_asym x y : less x y = true → less y x = false.
Proof.
  intros H. destruct (less y x) eqn:E; [|done].
  pose proof (less_trans _ _ _ H E) as H'. by rewrite less_irrefl in H'.
Qed.

Lemma insert_by_sorted x l : StronglySorted le_by l → StronglySorted le_by (insert_by x l).
Proof.
  induction 1 as [|y l Hl IH Hy]; simpl; [by repeat constructor|].
  destruct (less x y) eqn:E.
  - assert (le_by x y) by (by apply less_asym).
    constructor; [by constructor|]. constructor; [done|].
    eapply Forall_impl; [exact Hy|]. intros z Hz. by transitivity y.
  - constructor; [done|]. rewrite insert_by_perm. by constructor.
Qed.

Lemma sort_by_sorted l : StronglySorted le_by (sort_by l).
Proof.
  assert (∀ acc, StronglySorted le_by acc →
    StronglySorted le_by (foldl (λ acc x, insert_by x acc) acc l)) as H.
  { induction l as [|x l IH]; intros acc Hacc; simpl; [done|].
    apply IH. by apply insert_by_sorted. }
  apply H. constructor.
Qed.

(** Two sorted arrangements of the same elements agree when equivalent
    elements are equal. *)
Lemma sorted_unique l1 l2 :
  (∀ x y, x ∈ l1 → y ∈ l1 → le_by x y → le_by y x → x = y) →
  StronglySorted le_by l1 → StronglySorted le_by l2 → l1 ≡ₚ l2 → l1 = l2.
Proof.
  intros Heq H1. revert l2. induction H1 as [|x l1 H1 IH Hx]; intros l2 H2 HP.
  - by apply Permutation_nil_l in HP.
  - destruct H2 as [|y l2 H2 Hy]; [by apply Permutation_nil_r in HP|].
    assert (x = y) as ->.
    { apply Heq.
      - by left.
      - rewrite HP. by left.
      - assert (y ∈ x :: l1) as Hin by (rewrite HP; by left).
        apply elem_of_cons in Hin as [->|Hin]; [unfold le_by; apply less_irrefl|].
        by eapply (proj1 (Forall_forall _ _) Hx).
      - assert (x ∈ y :: l2) as Hin by (rewrite <-HP; by left).
        apply elem_of_cons in Hin as [->|Hin]; [unfold le_by; apply less_irrefl|].
        by eapply (proj1 (Forall_forall _ _) Hy). }
    f_equal. apply IH; [|done|by apply Permutation_cons_inv in HP].
    intros a b Ha Hb. apply Heq; by right.
Qed.

Lemma sort_by_ext l1 l2 :
  (∀ x y, x ∈ l1 → y ∈ l1 → le_by x y → le_by y x → x = y) →
  l1 ≡ₚ l2 → sort_by l1 = sort_by l2.
Proof.
  intros Heq HP. apply sorted_unique; [|apply sort_by_sorted..|].
  - intros x y Hx Hy. apply Heq; by rewrite <-(sort_by_perm l1).
  - by rewrite !sort_by_perm.
Qed.

Lemma insert_by_last x l :
  StronglySorted le_by (l ++ [x]) → insert_by x l = l ++ [x].
Proof.
  induction l as [|y l IH]; simpl; [done|].
  intros [Hs Hy]%StronglySorted_inv.
  assert (le_by y x) as Hyx by (apply (proj1 (Forall_forall _ _) Hy); set_solver).
  unfold le_by in Hyx. rewrite Hyx. f_equal. by apply IH.
Qed.

Lemma foldl_insert_sorted l acc :
  StronglySorted le_by (acc ++ l) → foldl (λ acc x, insert_by x acc) acc l = acc ++ l.
Proof.
  revert acc. induction l as [|x l IH]; intros acc Hs; simpl; [by rewrite app_nil_r|].
  rewrite insert_by_last; [by rewrite IH, <-app_assoc; [|rewrite <-app_assoc]|].
  rewrite cons_middle, app_assoc in Hs. by apply StronglySorted_app_1_l in Hs.
Qed.

Lemma sort_by_id l :
  StronglySorted le_by l → sort_by l = l.
Proof.
  intros Hs. by apply foldl_insert_sorted.
Qed.
End sorting.

(** Elements with distinct keys, sorted by key. *)
Lemma sort_by_keys {A} (key : A → string) l :
  NoDup (key <$> l) →
  StronglySorted (λ p q, str_ltb p q = true) (key <$> sort_by (λ a b, str_ltb (key a) (key b)) l).
Proof.
  set (less := λ a b, str_ltb (key a) (key b)). intros Hn.
  pose proof (sort_by_sorted less l) as Hs. rewrite <-(sort_by_perm less l) in Hn.
  revert Hs Hn. generalize (sort_by less l). clear l. intros l Hs.
  induction Hs as [|a l Hl IH Ha]; cbn; [constructor|]. intros [Hn Hnd]%NoDup_cons.
  constructor; [by apply IH|]. rewrite Forall_fmap. rewrite Forall_forall in *. intros b Hb.
  specialize (Ha b Hb). unfold le_by, less in Ha. cbn. destruct (str_ltb (key a) (key b)) eqn:E; [done|].
  destruct Hn. rewrite (str_ltb_total _ _ E Ha). by apply list_elem_of_fmap_2.
Qed.

(** Two callbacks that agree on the elements sort alike. *)
Lemma insert_by_agree {A} (l1 l2 : A → A → bool) x l :
  (∀ y, y ∈ l → l1 x y = l2 x y) → insert_by l1 x l = insert_by l2 x l.
Proof.
  induction l as [|y l IH]; intros H; [done|]. simpl. rewrite (H y) by (by left).
  destruct (l2 x y); [done|]. f_equal. apply IH. intros z Hz. apply H. by right.
Qed.

Lemma sort_by_agree {A} (l1 l2 : A → A → bool) l :
  (∀ x y, x ∈ l → y ∈ l → l1 x y = l2 x y) → sort_by l1 l = sort_by l2 l.
Proof.
  intros H. unfold sort_by.
  assert (∀ m acc, (∀ x, x ∈ m → x ∈ l) → (∀ x, x ∈ acc → x ∈ l) →
    foldl (λ acc x, insert_by l1 x acc) acc m = foldl (λ acc x, insert_by l2 x acc) acc m) as Hf.
  { induction m as [|x m IH]; intros acc Hm Ha; [done|]. simpl.
    rewrite (insert_by_agree l1 l2 x acc); [|by intros y Hy; apply H; [apply Hm; left|apply Ha]].
    apply IH; [intros y Hy; apply Hm; by right|].
    intros y. rewrite insert_by_perm. intros [->|Hy]%elem_of_cons; [apply Hm; by left|by apply Ha]. }
  apply Hf; [done|]. intros x Hx. by apply not_elem_of_nil in Hx.
Qed.

(** ** Filtering lists *)

Lemma filter_all {A} (P : A → Prop) `{∀ x, Decision (P x)} l : Forall P l → filter P l = l.
Proof. induction 1 as [|x l Hx Hl IH]; [done|]. by rewrite filter_cons_True, IH. Qed.

Lemma filter_none {A} (P : A → Prop) `{∀ x, Decision (P x)} l :
  Forall (λ x, ¬ P x) l → filter P l = [].
Proof. induction 1 as [|x l Hx Hl IH]; [done|]. by rewrite filter_cons_False. Qed.

Lemma StronglySorted_snoc {A} (R : A → A → Prop) l x :
  StronglySorted R l → Forall (λ y, R y x) l → StronglySorted R (l ++ [x]).
Proof.
  induction 1 as [|y l Hl IH Hy]; cbn; [by repeat constructor|].
  intros [Hyx Hx]%Forall_cons. constructor; [by apply IH|].
  apply Forall_app. split; [done|by constructor].
Qed.

Lemma StronglySorted_filter {A} (R : A → A → Prop) (P : A → Prop) `{∀ x, Decision (P x)} l :
  StronglySorted R l → StronglySorted R (filter P l).
Proof.
  induction 1 as [|x l Hl IH Hx]; [constructor|]. rewrite filter_cons.
  destruct (decide (P x)); [|done]. constructor; [done|].
  apply Forall_forall. intros y [_ Hy]%list_elem_of_filter. by eapply (proj1 (Forall_forall _ _) Hx).
Qed.

(** Lexicographic comparison: a first key decided by [eqb], then [l2]. *)
Definition lex_by {A B} (f : A → B) (eqb l1 : B → B → bool) (l2 : A → A → bool) (a b : A) : bool :=
  if eqb (f a) (f b) then l2 a b else l1 (f a) (f b).

Lemma lex_by_strict {A B} (f : A → B) eqb l1 l2 :
  (∀ x y : B, eqb x y = true ↔ x = y) →
  (∀ x y, l1 x y = false → l1 y x = false → x = y) →
  StrictLess l1 → StrictLess l2 → StrictLess (lex_by f eqb l1 l2).
Proof.
  intros He Ht H1 H2.
  assert (∀ x y, eqb x y = false ↔ x ≠ y) as Hn.
  { intros x y. rewrite <-He. by destruct (eqb x y). }
  assert (∀ x, eqb x x = true) as Hr by (intros; by apply He).
  split; unfold lex_by.
  - intros x. rewrite Hr. apply less_irrefl.
  - intros x y z. destruct (eqb (f x) (f y)) eqn:E1, (eqb (f y) (f z)) eqn:E2;
      rewrite ?He in *; intros Hxy Hyz.
    + rewrite E1, E2, Hr. by eapply less_trans.
    + rewrite E1, E2. done.
    + rewrite <-E2, E1. done.
    + destruct (eqb (f x) (f z)) eqn:E3; [|by eapply less_trans]. apply He in E3.
      rewrite E3 in Hxy. pose proof (less_trans _ _ _ Hxy Hyz) as Hc. by rewrite less_irrefl in Hc.
  - intros x y z. destruct (eqb (f x) (f y)) eqn:E1, (eqb (f y) (f z)) eqn:E2;
      rewrite ?He in *; intros Hxy Hyz.
    + rewrite E1, E2, Hr. by eapply less_neg_trans.
    + rewrite E1, E2. done.
    + rewrite <-E2, E1. done.
    + destruct (eqb (f x) (f z)) eqn:E3; [|by eapply less_neg_trans]. apply He in E3.
      rewrite E3 in Hxy. apply Hn in E2. destruct E2. by apply Ht.
Qed.

Lemma str_eqb_eq x y : String.eqb x y = true ↔ x = y.
Proof. apply String.eqb_eq. Qed.

#[export] Instance Zltb_strict : StrictLess Z.ltb.
Proof. split; intros; lia. Qed.

Lemma flip_strict {A} (less : A → A → bool) :
  StrictLess less → StrictLess (λ x y, less y x).
Proof.
  intros H. split; [apply less_irrefl| |].
  - intros x y z H1 H2. by eapply less_trans.
  - intros x y z H1 H2. by eapply less_neg_trans.
Qed.

#[export] Hint Resolve sort_by_perm sort_by_sorted : oms.
