(* ===== verification/GoString.v ===== *)
(** * Go strings

    A Go string is a byte sequence; here a [string].  Ranging over it yields
    runes by UTF-8 decoding, an ill-formed byte giving U+FFFD with width one.
    The file holds the parts of the packages strings, unicode and strconv the
    program uses: rune iteration, [TrimSpace], [IsControl], [ToLower],
    [ContainsAny], [Split], decimal integers, and the identifier syntax that
    several components re-declare, with the lemmas about them. *)

From S2P Require Import Prelude.

(** ** Bytes *)

Definition byte (c : ascii) : Z := Z.of_N (N_of_ascii c).
Definition chr (z : Z) : ascii := ascii_of_N (Z.to_N z).

Definition slen (s : string) : Z := Z.of_nat (String.length s).

Lemma slen_nonneg s : (0 ≤ slen s)%Z.
Proof. unfold slen. lia. Qed.

Lemma byte_range c : (0 ≤ byte c < 256)%Z.
Proof. unfold byte. pose proof (N_ascii_bounded c). lia. Qed.

Lemma chr_byte c : chr (byte c) = c.
Proof. unfold chr, byte. by rewrite N2Z.id, ascii_N_embedding. Qed.

Lemma byte_chr z : (0 ≤ z < 256)%Z → byte (chr z) = z.
Proof. intros H. unfold chr, byte. rewrite N_ascii_embedding; lia. Qed.

Lemma byte_inj c d : byte c = byte d → c = d.
Proof. intros H. by rewrite <-(chr_byte c), <-(chr_byte d), H. Qed.

Fixpoint bytes (s : string) : list Z :=
  match s with
  | EmptyString => []
  | String c s' => byte c :: bytes s'
  end.

Fixpoint chars (s : string) : list ascii :=
  match s with EmptyString => [] | String c s' => c :: chars s' end.
Definition of_chars (l : list ascii) : string := foldr String EmptyString l.

Definition in_chars (c : ascii) (s : string) : bool := bool_decide (c ∈ chars s).

Lemma chars_of l : chars (of_chars l) = l.
Proof. induction l as [|c l IH]; [done|]. cbn. f_equal. exact IH. Qed.

Lemma chars_app s1 s2 : chars (s1 +:+ s2) = chars s1 ++ chars s2.
Proof. induction s1 as [|c s1 IH]; [done|]. change (c :: chars (s1 +:+ s2) = c :: chars s1 ++ chars s2). by rewrite IH. Qed.

Lemma in_chars_app c s1 s2 : in_chars c (s1 +:+ s2) = in_chars c s1 || in_chars c s2.
Proof. unfold in_chars. rewrite <-bool_decide_or. apply bool_decide_ext. by rewrite chars_app, elem_of_app. Qed.

Lemma app_str_assoc s1 s2 s3 : (s1 +:+ s2) +:+ s3 = s1 +:+ (s2 +:+ s3).
Proof. induction s1 as [|c s1 IH]; [done|]. change (String c ((s1 +:+ s2) +:+ s3) = String c (s1 +:+ s2 +:+ s3)). by rewrite IH. Qed.

Lemma app_str_nil_r s : s +:+ "" = s.
Proof. induction s as [|c s IH]; [done|]. change (String c (s +:+ "") = String c s). by rewrite IH. Qed.

Lemma app_str_cons c s1 s2 : String c s1 +:+ s2 = String c (s1 +:+ s2).
Proof. done. Qed.

Lemma app_str_nil_l s : "" +:+ s = s.
Proof. done. Qed.

Lemma length_app_str s1 s2 : String.length (s1 +:+ s2) = String.length s1 + String.length s2.
Proof. induction s1 as [|c s1 IH]; [done|]. simpl. by rewrite <-IH. Qed.

#[export] Hint Rewrite app_str_assoc app_str_cons app_str_nil_l app_str_nil_r : oms_simpl.

(** ** UTF-8 *)

Definition cont (b : Z) : bool := ((0x80 <=? b) && (b <=? 0xBF))%Z.

Definition between (lo hi b : Z) : bool := ((lo <=? b) && (b <=? hi))%Z.

(** [utf8.DecodeRune]: the rune and its width; [(0xFFFD, 1)] when ill-formed. *)
Definition decode_rune (l : list Z) : Z * nat :=
  (match l with
   | [] => (0xFFFD, 0%nat)
   | b0 :: r =>
       if b0 <? 0x80 then (b0, 1%nat)
       else match r with
       | [] => (0xFFFD, 1%nat)
       | b1 :: r1 =>
           if between 0xC2 0xDF b0 && cont b1
           then ((b0 - 0xC0) * 64 + (b1 - 0x80), 2%nat)
           else match r1 with
           | [] => (0xFFFD, 1%nat)
           | b2 :: r2 =>
               if between 0xE0 0xEF b0 && between (if b0 =? 0xE0 then 0xA0 else 0x80)
                    (if b0 =? 0xED then 0x9F else 0xBF) b1 && cont b2
               then ((b0 - 0xE0) * 4096 + (b1 - 0x80) * 64 + (b2 - 0x80), 3%nat)
               else match r2 with
               | [] => (0xFFFD, 1%nat)
               | b3 :: _ =>
                   if between 0xF0 0xF4 b0 && between (if b0 =? 0xF0 then 0x90 else 0x80)
                        (if b0 =? 0xF4 then 0x8F else 0xBF) b1 && cont b2 && cont b3
                   then ((b0 - 0xF0) * 262144 + (b1 - 0x80) * 4096 + (b2 - 0x80) * 64
                         + (b3 - 0x80), 4%nat)
                   else (0xFFFD, 1%nat)
               end
           end
       end
   end)%Z.

(** Runes of [for _, r := range s], each with its width in bytes. *)
Fixpoint runes_from (skip : nat) (l : list Z) : list (Z * nat) :=
  match l with
  | [] => []
  | _ :: l' =>
      match skip with
      | S k => runes_from k l'
      | O => let rw := decode_rune l in rw :: runes_from (pred rw.2) l'
      end
  end.

Definition runes_w (s : string) : list (Z * nat) := runes_from 0 (bytes s).
Definition runes (s : string) : list Z := (runes_w s).*1.

(** [utf8.ValidString] *)
Definition valid_utf8 (s : string) : bool :=
  forallb (λ rw, negb ((rw.1 =? 0xFFFD)%Z && (rw.2 =? 1)%nat)) (runes_w s).

(** [unicode.IsControl] *)
Definition is_control (r : Z) : bool := (between 0 0x1F r || between 0x7F 0x9F r)%Z.

(** [unicode.IsSpace] *)
Definition is_space (r : Z) : bool :=
  (between 9 13 r || (r =? 32) || (r =? 0x85) || (r =? 0xA0) || (r =? 0x1680)
   || between 0x2000 0x200A r || (r =? 0x2028) || (r =? 0x2029) || (r =? 0x202F)
   || (r =? 0x205F) || (r =? 0x3000))%Z.

Definition all_runes (P : Z → bool) (s : string) : bool := forallb P (runes s).

(** ** ASCII strings *)

Definition ascii_byte (b : Z) : bool := (b <? 0x80)%Z.
Definition is_ascii (s : string) : bool := forallb ascii_byte (bytes s).

Lemma runes_from_ascii_cons b l :
  ascii_byte b = true → runes_from 0 (b :: l) = (b, 1%nat) :: runes_from 0 l.
Proof. unfold ascii_byte. intros H. simpl. by rewrite H. Qed.

Lemma runes_w_ascii l :
  forallb ascii_byte l = true → runes_from 0 l = (λ b, (b, 1%nat)) <$> l.
Proof.
  induction l as [|b l IH]; [done|]. simpl forallb. intros [Hb Hl]%andb_true_iff.
  rewrite runes_from_ascii_cons by done. by rewrite IH.
Qed.

Lemma is_ascii_runes s : is_ascii s = true → runes s = bytes s.
Proof.
  intros H. unfold runes, runes_w. rewrite runes_w_ascii by done.
  rewrite <-list_fmap_compose. by apply list_fmap_id.
Qed.

(** A rune below U+0080 is a byte of the string, a rune at or above it comes
    with a byte at or above it: a predicate that only accepts ASCII runes
    accepts only ASCII strings. *)
Lemma decode_rune_high b l :
  (0 ≤ b)%Z → ascii_byte b = false → (0x80 ≤ (decode_rune (b :: l)).1)%Z.
Proof.
  unfold ascii_byte. intros Hb H. unfold decode_rune. rewrite H.
  destruct l as [|b1 [|b2 [|b3 l]]]; simpl; unfold between, cont;
    repeat case_match; simpl; bool_prop; lia.
Qed.

(** The bytes after the first of a rune are not ASCII. *)
Lemma decode_rune_tail b l :
  Forall (λ b, ascii_byte b = false) (take (pred (decode_rune (b :: l)).2) l).
Proof.
  unfold decode_rune, between, cont, ascii_byte.
  destruct (b <? 0x80)%Z; [constructor|].
  destruct l as [|b1 [|b2 [|b3 l]]]; repeat case_match; cbn [snd pred take];
    repeat constructor; bool_prop; lia.
Qed.

(** An ASCII byte of a string is a rune of it. *)
Lemma ascii_byte_rune l n b :
  Forall (λ b, ascii_byte b = false) (take n l) → ascii_byte b = true → b ∈ l →
  b ∈ (runes_from n l).*1.
Proof.
  intros Hn Hb. revert n Hn. induction l as [|b0 l IH]; intros n Hn Hin; [done|].
  destruct n as [|n].
  - cbn [runes_from fmap list_fmap]. apply elem_of_cons in Hin as [->|Hin].
    + unfold decode_rune. unfold ascii_byte in Hb. rewrite Hb. by left.
    + right. apply IH; [apply decode_rune_tail|done].
  - cbn [runes_from]. cbn [take] in Hn. apply Forall_cons in Hn as [H0 Hn].
    apply elem_of_cons in Hin as [->|Hin]; [congruence|]. by apply IH.
Qed.

Lemma all_runes_byte P s b :
  all_runes P s = true → ascii_byte b = true → b ∈ bytes s → P b = true.
Proof.
  intros H Hb Hin. unfold all_runes in H. apply (proj1 (forallb_forall _ _) H).
  apply list_elem_of_In. apply (ascii_byte_rune _ 0); [constructor|done|done].
Qed.

Lemma all_runes_ascii P s :
  (∀ r, P r = true → (r < 0x80)%Z) → all_runes P s = true → is_ascii s = true.
Proof.
  intros HP. unfold all_runes, runes, runes_w, is_ascii.
  induction s as [|c s IH]; [done|]. simpl bytes.
  destruct (ascii_byte (byte c)) eqn:E.
  - rewrite runes_from_ascii_cons by done. simpl. rewrite E.
    intros [_ H]%andb_true_iff. by apply IH.
  - simpl. intros [H _]%andb_true_iff. apply HP in H.
    pose proof (byte_range c). pose proof (decode_rune_high (byte c) (bytes s) ltac:(lia) E).
    simpl in *. lia.
Qed.

Lemma is_ascii_valid s : is_ascii s = true → valid_utf8 s = true.
Proof.
  intros H. unfold valid_utf8, runes_w. rewrite runes_w_ascii by done.
  apply forallb_forall. intros [r w] Hin%list_elem_of_In.
  apply list_elem_of_fmap in Hin as (b & [= -> ->] & Hb).
  unfold is_ascii in H. apply (proj1 (forallb_forall _ _)) with (x := b) in H;
    [|by apply list_elem_of_In].
  unfold ascii_byte in H. simpl. apply negb_true_iff, andb_false_iff. left. lia.
Qed.

(** ** strings *)

Fixpoint str_rev_acc (s acc : string) : string :=
  match s with
  | EmptyString => acc
  | String c s' => str_rev_acc s' (String c acc)
  end.
Definition str_rev (s : string) : string := str_rev_acc s "".

Definition space1 (a : ascii) : bool := ascii_byte (byte a) && is_space (byte a).
Definition space2 (a b : ascii) : bool :=
  ((byte a =? 0xC2) && ((byte b =? 0x85) || (byte b =? 0xA0)))%Z.
Definition space3 (a b c : ascii) : bool :=
  let l := [byte a; byte b; byte c] in
  let rw := decode_rune l in (rw.2 =? 3)%nat && is_space rw.1.

(** [strings.TrimLeftFunc(s, unicode.IsSpace)] and its mirror image. *)
Fixpoint trim_left (s : string) : string :=
  match s with
  | String a s1 =>
      if space1 a then trim_left s1 else
      match s1 with
      | String b s2 =>
          if space2 a b then trim_left s2 else
          match s2 with
          | String c s3 => if space3 a b c then trim_left s3 else s
          | EmptyString => s
          end
      | EmptyString => s
      end
  | EmptyString => s
  end.

Fixpoint trim_left_rev (s : string) : string :=
  match s with
  | String a s1 =>
      if space1 a then trim_left_rev s1 else
      match s1 with
      | String b s2 =>
          if space2 b a then trim_left_rev s2 else
          match s2 with
          | String c s3 => if space3 c b a then trim_left_rev s3 else s
          | EmptyString => s
          end
      | EmptyString => s
      end
  | EmptyString => s
  end.

(** [strings.TrimSpace] *)
Definition trim_space (s : string) : string :=
  str_rev (trim_left_rev (str_rev (trim_left s))).

Definition blank (s : string) : bool := String.eqb (trim_space s) "".

(** [strings.HasPrefix] and its remainder *)
Fixpoint strip_prefix (p s : string) : option string :=
  match p, s with
  | EmptyString, _ => Some s
  | String a p', String b s' => if Ascii.eqb a b then strip_prefix p' s' else None
  | _, _ => None
  end.
Definition has_prefix (s p : string) : bool :=
  match strip_prefix p s with Some _ => true | None => false end.

Lemma strip_prefix_app p s : strip_prefix p (p +:+ s) = Some s.
Proof.
  induction p as [|c p IH]; [done|]. rewrite app_str_cons. cbn [strip_prefix].
  by rewrite Ascii.eqb_refl.
Qed.

Lemma strip_prefix_inv p s r : strip_prefix p s = Some r → s = p +:+ r.
Proof.
  revert s. induction p as [|c p IH]; intros s; [by intros [= ->]|].
  destruct s as [|d s]; cbn; [done|]. destruct (Ascii.eqb_spec c d) as [->|]; [|done].
  intros H%IH. subst. done.
Qed.

(** [strings.Contains] *)
Fixpoint contains (s p : string) : bool :=
  has_prefix s p ||
  match s with String _ s' => contains s' p | EmptyString => false end.

(** [strings.ContainsAny] with ASCII characters *)
Fixpoint contains_any (s : string) (cs : list ascii) : bool :=
  match s with
  | EmptyString => false
  | String c s' => bool_decide (c ∈ cs) || contains_any s' cs
  end.

(** [strings.Split] on one byte *)
Fixpoint split_on (sep : ascii) (s : string) : list string :=
  match s with
  | EmptyString => [""]
  | String c s' =>
      if Ascii.eqb c sep then "" :: split_on sep s'
      else match split_on sep s' with
           | [] => [String c ""]
           | x :: l => String c x :: l
           end
  end.

(** [strings.Cut] on one byte; without it the second part is [None]. *)
Fixpoint cut (sep : ascii) (s : string) : string * option string :=
  match s with
  | EmptyString => ("", None)
  | String c s' =>
      if Ascii.eqb c sep then ("", Some s')
      else let '(l, r) := cut sep s' in (String c l, r)
  end.

(** What stands before and after the last [sep], [strings.LastIndex]. *)
Fixpoint cut_last (sep : ascii) (s : string) : option (string * string) :=
  match s with
  | EmptyString => None
  | String c s' =>
      match cut_last sep s' with
      | Some (l, r) => Some (String c l, r)
      | None => if Ascii.eqb c sep then Some ("", s') else None
      end
  end.

(** [strings.TrimLeft] and [strings.TrimRight] of one byte *)
Fixpoint trim_left_byte (c : ascii) (s : string) : string :=
  match s with
  | String d s' => if Ascii.eqb d c then trim_left_byte c s' else s
  | EmptyString => ""
  end.
Definition trim_right_byte (c : ascii) (s : string) : string :=
  str_rev (trim_left_byte c (str_rev s)).

(** [strings.ToLower].  Of the runes at or above U+0080 only U+0130 and U+212A
    have a lower case below U+0080; the others keep a form at or above it,
    which every caller here rejects, and are left as they are. *)
Definition lower_byte (c : ascii) : ascii :=
  if between 65 90 (byte c) then chr (byte c + 32) else c.

Fixpoint to_lower (s : string) : string :=
  match s with
  | String a s1 =>
      match s1 with
      | String b s2 =>
          if ((byte a =? 0xC4) && (byte b =? 0xB0))%Z then String "i" (to_lower s2) else
          match s2 with
          | String c s3 =>
              if ((byte a =? 0xE2) && (byte b =? 0x84) && (byte c =? 0xAA))%Z
              then String "k" (to_lower s3)
              else String (lower_byte a) (to_lower s1)
          | EmptyString => String (lower_byte a) (to_lower s1)
          end
      | EmptyString => String (lower_byte a) ""
      end
  | EmptyString => ""
  end.

(** [strings.ToLower] of any text, by the Unicode tables *)
Class UnicodeLower := ToLower : string → string.

(** ** Character classes *)

Definition is_lower_alpha : Z → bool := between 97 122.
Definition is_upper_alpha : Z → bool := between 65 90.
Definition is_digit : Z → bool := between 48 57.
Definition is_alnum (r : Z) : bool := is_lower_alpha r || is_upper_alpha r || is_digit r.
(** letters, digits, dot, underscore, hyphen *)
Definition ident_rune (r : Z) : bool :=
  is_alnum r || (r =? 46)%Z || (r =? 95)%Z || (r =? 45)%Z.

Lemma is_alnum_ascii r : is_alnum r = true → (r < 0x80)%Z.
Proof.
  unfold is_alnum, is_lower_alpha, is_upper_alpha, is_digit, between.
  rewrite !orb_true_iff, !andb_true_iff. lia.
Qed.

Lemma ident_rune_ascii r : ident_rune r = true → (r < 0x80)%Z.
Proof.
  unfold ident_rune. rewrite !orb_true_iff. intros [[[H%is_alnum_ascii|H]|H]|H]; lia.
Qed.

(** Non-empty, bounded, made of identifier characters: the body of the
    functions validIdentifier / safeIdentifier of several packages. *)
Definition identifier_syntax (maximum : Z) (value : string) : bool :=
  if String.eqb value "" || (maximum <? slen value)%Z then false
  else all_runes ident_rune value.

Lemma identifier_syntax_inv m v :
  identifier_syntax m v = true →
  v ≠ "" ∧ (slen v ≤ m)%Z ∧ all_runes ident_rune v = true ∧ is_ascii v = true.
Proof.
  unfold identifier_syntax. destruct (String.eqb v "" || (m <? slen v)%Z) eqn:E; [done|].
  intros H. bool_prop. repeat split; [done|lia|done|].
  eapply all_runes_ascii; [|done]. apply ident_rune_ascii.
Qed.

Lemma bytes_app s1 s2 : bytes (s1 +:+ s2) = bytes s1 ++ bytes s2.
Proof. induction s1 as [|c s1 IH]; [done|]. simpl. by rewrite <-IH. Qed.

Lemma is_ascii_app s1 s2 : is_ascii (s1 +:+ s2) = is_ascii s1 && is_ascii s2.
Proof. unfold is_ascii. by rewrite bytes_app, forallb_app. Qed.

(** A text that starts with an ASCII character other than a space is not blank. *)
Lemma space3_ascii a b c : ascii_byte (byte a) = true → space3 a b c = false.
Proof. unfold ascii_byte, space3. intros H. cbn zeta. unfold decode_rune. by rewrite H. Qed.

Lemma space2_ascii a b : ascii_byte (byte a) = true → space2 a b = false.
Proof.
  unfold ascii_byte, space2. intros H. apply andb_false_iff. left. lia.
Qed.

Lemma trim_left_ascii a s :
  ascii_byte (byte a) = true → space1 a = false → trim_left (String a s) = String a s.
Proof.
  intros Ha Hs. cbn [trim_left]. rewrite Hs. destruct s as [|b s]; [done|].
  rewrite space2_ascii by done. destruct s as [|c s]; [done|]. by rewrite space3_ascii.
Qed.

Lemma str_rev_acc_app s acc : str_rev_acc s acc = str_rev s +:+ acc.
Proof.
  unfold str_rev. revert acc. induction s as [|c s IH]; intros acc; [done|].
  cbn [str_rev_acc]. rewrite IH, (IH (String c "")). by rewrite app_str_assoc.
Qed.

Lemma trim_left_rev_last t a :
  ascii_byte (byte a) = true → space1 a = false → trim_left_rev (t +:+ String a "") ≠ "".
Proof.
  intros Ha Hs. remember (String.length t) as n eqn:Hn. assert (String.length t ≤ n)%nat as Hle by lia.
  clear Hn. revert t Hle. induction n as [|n IH]; intros [|x t] Hle; cbn in Hle; try lia.
  - rewrite app_str_nil_l. cbn [trim_left_rev]. by rewrite Hs.
  - rewrite app_str_nil_l. cbn [trim_left_rev]. by rewrite Hs.
  - rewrite app_str_cons. cbn [trim_left_rev]. destruct (space1 x); [apply IH; lia|].
    destruct t as [|y t].
    + rewrite app_str_nil_l, space2_ascii by done. done.
    + rewrite app_str_cons. cbn in Hle. destruct (space2 y x); [apply IH; lia|].
      destruct t as [|z t].
      * rewrite app_str_nil_l, space3_ascii by done. done.
      * rewrite app_str_cons. cbn in Hle. destruct (space3 z y x); [apply IH; lia|done].
Qed.

Lemma str_rev_cons c s : str_rev (String c s) = str_rev s +:+ String c "".
Proof. unfold str_rev at 1. cbn [str_rev_acc]. apply str_rev_acc_app. Qed.

Lemma str_rev_app s t : str_rev (s +:+ t) = str_rev t +:+ str_rev s.
Proof.
  induction s as [|c s IH]; [change ("" +:+ t) with t; change (str_rev "") with ""; by rewrite app_str_nil_r|].
  by rewrite app_str_cons, !str_rev_cons, IH, app_str_assoc.
Qed.

Lemma str_rev_involutive s : str_rev (str_rev s) = s.
Proof.
  induction s as [|c s IH]; [done|]. change (String c s) with (String c "" +:+ s).
  rewrite !str_rev_app, IH. by change (str_rev (String c "")) with (String c "").
Qed.

Lemma space3_ascii_last a b c : ascii_byte (byte c) = true → space3 a b c = false.
Proof.
  unfold ascii_byte. intros Hc%Z.ltb_lt. unfold space3, decode_rune. cbv zeta.
  assert (cont (byte c) = false) as -> by (unfold cont; apply andb_false_iff; left; lia).
  rewrite andb_false_r. by repeat case_match.
Qed.

Lemma trim_left_rev_ascii a s :
  ascii_byte (byte a) = true → space1 a = false → trim_left_rev (String a s) = String a s.
Proof.
  unfold ascii_byte. intros Ha%Z.ltb_lt Hs. cbn [trim_left_rev]. rewrite Hs.
  destruct s as [|b s]; [done|].
  assert (space2 b a = false) as ->
    by (unfold space2; apply not_true_iff_false; rewrite !andb_true_iff, orb_true_iff, !Z.eqb_eq; lia).
  destruct s as [|c s]; [done|].
  by rewrite space3_ascii_last by (unfold ascii_byte; by apply Z.ltb_lt).
Qed.

(** Text of ASCII bytes none of which is a space keeps its ends. *)
Definition solid (c : ascii) : bool := ascii_byte (byte c) && negb (space1 c).

Lemma solid_rev s : forallb solid (chars (str_rev s)) = forallb solid (chars s).
Proof.
  induction s as [|c s IH]; [done|]. change (String c s) with (String c "" +:+ s).
  rewrite str_rev_app, !chars_app, !forallb_app, IH. change (str_rev (String c "")) with (String c "").
  apply andb_comm.
Qed.

Lemma trim_space_solid s rest :
  forallb solid (chars s) = true → s ≠ "" → trim_left_rev (str_rev rest +:+ str_rev s) = str_rev s →
  trim_space (s +:+ rest) = s.
Proof.
  intros Hs Hne Hr. unfold trim_space. destruct s as [|a s]; [done|]. pose proof Hs as Ha.
  cbn [chars forallb] in Ha. apply andb_true_iff in Ha as [[Ha Ha']%andb_true_iff _].
  apply negb_true_iff in Ha'. rewrite app_str_cons, trim_left_ascii by done.
  change (String a (s +:+ rest)) with (String a s +:+ rest). by rewrite str_rev_app, Hr, str_rev_involutive.
Qed.

Lemma trim_left_rev_solid s : forallb solid (chars s) = true → s ≠ "" → trim_left_rev (str_rev s) = str_rev s.
Proof.
  intros Hs Hne. rewrite <-solid_rev in Hs.
  destruct (str_rev s) as [|a r] eqn:E; [by rewrite <-(str_rev_involutive s), E in Hne|].
  cbn [chars forallb] in Hs. apply andb_true_iff in Hs as [[Ha Ha']%andb_true_iff _].
  apply negb_true_iff in Ha'. by apply trim_left_rev_ascii.
Qed.

Lemma blank_ascii a s : ascii_byte (byte a) = true → space1 a = false → blank (String a s) = false.
Proof.
  intros Ha Hs. unfold blank, trim_space. rewrite trim_left_ascii by done.
  unfold str_rev at 2. cbn [str_rev_acc]. rewrite str_rev_acc_app.
  pose proof (trim_left_rev_last (str_rev s) a Ha Hs) as Hne.
  apply String.eqb_neq. destruct (trim_left_rev _) as [|c r]; [done|].
  unfold str_rev. cbn [str_rev_acc]. rewrite str_rev_acc_app. by destruct (str_rev r).
Qed.

Lemma ident_rune_not_space r : ident_rune r = true → is_space r = false.
Proof.
  unfold ident_rune, is_alnum, is_lower_alpha, is_upper_alpha, is_digit, between, is_space, between.
  rewrite !orb_true_iff, !andb_true_iff, !orb_false_iff, !andb_false_iff. lia.
Qed.

Lemma ident_not_blank v : v ≠ "" → all_runes ident_rune v = true → blank v = false.
Proof.
  intros Hne H. assert (is_ascii v = true) as Ha by (by eapply all_runes_ascii, H; apply ident_rune_ascii).
  unfold all_runes in H. rewrite is_ascii_runes in H by done.
  destruct v as [|a v]; [done|]. cbn [bytes forallb] in H. apply andb_true_iff in H as [H _].
  apply andb_true_iff in Ha as [Ha _]. apply blank_ascii; [done|].
  unfold space1. by rewrite (ident_rune_not_space _ H), andb_false_r.
Qed.

Lemma bytes_inj s1 s2 : bytes s1 = bytes s2 → s1 = s2.
Proof.
  revert s2. induction s1 as [|c s1 IH]; intros [|d s2]; simpl; try done.
  intros [= Hc Hs]. apply byte_inj in Hc as ->. apply IH in Hs as ->. done.
Qed.

(** A separator byte that occurs in neither left part splits uniquely. *)
Definition free_of (c : ascii) (s : string) : Prop := byte c ∉ bytes s.

Lemma split_on_nonempty sep s : split_on sep s ≠ [].
Proof. destruct s as [|c s]; [done|]. cbn. destruct (Ascii.eqb c sep); [done|]. by destruct (split_on sep s). Qed.

Lemma free_of_cons c d s : free_of c (String d s) ↔ d ≠ c ∧ free_of c s.
Proof.
  unfold free_of. cbn [bytes]. rewrite not_elem_of_cons. split; intros [H1 H2]; split; try done.
  - by intros ->.
  - intros E. by apply H1, byte_inj.
Qed.

Lemma free_of_app c s1 s2 : free_of c (s1 +:+ s2) ↔ free_of c s1 ∧ free_of c s2.
Proof. unfold free_of. rewrite bytes_app, not_elem_of_app. done. Qed.

Lemma split_on_free sep s : free_of sep s → split_on sep s = [s].
Proof.
  induction s as [|c s IH]; [done|]. intros [Hc Hs]%free_of_cons. cbn [split_on].
  rewrite (proj2 (Ascii.eqb_neq _ _)) by done. by rewrite IH.
Qed.

Lemma split_on_cut sep s t : free_of sep s → split_on sep (s +:+ String sep t) = s :: split_on sep t.
Proof.
  induction s as [|c s IH].
  - intros _. rewrite app_str_nil_l. cbn [split_on]. by rewrite Ascii.eqb_refl.
  - intros [Hc Hs]%free_of_cons. rewrite app_str_cons. cbn [split_on].
    rewrite (proj2 (Ascii.eqb_neq _ _)) by done. by rewrite IH.
Qed.

Lemma split_on_app sep s t : free_of sep t → split_on sep (s +:+ String sep t) = split_on sep s ++ [t].
Proof.
  intros Ht. induction s as [|c s IH]; cbn [split_on String.append].
  - rewrite app_str_nil_l. cbn [split_on]. rewrite Ascii.eqb_refl. by rewrite split_on_free.
  - rewrite app_str_cons. cbn [split_on]. rewrite IH. destruct (Ascii.eqb c sep); [done|].
    by destruct (split_on sep s) eqn:E; [destruct (split_on_nonempty _ _ E)|].
Qed.

Lemma sep_inj c a1 b1 a2 b2 :
  free_of c a1 → free_of c a2 →
  a1 +:+ String c b1 = a2 +:+ String c b2 → a1 = a2 ∧ b1 = b2.
Proof.
  unfold free_of. revert a2. induction a1 as [|x a1 IH]; intros [|y a2] H1 H2; simpl in *.
  - by intros [= ->].
  - rewrite app_str_nil_l, app_str_cons. intros [= -> _]. destruct H2. by left.
  - rewrite app_str_nil_l, app_str_cons. intros [= -> _]. destruct H1. by left.
  - apply not_elem_of_cons in H1 as [_ H1], H2 as [_ H2].
    rewrite !app_str_cons. intros [= -> H]. by destruct (IH a2 H1 H2 H) as [-> ->].
Qed.

(** ** strconv: decimal integers *)

Definition digit (d : Z) : ascii := chr (48 + d).

Fixpoint dec_digits (fuel : nat) (n : Z) (acc : string) : string :=
  match fuel with
  | O => acc
  | S f =>
      let acc := String (digit (n mod 10)) acc in
      if (n / 10 =? 0)%Z then acc else dec_digits f (n / 10) acc
  end.

(** Decimal digits of [n >= 0]; one more than the binary logarithm bounds
    their number. *)
Definition dec_nonneg (n : Z) : string := dec_digits (S (Z.to_nat (Z.log2 n))) n "".

(** [strconv.FormatInt(n, 10)] *)
Definition format_int (n : Z) : string :=
  if (n <? 0)%Z then String "-" (dec_nonneg (- n)) else dec_nonneg n.

Fixpoint parse_digits (s : string) (acc : Z) : option Z :=
  match s with
  | EmptyString => Some acc
  | String c s' =>
      if is_digit (byte c) then parse_digits s' (acc * 10 + (byte c - 48)) else None
  end.

(** A non-empty run of digits. *)
Definition parse_dec (s : string) : option Z :=
  if String.eqb s "" then None else parse_digits s 0.

Definition max_uint64 : Z := 2 ^ 64 - 1.
Definition max_int64 : Z := 2 ^ 63 - 1.

(** The range of the unsigned types. *)
Definition uint32 (z : Z) : Prop := (0 ≤ z < 2 ^ 32)%Z.
Definition uint64 (z : Z) : Prop := (0 ≤ z ≤ max_uint64)%Z.

(** [strconv.ParseUint(s, 10, 64)] *)
Definition parse_uint64 (s : string) : option Z :=
  match parse_dec s with
  | Some n => if (n <=? max_uint64)%Z then Some n else None
  | None => None
  end.

Lemma parse_digits_nonneg s acc n :
  (0 ≤ acc)%Z → parse_digits s acc = Some n → (0 ≤ n)%Z.
Proof.
  revert acc. induction s as [|c s IH]; intros acc Ha; cbn; [by intros [= <-]|].
  unfold is_digit, between. destruct (_ && _) eqn:E; [|done].
  apply andb_true_iff in E as [?%Z.leb_le ?%Z.leb_le]. apply IH. lia.
Qed.

Lemma parse_uint64_range s n : parse_uint64 s = Some n → (0 ≤ n ≤ max_uint64)%Z.
Proof.
  unfold parse_uint64, parse_dec. destruct (String.eqb s ""); [done|].
  destruct (parse_digits s 0) as [m|] eqn:E; [|done]. apply parse_digits_nonneg in E; [|lia].
  destruct (m <=? max_uint64)%Z eqn:Em; [|done]. intros [= <-]. apply Z.leb_le in Em. lia.
Qed.

(** [strconv.Atoi] on a 64-bit platform: an optional sign before the digits *)
Definition parse_int64 (s : string) : option Z :=
  match s with
  | String "-" s' =>
      match parse_dec s' with
      | Some n => if (n <=? max_int64 + 1)%Z then Some (- n)%Z else None
      | None => None
      end
  | String "+" s' | s' =>
      match parse_dec s' with
      | Some n => if (n <=? max_int64)%Z then Some n else None
      | None => None
      end
  end.

Lemma byte_digit d : (0 ≤ d < 10)%Z → byte (digit d) = (48 + d)%Z.
Proof. intros H. apply byte_chr. lia. Qed.

Lemma is_digit_digit d : (0 ≤ d < 10)%Z → is_digit (byte (digit d)) = true.
Proof. intros H. rewrite byte_digit by done. unfold is_digit, between. lia. Qed.

(** Every character the decimal printer emits is a digit, and reading the
    digits back gives the number, whatever digits follow. *)
Lemma parse_dec_digits fuel n acc a :
  (0 ≤ n)%Z → (n < 2 ^ Z.of_nat fuel)%Z →
  ∃ k, (0 ≤ k)%Z ∧ parse_digits (dec_digits fuel n acc) a = parse_digits acc (a * 10 ^ k + n)
    ∧ (fuel ≠ 0%nat → (0 < k)%Z).
Proof.
  revert n acc a. induction fuel as [|f IH]; intros n acc a Hn Hf.
  - exists 0%Z. simpl in Hf. replace n with 0%Z by lia. split_and!; [done| |done].
    simpl. f_equal. lia.
  - assert (0 ≤ n mod 10 < 10)%Z as Hm by (apply Z.mod_pos_bound; lia).
    pose proof (Z.div_mod n 10 ltac:(lia)) as Hdm.
    simpl. destruct (n / 10 =? 0)%Z eqn:E.
    + apply Z.eqb_eq in E. exists 1%Z. split_and!; [done| |done].
      simpl. rewrite is_digit_digit, byte_digit by done. f_equal. lia.
    + assert (0 ≤ n / 10)%Z as Hd by (apply Z.div_pos; lia).
      assert (n / 10 < 2 ^ Z.of_nat f)%Z as Hf'.
      { rewrite Nat2Z.inj_succ, Z.pow_succ_r in Hf by lia. lia. }
      destruct (IH (n / 10)%Z (String (digit (n mod 10)) acc) a Hd Hf') as (k & Hk & Heq & _).
      exists (k + 1)%Z. split_and!; [lia| |lia].
      rewrite Heq. simpl. rewrite is_digit_digit, byte_digit by done. f_equal.
      rewrite Z.pow_add_r, Z.pow_1_r by lia. lia.
Qed.

Lemma log2_fuel n : (0 ≤ n)%Z → (n < 2 ^ Z.of_nat (S (Z.to_nat (Z.log2 n))))%Z.
Proof.
  intros H. destruct (decide (n = 0)%Z) as [->|]; [done|].
  rewrite Nat2Z.inj_succ, Z2Nat.id by apply Z.log2_nonneg.
  apply Z.log2_spec. lia.
Qed.

Lemma dec_digits_nonempty f n acc : dec_digits (S f) n acc ≠ "".
Proof.
  revert n acc. induction f as [|f IH]; intros n acc; simpl; case_match; try done.
  apply IH.
Qed.

Lemma parse_format_dec n : (0 ≤ n)%Z → parse_dec (dec_nonneg n) = Some n.
Proof.
  intros H. unfold parse_dec, dec_nonneg.
  destruct (String.eqb _ "") eqn:E.
  { apply String.eqb_eq in E. by apply dec_digits_nonempty in E. }
  destruct (parse_dec_digits (S (Z.to_nat (Z.log2 n))) n "" 0 H (log2_fuel n H))
    as (k & _ & -> & _). done.
Qed.

Fixpoint all_digits (s : string) : bool :=
  match s with
  | EmptyString => true
  | String c s' => is_digit (byte c) && all_digits s'
  end.

Lemma dec_digits_all f n acc :
  (0 ≤ n)%Z → all_digits acc = true → all_digits (dec_digits f n acc) = true.
Proof.
  revert n acc. induction f as [|f IH]; intros n acc Hn Ha; simpl; [done|].
  assert (all_digits (String (digit (n mod 10)) acc) = true) as Hd.
  { simpl. rewrite Ha, is_digit_digit; [done|]. apply Z.mod_pos_bound. lia. }
  case_match; [done|]. apply IH; [apply Z.div_pos; lia|done].
Qed.

Lemma dec_nonneg_digits n : (0 ≤ n)%Z → all_digits (dec_nonneg n) = true.
Proof. intros H. by apply dec_digits_all. Qed.

Lemma all_digits_ascii s : all_digits s = true → is_ascii s = true.
Proof.
  unfold is_ascii. induction s as [|c s IH]; simpl; [done|].
  intros [Hc Hs]%andb_true_iff. rewrite IH by done.
  unfold is_digit, between in Hc. unfold ascii_byte. lia.
Qed.
