(* ===== verification/Calendar.v ===== *)
(** * The civil calendar

    Day numbers and dates of the proleptic Gregorian calendar, as package time
    computes them: counting the days of a date and reading the date of a day
    are inverse and monotone. *)

From S2P Require Import Prelude.
#[local] Open Scope Z_scope.

(** Days are counted from 0001-01-01; years start in March inside an era of
    400 years, so that the leap day is the last of its year. *)

Record civil := mkCivil { cyear : Z; cmonth : Z; cday : Z }.

Definition year_of_era (doe : Z) : Z :=
  (doe - doe / 1460 + doe / 36524 - doe / 146096) / 365.
Definition year_start (yoe : Z) : Z := 365 * yoe + yoe / 4 - yoe / 100.

Definition civil_of_days (days : Z) : civil :=
  let z := days + 306 in
  let era := z / 146097 in
  let doe := z mod 146097 in
  let yoe := year_of_era doe in
  let doy := doe - year_start yoe in
  let mp := (5 * doy + 2) / 153 in
  let d := doy - (153 * mp + 2) / 5 + 1 in
  let m := if mp <? 10 then mp + 3 else mp - 9 in
  mkCivil (yoe + era * 400 + (if m <=? 2 then 1 else 0)) m d.

Definition days_of_civil (c : civil) : Z :=
  let y := cyear c - (if cmonth c <=? 2 then 1 else 0) in
  let era := y / 400 in
  let yoe := y mod 400 in
  let mp := if 2 <? cmonth c then cmonth c - 3 else cmonth c + 9 in
  let doy := (153 * mp + 2) / 5 + cday c - 1 in
  era * 146097 + (year_start yoe + doy) - 306.

Definition leap (y : Z) : bool :=
  (y mod 4 =? 0) && (negb (y mod 100 =? 0) || (y mod 400 =? 0)).

Definition days_in (y m : Z) : Z :=
  if m =? 2 then (if leap y then 29 else 28)
  else if (m =? 4) || (m =? 6) || (m =? 9) || (m =? 11) then 30 else 31.

Ltac zdiv := Z.to_euclidean_division_equations; lia.

Lemma year_of_era_range doe : 0 ≤ doe < 146097 → 0 ≤ year_of_era doe < 400.
Proof. intros H. unfold year_of_era. zdiv. Qed.

Lemma year_of_era_lo doe :
  0 ≤ doe < 146097 → year_start (year_of_era doe) ≤ doe.
Proof. intros H. unfold year_start, year_of_era. zdiv. Qed.

Lemma year_of_era_hi doe :
  0 ≤ doe < 146097 → doe - year_start (year_of_era doe) ≤ 365.
Proof. intros H. unfold year_start, year_of_era. zdiv. Qed.

(** The 366th day only exists when the February it ends in is long. *)
Lemma year_of_era_leap doe :
  0 ≤ doe < 146097 → doe - year_start (year_of_era doe) = 365 →
  (year_of_era doe + 1) mod 4 = 0 ∧
  ((year_of_era doe + 1) mod 100 ≠ 0 ∨ (year_of_era doe + 1) mod 400 = 0).
Proof.
  intros H. unfold year_start.
  pose proof (year_of_era_lo doe H) as Hlo. pose proof (year_of_era_range doe H) as Hr.
  assert (doe < year_start (year_of_era doe + 1) ∨ year_of_era doe = 399) as Hn.
  { unfold year_start, year_of_era in *. zdiv. }
  revert Hn Hlo Hr. unfold year_start. generalize (year_of_era doe). intros y. zdiv.
Qed.

Lemma civil_of_days_spec n :
  let c := civil_of_days n in
  1 ≤ cmonth c ≤ 12 ∧ 1 ≤ cday c ≤ days_in (cyear c) (cmonth c) ∧ days_of_civil c = n.
Proof.
  cbn zeta. unfold civil_of_days. set (z := n + 306). set (era := z / 146097).
  set (doe := z mod 146097).
  assert (0 ≤ doe < 146097) as Hdoe by (apply Z.mod_pos_bound; lia).
  assert (n = era * 146097 + doe - 306) as Hn.
  { pose proof (Z.div_mod z 146097). unfold era, doe, z in *. lia. }
  clearbody era doe. clear z.
  pose proof (year_of_era_range doe Hdoe) as Hy.
  pose proof (year_of_era_lo doe Hdoe) as Hlo. pose proof (year_of_era_hi doe Hdoe) as Hhi.
  pose proof (year_of_era_leap doe Hdoe) as Hleap.
  revert Hy Hlo Hhi Hleap. generalize (year_of_era doe) as yoe. intros yoe Hy Hlo Hhi Hleap.
  remember (doe - year_start yoe) as doy eqn:Edoy.
  assert (0 ≤ doy ≤ 365) as Hdoy by lia.
  remember ((5 * doy + 2) / 153) as mp eqn:Emp.
  assert (0 ≤ mp ≤ 11) as Hmp by (subst mp; zdiv).
  assert (1 ≤ doy - (153 * mp + 2) / 5 + 1 ≤ 31) as Hd by (subst mp; zdiv).
  assert ((yoe + era * 400) mod 400 = yoe ∧ (yoe + era * 400) / 400 = era) as [Hmod Hdiv]
    by zdiv.
  assert (leap (yoe + era * 400 + 1) = leap (yoe + 1)) as Hl by
    (unfold leap; f_equal; [f_equal; zdiv|f_equal; [f_equal; f_equal; zdiv|f_equal; zdiv]]).
  assert (mp = 0 ∨ mp = 1 ∨ mp = 2 ∨ mp = 3 ∨ mp = 4 ∨ mp = 5 ∨ mp = 6 ∨ mp = 7 ∨
    mp = 8 ∨ mp = 9 ∨ mp = 10 ∨ mp = 11) as Hc by lia.
  repeat destruct Hc as [Hc|Hc]; rewrite Hc in *;
    unfold days_of_civil, days_in; simpl;
    try (split_and!; [lia|lia|lia|zdiv|]);
    try (rewrite ?Z.add_simpl_r, ?Z.sub_0_r, ?Z.add_0_r, ?Hmod, ?Hdiv; rewrite ?Hc; zdiv).
  rewrite Hl, Z.add_simpl_r, Hmod, Hdiv. split_and!; [lia|lia|lia| |zdiv].
  destruct (decide (doy = 365)) as [E|]; [|case_match; zdiv].
  assert (leap (yoe + 1) = true) as ->; [|zdiv].
  destruct (Hleap E) as [H1 H2]. unfold leap. rewrite H1. simpl.
  destruct H2 as [H2|H2]; [|rewrite H2; by rewrite orb_true_r].
  apply Z.eqb_neq in H2. by rewrite H2.
Qed.

Definition civil_ok (c : civil) : Prop :=
  1 ≤ cmonth c ≤ 12 ∧ 1 ≤ cday c ≤ days_in (cyear c) (cmonth c).

(** Day number of 1 March of year [y], and of a month after it. *)
Definition march_start (y : Z) : Z := 365 * y + y / 4 - y / 100 + y / 400.

Lemma days_of_civil_march c :
  days_of_civil c =
    march_start (cyear c - (if cmonth c <=? 2 then 1 else 0))
    + (153 * (if 2 <? cmonth c then cmonth c - 3 else cmonth c + 9) + 2) / 5
    + cday c - 307.
Proof.
  unfold days_of_civil, march_start, year_start.
  generalize (cyear c - (if cmonth c <=? 2 then 1 else 0)). intros y.
  generalize ((153 * (if 2 <? cmonth c then cmonth c - 3 else cmonth c + 9) + 2) / 5).
  intros p. zdiv.
Qed.

Lemma march_start_next y :
  march_start y + 365 + (if leap (y + 1) then 1 else 0) ≤ march_start (y + 1).
Proof.
  unfold march_start, leap.
  destruct ((y + 1) mod 4 =? 0) eqn:E4; destruct ((y + 1) mod 100 =? 0) eqn:E100;
    destruct ((y + 1) mod 400 =? 0) eqn:E400; simpl; bool_prop; zdiv.
Qed.

Lemma march_start_mono y1 y2 : y1 ≤ y2 → march_start y1 ≤ march_start y2.
Proof. unfold march_start. intros H. zdiv. Qed.

Definition march_year (c : civil) : Z := cyear c - (if cmonth c <=? 2 then 1 else 0).
Definition march_month (c : civil) : Z :=
  if 2 <? cmonth c then cmonth c - 3 else cmonth c + 9.

Ltac month_cases c H :=
  assert (cmonth c = 1 ∨ cmonth c = 2 ∨ cmonth c = 3 ∨ cmonth c = 4 ∨ cmonth c = 5 ∨
    cmonth c = 6 ∨ cmonth c = 7 ∨ cmonth c = 8 ∨ cmonth c = 9 ∨ cmonth c = 10 ∨
    cmonth c = 11 ∨ cmonth c = 12) as H by lia.

(** A valid day lies before the first of the next March-based month, and
    inside the March-based year. *)
Lemma march_day_bounds c :
  civil_ok c →
  1 ≤ cday c ∧ 0 ≤ march_month c ≤ 11 ∧
  (march_month c ≠ 11 →
    (153 * march_month c + 2) / 5 + cday c ≤ (153 * (march_month c + 1) + 2) / 5) ∧
  (153 * march_month c + 2) / 5 + cday c ≤ 365 + (if leap (march_year c + 1) then 1 else 0).
Proof.
  intros [Hm Hd]. unfold march_month, march_year, days_in in *.
  month_cases c Hc.
  repeat destruct Hc as [Hc|Hc]; rewrite Hc in *; simpl in *;
    rewrite ?Z.sub_add in *; destruct (leap _); split_and!; try lia; zdiv.
Qed.

Definition civil_lt (c1 c2 : civil) : Prop :=
  cyear c1 < cyear c2 ∨
  cyear c1 = cyear c2 ∧ (cmonth c1 < cmonth c2 ∨
    cmonth c1 = cmonth c2 ∧ cday c1 < cday c2).

Lemma civil_lt_march c1 c2 :
  civil_ok c1 → civil_ok c2 → civil_lt c1 c2 →
  march_year c1 < march_year c2 ∨
  march_year c1 = march_year c2 ∧ (march_month c1 < march_month c2 ∨
    march_month c1 = march_month c2 ∧ cday c1 < cday c2).
Proof.
  intros [H1 _] [H2 _]. unfold civil_lt, march_year, march_month.
  destruct (cmonth c1 <=? 2) eqn:E1, (cmonth c2 <=? 2) eqn:E2,
    (2 <? cmonth c1) eqn:E3, (2 <? cmonth c2) eqn:E4; bool_prop; lia.
Qed.

Lemma days_of_civil_mono c1 c2 :
  civil_ok c1 → civil_ok c2 → civil_lt c1 c2 → days_of_civil c1 < days_of_civil c2.
Proof.
  intros H1 H2 Hlt. rewrite !days_of_civil_march.
  fold (march_year c1) (march_year c2) (march_month c1) (march_month c2).
  pose proof (civil_lt_march c1 c2 H1 H2 Hlt) as Hm.
  apply march_day_bounds in H1 as (D1 & P1 & N1 & B1), H2 as (D2 & P2 & N2 & B2).
  destruct Hm as [Hy|[Hy [Hp|[Hp Hd]]]].
  - pose proof (march_start_next (march_year c1)).
    pose proof (march_start_mono (march_year c1 + 1) (march_year c2) ltac:(lia)).
    assert (0 ≤ (153 * march_month c2 + 2) / 5) by (apply Z.div_pos; lia). lia.
  - rewrite Hy. specialize (N1 ltac:(lia)).
    assert ((153 * (march_month c1 + 1) + 2) / 5 ≤ (153 * march_month c2 + 2) / 5)
      by (apply Z.div_le_mono; lia). lia.
  - rewrite Hy, Hp. lia.
Qed.

Lemma civil_lt_total c1 c2 : civil_lt c1 c2 ∨ c1 = c2 ∨ civil_lt c2 c1.
Proof.
  unfold civil_lt. destruct c1 as [y1 m1 d1], c2 as [y2 m2 d2]; simpl.
  destruct (Z.lt_trichotomy y1 y2) as [|[->|]]; [by left; left| |by right; right; left].
  destruct (Z.lt_trichotomy m1 m2) as [|[->|]]; [left; right; lia| |right; right; right; lia].
  destruct (Z.lt_trichotomy d1 d2) as [|[->|]]; [left; right; lia|by right; left|].
  right; right; right; lia.
Qed.

(** Counting days and reading the calendar are inverse to each other. *)
Lemma civil_of_days_of_civil c : civil_ok c → civil_of_days (days_of_civil c) = c.
Proof.
  intros H. pose proof (civil_of_days_spec (days_of_civil c)) as (Hm & Hd & Heq).
  destruct (civil_lt_total (civil_of_days (days_of_civil c)) c) as [Hl|[?|Hl]]; [|done|];
    apply days_of_civil_mono in Hl; try (by split); try done; lia.
Qed.

Lemma civil_of_days_mono n1 n2 : n1 < n2 → civil_lt (civil_of_days n1) (civil_of_days n2).
Proof.
  intros H. pose proof (civil_of_days_spec n1) as (M1 & D1 & E1).
  pose proof (civil_of_days_spec n2) as (M2 & D2 & E2).
  destruct (civil_lt_total (civil_of_days n1) (civil_of_days n2)) as [?|[E|Hl]]; [done| |].
  - rewrite E in E1. lia.
  - apply days_of_civil_mono in Hl; try (by split). lia.
Qed.

