(* ===== verification/GoTime.v ===== *)
(** * Go times

    [time.Time] as an instant, in nanoseconds since 0001-01-01T00:00:00 UTC
    (the zero time), together with the offset of its location in seconds east
    of UTC; [time.Duration] is a number of nanoseconds.  The file holds the
    civil calendar, RFC 3339 text in both directions and the fixed-width text
    the controller stores, with the round trip of the first and the order
    embedding of the second. *)

From S2P Require Import Prelude GoString Calendar.
#[local] Open Scope Z_scope.

Record Time := mkTime { ns : Z; off : Z }.

#[export] Instance time_eq_dec : EqDecision Time.
Proof. solve_decision. Defined.

(** ** Instants *)

Definition zero_time : Time := mkTime 0 0.
Definition is_zero (t : Time) : bool := ns t =? 0.
Definition utc (t : Time) : Time := mkTime (ns t) 0.
Definition before (t u : Time) : bool := ns t <? ns u.
Definition after (t u : Time) : bool := ns u <? ns t.
Definition time_equal (t u : Time) : bool := ns t =? ns u.
Definition add (t : Time) (d : Z) : Time := mkTime (ns t + d) (off t).

(** [t.Sub(u)] saturates to the range of an int64. *)
Definition sub (t u : Time) : Z :=
  Z.max (- 2 ^ 63) (Z.min (2 ^ 63 - 1) (ns t - ns u)).

Definition nanosecond : Z := 1.
Definition second : Z := 10 ^ 9.
Definition minute : Z := 60 * second.
Definition hour : Z := 60 * minute.

(** Seconds from the zero time to the Unix epoch. *)
Definition unix_epoch : Z := 62135596800.
(** A value of type int64. *)
Definition to_int64 (z : Z) : Z := (z + 2 ^ 63) mod 2 ^ 64 - 2 ^ 63.
Definition unix_nano (t : Time) : Z := to_int64 (ns t - unix_epoch * second).

(** ** Text *)

(** [w] decimal digits, zero padded. *)
Fixpoint pad (w : nat) (n : Z) : string :=
  match w with
  | O => ""
  | S w' => pad w' (n / 10) +:+ String (digit (n mod 10)) ""
  end.

Definition day_ns : Z := 86400 * second.

Record fields := mkFields {
  f_date : civil; f_hour : Z; f_min : Z; f_sec : Z; f_nano : Z }.

(** Wall-clock fields of a time in its own location. *)
Definition wall (t : Time) : fields :=
  let local := ns t + off t * second in
  let days := local / day_ns in
  let s := local mod day_ns / second in
  mkFields (civil_of_days days) (s / 3600) (s mod 3600 / 60) (s mod 60) (local mod second).

Definition year_text (y : Z) : string :=
  let digits y := if y <? 10000 then pad 4 y else dec_nonneg y in
  if y <? 0 then String "-" (digits (- y)) else digits y.

Definition date_text (f : fields) : string :=
  year_text (cyear (f_date f)) +:+ "-" +:+ pad 2 (cmonth (f_date f)) +:+ "-"
  +:+ pad 2 (cday (f_date f)) +:+ "T" +:+ pad 2 (f_hour f) +:+ ":" +:+ pad 2 (f_min f)
  +:+ ":" +:+ pad 2 (f_sec f).

Fixpoint strip_zeros (s : string) : string :=
  match s with
  | EmptyString => ""
  | String c s' =>
      match strip_zeros s' with
      | EmptyString => if Ascii.eqb c "0" then "" else String c ""
      | r => String c r
      end
  end.

Definition frac_text (n : Z) : string :=
  if n =? 0 then "" else String "." (strip_zeros (pad 9 n)).

(** The sign is that of the minutes, the seconds being cut off first. *)
Definition zone_text (o : Z) : string :=
  if o =? 0 then "Z" else
  let m := Z.quot (Z.abs o) 60 in
  String (if Z.quot o 60 <? 0 then "-"%char else "+"%char) (pad 2 (m / 60) +:+ ":" +:+ pad 2 (m mod 60)).

(** [t.Format(time.RFC3339Nano)] *)
Definition rfc3339nano (t : Time) : string :=
  let f := wall t in date_text f +:+ frac_text (f_nano f) +:+ zone_text (off t).

(** [t.UTC().Format("2006-01-02T15:04:05.000000000Z")] *)
Definition fixed_text (t : Time) : string :=
  let f := wall (utc t) in date_text f +:+ "." +:+ pad 9 (f_nano f) +:+ "Z".

Fixpoint take_digits (w : nat) (s : string) (acc : Z) : option (Z * string) :=
  match w with
  | O => Some (acc, s)
  | S w' =>
      match s with
      | String c s' =>
          if is_digit (byte c) then take_digits w' s' (acc * 10 + (byte c - 48)) else None
      | EmptyString => None
      end
  end.

Definition expect (c : ascii) (s : string) : option string :=
  match s with
  | String d s' => if Ascii.eqb c d then Some s' else None
  | EmptyString => None
  end.

(** Digits of a fraction of a second; those after the ninth are dropped. *)
Fixpoint take_frac (scale : Z) (s : string) (acc : Z) : Z * string :=
  match s with
  | String c s' =>
      if is_digit (byte c) then take_frac (scale / 10) s' (acc + (byte c - 48) * scale)
      else (acc, s)
  | EmptyString => (acc, s)
  end.

Definition starts_digit (s : string) : bool :=
  match s with String c _ => is_digit (byte c) | EmptyString => false end.

(** The hour field: two digits, or one when the parse is lenient. *)
Definition take_hour (strict : bool) (s : string) : option (Z * string) :=
  match take_digits 2 s 0 with
  | Some r => Some r
  | None => if strict then None else take_digits 1 s 0
  end.

Definition take_fraction (strict : bool) (s : string) : Z * string :=
  match s with
  | String c s' =>
      if (Ascii.eqb c "." || negb strict && Ascii.eqb c ",") && starts_digit s'
      then take_frac (10 ^ 8) s' 0 else (0, s)
  | EmptyString => (0, s)
  end.

Definition parse_zone (strict : bool) (s : string) : option Z :=
  if String.eqb s "Z" then Some 0 else
  match s with
  | String c s' =>
      '(h, s) ← take_digits 2 s' 0; s ← expect ":" s; '(m, s) ← take_digits 2 s 0;
      if negb (String.eqb s "") then None else
      if ((if strict then 23 else 24) <? h) || ((if strict then 59 else 60) <? m) then None else
      if Ascii.eqb c "+" then Some (h * 3600 + m * 60)
      else if Ascii.eqb c "-" then Some (- (h * 3600 + m * 60)) else None
  | EmptyString => None
  end.

(** [time.Parse(time.RFC3339Nano, s)], and with [strict] what
    [Time.UnmarshalJSON] accepts between the quotes. *)
Definition parse_rfc3339 (strict : bool) (s : string) : option Time :=
  '(y, s) ← take_digits 4 s 0; s ← expect "-" s;
  '(mo, s) ← take_digits 2 s 0; s ← expect "-" s;
  '(d, s) ← take_digits 2 s 0; s ← expect "T" s;
  '(h, s) ← take_hour strict s; s ← expect ":" s;
  '(mi, s) ← take_digits 2 s 0; s ← expect ":" s;
  '(se, s) ← take_digits 2 s 0;
  let '(n, s) := take_fraction strict s in
  o ← parse_zone strict s;
  if (1 <=? mo) && (mo <=? 12) && (1 <=? d) && (d <=? days_in y mo)
     && (h <=? 23) && (mi <=? 59) && (se <=? 59)
  then Some (mkTime ((days_of_civil (mkCivil y mo d) * 86400 + h * 3600 + mi * 60 + se - o)
                     * second + n) o)
  else None.

Example rfc3339nano_epoch :
  rfc3339nano (mkTime (unix_epoch * second) 0) = "1970-01-01T00:00:00Z".
Proof. vm_compute. reflexivity. Qed.
Example rfc3339nano_example :
  rfc3339nano (mkTime ((unix_epoch + 1785326400) * second + 1500000) (-16200))
    = "2026-07-29T07:30:00.0015-04:30".
Proof. vm_compute. reflexivity. Qed.
Example parse_rfc3339_example :
  parse_rfc3339 true "2026-07-29T07:30:00.0015-04:30" =
    Some (mkTime ((unix_epoch + 1785326400) * second + 1500000) (-16200)).
Proof. vm_compute. reflexivity. Qed.

(** *** Round trip *)

Lemma pad_cons w n :
  0 ≤ n < 10 ^ Z.of_nat (S w) →
  pad (S w) n = String (digit (n / 10 ^ Z.of_nat w)) (pad w (n mod 10 ^ Z.of_nat w)).
Proof.
  revert n. induction w as [|w IH]; intros n Hn.
  { simpl. rewrite Z.div_1_r. rewrite Z.mod_small by (simpl in Hn; lia). done. }
  remember (S w) as w1. simpl pad at 1. subst w1.
  rewrite Nat2Z.inj_succ, Z.pow_succ_r in Hn by lia.
  rewrite IH by (split; [apply Z.div_pos; lia|apply Z.div_lt_upper_bound; lia]).
  rewrite app_str_cons. f_equal.
  - f_equal. rewrite Nat2Z.inj_succ, Z.pow_succ_r by lia. by rewrite Z.div_div by lia.
  - simpl pad at 2. rewrite Nat2Z.inj_succ, Z.pow_succ_r by lia.
    assert (0 < 10 ^ Z.of_nat w) by lia.
    rewrite (Z.rem_mul_r n 10) by lia.
    pose proof (Z.mod_pos_bound n 10 ltac:(lia)).
    generalize ((n / 10) mod 10 ^ Z.of_nat w) as b. intros b. f_equal; [f_equal; zdiv|].
    do 2 f_equal. zdiv.
Qed.

Lemma take_digits_pad w n rest acc :
  0 ≤ n < 10 ^ Z.of_nat w →
  take_digits w (pad w n +:+ rest) acc = Some (acc * 10 ^ Z.of_nat w + n, rest).
Proof.
  revert n acc. induction w as [|w IH]; intros n acc Hn.
  { simpl in *. rewrite app_str_nil_l. do 2 f_equal. lia. }
  rewrite pad_cons by done. rewrite app_str_cons. simpl.
  assert (0 < 10 ^ Z.of_nat w) by lia.
  assert (0 ≤ n / 10 ^ Z.of_nat w < 10) as Hd.
  { split; [apply Z.div_pos; lia|]. apply Z.div_lt_upper_bound; [lia|].
    rewrite Nat2Z.inj_succ, Z.pow_succ_r in Hn by lia. lia. }
  rewrite is_digit_digit, byte_digit by done.
  rewrite IH by (apply Z.mod_pos_bound; lia). do 2 f_equal.
  rewrite (Z.div_mod n (10 ^ Z.of_nat w)) at 3 by lia.
  rewrite Nat2Z.inj_succ, Z.pow_succ_r by lia. lia.
Qed.

Lemma take_frac_pad w n rest acc :
  0 ≤ n < 10 ^ Z.of_nat w → starts_digit rest = false →
  take_frac (10 ^ (Z.of_nat w - 1)) (pad w n +:+ rest) acc = (acc + n, rest).
Proof.
  intros Hn Hrest. revert n acc Hn. induction w as [|w IH]; intros n acc Hn.
  { simpl in *. rewrite app_str_nil_l. replace n with 0 by lia.
    destruct rest as [|c rest]; simpl in *; [f_equal; lia|]. rewrite Hrest. f_equal; lia. }
  rewrite pad_cons by done. rewrite app_str_cons. cbn [take_frac].
  assert (0 < 10 ^ Z.of_nat w) by lia.
  assert (0 ≤ n / 10 ^ Z.of_nat w < 10) as Hd.
  { split; [apply Z.div_pos; lia|]. apply Z.div_lt_upper_bound; [lia|].
    rewrite Nat2Z.inj_succ, Z.pow_succ_r in Hn by lia. lia. }
  rewrite is_digit_digit, byte_digit by done.
  replace (Z.of_nat (S w) - 1) with (Z.of_nat w) by lia.
  assert (10 ^ Z.of_nat w / 10 = 10 ^ (Z.of_nat w - 1)) as ->.
  { destruct w as [|w]; [done|]. rewrite Nat2Z.inj_succ, Z.pow_succ_r by lia.
    rewrite Z.mul_comm, Z.div_mul by lia. f_equal. lia. }
  rewrite IH by (apply Z.mod_pos_bound; lia). f_equal.
  rewrite (Z.div_mod n (10 ^ Z.of_nat w)) at 3 by lia. lia.
Qed.

Lemma all_digits_pad w n : 0 ≤ n → all_digits (pad w n) = true.
Proof.
  revert n. assert (∀ s1 s2, all_digits (s1 +:+ s2) = all_digits s1 && all_digits s2) as Happ.
  { induction s1 as [|c s1 IH]; intros s2; [done|]. rewrite app_str_cons. simpl.
    by rewrite IH, andb_assoc. }
  induction w as [|w IH]; intros n Hn; simpl; [done|].
  rewrite Happ, IH by (apply Z.div_pos; lia). simpl.
  rewrite is_digit_digit; [done|]. apply Z.mod_pos_bound. lia.
Qed.

(** Trailing zeros do not change the fraction. *)
Lemma take_frac_strip s rest scale acc v :
  all_digits s = true → starts_digit rest = false →
  take_frac scale (s +:+ rest) acc = (v, rest) →
  take_frac scale (strip_zeros s +:+ rest) acc = (v, rest).
Proof.
  revert scale acc. induction s as [|c s IH]; intros scale acc Hd Hr; [done|].
  simpl in Hd. apply andb_true_iff in Hd as [Hc Hd].
  rewrite app_str_cons. simpl. rewrite Hc. intros H.
  apply IH in H; [|done..].
  destruct (strip_zeros s) as [|d r] eqn:E.
  - destruct (Ascii.eqb_spec c "0") as [->|]; simpl; rewrite ?app_str_cons, ?app_str_nil_l in *.
    + simpl in H. rewrite Z.mul_0_l, Z.add_0_r in H.
      destruct rest as [|c' rest]; simpl in *; [done|]. by rewrite Hr in *.
    + simpl. by rewrite Hc.
  - rewrite !app_str_cons. simpl. by rewrite Hc.
Qed.

Lemma strip_zeros_pad w n :
  0 < n < 10 ^ Z.of_nat w → ∀ rest, starts_digit (strip_zeros (pad w n) +:+ rest) = true.
Proof.
  revert n. induction w as [|w IH]; intros n Hn rest; [simpl in Hn; lia|].
  rewrite pad_cons by lia. simpl.
  assert (0 < 10 ^ Z.of_nat w) by lia.
  assert (0 ≤ n / 10 ^ Z.of_nat w < 10) as Hd.
  { split; [apply Z.div_pos; lia|]. apply Z.div_lt_upper_bound; [lia|].
    rewrite Nat2Z.inj_succ, Z.pow_succ_r in Hn by lia. lia. }
  assert (starts_digit (String (digit (n / 10 ^ Z.of_nat w)) "") = true) as Hs
    by (by apply is_digit_digit).
  pose proof (Z.mod_pos_bound n (10 ^ Z.of_nat w) ltac:(lia)) as Hm.
  destruct (strip_zeros (pad w (n mod 10 ^ Z.of_nat w))) as [|d r] eqn:E; [|done].
  destruct (Ascii.eqb_spec (digit (n / 10 ^ Z.of_nat w)) "0") as [H0|]; [|done].
  exfalso. assert (n / 10 ^ Z.of_nat w = 0) as Hz.
  { apply (f_equal byte) in H0. rewrite byte_digit in H0 by done.
    change (byte "0") with 48 in H0. lia. }
  pose proof (Z.div_mod n (10 ^ Z.of_nat w)). specialize (IH (n mod 10 ^ Z.of_nat w)).
  rewrite E in IH. specialize (IH ltac:(lia) ""). done.
Qed.

(** Times RFC 3339 can express: a four-digit year and an offset of whole
    minutes below a day. *)
Definition representable (t : Time) : bool :=
  (0 <=? cyear (f_date (wall t))) && (cyear (f_date (wall t)) <=? 9999)
  && (-86400 <? off t) && (off t <? 86400) && (off t mod 60 =? 0).

Lemma wall_spec t :
  let f := wall t in
  civil_ok (f_date f) ∧ 0 ≤ f_hour f ≤ 23 ∧ 0 ≤ f_min f ≤ 59 ∧ 0 ≤ f_sec f ≤ 59 ∧
  0 ≤ f_nano f < 10 ^ 9 ∧
  ns t = (days_of_civil (f_date f) * 86400 + f_hour f * 3600 + f_min f * 60 + f_sec f
          - off t) * second + f_nano f.
Proof.
  cbn zeta. unfold wall. cbn [f_date f_hour f_min f_sec f_nano].
  remember (ns t + off t * second) as l eqn:El.
  pose proof (civil_of_days_spec (l / day_ns)) as (Hm & Hd & Hn).
  split; [by split|]. rewrite Hn. clear Hm Hd Hn.
  unfold day_ns, second in *.
  remember (l mod (86400 * 10 ^ 9) / 10 ^ 9) as s eqn:Es.
  assert (0 ≤ s < 86400) by (subst s; zdiv).
  assert (l mod 10 ^ 9 = l mod (86400 * 10 ^ 9) - 10 ^ 9 * s) as Hl by (subst s; zdiv).
  split_and!; try zdiv.
Qed.

Lemma days_in_range y m : 28 ≤ days_in y m ≤ 31.
Proof. unfold days_in. repeat case_match; lia. Qed.

#[local] Arguments pad : simpl never.
#[local] Arguments take_digits : simpl never.

Lemma parse_zone_text strict o :
  -86400 < o < 86400 → o mod 60 = 0 → parse_zone strict (zone_text o) = Some o.
Proof.
  intros Ho Hm. unfold zone_text. destruct (o =? 0) eqn:E; bool_prop; [by subst|].
  assert ((Z.quot o 60 <? 0) = (o <? 0)) as ->.
  { apply Z.mod_divide in Hm as [k ->]; [|done]. rewrite Z.quot_mul by done.
    destruct (k <? 0) eqn:E1, (k * 60 <? 0) eqn:E2; bool_prop; lia. }
  assert (Z.quot (Z.abs o) 60 = Z.abs o / 60) as -> by (apply Z.quot_div_nonneg; lia).
  remember (Z.abs o / 60) as m eqn:Em.
  assert (0 < m < 1440 ∧ Z.abs o = m * 60) as [Hmr Ho'] by (subst m; split; zdiv).
  assert (0 ≤ m / 60 < 24 ∧ 0 ≤ m mod 60 < 60) as [Hh Hmi] by (split; zdiv).
  unfold parse_zone. cbn [String.eqb].
  assert (∀ c : ascii, c = "-"%char ∨ c = "+"%char → (if Ascii.eqb c "Z" then
    String.eqb (pad 2 (m / 60) +:+ ":" +:+ pad 2 (m mod 60)) "" else false) = false) as Hz
    by (intros c [-> | ->]; done).
  rewrite Hz by (destruct (o <? 0); auto).
  rewrite take_digits_pad by (simpl; lia). simpl mbind. rewrite app_str_nil_l.
  rewrite <-(app_str_nil_r (pad 2 (m mod 60))), take_digits_pad by (simpl; lia). simpl mbind.
  rewrite !Z.mul_0_l, !Z.add_0_l.
  destruct ((if strict then 23 else 24) <? m / 60) eqn:E1; bool_prop; [destruct strict; lia|].
  destruct ((if strict then 59 else 60) <? m mod 60) eqn:E2; bool_prop; [destruct strict; lia|].
  pose proof (Z.div_mod m 60 ltac:(lia)).
  destruct (o <? 0) eqn:E0; bool_prop; simpl; f_equal; lia.
Qed.

Lemma starts_digit_zone o : starts_digit (zone_text o) = false.
Proof. unfold zone_text. destruct (o =? 0); [done|]. by destruct (_ <? 0). Qed.

Lemma zone_text_head o : ∃ c s, zone_text o = String c s ∧ (c ≠ ".")%char ∧ (c ≠ ",")%char.
Proof.
  unfold zone_text. destruct (o =? 0); [by eexists _, _|].
  destruct (_ <? 0); by eexists _, _.
Qed.

Lemma take_fraction_text strict n o :
  0 ≤ n < 10 ^ 9 → take_fraction strict (frac_text n +:+ zone_text o) = (n, zone_text o).
Proof.
  intros Hn. unfold frac_text. destruct (n =? 0) eqn:E; bool_prop.
  - subst n. rewrite app_str_nil_l. destruct (zone_text_head o) as (c & s & -> & Hc & Hc').
    simpl. destruct (Ascii.eqb_spec c "."), (Ascii.eqb_spec c ","); [done..|].
    by rewrite andb_false_r.
  - rewrite app_str_cons. unfold take_fraction.
    rewrite (strip_zeros_pad 9 n) by (simpl; lia). simpl andb. cbv iota.
    apply take_frac_strip; [apply all_digits_pad; lia|apply starts_digit_zone|].
    rewrite (take_frac_pad 9 n); [done|done|apply starts_digit_zone].
Qed.

(** Parsing the RFC 3339 text of a time gives the time back, to the nanosecond
    and with its offset. *)
Lemma parse_rfc3339nano strict t :
  representable t = true → parse_rfc3339 strict (rfc3339nano t) = Some t.
Proof.
  unfold representable. intros H. bool_prop.
  pose proof (wall_spec t) as (Hc & Hh & Hmi & Hs & Hn & Heq). cbn zeta in *.
  unfold rfc3339nano, date_text, year_text. remember (wall t) as f eqn:Ef.
  destruct (cyear (f_date f) <? 0) eqn:E; bool_prop; [lia|].
  destruct (cyear (f_date f) <? 10000) eqn:E'; bool_prop; [|lia].
  pose proof (days_in_range (cyear (f_date f)) (cmonth (f_date f))) as Hdi.
  destruct Hc as [Hmo Hd].
  rewrite !app_str_assoc. unfold parse_rfc3339, take_hour.
  repeat (rewrite take_digits_pad by (simpl; lia); simpl mbind;
          rewrite ?app_str_nil_l).
  rewrite take_fraction_text by done. rewrite parse_zone_text by done. simpl mbind.
  rewrite !Z.mul_0_l, !Z.add_0_l.
  repeat match goal with |- context [?a <=? ?b] =>
    replace (a <=? b) with true by (symmetry; apply Z.leb_le; lia) end.
  simpl. f_equal. destruct t as [n o]. simpl in *. f_equal. rewrite Heq.
  by destruct f as [[] ? ? ? ?].
Qed.

(** *** Order *)

(** Lexicographic combination of two comparisons. *)
Definition cmp_then (c d : comparison) : comparison :=
  match c with Eq => d | _ => c end.

Lemma digit_compare a b :
  0 ≤ a < 10 → 0 ≤ b < 10 → Ascii.compare (digit a) (digit b) = (a ?= b).
Proof.
  intros Ha Hb. unfold Ascii.compare, digit, chr.
  rewrite !N_ascii_embedding by lia.
  rewrite <-N2Z.inj_compare, !Z2N.id by lia.
  destruct (Z.compare_spec a b); [apply Z.compare_eq_iff|apply Z.compare_lt_iff|apply Z.compare_gt_iff]; lia.
Qed.

Lemma div_mod_compare a b k :
  0 < k → (a ?= b) = cmp_then (a / k ?= b / k) (a mod k ?= b mod k).
Proof.
  intros Hk. pose proof (Z.div_mod a k ltac:(lia)) as Ha. pose proof (Z.div_mod b k ltac:(lia)) as Hb.
  pose proof (Z.mod_pos_bound a k Hk). pose proof (Z.mod_pos_bound b k Hk).
  destruct (Z.compare_spec (a / k) (b / k)) as [E|E|E]; simpl.
  - rewrite Ha, Hb at 1. rewrite E. destruct (Z.compare_spec (a mod k) (b mod k));
      [apply Z.compare_eq_iff|apply Z.compare_lt_iff|apply Z.compare_gt_iff]; lia.
  - apply Z.compare_lt_iff. nia.
  - apply Z.compare_gt_iff. nia.
Qed.

Lemma pad_compare w a b s1 s2 :
  0 ≤ a < 10 ^ Z.of_nat w → 0 ≤ b < 10 ^ Z.of_nat w →
  String.compare (pad w a +:+ s1) (pad w b +:+ s2)
    = cmp_then (a ?= b) (String.compare s1 s2).
Proof.
  revert a b. induction w as [|w IH]; intros a b Ha Hb.
  { simpl in *. replace a with 0 by lia. by replace b with 0 by lia. }
  rewrite !pad_cons, !app_str_cons by done. simpl.
  assert (0 < 10 ^ Z.of_nat w) by lia.
  rewrite digit_compare.
  2,3: rewrite Nat2Z.inj_succ, Z.pow_succ_r in * by lia;
    split; [apply Z.div_pos; lia|apply Z.div_lt_upper_bound; lia].
  rewrite IH by (apply Z.mod_pos_bound; lia).
  rewrite (div_mod_compare a b (10 ^ Z.of_nat w)) by done.
  by destruct (a / 10 ^ Z.of_nat w ?= b / 10 ^ Z.of_nat w).
Qed.

Definition civil_compare (c d : civil) : comparison :=
  cmp_then (cyear c ?= cyear d) (cmp_then (cmonth c ?= cmonth d) (cday c ?= cday d)).

Lemma civil_compare_lt c d : civil_lt c d → civil_compare c d = Lt.
Proof.
  unfold civil_lt, civil_compare. intros [H|[-> [H|[-> H]]]];
    rewrite ?Z.compare_refl; simpl; apply Z.compare_lt_iff in H; by rewrite H.
Qed.

Lemma civil_compare_gt c d : civil_lt d c → civil_compare c d = Gt.
Proof.
  unfold civil_lt, civil_compare. intros [H|[-> [H|[-> H]]]];
    rewrite ?Z.compare_refl; simpl; apply Z.compare_gt_iff in H; by rewrite H.
Qed.

Lemma civil_days_compare a b :
  civil_compare (civil_of_days a) (civil_of_days b) = (a ?= b).
Proof.
  destruct (Z.compare_spec a b) as [->|H|H].
  - unfold civil_compare. by rewrite !Z.compare_refl.
  - by apply civil_compare_lt, civil_of_days_mono.
  - by apply civil_compare_gt, civil_of_days_mono.
Qed.

Definition fields_compare (f g : fields) : comparison :=
  cmp_then (civil_compare (f_date f) (f_date g))
    (cmp_then (f_hour f ?= f_hour g)
      (cmp_then (f_min f ?= f_min g)
        (cmp_then (f_sec f ?= f_sec g) (f_nano f ?= f_nano g)))).

Lemma wall_compare t u : fields_compare (wall (utc t)) (wall (utc u)) = (ns t ?= ns u).
Proof.
  unfold fields_compare, wall, utc. simpl. rewrite civil_days_compare.
  rewrite !Z.add_0_r.
  rewrite (div_mod_compare (ns t) (ns u) day_ns) by done. f_equal.
  rewrite (div_mod_compare (ns t mod day_ns) (ns u mod day_ns) second) by done.
  rewrite (div_mod_compare (ns t mod day_ns / second) (ns u mod day_ns / second) 3600) by done.
  rewrite (div_mod_compare (ns t mod day_ns / second mod 3600)
             (ns u mod day_ns / second mod 3600) 60) by done.
  assert (∀ n, n mod day_ns mod second = n mod second) as Hmm.
  { intros n. unfold day_ns. rewrite Z.mul_comm.
    apply Z.mod_mod_divide. by exists 86400. }
  assert (∀ n, n mod 3600 mod 60 = n mod 60) as Hmm'.
  { intros n. apply Z.mod_mod_divide. by exists 60. }
  rewrite !Hmm, !Hmm'. repeat match goal with |- context [cmp_then (?a ?= ?b)] =>
    destruct (a ?= b); simpl end; done.
Qed.

Definition four_digit_year (t : Time) : bool :=
  (0 <=? cyear (f_date (wall (utc t)))) && (cyear (f_date (wall (utc t))) <=? 9999).

(** The fixed-width text compares like the instants: SQL text comparison of
    stored timestamps is the comparison of times. *)
Lemma fixed_text_compare t u :
  four_digit_year t = true → four_digit_year u = true →
  String.compare (fixed_text t) (fixed_text u) = (ns t ?= ns u).
Proof.
  unfold four_digit_year. intros Ht Hu. bool_prop. rewrite <-wall_compare.
  pose proof (wall_spec (utc t)) as ([Tm Td] & Th & Tmi & Ts & Tn & _).
  pose proof (wall_spec (utc u)) as ([Um Ud] & Uh & Umi & Us & Un & _). cbn zeta in *.
  pose proof (days_in_range (cyear (f_date (wall (utc t)))) (cmonth (f_date (wall (utc t))))).
  pose proof (days_in_range (cyear (f_date (wall (utc u)))) (cmonth (f_date (wall (utc u))))).
  unfold fixed_text, date_text, year_text, fields_compare, civil_compare.
  remember (wall (utc t)) as f. remember (wall (utc u)) as g.
  assert (∀ y, 0 ≤ y ≤ 9999 → (y <? 0) = false ∧ (y <? 10000) = true) as Hy.
  { intros y Hr. split; [apply Z.ltb_ge|apply Z.ltb_lt]; lia. }
  destruct (Hy (cyear (f_date f))) as [-> ->]; [lia|].
  destruct (Hy (cyear (f_date g))) as [-> ->]; [lia|].
  rewrite !app_str_assoc.
  repeat (rewrite pad_compare by (simpl; lia); rewrite ?app_str_cons, ?app_str_nil_l;
    cbn [String.compare]; rewrite ?ascii_compare_refl).
  repeat match goal with |- context [cmp_then (?a ?= ?b)] =>
    destruct (a ?= b); simpl end; done.
Qed.

Lemma fixed_text_ltb t u :
  four_digit_year t = true → four_digit_year u = true →
  str_ltb (fixed_text t) (fixed_text u) = before t u.
Proof.
  intros Ht Hu. unfold String.ltb, before. rewrite fixed_text_compare by done.
  unfold Z.ltb. by destruct (ns t ?= ns u).
Qed.

#[local] Arguments take_fraction : simpl never.

Lemma parse_fixed_text t :
  four_digit_year t = true → parse_rfc3339 false (fixed_text t) = Some (utc t).
Proof.
  unfold four_digit_year. intros H. bool_prop.
  pose proof (wall_spec (utc t)) as (Hc & Hh & Hmi & Hs & Hn & Heq). cbn zeta in *.
  unfold fixed_text, date_text, year_text. remember (wall (utc t)) as f eqn:Ef.
  destruct (cyear (f_date f) <? 0) eqn:E; bool_prop; [lia|].
  destruct (cyear (f_date f) <? 10000) eqn:E'; bool_prop; [|lia].
  pose proof (days_in_range (cyear (f_date f)) (cmonth (f_date f))) as Hdi.
  destruct Hc as [Hmo Hd].
  rewrite !app_str_assoc. unfold parse_rfc3339, take_hour.
  repeat (rewrite take_digits_pad by (simpl; lia); simpl mbind;
          rewrite ?app_str_nil_l).
  unfold take_fraction. rewrite app_str_cons, app_str_nil_l. cbv iota beta.
  pose proof (pad_cons 8 (f_nano f) ltac:(done)) as Hp.
  assert (starts_digit (pad 9 (f_nano f) +:+ "Z") = true) as ->.
  { rewrite Hp, app_str_cons. apply is_digit_digit. simpl. zdiv. }
  rewrite (take_frac_pad 9 (f_nano f)) by (done || simpl; lia). cbn.
  rewrite !Z.mul_0_l, !Z.add_0_l.
  repeat match goal with |- context [?a <=? ?b] =>
    replace (a <=? b) with true by (symmetry; apply Z.leb_le; lia) end.
  simpl. f_equal. unfold utc in *. cbn [ns off] in *. f_equal. rewrite Heq.
  by destruct f as [[] ? ? ? ?].
Qed.

(** *** The years of the clock *)

Lemma wall_year_mono t u :
  ns t ≤ ns u → cyear (f_date (wall (utc t))) ≤ cyear (f_date (wall (utc u))).
Proof.
  intros H. pose proof (wall_compare t u) as Hc. unfold fields_compare, civil_compare in Hc.
  destruct (Z.compare_spec (cyear (f_date (wall (utc t)))) (cyear (f_date (wall (utc u)))));
    [lia|lia|].
  simpl in Hc. symmetry in Hc. rewrite Z.compare_gt_iff in Hc. lia.
Qed.

(** From the year 1 to a week before the end of the year 9999. *)
Definition clock_limit : Z := (315537897600 - 7 * 86400) * second - 1.
Definition clock_ok (t : Time) : Prop := 0 ≤ ns t ≤ clock_limit.

Lemma year_range t : 0 ≤ ns t < 315537897600 * second → four_digit_year t = true.
Proof.
  intros [H1 H2]. unfold four_digit_year.
  pose proof (wall_year_mono (mkTime 0 0) t H1) as Hl.
  assert (ns t ≤ ns (mkTime (315537897600 * second - 1) 0)) as Hu by (simpl; lia).
  apply wall_year_mono in Hu.
  replace (cyear (f_date (wall (utc (mkTime 0 0))))) with 1 in Hl by (by vm_compute).
  replace (cyear (f_date (wall (utc (mkTime (315537897600 * second - 1) 0))))) with 9999 in Hu
    by (by vm_compute).
  apply andb_true_iff. rewrite !Z.leb_le. lia.
Qed.

Lemma clock_year t : clock_ok t → four_digit_year t = true.
Proof. unfold clock_ok, clock_limit. intros H. apply year_range. unfold second in *. lia. Qed.

Lemma clock_year_add t d :
  clock_ok t → 0 ≤ d ≤ 7 * 24 * hour → four_digit_year (add t d) = true.
Proof.
  unfold clock_ok, clock_limit, hour, minute, second. intros H Hd. apply year_range.
  cbn [ns add]. unfold second. lia.
Qed.
