(* ===== verification/JsonString.v ===== *)
(** * JSON string literals

    String literals as [json.Marshal] writes them, with the HTML characters
    and the two line separators escaped, and as [json.Unmarshal] reads them,
    surrogate pairs and ill-formed UTF-8 included.  Reading back what was
    written gives the string when it is valid UTF-8. *)

From S2P Require Import Prelude GoString.

Definition quote : ascii := "034".
Definition bslash : ascii := "092".

(** ** String literals *)

Definition hex_digit (d : Z) : ascii :=
  (if d <? 10 then chr (48 + d) else chr (87 + d))%Z.

Definition hex_value (c : ascii) : option Z :=
  (let b := byte c in
   if between 48 57 b then Some (b - 48)
   else if between 97 102 b then Some (b - 87)
   else if between 65 70 b then Some (b - 55) else None)%Z.

Definition u_escape (r : Z) : string :=
  (String bslash (String "u" (String (hex_digit (r / 4096)) (String (hex_digit (r / 256 mod 16))
    (String (hex_digit (r / 16 mod 16)) (String (hex_digit (r mod 16)) ""))))))%Z.

(** Escape of one byte below U+0080. *)
Definition esc_ascii (c : ascii) : string :=
  let b := byte c in
  if ((b =? 34) || (b =? 92))%Z then String bslash (String c "")
  else if (b =? 8)%Z then String bslash "b"
  else if (b =? 12)%Z then String bslash "f"
  else if (b =? 10)%Z then String bslash "n"
  else if (b =? 13)%Z then String bslash "r"
  else if (b =? 9)%Z then String bslash "t"
  else if ((b <? 32) || (b =? 60) || (b =? 62) || (b =? 38))%Z then u_escape b
  else String c "".

Fixpoint bytes_n (n : nat) (s : string) : list Z :=
  match n, s with
  | S n', String c s' => byte c :: bytes_n n' s'
  | _, _ => []
  end.

Definition line_sep (a b c : ascii) : bool :=
  ((byte a =? 0xE2) && (byte b =? 0x80) && ((byte c =? 0xA8) || (byte c =? 0xA9)))%Z.

(** The body of a literal; [skip] bytes of a rune already accepted are copied. *)
Fixpoint esc (skip : nat) (s : string) : string :=
  match s with
  | EmptyString => ""
  | String a s1 =>
      match skip with
      | S k => String a (esc k s1)
      | O =>
          if ascii_byte (byte a) then esc_ascii a +:+ esc 0 s1 else
          let rw := decode_rune (bytes_n 4 s) in
          if (rw.2 =? 1)%nat then u_escape 0xFFFD +:+ esc 0 s1 else
          match s1 with
          | String b (String c s3) =>
              if line_sep a b c then u_escape (0x2000 + (byte c - 0x80)) +:+ esc 0 s3
              else String a (esc (pred rw.2) s1)
          | _ => String a (esc (pred rw.2) s1)
          end
      end
  end.

(** A string as [json.Marshal] writes it. *)
Definition quote_json (s : string) : string := String quote (esc 0 s +:+ String quote "").

(** UTF-8 of a rune; surrogates become U+FFFD. *)
Definition enc_rune (r : Z) : string :=
  (let r := if between 0xD800 0xDFFF r || (0x10FFFF <? r) then 0xFFFD else r in
   if r <? 0x80 then String (chr r) ""
   else if r <? 0x800 then String (chr (0xC0 + r / 64)) (String (chr (0x80 + r mod 64)) "")
   else if r <? 0x10000 then
     String (chr (0xE0 + r / 4096)) (String (chr (0x80 + r / 64 mod 64))
       (String (chr (0x80 + r mod 64)) ""))
   else String (chr (0xF0 + r / 262144)) (String (chr (0x80 + r / 4096 mod 64))
     (String (chr (0x80 + r / 64 mod 64)) (String (chr (0x80 + r mod 64)) ""))))%Z.

Definition hex4 (a b c d : ascii) : option Z :=
  match hex_value a, hex_value b, hex_value c, hex_value d with
  | Some a, Some b, Some c, Some d => Some (a * 4096 + b * 256 + c * 16 + d)%Z
  | _, _, _, _ => None
  end.

Definition simple_escape (c : ascii) : option ascii :=
  let b := byte c in
  if ((b =? 34) || (b =? 92) || (b =? 47))%Z then Some c
  else if (b =? 98)%Z then Some (chr 8)
  else if (b =? 102)%Z then Some (chr 12)
  else if (b =? 110)%Z then Some (chr 10)
  else if (b =? 114)%Z then Some (chr 13)
  else if (b =? 116)%Z then Some (chr 9)
  else None.

Definition cons_to (p : string) (r : option (string * string)) : option (string * string) :=
  match r with Some (s, rest) => Some (p +:+ s, rest) | None => None end.

(** Reads a literal after its opening quote: its value and what follows it. *)
Fixpoint unq (skip : nat) (s : string) : option (string * string) :=
  match s with
  | EmptyString => None
  | String c s1 =>
      match skip with
      | S k => cons_to (String c "") (unq k s1)
      | O =>
          if (byte c =? 34)%Z then Some ("", s1)
          else if (byte c =? 92)%Z then
            match s1 with
            | String e s2 =>
                if (byte e =? 117)%Z then
                  match s2 with
                  | String h1 (String h2 (String h3 (String h4 s6))) =>
                      match hex4 h1 h2 h3 h4 with
                      | None => None
                      | Some r =>
                          match s6 with
                          | String b' (String u' (String g1 (String g2 (String g3 (String g4 s12))))) =>
                              match hex4 g1 g2 g3 g4 with
                              | Some r2 =>
                                  if between 0xD800 0xDBFF r && (byte b' =? 92)%Z && (byte u' =? 117)%Z
                                     && between 0xDC00 0xDFFF r2
                                  then cons_to (enc_rune (0x10000 + (r - 0xD800) * 1024
                                                          + (r2 - 0xDC00))) (unq 0 s12)
                                  else cons_to (enc_rune r) (unq 0 s6)
                              | None => cons_to (enc_rune r) (unq 0 s6)
                              end
                          | _ => cons_to (enc_rune r) (unq 0 s6)
                          end
                      end
                  | _ => None
                  end
                else match simple_escape e with
                     | Some x => cons_to (String x "") (unq 0 s2)
                     | None => None
                     end
            | EmptyString => None
            end
          else if (byte c <? 32)%Z then None
          else if ascii_byte (byte c) then cons_to (String c "") (unq 0 s1)
          else let rw := decode_rune (bytes_n 4 s) in
               if (rw.2 =? 1)%nat then cons_to (enc_rune 0xFFFD) (unq 0 s1)
               else cons_to (String c "") (unq (pred rw.2) s1)
      end
  end.

(** *** Round trip of strings *)

Lemma decode_rune_bytes_n s : decode_rune (bytes_n 4 s) = decode_rune (bytes s).
Proof. by destruct s as [|a [|b [|c [|d s]]]]. Qed.

Lemma bytes_n_bytes n s : bytes_n n s = take n (bytes s).
Proof. revert n. induction s as [|c s IH]; intros [|n]; simpl; by rewrite ?IH. Qed.

(** The width of a rune is bounded by the bytes it is read from, and the rune
    depends on those bytes only. *)
Lemma decode_rune_width l r w : decode_rune l = (r, w) → w ≤ length l ∧ w ≤ 4.
Proof.
  unfold decode_rune. destruct l as [|b0 [|b1 [|b2 [|b3 l]]]]; simpl;
    repeat case_match; intros [= _ <-]; simpl; lia.
Qed.

Lemma decode_rune_prefix l l' r w :
  decode_rune l = (r, w) → 2 ≤ w → take w l' = take w l → decode_rune l' = (r, w).
Proof.
  intros H Hw. pose proof (decode_rune_width _ _ _ H) as [Hl H4].
  assert (w = 2 ∨ w = 3 ∨ w = 4) as [->|[->| ->]] by lia; revert H;
    destruct l as [|b0 [|b1 [|b2 [|b3 l]]]]; simpl in Hl; try lia;
    destruct l' as [|c0 [|c1 [|c2 [|c3 l']]]]; simpl take; try (intros; discriminate);
    intros H [= -> ->] || intros H [= -> -> ->] || intros H [= -> -> -> ->];
    revert H; unfold decode_rune; repeat case_match; intros [=]; subst; congruence || done.
Qed.

Lemma cons_to_app p q r : cons_to p (cons_to q r) = cons_to (p +:+ q) r.
Proof. destruct r as [[s rest]|]; simpl; [|done]. by rewrite app_str_assoc. Qed.

Lemma esc_skip_take k s t :
  k ≤ String.length s → take k (bytes (esc k s +:+ t)) = take k (bytes s).
Proof.
  revert s. induction k as [|k IH]; intros s Hk; [done|].
  destruct s as [|c s]; simpl in Hk; [lia|]. simpl esc. rewrite app_str_cons. simpl.
  f_equal. apply IH. lia.
Qed.

Lemma unq_high c s1 s t r w :
  ascii_byte (byte c) = false →
  decode_rune (bytes (String c s)) = (r, w) → 2 ≤ w →
  take (pred w) (bytes s1) = take (pred w) (bytes s) →
  unq 0 (String c s1) = cons_to t (unq (pred w) s1) ∨ t ≠ String c "".
Proof.
  intros Hc Hd Hw Ht. destruct (decide (t = String c "")) as [->|]; [left|by right].
  assert (decode_rune (bytes (String c s1)) = (r, w)) as Hd'.
  { eapply decode_rune_prefix; [exact Hd|done|]. destruct w as [|w]; [lia|]. simpl in *.
    by f_equal. }
  unfold ascii_byte in Hc. apply Z.ltb_ge in Hc.
  assert (∀ n, (n < 0x80)%Z → (byte c =? n)%Z = false) as Hn by (intros; apply Z.eqb_neq; lia).
  cbn [unq]. rewrite !Hn by lia.
  replace (byte c <? 32)%Z with false by (symmetry; apply Z.ltb_ge; lia).
  unfold ascii_byte. replace (byte c <? 0x80)%Z with false by (symmetry; apply Z.ltb_ge; lia).
  rewrite decode_rune_bytes_n, Hd'. simpl. destruct w as [|[|w]]; [lia|lia|done].
Qed.

Lemma unq_u h1 h2 h3 h4 r rest :
  hex4 h1 h2 h3 h4 = Some r → between 0xD800 0xDBFF r = false →
  unq 0 (String bslash (String "u" (String h1 (String h2 (String h3 (String h4 rest))))))
    = cons_to (enc_rune r) (unq 0 rest).
Proof.
  intros Hh Hr. cbn [unq].
  change (byte bslash) with 92%Z. change (byte "u") with 117%Z. simpl Z.eqb. cbv iota.
  rewrite Hh. destruct rest as [|x1 [|x2 [|x3 [|x4 [|x5 [|x6 rest]]]]]]; try done.
  destruct (hex4 x3 x4 x5 x6); [|done]. by rewrite Hr.
Qed.

Lemma unq_esc_ascii c rest :
  ascii_byte (byte c) = true →
  unq 0 (esc_ascii c +:+ rest) = cons_to (String c "") (unq 0 rest).
Proof.
  intros H. assert (∀ c : ascii, ascii_byte (byte c) = true → ∀ rest,
    unq 0 (esc_ascii c +:+ rest) = cons_to (String c "") (unq 0 rest)) as Hall; [|by apply Hall].
  clear. intros [[] [] [] [] [] [] [] []] H rest; try discriminate H;
    first [reflexivity | match goal with |- unq 0 (esc_ascii ?c +:+ _) = _ =>
      exact (unq_u "0" "0" (hex_digit (byte c / 16)%Z) (hex_digit (byte c mod 16)%Z)
        (byte c) rest eq_refl eq_refl) end].
Qed.

Lemma unq_line_sep a b c rest :
  line_sep a b c = true →
  unq 0 (u_escape (0x2000 + (byte c - 0x80)) +:+ rest)
    = cons_to (String a (String b (String c ""))) (unq 0 rest).
Proof.
  unfold line_sep. intros H. apply andb_true_iff in H as [[Ha Hb]%andb_true_iff Hc].
  apply Z.eqb_eq in Ha, Hb.
  assert (a = chr 0xE2) as -> by (by rewrite <-(chr_byte a), Ha).
  assert (b = chr 0x80) as -> by (by rewrite <-(chr_byte b), Hb).
  apply orb_true_iff in Hc as [Hc|Hc]; apply Z.eqb_eq in Hc;
    rewrite <-(chr_byte c), Hc.
  - exact (unq_u "2" "0" "2" "8" 0x2028 rest eq_refl eq_refl).
  - exact (unq_u "2" "0" "2" "9" 0x2029 rest eq_refl eq_refl).
Qed.

Definition rune_valid (rw : Z * nat) : bool := negb ((rw.1 =? 0xFFFD)%Z && (rw.2 =? 1)%nat).

Lemma decode_rune_valid_high b l :
  ascii_byte b = false → rune_valid (decode_rune (b :: l)) = true →
  2 ≤ (decode_rune (b :: l)).2.
Proof.
  unfold ascii_byte. intros Hb. unfold decode_rune. rewrite Hb.
  destruct l as [|b1 [|b2 [|b3 l]]]; simpl; repeat case_match; simpl; intros; try done; lia.
Qed.

#[local] Arguments decode_rune : simpl never.

(** Reading back what was written gives the string, and stops after it. *)
Lemma unq_esc skip s rest :
  skip ≤ String.length s → forallb rune_valid (runes_from skip (bytes s)) = true →
  unq skip (esc skip s +:+ String quote rest) = Some (s, rest).
Proof.
  remember (String.length s) as n eqn:En. revert skip s En.
  induction n as [n IH] using lt_wf_ind. intros skip s En Hskip Hv.
  destruct s as [|c s].
  { simpl in En. subst n. assert (skip = 0) as -> by lia. done. }
  simpl in En. destruct skip as [|k].
  2:{ cbn [esc]. rewrite app_str_cons. cbn [unq].
      rewrite (IH (String.length s)); [done|lia|done|lia|done]. }
  cbn [esc]. destruct (ascii_byte (byte c)) eqn:Ec.
  { rewrite app_str_assoc, unq_esc_ascii by done.
    simpl bytes in Hv. rewrite runes_from_ascii_cons in Hv by done.
    simpl in Hv. apply andb_true_iff in Hv as [_ Hv].
    by rewrite (IH (String.length s)); [|lia|done|lia|done]. }
  rewrite decode_rune_bytes_n. simpl bytes in *. simpl runes_from in Hv.
  simpl in Hv. apply andb_true_iff in Hv as [Hrw Hv].
  pose proof (decode_rune_valid_high (byte c) (bytes s) Ec Hrw) as Hw.
  destruct (decode_rune (byte c :: bytes s)) as [r w] eqn:Ed. simpl in Hw, Hv.
  pose proof (decode_rune_width _ _ _ Ed) as [Hlen _]. simpl in Hlen.
  assert (length (bytes s) = String.length s) as Hl.
  { clear. induction s; simpl; congruence. }
  simpl. destruct (Nat.eqb_spec w 1) as [->|_]; [lia|].
  assert (unq 0 (String c (esc (pred w) s) +:+ String quote rest)
    = Some (String c s, rest)) as Hgen.
  { rewrite app_str_cons.
    destruct (unq_high c (esc (pred w) s +:+ String quote rest) s (String c "") r w Ec Ed Hw)
      as [->|?]; [apply esc_skip_take; lia| |done].
    by rewrite (IH (String.length s)); [|lia|done|lia|done]. }
  destruct s as [|b [|d s3]]; [done..|].
  destruct (line_sep c b d) eqn:El; [|done].
  rewrite app_str_assoc, (unq_line_sep c b d) by done.
  assert (w = 3) as ->.
  { unfold line_sep in El. apply andb_true_iff in El as [[Ha Hb]%andb_true_iff Hd].
    apply Z.eqb_eq in Ha, Hb. unfold decode_rune in Ed. simpl in Ed. rewrite Ha, Hb in Ed.
    assert (cont (byte d) = true) as Hcd.
    { unfold cont. apply orb_true_iff in Hd as [Hd|Hd]; apply Z.eqb_eq in Hd; rewrite Hd; done. }
    simpl in Ed. rewrite Hcd in Ed. by injection Ed. }
  simpl in Hv. rewrite (IH (String.length s3)); [done|simpl in *; lia|done|lia|done].
Qed.
