(* ===== verification/Json.v ===== *)
(** * JSON text

    What the program uses of encoding/json, at the level of text: the grammar
    behind [json.Valid], objects and arrays as lists of member texts, integers,
    and [json.Compact] with HTML escaping for a [RawMessage].  A value stays
    text until a field decoder reads it, as a [RawMessage] does.  The round
    trips of strings, integers, objects and arrays are what the struct codecs
    are built from.

    Not modelled: the nesting limit of 10000, and the merging of duplicate
    object keys (the last one wins here). *)

From S2P Require Export JsonString.
From S2P Require Import Prelude GoString.

(** ** Grammar *)

Definition is_ws (c : ascii) : bool :=
  (let b := byte c in (b =? 32) || (b =? 9) || (b =? 10) || (b =? 13))%Z.

Fixpoint skip_ws (s : string) : string :=
  match s with
  | String c s' => if is_ws c then skip_ws s' else s
  | EmptyString => ""
  end.

Definition eat (c : ascii) (s : string) : option string :=
  match s with
  | String d s' => if Ascii.eqb d c then Some s' else None
  | EmptyString => None
  end.

Definition eat_opt (c : ascii) (s : string) : string :=
  match eat c s with Some s' => s' | None => s end.

(** The text after [c], white space skipped. *)
Definition after_char (c : ascii) (s : string) : option string := skip_ws <$> eat c s.

Fixpoint skip_digits (s : string) : string :=
  match s with
  | String c s' => if is_digit (byte c) then skip_digits s' else s
  | EmptyString => ""
  end.

Definition scan_digits1 (s : string) : option string :=
  match s with
  | String c s' => if is_digit (byte c) then Some (skip_digits s') else None
  | EmptyString => None
  end.

Definition scan_int (s : string) : option string :=
  match eat "0" s with Some s' => Some s' | None => scan_digits1 s end.

Definition scan_frac (s : string) : option string :=
  match eat "." s with Some s' => scan_digits1 s' | None => Some s end.

Definition scan_exp (s : string) : option string :=
  match (match eat "e" s with Some s' => Some s' | None => eat "E" s end) with
  | Some s' =>
      match eat "+" s' with
      | Some s'' => scan_digits1 s''
      | None => scan_digits1 (eat_opt "-" s')
      end
  | None => Some s
  end.

Definition scan_number (s : string) : option string :=
  s ← scan_int (eat_opt "-" s); s ← scan_frac s; scan_exp s.

(** Text after the value at the head of [s].  Each nesting level and each
    member takes at least one character more than half the fuel it uses. *)
Fixpoint scan_value (fuel : nat) (s : string) : option string :=
  match fuel with
  | O => None
  | S f =>
      match s with
      | EmptyString => None
      | String c s1 =>
          if Ascii.eqb c quote then snd <$> unq 0 s1
          else if Ascii.eqb c "{" then
            match eat "}" (skip_ws s1) with
            | Some r => Some r
            | None => scan_members f (skip_ws s1)
            end
          else if Ascii.eqb c "[" then
            match eat "]" (skip_ws s1) with
            | Some r => Some r
            | None => scan_elems f (skip_ws s1)
            end
          else if Ascii.eqb c "t" then strip_prefix "true" s
          else if Ascii.eqb c "f" then strip_prefix "false" s
          else if Ascii.eqb c "n" then strip_prefix "null" s
          else scan_number s
      end
  end
with scan_members (fuel : nat) (s : string) : option string :=
  match fuel with
  | O => None
  | S f =>
      s1 ← eat quote s; '(_, s2) ← unq 0 s1; s3 ← after_char ":" (skip_ws s2);
      s4 ← scan_value f s3;
      match eat "}" (skip_ws s4) with
      | Some r => Some r
      | None => r ← eat "," (skip_ws s4); scan_members f (skip_ws r)
      end
  end
with scan_elems (fuel : nat) (s : string) : option string :=
  match fuel with
  | O => None
  | S f =>
      s1 ← scan_value f s;
      match eat "]" (skip_ws s1) with
      | Some r => Some r
      | None => r ← eat "," (skip_ws s1); scan_elems f (skip_ws r)
      end
  end.

Definition fuel_of (s : string) : nat := 2 * String.length s + 2.

(** [json.Valid] *)
Definition json_valid (s : string) : bool :=
  let s := skip_ws s in
  match scan_value (fuel_of s) s with
  | Some r => String.eqb (skip_ws r) ""
  | None => false
  end.

Fixpoint str_take (n : nat) (s : string) : string :=
  match n, s with
  | S n', String c s' => String c (str_take n' s')
  | _, _ => ""
  end.

(** The value at the head of [s], as text, and what follows it. *)
Definition value_text (s : string) : option (string * string) :=
  r ← scan_value (fuel_of s) s;
  Some (str_take (String.length s - String.length r) s, r).

(** Members of an object after its brace, elements of an array after its
    bracket; each is read from a value start. *)
Fixpoint read_members (fuel : nat) (s : string) : option (list (string * string) * string) :=
  match fuel with
  | O => None
  | S f =>
      s1 ← eat quote s; '(k, s2) ← unq 0 s1; s3 ← after_char ":" (skip_ws s2);
      '(v, s4) ← value_text s3;
      match eat "}" (skip_ws s4) with
      | Some r => Some ([(k, v)], r)
      | None =>
          r ← eat "," (skip_ws s4); '(l, r) ← read_members f (skip_ws r);
          Some ((k, v) :: l, r)
      end
  end.

Fixpoint read_elems (fuel : nat) (s : string) : option (list string * string) :=
  match fuel with
  | O => None
  | S f =>
      '(v, s1) ← value_text s;
      match eat "]" (skip_ws s1) with
      | Some r => Some ([v], r)
      | None =>
          r ← eat "," (skip_ws s1); '(l, r) ← read_elems f (skip_ws r); Some (v :: l, r)
      end
  end.

(** Key and value texts of an object, in order. *)
Definition read_object (s : string) : option (list (string * string)) :=
  s ← after_char "{" (skip_ws s);
  match eat "}" s with
  | Some r => if String.eqb (skip_ws r) "" then Some [] else None
  | None => '(l, r) ← read_members (String.length s) s;
            if String.eqb (skip_ws r) "" then Some l else None
  end.

Definition read_array (s : string) : option (list string) :=
  s ← after_char "[" (skip_ws s);
  match eat "]" s with
  | Some r => if String.eqb (skip_ws r) "" then Some [] else None
  | None => '(l, r) ← read_elems (String.length s) s;
            if String.eqb (skip_ws r) "" then Some l else None
  end.

Definition read_string (s : string) : option string :=
  match s with
  | String c s1 =>
      if Ascii.eqb c quote then
        '(v, r) ← unq 0 s1; if String.eqb r "" then Some v else None
      else None
  | EmptyString => None
  end.

Definition is_null (s : string) : bool := String.eqb s "null".

(** ** Writing *)

Fixpoint join (sep : string) (l : list string) : string :=
  match l with
  | [] => ""
  | [x] => x
  | x :: l' => x +:+ sep +:+ join sep l'
  end.

Definition member_text (kv : string * string) : string :=
  quote_json kv.1 +:+ String ":" kv.2.

Definition object_text (ms : list (string * string)) : string :=
  "{" +:+ join "," (member_text <$> ms) +:+ "}".

Definition array_text (vs : list string) : string := "[" +:+ join "," vs +:+ "]".

Definition bool_text (b : bool) : string := if b then "true" else "false".

(** [json.Compact] with HTML escaping: what [json.Marshal] emits for a
    [RawMessage]. *)
Fixpoint compact_from (in_string escaped : bool) (s : string) : string :=
  match s with
  | EmptyString => ""
  | String c s1 =>
      let b := byte c in
      if ((b =? 60) || (b =? 62) || (b =? 38))%Z
      then u_escape b +:+ compact_from in_string false s1
      else
      let next :=
        if in_string then
          if escaped then compact_from true false s1
          else if (b =? 92)%Z then compact_from true true s1
          else compact_from (negb (b =? 34)%Z) false s1
        else compact_from (b =? 34)%Z false s1 in
      if negb in_string && is_ws c then next else
      match s1 with
      | String d (String e s3) =>
          if line_sep c d e
          then u_escape (0x2000 + (byte e - 0x80)) +:+ compact_from in_string false s3
          else String c next
      | _ => String c next
      end
  end.
Definition compact (s : string) : string := compact_from false false s.

(** JSON text written with apostrophes for quotation marks. *)
Fixpoint dq (s : string) : string :=
  match s with
  | EmptyString => ""
  | String c s' => String (if Ascii.eqb c "'" then quote else c) (dq s')
  end.

Example json_valid_1 : json_valid (dq "{ 'a' : [1, -2.5e+3, true, null, {}] }") = true.
Proof. vm_compute. reflexivity. Qed.
Example json_valid_2 : json_valid (dq "{'a':01}") = false.
Proof. vm_compute. reflexivity. Qed.
Example compact_1 : compact (dq "{ 'a' : '<b> c' }") = dq "{'a':'\u003cb\u003e c'}".
Proof. vm_compute. reflexivity. Qed.

(** ** Round trips *)

(** What may follow a value inside a larger text. *)
Definition ends_value (rest : string) : bool :=
  match rest with
  | EmptyString => true
  | String c _ => Ascii.eqb c "," || Ascii.eqb c "}" || Ascii.eqb c "]" || Ascii.eqb c "010"
  end.

(** A compact value text: it is scanned in full whatever follows. *)
Record jtext (t : string) : Prop := {
  jt_scan rest fuel : 2 * String.length t ≤ fuel → ends_value rest = true →
    scan_value fuel (t +:+ rest) = Some rest;
  jt_head : match t with String c _ => is_ws c = false | EmptyString => False end;
}.

Lemma jtext_skip_ws t rest : jtext t → skip_ws (t +:+ rest) = t +:+ rest.
Proof.
  intros [_ H]. destruct t as [|c t]; [done|]. rewrite app_str_cons. simpl. by rewrite H.
Qed.

Lemma jtext_string s : valid_utf8 s = true → jtext (quote_json s).
Proof.
  intros H. split; [|done]. intros rest fuel Hf _. unfold quote_json in *.
  rewrite app_str_cons, app_str_assoc, app_str_cons, app_str_nil_l.
  destruct fuel as [|f]; [simpl in Hf; lia|]. simpl.
  rewrite unq_esc; [done|lia|exact H].
Qed.

Lemma ends_value_cases rest :
  ends_value rest = true →
  rest = "" ∨ ∃ c r, rest = String c r ∧
    (c = ","%char ∨ c = "}"%char ∨ c = "]"%char ∨ c = "010"%char).
Proof.
  destruct rest as [|c r]; [by left|]. simpl. intros H. right. exists c, r. split; [done|].
  apply orb_true_iff in H as [[[H|H]%orb_true_iff|H]%orb_true_iff|H]; apply Ascii.eqb_eq in H; auto.
Qed.

Lemma skip_digits_app s rest :
  all_digits s = true → ends_value rest = true → skip_digits (s +:+ rest) = rest.
Proof.
  intros Hs Hr. induction s as [|c s IH].
  - rewrite app_str_nil_l. by apply ends_value_cases in Hr as [->|(c & r & -> & [->|[->|[->| ->]]])].
  - rewrite app_str_cons. simpl in *. apply andb_true_iff in Hs as [-> Hs]. auto.
Qed.

Lemma scan_frac_exp_end rest :
  ends_value rest = true → (s ← scan_frac rest; scan_exp s) = Some rest.
Proof.
  intros [->|(c & r & -> & [->|[->|[->| ->]]])]%ends_value_cases; done.
Qed.

Definition head_is (c : ascii) (s : string) : bool :=
  match s with String d _ => Ascii.eqb d c | EmptyString => false end.

(** Digits without a leading zero. *)
Definition natural_text (s : string) : bool :=
  all_digits s && negb (String.eqb s "") &&
  (String.eqb s "0" || negb (head_is "0" s)).

Lemma scan_int_app s rest :
  natural_text s = true → ends_value rest = true → scan_int (s +:+ rest) = Some rest.
Proof.
  unfold natural_text, scan_int. intros H Hr.
  apply andb_true_iff in H as [[Hd Hne]%andb_true_iff H0].
  apply orb_true_iff in H0 as [H0|H0]; [by apply String.eqb_eq in H0 as ->|].
  destruct s as [|c s]; [done|]. rewrite app_str_cons. unfold head_is in H0.
  unfold eat. destruct (Ascii.eqb c "0"); [done|]. simpl in *.
  apply andb_true_iff in Hd as [-> Hd]. f_equal. by apply skip_digits_app.
Qed.

Lemma digit_not c (d : ascii) : is_digit (byte c) = true → is_digit (byte d) = false → Ascii.eqb c d = false.
Proof. intros H1 H2. apply Ascii.eqb_neq. intros ->. congruence. Qed.

Lemma jtext_natural s : natural_text s = true → jtext s.
Proof.
  intros H. pose proof H as Hn. unfold natural_text in Hn.
  apply andb_true_iff in Hn as [[Hd Hne]%andb_true_iff _].
  destruct s as [|c s]; [done|]. simpl in Hd. apply andb_true_iff in Hd as [Hc Hd].
  split.
  - intros rest fuel Hf Hr. destruct fuel as [|f]; [simpl in Hf; lia|].
    pose proof (scan_int_app _ _ H Hr) as Hi. rewrite app_str_cons in *. simpl.
    rewrite !(digit_not c) by done. unfold scan_number, eat_opt. simpl.
    rewrite (digit_not c "-") by done. rewrite Hi. simpl. by apply scan_frac_exp_end.
  - unfold is_ws. unfold is_digit, between in Hc. bool_prop.
    repeat (apply orb_false_iff; split); apply Z.eqb_neq; lia.
Qed.

Lemma jtext_bool b : jtext (bool_text b).
Proof.
  split; [|by destruct b]. intros rest [|f] Hf _; [destruct b; simpl in Hf; lia|].
  by destruct b.
Qed.

Lemma dec_nonneg_natural n : (0 ≤ n)%Z → natural_text (dec_nonneg n) = true.
Proof.
  intros Hn. unfold natural_text. rewrite dec_nonneg_digits by done.
  assert (dec_nonneg n ≠ "") as Hne by apply dec_digits_nonempty.
  apply String.eqb_neq in Hne as ->. simpl.
  apply orb_true_iff. destruct (decide (n = 0)%Z) as [->|Hz]; [by left|right].
  apply negb_true_iff. unfold dec_nonneg.
  assert (∀ f m acc, (0 < m)%Z → (m < 2 ^ Z.of_nat f)%Z →
    head_is "0" (dec_digits f m acc) = false) as Hh; [|apply Hh; [lia|by apply log2_fuel]].
  induction f as [|f IH]; intros m acc Hm Hf; [simpl in Hf; lia|].
  simpl. destruct (m / 10 =? 0)%Z eqn:E.
  - apply Z.eqb_eq in E. simpl. apply Ascii.eqb_neq. intros H0.
    apply (f_equal byte) in H0.
    rewrite byte_digit in H0 by (apply Z.mod_pos_bound; lia). change (byte "0") with 48%Z in H0.
    pose proof (Z.div_mod m 10). lia.
  - apply Z.eqb_neq in E. apply IH; [pose proof (Z.div_pos m 10); lia|].
    rewrite Nat2Z.inj_succ, Z.pow_succ_r in Hf by lia.
    apply Z.div_lt_upper_bound; lia.
Qed.

Lemma jtext_dec n : (0 ≤ n)%Z → jtext (dec_nonneg n).
Proof. intros H. by apply jtext_natural, dec_nonneg_natural. Qed.

Lemma jtext_nonempty t : jtext t → 1 ≤ String.length t.
Proof. intros [_ H]. destruct t; simpl in *; [done|lia]. Qed.

Lemma value_text_app t rest :
  jtext t → ends_value rest = true → value_text (t +:+ rest) = Some (t, rest).
Proof.
  intros Ht Hr. unfold value_text. rewrite (jt_scan t Ht); [|unfold fuel_of; rewrite length_app_str; lia|done].
  simpl. f_equal. f_equal. rewrite length_app_str.
  replace (String.length t + String.length rest - String.length rest) with (String.length t) by lia.
  clear. induction t as [|c t IH]; [by destruct rest|]. rewrite app_str_cons. simpl. by rewrite IH.
Qed.

(** Members that can be written: a valid key, a value text. *)
Definition member_ok (kv : string * string) : Prop := valid_utf8 kv.1 = true ∧ jtext kv.2.

#[local] Arguments member_text : simpl never.

(** One member read by the scanner and by the reader. *)
Lemma member_head kv rest :
  member_ok kv →
  ∃ s, member_text kv +:+ rest = String quote s ∧
    unq 0 s = Some (kv.1, String ":" (kv.2 +:+ rest)) ∧
    after_char ":" (String ":" (kv.2 +:+ rest)) = Some (kv.2 +:+ rest).
Proof.
  destruct kv as [k v]. intros [Hk Hv]. simpl in *. unfold member_text, quote_json. simpl.
  rewrite !app_str_cons, !app_str_assoc, app_str_cons, app_str_nil_l, app_str_cons.
  eexists. split; [done|]. split; [by apply unq_esc; [lia|]|].
  unfold after_char. simpl. by rewrite jtext_skip_ws.
Qed.

Lemma length_member kv :
  member_ok kv → 4 + String.length kv.2 ≤ String.length (member_text kv) + 1.
Proof.
  intros _. unfold member_text, quote_json. rewrite length_app_str. simpl.
  rewrite length_app_str. simpl. lia.
Qed.

Lemma scan_members_text ms rest fuel :
  ms ≠ [] → Forall member_ok ms →
  2 * String.length (join "," (member_text <$> ms)) + 1 ≤ fuel →
  scan_members fuel (join "," (member_text <$> ms) +:+ String "}" rest) = Some rest.
Proof.
  revert fuel. induction ms as [|kv ms IH]; intros fuel Hne Hms Hf; [done|clear Hne].
  inversion Hms as [|? ? Hkv Hms']; subst. pose proof (length_member kv Hkv) as Hl.
  destruct fuel as [|f]; [simpl in Hf; lia|]. destruct ms as [|kv' ms].
  - change (join "," (member_text <$> [kv])) with (member_text kv) in *.
    destruct (member_head kv (String "}" rest) Hkv) as (s & Hs & Hu & Ha).
    rewrite Hs. cbn [scan_members eat]. rewrite Ascii.eqb_refl. simpl mbind. rewrite Hu. simpl.
    rewrite jtext_skip_ws by apply Hkv.
    rewrite (jt_scan kv.2 (proj2 Hkv)) by (try done; lia). done.
  - assert (join "," (member_text <$> kv :: kv' :: ms) +:+ String "}" rest
      = member_text kv +:+ String "," (join "," (member_text <$> kv' :: ms) +:+ String "}" rest)) as ->.
    { simpl. by rewrite !app_str_assoc, app_str_cons, app_str_nil_l. }
    assert (String.length (join "," (member_text <$> kv :: kv' :: ms)) =
      String.length (member_text kv) + 1 + String.length (join "," (member_text <$> kv' :: ms))) as Hlen.
    { simpl. rewrite !length_app_str. simpl. lia. }
    rewrite Hlen in Hf.
    set (tail := join "," (member_text <$> kv' :: ms) +:+ String "}" rest) in *.
    destruct (member_head kv (String "," tail) Hkv) as (s & Hs & Hu & Ha).
    rewrite Hs. cbn [scan_members eat]. rewrite Ascii.eqb_refl. simpl mbind. rewrite Hu.
    simpl. rewrite jtext_skip_ws by apply Hkv.
    rewrite (jt_scan kv.2 (proj2 Hkv)) by (try done; lia). simpl.
    assert (skip_ws tail = tail) as ->.
    { subst tail. inversion Hms' as [|? ? Hkv' ?]; subst.
      destruct ms; simpl; unfold member_text, quote_json; by rewrite !app_str_cons. }
    apply IH; [done|done|lia].
Qed.

Lemma jtext_object ms : Forall member_ok ms → jtext (object_text ms).
Proof.
  intros Hms. split; [|done]. intros rest fuel Hf Hr. unfold object_text in *.
  rewrite !length_app_str in Hf. simpl in Hf. destruct fuel as [|f]; [lia|].
  rewrite !app_str_assoc, app_str_cons, app_str_nil_l. simpl.
  destruct ms as [|kv ms]; [done|].
  assert (∃ s, join "," (member_text <$> kv :: ms) +:+ "}" +:+ rest = String quote s) as [s Hs].
  { destruct ms; simpl; unfold member_text, quote_json; rewrite !app_str_cons; eauto. }
  rewrite Hs. simpl. rewrite <-Hs. rewrite app_str_cons, app_str_nil_l.
  apply scan_members_text; [done|done|lia].
Qed.

Lemma read_members_text ms rest fuel :
  ms ≠ [] → Forall member_ok ms →
  String.length (join "," (member_text <$> ms)) ≤ fuel →
  read_members fuel (join "," (member_text <$> ms) +:+ String "}" rest) = Some (ms, rest).
Proof.
  revert fuel. induction ms as [|kv ms IH]; intros fuel Hne Hms Hf; [done|clear Hne].
  inversion Hms as [|? ? Hkv Hms']; subst. pose proof (length_member kv Hkv) as Hl.
  destruct fuel as [|f]; [destruct ms; simpl in Hf; rewrite ?length_app_str in Hf; lia|].
  destruct ms as [|kv' ms].
  - change (join "," (member_text <$> [kv])) with (member_text kv) in *.
    destruct (member_head kv (String "}" rest) Hkv) as (s & Hs & Hu & Ha).
    rewrite Hs. cbn [read_members eat]. rewrite Ascii.eqb_refl. simpl mbind. rewrite Hu. simpl.
    rewrite jtext_skip_ws by apply Hkv. rewrite value_text_app by (try done; apply Hkv).
    simpl. by destruct kv.
  - assert (join "," (member_text <$> kv :: kv' :: ms) +:+ String "}" rest
      = member_text kv +:+ String "," (join "," (member_text <$> kv' :: ms) +:+ String "}" rest)) as ->.
    { simpl. by rewrite !app_str_assoc, app_str_cons, app_str_nil_l. }
    assert (String.length (join "," (member_text <$> kv :: kv' :: ms)) =
      String.length (member_text kv) + 1 + String.length (join "," (member_text <$> kv' :: ms))) as Hlen.
    { simpl. rewrite !length_app_str. simpl. lia. }
    rewrite Hlen in Hf.
    set (tail := join "," (member_text <$> kv' :: ms) +:+ String "}" rest) in *.
    destruct (member_head kv (String "," tail) Hkv) as (s & Hs & Hu & Ha).
    rewrite Hs. cbn [read_members eat]. rewrite Ascii.eqb_refl. simpl mbind. rewrite Hu.
    simpl. rewrite jtext_skip_ws by apply Hkv.
    rewrite value_text_app by (try done; apply Hkv). simpl.
    assert (skip_ws tail = tail) as ->.
    { subst tail. destruct ms; simpl; unfold member_text, quote_json; by rewrite !app_str_cons. }
    subst tail. rewrite IH; [by destruct kv|done|done|lia].
Qed.

Lemma read_object_text ms : Forall member_ok ms → read_object (object_text ms) = Some ms.
Proof.
  intros Hms. unfold read_object, object_text. rewrite app_str_cons, app_str_nil_l.
  destruct ms as [|kv ms]; [done|].
  pose proof (read_members_text (kv :: ms) "") as Hr.
  change (String "}" "") with "}" in Hr.
  set (t := join "," (member_text <$> kv :: ms) +:+ "}") in *.
  assert (∃ s, t = String quote s) as [s Hs].
  { subst t. destruct ms; simpl; unfold member_text, quote_json; rewrite !app_str_cons; eauto. }
  unfold after_char. cbn [skip_ws]. change (is_ws "{") with false. cbv iota. cbn [eat].
  rewrite Ascii.eqb_refl. simpl mbind.
  assert (skip_ws t = t ∧ eat "}" t = None) as [-> ->] by (by rewrite Hs).
  rewrite Hr; [done|done|done|]. subst t. rewrite length_app_str. lia.
Qed.

Lemma join_cons2 sep x y l : join sep (x :: y :: l) = x +:+ sep +:+ join sep (y :: l).
Proof. done. Qed.

Lemma jtext_head_app t rest c :
  jtext t → (c = "]"%char ∨ c = "}"%char ∨ c = ","%char) → eat c (t +:+ rest) = None.
Proof.
  intros Ht Hc. pose proof (jtext_nonempty t Ht). destruct Ht as [Hs Hh].
  destruct t as [|d t]; [done|]. rewrite app_str_cons. simpl.
  destruct (Ascii.eqb_spec d c) as [->|]; [exfalso|done].
  specialize (Hs "" (2 * String.length (String c t)) ltac:(lia) eq_refl).
  rewrite app_str_nil_r in Hs. simpl in Hs.
  destruct Hc as [->|[->| ->]]; simpl in Hs; discriminate.
Qed.

Lemma scan_elems_text vs rest fuel :
  vs ≠ [] → Forall jtext vs → 2 * String.length (join "," vs) + 1 ≤ fuel →
  scan_elems fuel (join "," vs +:+ String "]" rest) = Some rest.
Proof.
  revert fuel. induction vs as [|v vs IH]; intros fuel Hne Hvs Hf; [done|clear Hne].
  inversion Hvs as [|? ? Hv Hvs']; subst.
  destruct fuel as [|f]; [simpl in Hf; lia|]. destruct vs as [|w vs].
  - change (join "," [v]) with v in *. cbn [scan_elems].
    rewrite (jt_scan v Hv) by (try done; lia). done.
  - rewrite join_cons2, !app_str_assoc, app_str_cons, app_str_nil_l in *.
    rewrite !length_app_str in Hf. cbn [String.length] in Hf. cbn [scan_elems].
    remember (join "," (w :: vs) +:+ String "]" rest) as tail eqn:Et.
    rewrite (jt_scan v Hv) by (try done; lia). simpl.
    assert (skip_ws tail = tail) as ->.
    { subst tail. inversion Hvs' as [|? ? Hw ?]; subst. destruct vs as [|x vs].
      - by apply jtext_skip_ws.
      - rewrite join_cons2, !app_str_assoc. by apply jtext_skip_ws. }
    subst tail. apply IH; [done|done|lia].
Qed.

Lemma jtext_array vs : Forall jtext vs → jtext (array_text vs).
Proof.
  intros Hvs. split; [|done]. intros rest fuel Hf Hr. unfold array_text in *.
  rewrite !length_app_str in Hf. cbn [String.length] in Hf. destruct fuel as [|f]; [lia|].
  rewrite !app_str_assoc, app_str_cons, app_str_nil_l. simpl.
  destruct vs as [|v vs]; [done|]. rewrite app_str_cons, app_str_nil_l.
  assert (∃ t, join "," (v :: vs) +:+ String "]" rest = v +:+ t) as [t Ht].
  { destruct vs; [by eexists|]. rewrite join_cons2, !app_str_assoc. by eexists. }
  inversion Hvs as [|? ? Hv ?]; subst.
  rewrite Ht, jtext_skip_ws, jtext_head_app by auto. rewrite <-Ht.
  apply scan_elems_text; [done|done|lia].
Qed.

Lemma read_elems_text vs rest fuel :
  vs ≠ [] → Forall jtext vs → String.length (join "," vs) ≤ fuel →
  read_elems fuel (join "," vs +:+ String "]" rest) = Some (vs, rest).
Proof.
  revert fuel. induction vs as [|v vs IH]; intros fuel Hne Hvs Hf; [done|clear Hne].
  inversion Hvs as [|? ? Hv Hvs']; subst. pose proof (jtext_nonempty v Hv).
  destruct fuel as [|f].
  { destruct vs; [simpl in Hf; lia|]. rewrite join_cons2, length_app_str in Hf. lia. }
  destruct vs as [|w vs].
  - change (join "," [v]) with v in *. cbn [read_elems].
    by rewrite value_text_app.
  - rewrite join_cons2, !app_str_assoc, app_str_cons, app_str_nil_l in *.
    rewrite !length_app_str in Hf. cbn [String.length] in Hf. cbn [read_elems].
    remember (join "," (w :: vs) +:+ String "]" rest) as tail eqn:Et.
    rewrite value_text_app by done. simpl.
    assert (skip_ws tail = tail) as ->.
    { subst tail. inversion Hvs' as [|? ? Hw ?]; subst. destruct vs as [|x vs].
      - by apply jtext_skip_ws.
      - rewrite join_cons2, !app_str_assoc. by apply jtext_skip_ws. }
    subst tail. rewrite IH; [done|done|done|lia].
Qed.

Lemma read_array_text vs : Forall jtext vs → read_array (array_text vs) = Some vs.
Proof.
  intros Hvs. unfold read_array, array_text. rewrite app_str_cons, app_str_nil_l.
  destruct vs as [|v vs]; [done|]. pose proof (read_elems_text (v :: vs) "") as Hr.
  change (String "]" "") with "]" in Hr.
  assert (∃ t, join "," (v :: vs) +:+ "]" = v +:+ t) as [t Ht].
  { destruct vs; [by eexists|]. rewrite join_cons2, !app_str_assoc. by eexists. }
  inversion Hvs as [|? ? Hv ?]; subst.
  unfold after_char. cbn [skip_ws]. change (is_ws "[") with false. cbv iota. cbn [eat].
  rewrite Ascii.eqb_refl.
  assert (String.length (join "," (v :: vs)) ≤ String.length (join "," (v :: vs) +:+ "]")) as Hl
    by (rewrite length_app_str; lia).
  set (u := join "," (v :: vs) +:+ "]") in *. clearbody u. simpl mbind.
  assert (skip_ws u = u ∧ eat "]" u = None) as [-> ->].
  { rewrite Ht. split; [by apply jtext_skip_ws|]. by apply jtext_head_app; auto. }
  by rewrite Hr.
Qed.

Lemma read_string_quote s : valid_utf8 s = true → read_string (quote_json s) = Some s.
Proof.
  intros H. unfold read_string, quote_json. rewrite Ascii.eqb_refl.
  rewrite unq_esc; [done|lia|exact H].
Qed.

#[export] Hint Resolve jtext_string jtext_dec jtext_bool jtext_object jtext_array : oms.

(** ** Struct fields *)

(** The key by which encoding/json looks a name up: letters in lower case,
    U+017F (long s) as s and U+212A (Kelvin sign) as k, the only other runes
    whose case folding is an ASCII letter. *)
Fixpoint fold_key (s : string) : string :=
  match s with
  | String a s1 =>
      match s1 with
      | String b s2 =>
          if ((byte a =? 0xC5) && (byte b =? 0xBF))%Z then String "s" (fold_key s2) else
          match s2 with
          | String c s3 =>
              if ((byte a =? 0xE2) && (byte b =? 0x84) && (byte c =? 0xAA))%Z
              then String "k" (fold_key s3)
              else String (lower_byte a) (fold_key s1)
          | EmptyString => String (lower_byte a) (fold_key s1)
          end
      | EmptyString => String (lower_byte a) ""
      end
  | EmptyString => ""
  end.

(** Field names match exactly or up to letter case. *)
Definition field_match (name key : string) : bool :=
  String.eqb key name || String.eqb (fold_key key) (fold_key name).

(** Value text of the last member for a field. *)
Fixpoint field (ms : list (string * string)) (name : string) : option string :=
  match ms with
  | [] => None
  | (k, v) :: ms' =>
      match field ms' name with
      | Some r => Some r
      | None => if field_match name k then Some v else None
      end
  end.

(** A field left at its zero value when absent or null. *)
Definition get {A} (zero : A) (dec : string → option A) (ms : list (string * string))
    (name : string) : option A :=
  match field ms name with
  | None => Some zero
  | Some t => if is_null t then Some zero else dec t
  end.

Definition get_string := get "" read_string.
Definition get_int := get 0%Z parse_int64.
Definition get_uint := get 0%Z parse_uint64.
Definition read_bool (t : string) : option bool :=
  if String.eqb t "true" then Some true
  else if String.eqb t "false" then Some false else None.
Definition get_bool := get false read_bool.
Definition get_opt {A} (dec : string → option A) : list (string * string) → string → option (option A) :=
  get None (λ t, Some <$> dec t).
Definition get_list {A} (dec : string → option A) : list (string * string) → string → option (list A) :=
  get [] (λ t, vs ← read_array t; mapM dec vs).

(** A member with the omitempty option. *)
Definition omit (c : bool) (kv : string * string) : list (string * string) :=
  if c then [] else [kv].

Lemma field_omit c k v ms name :
  field (omit c (k, v) ++ ms) name =
    match field ms name with
    | Some r => Some r
    | None => if field_match name k then (if c then None else Some v) else None
    end.
Proof. destruct c; simpl; destruct (field ms name); try done; by destruct (field_match _ _). Qed.

Lemma field_omit_last c k v name :
  field (omit c (k, v)) name =
    if field_match name k then (if c then None else Some v) else None.
Proof. destruct c; simpl; by destruct (field_match _ _). Qed.

Lemma field_cons k v ms name :
  field ((k, v) :: ms) name =
    match field ms name with
    | Some r => Some r
    | None => if field_match name k then Some v else None
    end.
Proof. done. Qed.

Lemma member_ok_omit c kv : (c = false → member_ok kv) → Forall member_ok (omit c kv).
Proof. destruct c; simpl; [constructor|]. intros H. constructor; [by apply H|constructor]. Qed.

Definition int_text (z : Z) : string := format_int z.

Lemma int_text_nonneg z : (0 ≤ z)%Z → int_text z = dec_nonneg z.
Proof. intros H. unfold int_text, format_int. by rewrite (proj2 (Z.ltb_ge _ _) H). Qed.

Lemma jtext_not_null_string s : is_null (quote_json s) = false.
Proof. done. Qed.

Lemma all_digits_not_null s : all_digits s = true → is_null s = false.
Proof.
  intros H. apply String.eqb_neq. intros ->. done.
Qed.

Lemma parse_uint64_dec n :
  (0 ≤ n ≤ max_uint64)%Z → parse_uint64 (dec_nonneg n) = Some n.
Proof.
  intros H. unfold parse_uint64. rewrite parse_format_dec by lia.
  by rewrite (proj2 (Z.leb_le _ _) (proj2 H)).
Qed.

Lemma parse_int64_dec n :
  (0 ≤ n ≤ max_int64)%Z → parse_int64 (dec_nonneg n) = Some n.
Proof.
  intros H. pose proof (dec_nonneg_digits n ltac:(lia)) as Hd.
  assert (parse_int64 (dec_nonneg n) =
    match parse_dec (dec_nonneg n) with
    | Some n => if (n <=? max_int64)%Z then Some n else None | None => None end) as ->.
  { unfold parse_int64. destruct (dec_nonneg n) as [|c s]; [done|].
    simpl in Hd. apply andb_true_iff in Hd as [Hc _].
    destruct c as [[] [] [] [] [] [] [] []]; try done. }
  rewrite parse_format_dec by lia. by rewrite (proj2 (Z.leb_le _ _) (proj2 H)).
Qed.

(** Members of the record codecs: evaluates the field names met. *)
Ltac field_simpl :=
  repeat (rewrite field_omit || rewrite field_omit_last || rewrite field_cons
          || change (field [] ?n) with (@None string));
  repeat match goal with
  | |- context [field_match ?a ?b] =>
      let v := eval vm_compute in (field_match a b) in
      change (field_match a b) with v
  end; cbv beta iota.

(** ** Splitting what was joined *)

Lemma join_cons sep e es : es ≠ [] → join sep (e :: es) = e +:+ sep +:+ join sep es.
Proof. by destruct es. Qed.

Lemma split_join c es : es ≠ [] → Forall (free_of c) es → split_on c (join (String c "") es) = es.
Proof.
  induction es as [|e es IH]; [done|]. intros _ [He Hes]%Forall_cons.
  destruct es as [|e' es]; [by apply split_on_free|].
  rewrite join_cons by done.
  change (String c "" +:+ join (String c "") (e' :: es)) with (String c (join (String c "") (e' :: es))).
  rewrite split_on_cut by done. f_equal. by apply IH.
Qed.
