(* ===== verification/JsonCompact.v ===== *)
(** * JSON text that compaction leaves alone

    [json.Marshal] passes a [RawMessage] through [json.Compact]; a text that
    [json.Marshal] wrote itself comes out unchanged.  [ctext] adds this to
    [jtext], for strings, integers, booleans, objects and arrays. *)

From S2P Require Import Prelude GoString JsonString Json.

Definition compact_stable (t : string) : Prop :=
  ∀ rest, compact_from false false (t +:+ rest) = t +:+ compact_from false false rest.

Record ctext (t : string) : Prop := {
  ct_text : jtext t;
  ct_compact : compact_stable t;
}.

(** State of [compact_from] after a byte that it copies. *)
Definition after_byte (ins esc : bool) (b : Z) : bool * bool :=
  if ins then
    if esc then (true, false) else if (b =? 92)%Z then (true, true) else (negb (b =? 34)%Z, false)
  else ((b =? 34)%Z, false).

Definition html_byte (b : Z) : bool := ((b =? 60) || (b =? 62) || (b =? 38))%Z.

Lemma compact_copy ins esc c s :
  html_byte (byte c) = false → negb ins && is_ws c = false →
  match s with String d (String e _) => line_sep c d e | _ => false end = false →
  compact_from ins esc (String c s) =
    String c (compact_from (after_byte ins esc (byte c)).1 (after_byte ins esc (byte c)).2 s).
Proof.
  intros H1 H2 H3. cbn [compact_from]. change (_ || _)%Z with (html_byte (byte c)).
  rewrite H1, H2.
  assert ((if ins
           then if esc then compact_from true false s
                else if (byte c =? 92)%Z then compact_from true true s
                else compact_from (negb (byte c =? 34)%Z) false s
           else compact_from (byte c =? 34)%Z false s)
    = compact_from (after_byte ins esc (byte c)).1 (after_byte ins esc (byte c)).2 s) as ->.
  { unfold after_byte. repeat case_match; done. }
  destruct s as [|d [|e s3]]; [done..|]. by rewrite H3.
Qed.

Lemma line_sep_lead c d e : (byte c =? 0xE2)%Z = false → line_sep c d e = false.
Proof. unfold line_sep. by intros ->. Qed.

Lemma compact_copy_ascii ins esc c s :
  (byte c =? 0xE2)%Z = false → html_byte (byte c) = false → negb ins && is_ws c = false →
  compact_from ins esc (String c s) =
    String c (compact_from (after_byte ins esc (byte c)).1 (after_byte ins esc (byte c)).2 s).
Proof.
  intros H1 H2 H3. apply compact_copy; [done..|].
  destruct s as [|d [|e s3]]; [done..|]. by apply line_sep_lead.
Qed.

Ltac copy_ascii := rewrite compact_copy_ascii by done; cbn [after_byte fst snd].

(** ** Strings *)

Lemma compact_esc_ascii c rest :
  ascii_byte (byte c) = true →
  compact_from true false (esc_ascii c +:+ rest) = esc_ascii c +:+ compact_from true false rest.
Proof.
  intros Hc. destruct c as [[] [] [] [] [] [] [] []]; try discriminate Hc; clear Hc;
    match goal with |- context [esc_ascii ?c] =>
      let v := eval vm_compute in (esc_ascii c) in change (esc_ascii c) with v end;
    rewrite ?app_str_cons, app_str_nil_l;
    repeat (rewrite compact_copy_ascii by done;
      match goal with |- context [after_byte ?a ?b ?x] =>
        let v := eval vm_compute in (after_byte a b x) in
        change (after_byte a b x) with v; cbn [fst snd] end);
    done.
Qed.

Lemma compact_u_escape_sep c rest :
  (byte c = 0xA8 ∨ byte c = 0xA9)%Z →
  compact_from true false (u_escape (0x2000 + (byte c - 0x80)) +:+ rest) =
    u_escape (0x2000 + (byte c - 0x80)) +:+ compact_from true false rest.
Proof.
  intros [-> | ->];
    match goal with |- context [u_escape ?c] =>
      let v := eval vm_compute in (u_escape c) in change (u_escape c) with v end;
    rewrite ?app_str_cons, app_str_nil_l;
    repeat (rewrite compact_copy_ascii by done;
      match goal with |- context [after_byte ?a ?b ?x] =>
        let v := eval vm_compute in (after_byte a b x) in
        change (after_byte a b x) with v; cbn [fst snd] end);
    done.
Qed.

Lemma decode_rune_continues b l r w :
  ascii_byte b = false → decode_rune (b :: l) = (r, w) → 2 ≤ w →
  (0xC2 <= b)%Z ∧ forallb cont (take (pred w) l) = true ∧ (b = 0xE2%Z → w = 3).
Proof.
  unfold ascii_byte, decode_rune. intros ->.
  destruct l as [|b1 r1]; [intros [= _ <-]; lia|].
  destruct (between 0xC2 0xDF b && cont b1) eqn:E1.
  { intros [= _ <-] _. unfold between in E1. cbn [pred take forallb]. bool_prop.
    split_and!; [lia| |lia]. rewrite take_0. cbn. by rewrite H0. }
  destruct r1 as [|b2 r2]; [intros [= _ <-]; lia|].
  destruct (between 0xE0 0xEF b && _ && cont b2) eqn:E2.
  { intros [= _ <-] _. unfold between in E2. bool_prop.
    assert (cont b1 = true) as Hc by (unfold cont; repeat case_match; lia).
    cbn. rewrite take_0. split_and!; [lia| |done]. rewrite Hc, H0. done. }
  destruct r2 as [|b3 r3]; [intros [= _ <-]; lia|].
  destruct (between 0xF0 0xF4 b && _ && cont b2 && cont b3) eqn:E3; [|intros [= _ <-]; lia].
  intros [= _ <-] _. unfold between in E3. bool_prop.
  assert (cont b1 = true) as Hc by (unfold cont; repeat case_match; lia).
  cbn. rewrite take_0. split_and!; [lia| |lia]. rewrite Hc, H1, H0. done.
Qed.

Lemma copied_byte c :
  (0x80 <= byte c)%Z →
  html_byte (byte c) = false ∧ after_byte true false (byte c) = (true, false).
Proof.
  intros H. unfold html_byte, after_byte.
  rewrite !(proj2 (Z.eqb_neq _ _)) by lia. done.
Qed.

#[local] Arguments decode_rune : simpl never.

Lemma compact_esc skip s rest :
  skip ≤ String.length s → forallb cont (take skip (bytes s)) = true →
  forallb rune_valid (runes_from skip (bytes s)) = true →
  compact_from true false (esc skip s +:+ String quote rest) =
    esc skip s +:+ String quote (compact_from false false rest).
Proof.
  remember (String.length s) as n eqn:En. revert skip s En.
  induction n as [n IH] using lt_wf_ind. intros skip s En Hskip Hc Hv.
  destruct s as [|c s].
  { simpl in En. subst n. assert (skip = 0) as -> by lia. cbn [esc].
    rewrite !app_str_nil_l. by rewrite compact_copy_ascii. }
  simpl in En. destruct skip as [|k].
  { cbn [esc]. destruct (ascii_byte (byte c)) eqn:Ec.
    { rewrite !app_str_assoc, compact_esc_ascii by done.
      simpl bytes in Hv. rewrite runes_from_ascii_cons in Hv by done.
      simpl in Hv. apply andb_true_iff in Hv as [_ Hv].
      by rewrite (IH (String.length s)); [|lia|done|lia|by rewrite take_0|done]. }
    rewrite decode_rune_bytes_n. simpl bytes in *. simpl runes_from in Hv.
    simpl in Hv. apply andb_true_iff in Hv as [Hrw Hv].
    pose proof (decode_rune_valid_high (byte c) (bytes s) Ec Hrw) as Hw.
    destruct (decode_rune (byte c :: bytes s)) as [r w] eqn:Ed. simpl in Hw, Hv.
    pose proof (decode_rune_width _ _ _ Ed) as [Hlen _]. simpl in Hlen.
    assert (length (bytes s) = String.length s) as Hl.
    { clear. induction s; simpl; congruence. }
    destruct (decode_rune_continues _ _ _ _ Ec Ed Hw) as (Hlead & Htail & Hw3).
    cbn [snd]. destruct (Nat.eqb_spec w 1) as [->|_]; [lia|].
    assert (∀ u, match u with String d (String e _) => line_sep c d e | _ => false end = false →
      compact_from true false (String c u) = String c (compact_from true false u)) as Hcopy.
    { intros u Hu. destruct (copied_byte c) as [H1 H2]; [lia|].
      rewrite compact_copy by done. by rewrite H2. }
    assert ((∀ d e s3, s = String d (String e s3) → line_sep c d e = false) →
      compact_from true false (String c (esc (pred w) s) +:+ String quote rest) =
        String c (esc (pred w) s) +:+ String quote (compact_from false false rest)) as Hgen.
    { intros Hsep. rewrite app_str_cons, Hcopy.
      - by rewrite (IH (String.length s)); [|lia|done|lia|done|done].
      - destruct (Z.eqb_spec (byte c) 0xE2) as [HE|HE].
        + rewrite (Hw3 HE) in *. destruct s as [|b [|d s3]]; [simpl in *; lia..|].
          cbn [pred esc]. rewrite !app_str_cons. by apply (Hsep b d s3).
        + destruct (esc _ _ +:+ _) as [|d [|e u]]; [done..|]. apply line_sep_lead.
          by apply Z.eqb_neq. }
    destruct s as [|b [|d s3]]; [by apply Hgen..|].
    destruct (line_sep c b d) eqn:El; [|apply Hgen; congruence].
    unfold line_sep in El. apply andb_true_iff in El as [[Ha _]%andb_true_iff Hd].
    apply Z.eqb_eq in Ha. rewrite (Hw3 Ha) in Hv. simpl in Hv.
    rewrite !app_str_assoc, compact_u_escape_sep.
    - by rewrite (IH (String.length s3)); [|simpl in *; lia|done|lia|by rewrite take_0|done].
    - apply orb_true_iff in Hd as [Hd|Hd]; apply Z.eqb_eq in Hd; auto. }
  cbn [esc]. simpl in Hc. apply andb_true_iff in Hc as [Hcc Hc].
  unfold cont in Hcc. bool_prop. rewrite !app_str_cons.
  destruct (copied_byte c) as [H1 H2]; [lia|]. rewrite compact_copy; [|done..|].
  - rewrite H2. cbn [fst snd]. by rewrite (IH (String.length s)); [|lia|done|lia|done|done].
  - destruct (esc _ _ +:+ _) as [|d [|e u]]; [done..|]. apply line_sep_lead.
    apply Z.eqb_neq. lia.
Qed.

Lemma ctext_string s : valid_utf8 s = true → ctext (quote_json s).
Proof.
  intros H. split; [by apply jtext_string|]. intros rest. unfold quote_json.
  rewrite app_str_cons, app_str_assoc, app_str_cons, app_str_nil_l.
  rewrite compact_copy_ascii by done. change (after_byte false false (byte quote)) with (true, false).
  cbn [fst snd]. rewrite compact_esc; [|lia|by rewrite take_0|exact H].
  by rewrite app_str_cons, app_str_assoc, app_str_cons, app_str_nil_l.
Qed.

(** ** The other values *)

Lemma compact_stable_nil : compact_stable "".
Proof. done. Qed.

Lemma compact_stable_app s t :
  compact_stable s → compact_stable t → compact_stable (s +:+ t).
Proof. intros Hs Ht rest. by rewrite !app_str_assoc, Hs, Ht. Qed.

(** Bytes copied outside a string without entering one. *)
Definition outer_char (c : ascii) : bool :=
  negb (byte c =? 0xE2)%Z && negb (html_byte (byte c)) && negb (is_ws c)
  && negb (byte c =? 34)%Z.

Lemma compact_stable_char c s :
  outer_char c = true → compact_stable s → compact_stable (String c s).
Proof.
  unfold outer_char. rewrite !andb_true_iff, !negb_true_iff.
  intros (((H1 & H2) & H3) & H4) Hs rest. rewrite app_str_cons.
  rewrite compact_copy_ascii by (by rewrite ?H3). unfold after_byte. cbn [fst snd].
  rewrite H4. by rewrite Hs.
Qed.

Lemma compact_stable_digits s : all_digits s = true → compact_stable s.
Proof.
  induction s as [|c s IH]; [done|]. simpl. intros [Hc Hs]%andb_true_iff.
  apply compact_stable_char; [|by apply IH].
  clear -Hc. by destruct c as [[] [] [] [] [] [] [] []].
Qed.

Lemma ctext_dec n : (0 ≤ n)%Z → ctext (dec_nonneg n).
Proof.
  intros H. split; [by apply jtext_dec|]. by apply compact_stable_digits, dec_nonneg_digits.
Qed.

Lemma ctext_bool b : ctext (bool_text b).
Proof.
  split; [apply jtext_bool|].
  destruct b; repeat (apply compact_stable_char; [done|]); apply compact_stable_nil.
Qed.

Lemma compact_stable_join l :
  Forall compact_stable l → compact_stable (join "," l).
Proof.
  induction 1 as [|x l Hx Hl IH]; [done|]. destruct l as [|y l]; [done|].
  rewrite join_cons2. apply compact_stable_app; [done|].
  by apply compact_stable_char.
Qed.

Definition cmember_ok (kv : string * string) : Prop := valid_utf8 kv.1 = true ∧ ctext kv.2.

Lemma cmember_member kv : cmember_ok kv → member_ok kv.
Proof. intros [H1 [H2 _]]. by split. Qed.

Lemma ctext_object ms : Forall cmember_ok ms → ctext (object_text ms).
Proof.
  intros H. split.
  - apply jtext_object. eapply Forall_impl; [exact H|]. apply cmember_member.
  - unfold object_text. apply compact_stable_char; [done|].
    refine (compact_stable_app _ "}" _ _); [|by apply compact_stable_char].
    apply compact_stable_join, Forall_fmap. eapply Forall_impl; [exact H|].
    intros [k v] [Hk [_ Hv]]. unfold compose, member_text. simpl in *.
    apply compact_stable_app; [by apply ctext_string|]. by apply compact_stable_char.
Qed.

Lemma ctext_array vs : Forall ctext vs → ctext (array_text vs).
Proof.
  intros H. split.
  - apply jtext_array. eapply Forall_impl; [exact H|]. by intros t [].
  - unfold array_text. apply compact_stable_char; [done|].
    refine (compact_stable_app _ "]" _ _); [|by apply compact_stable_char].
    apply compact_stable_join. eapply Forall_impl; [exact H|]. by intros t [].
Qed.

Lemma compact_ctext t : ctext t → compact t = t.
Proof.
  intros [_ H]. specialize (H ""). cbn [compact_from] in H. by rewrite !app_str_nil_r in H.
Qed.

Lemma json_valid_jtext t : jtext t → json_valid t = true.
Proof.
  intros Ht. unfold json_valid. pose proof (jtext_skip_ws t "" Ht) as Hs.
  rewrite app_str_nil_r in Hs. rewrite Hs.
  destruct Ht as [Hscan _]. specialize (Hscan "" (fuel_of t)).
  rewrite app_str_nil_r in Hscan. rewrite Hscan; [done|unfold fuel_of; lia|done].
Qed.

#[export] Hint Resolve ctext_string ctext_dec ctext_bool ctext_object ctext_array : oms.
