(* ===== verification/Model.v ===== *)
(** * Package model: events and findings

    [internal/model/contracts.go]: the event envelope, the finding document,
    the observation and transition payloads, their validation, and the
    generation of identifiers.  String-typed enumerations stay strings, since
    Go accepts any value in them; [Valid] is the check the program makes. *)

From S2P Require Import Prelude GoString GoTime.

Definition EventSchema := "io.oh-my-safety/event".
Definition EventSchemaVersion : Z := 1.
Definition FindingSchema := "io.oh-my-safety/finding".
Definition FindingSchemaVersion : Z := 1.

Abbreviation Severity := string (only parsing).
Definition SeverityInfo : Severity := "info".
Definition SeverityWarn : Severity := "warn".
Definition SeverityCritical : Severity := "critical".

Definition one_of (s : string) (l : list string) : bool := existsb (String.eqb s) l.

Definition Severity_Valid (s : Severity) : bool :=
  one_of s [SeverityInfo; SeverityWarn; SeverityCritical].

Abbreviation FindingState := string (only parsing).
Definition FindingOpen : FindingState := "open".
Definition FindingAcknowledged : FindingState := "acknowledged".
Definition FindingSuppressed : FindingState := "suppressed".
Definition FindingResolved : FindingState := "resolved".

Definition FindingState_Valid (s : FindingState) : bool :=
  one_of s [FindingOpen; FindingAcknowledged; FindingSuppressed; FindingResolved].

Definition EventFindingObserved := "finding.observed".
Definition EventFindingAcknowledged := "finding.acknowledged".
Definition EventFindingSuppressed := "finding.suppressed".
Definition EventFindingUnsuppressed := "finding.unsuppressed".
Definition EventFindingResolved := "finding.resolved".

Abbreviation Labels := (gmap string string).

Record Subject := { Subject_Type : string; Subject_ID : string; Subject_Name : string }.

(** The payload is the raw JSON text, empty when absent. *)
Record Event := {
  Event_Schema : string;
  Event_SchemaVersion : Z;
  Event_ID : string;
  Event_Type : string;
  OccurredAt : Time;
  RecordedAt : Time;
  Event_Source : string;
  Event_Platform : string;
  Event_Subject : option Subject;
  FindingID : string;
  CorrelationID : string;
  Event_Labels : Labels;
  Payload : string;
}.

Record Evidence := { Evidence_Type : string; Evidence_Ref : string; Evidence_Summary : string }.

Record Remediation := { Rem_Summary : string; Rem_Guide : string; Rem_Reversible : bool }.

Record FindingAction := { Action_At : Time; Action_Actor : string; Action_Note : string }.

Record Finding := {
  Finding_Schema : string;
  Finding_SchemaVersion : Z;
  Finding_ID : string;
  DetectorID : string;
  Category : string;
  Title : string;
  Summary : string;
  Finding_Severity : Severity;
  State : FindingState;
  FirstSeen : Time;
  LastSeen : Time;
  UpdatedAt : Time;
  Occurrences : Z;
  Finding_Evidence : list Evidence;
  Finding_Remediation : option Remediation;
  Finding_Labels : Labels;
  SuppressedUntil : option Time;
  Acknowledgement : option FindingAction;
  Resolution : option FindingAction;
  LastEventID : string;
  LastEventSequence : Z;
}.

Record FindingObservation := {
  Obs_DetectorID : string;
  Obs_Category : string;
  Obs_Title : string;
  Obs_Summary : string;
  Obs_Severity : Severity;
  Obs_Evidence : list Evidence;
  Obs_Remediation : option Remediation;
  Obs_Labels : Labels;
}.

Record FindingTransition := { Tr_Actor : string; Tr_Note : string; Tr_Until : option Time }.

#[export] Instance subject_eq_dec : EqDecision Subject.
Proof. solve_decision. Defined.
#[export] Instance event_eq_dec : EqDecision Event.
Proof. solve_decision. Defined.
#[export] Instance evidence_eq_dec : EqDecision Evidence.
Proof. solve_decision. Defined.
#[export] Instance remediation_eq_dec : EqDecision Remediation.
Proof. solve_decision. Defined.
#[export] Instance action_eq_dec : EqDecision FindingAction.
Proof. solve_decision. Defined.
#[export] Instance finding_eq_dec : EqDecision Finding.
Proof. solve_decision. Defined.
#[export] Instance observation_eq_dec : EqDecision FindingObservation.
Proof. solve_decision. Defined.
#[export] Instance transition_eq_dec : EqDecision FindingTransition.
Proof. solve_decision. Defined.

(** ** Validation

    A [switch] of guards: the first guard that holds gives the error. *)

Fixpoint first_error (l : list (bool * error)) : result unit :=
  match l with
  | [] => Ok tt
  | (c, e) :: l' => if c then Err e else first_error l'
  end.

Section validate.
(** [json.Valid] of the payload. *)
Context (json_valid : string → bool).

Definition Event_Validate (e : Event) : result unit :=
  first_error [
    (negb (String.eqb (Event_Schema e) EventSchema),
      Errorf "unsupported event schema %q" [FStr (Event_Schema e)]);
    (negb (Event_SchemaVersion e =? EventSchemaVersion)%Z,
      Errorf "unsupported event schema version %d" [FInt (Event_SchemaVersion e)]);
    (blank (Event_ID e), ErrorsNew "event id is required");
    (blank (Event_Type e), ErrorsNew "event type is required");
    (is_zero (OccurredAt e), ErrorsNew "event occurred_at is required");
    (is_zero (RecordedAt e), ErrorsNew "event recorded_at is required");
    (blank (Event_Source e), ErrorsNew "event source is required");
    ((0 <? slen (Payload e))%Z && negb (json_valid (Payload e)),
      ErrorsNew "event payload is not valid JSON")].
End validate.

Definition IsFindingLifecycle (e : Event) : bool :=
  one_of (Event_Type e)
    [EventFindingObserved; EventFindingAcknowledged; EventFindingSuppressed;
     EventFindingUnsuppressed; EventFindingResolved].

Definition Finding_Validate (f : Finding) : result unit :=
  first_error [
    (negb (String.eqb (Finding_Schema f) FindingSchema),
      Errorf "unsupported finding schema %q" [FStr (Finding_Schema f)]);
    (negb (Finding_SchemaVersion f =? FindingSchemaVersion)%Z,
      Errorf "unsupported finding schema version %d" [FInt (Finding_SchemaVersion f)]);
    (blank (Finding_ID f), ErrorsNew "finding id is required");
    (blank (DetectorID f), ErrorsNew "finding detector_id is required");
    (blank (Title f), ErrorsNew "finding title is required");
    (negb (Severity_Valid (Finding_Severity f)),
      Errorf "invalid finding severity %q" [FStr (Finding_Severity f)]);
    (negb (FindingState_Valid (State f)),
      Errorf "invalid finding state %q" [FStr (State f)]);
    (is_zero (FirstSeen f) || is_zero (LastSeen f) || is_zero (UpdatedAt f),
      ErrorsNew "finding timestamps are required");
    ((Occurrences f =? 0)%Z, ErrorsNew "finding occurrences must be positive");
    (blank (LastEventID f), ErrorsNew "finding last_event_id is required");
    ((LastEventSequence f <=? 0)%Z, ErrorsNew "finding last_event_sequence must be positive")].

Definition Observation_Validate (o : FindingObservation) : result unit :=
  first_error [
    (blank (Obs_DetectorID o), ErrorsNew "observation detector_id is required");
    (blank (Obs_Title o), ErrorsNew "observation title is required");
    (blank (Obs_Summary o), ErrorsNew "observation summary is required");
    (negb (Severity_Valid (Obs_Severity o)),
      Errorf "invalid observation severity %q" [FStr (Obs_Severity o)])].

(** ** Identifiers *)

Definition hex_char (d : Z) : ascii := (if d <? 10 then chr (48 + d) else chr (87 + d))%Z.

Fixpoint hex_encode (l : list Z) : string :=
  match l with
  | [] => ""
  | b :: l' => String (hex_char (b / 16)%Z) (String (hex_char (b mod 16)%Z) (hex_encode l'))
  end.

(** [NewID] on the sixteen bytes [rand.Read] delivered; [None] is its failure. *)
Definition NewID (random : option (list Z)) : result string :=
  match random with
  | None => Err (Wrapf "generate id: %w" (ErrorsNew "rand.Read") [])
  | Some value =>
      let value := <[6%nat := Z.lor (Z.land (nth 6 value 0%Z) 0x0f) 0x40]> value in
      let value := <[8%nat := Z.lor (Z.land (nth 8 value 0%Z) 0x3f) 0x80]> value in
      let part i j := hex_encode (take (j - i) (drop i value)) in
      Ok (part 0 4 +:+ "-" +:+ part 4 6 +:+ "-" +:+ part 6 8 +:+ "-" +:+ part 8 10
          +:+ "-" +:+ part 10 16)%nat
  end.

(** [NewEvent]; [payload] is [None] for a nil payload, otherwise the outcome
    of [json.Marshal] on it. *)
Definition NewEvent (json_valid : string → bool) (random : option (list Z))
    (eventType source : string) (occurredAt recordedAt : Time)
    (payload : option (result string)) : result Event :=
  id ← NewID random;
  raw ← match payload with
        | None => Ok ""
        | Some m => map_err (λ e, Wrapf "marshal event payload: %w" e []) m
        end;
  let event := {|
    Event_Schema := EventSchema; Event_SchemaVersion := EventSchemaVersion;
    Event_ID := id; Event_Type := eventType;
    OccurredAt := utc occurredAt; RecordedAt := utc recordedAt;
    Event_Source := source; Event_Platform := ""; Event_Subject := None;
    FindingID := ""; CorrelationID := ""; Event_Labels := ∅; Payload := raw |} in
  _ ← Event_Validate json_valid event;
  Ok event.

(** ** Properties *)

Lemma first_error_ok_inv l : first_error l = Ok tt → Forall (λ ce, ce.1 = false) l.
Proof.
  induction l as [|[c e] l IH]; simpl; [constructor|]. destruct c; [done|].
  intros H. constructor; [done|auto].
Qed.

Lemma first_error_ok l : Forall (λ ce, ce.1 = false) l → first_error l = Ok tt.
Proof. induction 1 as [|[c e] l Hc _ IH]; simpl in *; [done|]. by rewrite Hc. Qed.

(** Splits the hypothesis that a [first_error] validation passed. *)
Ltac valid_inv H :=
  apply first_error_ok_inv in H;
  repeat match type of H with
  | Forall _ (_ :: _) =>
      let H1 := fresh "Hv" in
      apply Forall_cons in H as [H1 H]; cbn [fst] in H1
  | Forall _ [] => clear H
  end.

Lemma one_of_elem s l : one_of s l = true ↔ s ∈ l.
Proof.
  unfold one_of. rewrite existsb_exists. split.
  - intros (x & Hx & ->%String.eqb_eq). by apply list_elem_of_In.
  - intros H. exists s. rewrite String.eqb_refl. split; [by apply list_elem_of_In|done].
Qed.

Lemma Event_Validate_ok v e :
  Event_Validate v e = Ok tt ↔
  Event_Schema e = EventSchema ∧ Event_SchemaVersion e = EventSchemaVersion ∧
  blank (Event_ID e) = false ∧ blank (Event_Type e) = false ∧
  ns (OccurredAt e) ≠ 0%Z ∧ ns (RecordedAt e) ≠ 0%Z ∧ blank (Event_Source e) = false ∧
  (Payload e ≠ "" → v (Payload e) = true).
Proof.
  assert ((0 <? slen (Payload e))%Z = negb (String.eqb (Payload e) "")) as Hl.
  { by destruct (Payload e). }
  unfold Event_Validate, is_zero. split.
  - intros H. valid_inv H. rewrite Hl in *. bool_prop.
    split_and!; try done. intros Hne. apply String.eqb_neq in Hne.
    rewrite Hne in *. by destruct (v (Payload e)).
  - intros (-> & -> & -> & -> & H1 & H2 & -> & H3). apply first_error_ok.
    rewrite Hl. repeat constructor; cbn [fst]; try done; try by apply Z.eqb_neq.
    destruct (String.eqb_spec (Payload e) ""); [done|]. by rewrite H3.
Qed.

Lemma Finding_Validate_ok f :
  Finding_Validate f = Ok tt ↔
  Finding_Schema f = FindingSchema ∧ Finding_SchemaVersion f = FindingSchemaVersion ∧
  blank (Finding_ID f) = false ∧ blank (DetectorID f) = false ∧ blank (Title f) = false ∧
  Severity_Valid (Finding_Severity f) = true ∧ FindingState_Valid (State f) = true ∧
  (ns (FirstSeen f) ≠ 0 ∧ ns (LastSeen f) ≠ 0 ∧ ns (UpdatedAt f) ≠ 0)%Z ∧
  Occurrences f ≠ 0%Z ∧ blank (LastEventID f) = false ∧ (0 < LastEventSequence f)%Z.
Proof.
  unfold Finding_Validate, is_zero. split.
  - intros H. valid_inv H. bool_prop. by split_and!.
  - intros (-> & -> & -> & -> & -> & -> & -> & (H1 & H2 & H3) & H4 & -> & H5).
    apply Z.eqb_neq in H1, H2, H3, H4. apply first_error_ok. rewrite H1, H2, H3, H4.
    repeat constructor; cbn [fst]; try done. by apply Z.leb_gt.
Qed.

Lemma Observation_Validate_ok o :
  Observation_Validate o = Ok tt ↔
  blank (Obs_DetectorID o) = false ∧ blank (Obs_Title o) = false ∧
  blank (Obs_Summary o) = false ∧ Severity_Valid (Obs_Severity o) = true.
Proof.
  unfold Observation_Validate. split.
  - intros H. valid_inv H. by bool_prop.
  - intros (-> & -> & -> & ->). done.
Qed.

(** Sixteen bytes as [crypto/rand] fills them. *)
Definition random_bytes (l : list Z) : Prop := length l = 16 ∧ Forall (λ b, (0 ≤ b < 256)%Z) l.

(** A property of a byte is checked on the 256 of them. *)
Lemma byte_forall (P : Z → bool) b :
  forallb P (Z.of_nat <$> seq 0 256) = true → (0 ≤ b < 256)%Z → P b = true.
Proof.
  intros H Hb. apply (proj1 (forallb_forall _ _) H), list_elem_of_In.
  apply list_elem_of_fmap. exists (Z.to_nat b). rewrite elem_of_seq. lia.
Qed.

Lemma version_nibble b :
  (0 ≤ b < 256)%Z → hex_char (Z.lor (Z.land b 0x0f) 0x40 / 16) = "4"%char.
Proof.
  intros Hb. apply Ascii.eqb_eq.
  refine (byte_forall (λ b, Ascii.eqb (hex_char (Z.lor (Z.land b 0x0f) 0x40 / 16)) "4") b _ Hb).
  by vm_compute.
Qed.

Lemma variant_nibble b :
  (0 ≤ b < 256)%Z →
  hex_char (Z.lor (Z.land b 0x3f) 0x80 / 16) ∈ ["8"; "9"; "a"; "b"]%char.
Proof.
  intros Hb. apply (bool_decide_eq_true_1 _).
  refine (byte_forall (λ b, bool_decide
    (hex_char (Z.lor (Z.land b 0x3f) 0x80 / 16) ∈ ["8"; "9"; "a"; "b"]%char)) b _ Hb).
  by vm_compute.
Qed.

(** Identifiers are version-4 UUIDs: thirty-six characters with hyphens
    after 8, 13, 18 and 23, the version digit 4 and a variant digit of 8, 9, a or b. *)
Theorem NewID_shape l id :
  random_bytes l → NewID (Some l) = Ok id →
  String.length id = 36 ∧
  (∀ k, k ∈ [8; 13; 18; 23] → String.get k id = Some "-"%char) ∧
  String.get 14 id = Some "4"%char ∧
  (∃ c, String.get 19 id = Some c ∧ c ∈ ["8"; "9"; "a"; "b"]%char).
Proof.
  intros [Hl Hr]. do 17 (destruct l as [|? l]; simpl in Hl; try lia).
  intros [= <-]. repeat match goal with H : Forall _ (_ :: _) |- _ => inversion_clear H end.
  split_and!; [reflexivity| | |].
  - intros k Hk. repeat (apply elem_of_cons in Hk as [->|Hk]; [reflexivity|]).
    by apply not_elem_of_nil in Hk.
  - cbn -[hex_char Z.lor Z.land Z.div Z.modulo]. by rewrite version_nibble.
  - eexists. split; [reflexivity|]. by apply variant_nibble.
Qed.

Lemma NewID_shape_witness :
  ∃ id, NewID (Some (replicate 16 255%Z)) = Ok id ∧ String.length id = 36.
Proof.
  eexists. split; [reflexivity|].
  eapply (NewID_shape (replicate 16 255%Z)); [|reflexivity].
  split; [reflexivity|]. repeat constructor; lia.
Defined.
