(* ===== verification/ModelJson.v ===== *)
(** * JSON of the model package

    [json.Marshal] and [json.Unmarshal] at the types of
    [internal/model/contracts.go], as their struct tags direct them.  The
    class [Codec] pairs the two; its law [CodecLaws] says that a document
    whose strings are UTF-8, whose times are representable and whose raw
    payload is compact is written, and read back as it was.  The journal is
    proved against the law. *)

From S2P Require Import Prelude GoString Calendar GoTime Json JsonCompact Model.

(** ** Marshalling and unmarshalling *)

Class Codec (A : Type) := {
  enc : A → option string;
  dec : string → option A;
  wf : A → Prop;
}.

Class CodecLaws (A : Type) `{Codec A} : Prop := {
  enc_wf x : wf x → ∃ t, enc x = Some t ∧ ctext t ∧ is_null t = false ∧ dec t = Some x;
}.

(** [json.Marshal], [json.Unmarshal] *)
Definition Marshal {A} `{Codec A} (x : A) : option string := enc x.

Definition Unmarshal {A} `{Codec A} (t : string) : option A :=
  '(v, r) ← value_text (skip_ws t);
  if String.eqb (skip_ws r) "" then dec v else None.

#[global] Arguments Marshal : simpl never.
#[global] Arguments Unmarshal : simpl never.

Lemma Unmarshal_jtext `{Codec A} t : jtext t → Unmarshal (A:=A) t = dec t.
Proof.
  intros Ht. unfold Unmarshal. pose proof (jtext_skip_ws t "" Ht) as Hs.
  pose proof (value_text_app t "" Ht eq_refl) as Hv.
  rewrite app_str_nil_r in Hs, Hv. rewrite Hs, Hv. done.
Qed.

Lemma Marshal_Unmarshal `{CodecLaws A} (x : A) :
  wf x → ∃ t, Marshal x = Some t ∧ Unmarshal t = Some x.
Proof.
  intros Hx. destruct (enc_wf x Hx) as (t & Ht & Hj & _ & Hd).
  exists t. by rewrite Unmarshal_jtext by apply Hj.
Qed.

(** ** Times *)

(** [Time.MarshalJSON] refuses years beyond four digits and zones of a day or more. *)
Definition time_in_range (t : Time) : bool :=
  ((0 <=? cyear (f_date (wall t))) && (cyear (f_date (wall t)) <=? 9999)
   && (-86400 <? off t) && (off t <? 86400))%Z.

Definition raw_quote (s : string) : string := String quote (s +:+ String quote "").

Fixpoint chop_quote (s : string) : option string :=
  match s with
  | EmptyString => None
  | String c EmptyString => if Ascii.eqb c quote then Some "" else None
  | String c s' => String c <$> chop_quote s'
  end.

#[export] Instance time_codec : Codec Time := {
  enc t := if time_in_range t then Some (raw_quote (rfc3339nano t)) else None;
  dec t := s ← eat quote t; s ← chop_quote s; parse_rfc3339 true s;
  wf t := representable t = true;
}.

(** Bytes that a literal holds unescaped. *)
Definition plain_char (c : ascii) : bool :=
  is_digit (byte c) || one_of (String c "") ["-"; "+"; ":"; "."; "T"; "Z"].
Fixpoint plain (s : string) : bool :=
  match s with EmptyString => true | String c s' => plain_char c && plain s' end.

Lemma plain_app s1 s2 : plain (s1 +:+ s2) = plain s1 && plain s2.
Proof.
  induction s1 as [|c s1 IH]; [done|].
  rewrite app_str_cons. simpl. by rewrite IH, andb_assoc.
Qed.

Lemma all_digits_plain s : all_digits s = true → plain s = true.
Proof.
  induction s as [|c s IH]; [done|]. simpl. intros [Hc Hs]%andb_true_iff.
  unfold plain_char. rewrite Hc. auto.
Qed.

Lemma strip_zeros_plain s : plain s = true → plain (strip_zeros s) = true.
Proof.
  induction s as [|c s IH]; [done|]. simpl. intros [Hc Hs]%andb_true_iff.
  specialize (IH Hs). destruct (strip_zeros s) as [|d r] eqn:E.
  - destruct (Ascii.eqb c "0"); [done|]. simpl. by rewrite Hc.
  - simpl in *. by rewrite Hc.
Qed.

Lemma plain_pad w n : (0 ≤ n)%Z → plain (pad w n) = true.
Proof. intros H. by apply all_digits_plain, all_digits_pad. Qed.

Lemma plain_frac n : (0 ≤ n)%Z → plain (frac_text n) = true.
Proof.
  intros H. unfold frac_text. destruct (_ =? 0)%Z; [done|].
  change (plain (strip_zeros (pad 9 n)) = true). by apply strip_zeros_plain, plain_pad.
Qed.

Lemma plain_zone o : plain (zone_text o) = true.
Proof.
  unfold zone_text. destruct (o =? 0)%Z; [done|].
  set (m := Z.quot (Z.abs o) 60).
  assert (0 ≤ m)%Z as Hm by (apply Z.quot_pos; lia). clearbody m.
  pose proof (Z.mod_pos_bound m 60 ltac:(lia)). pose proof (Z.div_pos m 60 Hm ltac:(lia)).
  cbn [plain]. rewrite !plain_app, !plain_pad by lia. by destruct (_ <? 0)%Z.
Qed.

Lemma plain_rfc3339nano t : time_in_range t = true → plain (rfc3339nano t) = true.
Proof.
  unfold time_in_range. intros H. bool_prop.
  pose proof (wall_spec t) as ([Hm Hd] & Hh & Hmi & Hs & Hn & _). cbn zeta in *.
  unfold rfc3339nano, date_text, year_text.
  rewrite (proj2 (Z.ltb_ge _ _)) by lia. rewrite (proj2 (Z.ltb_lt _ 10000)) by lia.
  rewrite !plain_app, !plain_pad, plain_frac, plain_zone by lia. done.
Qed.

Lemma esc_plain s : plain s = true → esc 0 s = s.
Proof.
  induction s as [|c s IH]; [done|]. cbn [plain]. intros [Hc Hs]%andb_true_iff.
  assert (ascii_byte (byte c) = true ∧ esc_ascii c = String c "") as [Ha He].
  { clear -Hc. destruct c as [[] [] [] [] [] [] [] []]; try done. }
  cbn [esc]. rewrite Ha, He, IH by done. done.
Qed.

Lemma plain_ascii s : plain s = true → is_ascii s = true.
Proof.
  induction s as [|c s IH]; [done|]. cbn [plain]. intros [Hc Hs]%andb_true_iff.
  change (ascii_byte (byte c) && is_ascii s = true). rewrite IH by done.
  clear -Hc. by destruct c as [[] [] [] [] [] [] [] []].
Qed.

Lemma raw_quote_plain s : plain s = true → raw_quote s = quote_json s.
Proof. intros H. unfold raw_quote, quote_json. by rewrite esc_plain. Qed.

Lemma chop_quote_app s : chop_quote (s +:+ String quote "") = Some s.
Proof.
  induction s as [|c s IH]; [done|]. rewrite app_str_cons.
  destruct (s +:+ String quote "") as [|d r] eqn:E; [by destruct s|].
  change (String c <$> chop_quote (String d r) = Some (String c s)). by rewrite IH.
Qed.

Lemma representable_range t : representable t = true → time_in_range t = true.
Proof.
  unfold representable, time_in_range. intros H.
  by apply andb_true_iff in H as [-> _].
Qed.

#[export] Instance time_laws : CodecLaws Time.
Proof.
  constructor. intros t Ht. cbn in *. pose proof (representable_range t Ht) as Hr.
  rewrite Hr. pose proof (plain_rfc3339nano t Hr) as Hp.
  eexists. split; [done|]. rewrite raw_quote_plain by done. split_and!.
  - by apply ctext_string, is_ascii_valid, plain_ascii.
  - done.
  - rewrite <-raw_quote_plain by done. unfold raw_quote. cbn [eat].
    rewrite Ascii.eqb_refl. cbn. rewrite chop_quote_app. by apply parse_rfc3339nano.
Qed.

(** ** Structs

    A struct field is its name with what marshalling its value gives: an
    error, nothing (omitempty), or a text. *)

Definition part : Type := string * option (option string).

Definition f_str (s : string) : option (option string) := Some (Some (quote_json s)).
Definition f_str_omit (s : string) : option (option string) :=
  Some (if String.eqb s "" then None else Some (quote_json s)).
Definition f_int (z : Z) : option (option string) := Some (Some (int_text z)).
Definition f_bool (b : bool) : option (option string) := Some (Some (bool_text b)).
Definition f_req `{Codec A} (x : A) : option (option string) := Some <$> enc x.
Definition f_ptr `{Codec A} (o : option A) : option (option string) :=
  match o with None => Some None | Some x => Some <$> enc x end.
Definition f_list_omit `{Codec A} (l : list A) : option (option string) :=
  match l with [] => Some None | _ => ts ← mapM enc l; Some (Some (array_text ts)) end.
(** A list that is written when it is empty, too. *)
Definition f_list `{Codec A} (l : list A) : option (option string) :=
  ts ← mapM enc l; Some (Some (array_text ts)).
Definition f_raw_omit (p : string) : option (option string) :=
  if String.eqb p "" then Some None
  else if json_valid p then Some (Some (compact p)) else None.

Definition key_less (a b : string * string) : bool := str_ltb a.1 b.1.
Definition labels_members (m : Labels) : list (string * string) :=
  (λ kv, (kv.1, quote_json kv.2)) <$> sort_by key_less (map_to_list m).
Definition f_labels_omit (m : Labels) : option (option string) :=
  if bool_decide (m = ∅) then Some None else Some (Some (object_text (labels_members m))).

Definition written (l : list part) (ts : list (option string)) : list (string * string) :=
  omap (λ kt, (kt.1,.) <$> kt.2) (zip l.*1 ts).
Definition enc_struct (l : list part) : option string :=
  ts ← mapM snd l; Some (object_text (written l ts)).

Definition dec_struct {A} (zero : A) (body : list (string * string) → option A) (t : string)
    : option A :=
  if is_null t then Some zero else ms ← read_object t; body ms.

Definition dec_labels (t : string) : option Labels :=
  if is_null t then Some ∅ else
  ms ← read_object t;
  l ← mapM (λ kv, (kv.1,.) <$> (if is_null kv.2 then Some "" else read_string kv.2)) ms;
  Some (list_to_map (reverse l)).
Definition get_raw (ms : list (string * string)) (name : string) : option string :=
  Some (default "" (field ms name)).

(** *** What a field read gives back *)

Definition fill {A} (r : option (option string)) (zero : A) (dec : string → option A) (x : A)
    : Prop :=
  match r with
  | None => False
  | Some None => x = zero
  | Some (Some t) => ctext t ∧ is_null t = false ∧ dec t = Some x
  end.

Definition part_ok (r : option (option string)) : Prop :=
  match r with None => False | Some None => True | Some (Some t) => ctext t end.

Lemma fill_part_ok {A} r (z : A) dec x : fill r z dec x → part_ok r.
Proof. destruct r as [[t|]|]; simpl; tauto. Qed.

Lemma fill_str s : valid_utf8 s = true → fill (f_str s) "" read_string s.
Proof. intros H. split_and!; [by apply ctext_string|done|by apply read_string_quote]. Qed.

Lemma fill_str_omit s : valid_utf8 s = true → fill (f_str_omit s) "" read_string s.
Proof.
  intros H. unfold f_str_omit. destruct (String.eqb_spec s "") as [->|]; [done|].
  by apply fill_str.
Qed.

Lemma int_text_ok z : (0 ≤ z)%Z → ctext (int_text z) ∧ is_null (int_text z) = false.
Proof.
  intros H. rewrite int_text_nonneg by done. split; [by apply ctext_dec|].
  by apply all_digits_not_null, dec_nonneg_digits.
Qed.

Lemma part_int z : (0 ≤ z)%Z → part_ok (f_int z).
Proof. intros H. by apply int_text_ok. Qed.

Lemma fill_int z : (0 ≤ z ≤ max_int64)%Z → fill (f_int z) 0%Z parse_int64 z.
Proof.
  intros H. destruct (int_text_ok z) as [H1 H2]; [lia|]. split_and!; [done..|].
  rewrite int_text_nonneg by lia. by apply parse_int64_dec.
Qed.

Lemma fill_uint z : (0 ≤ z ≤ max_uint64)%Z → fill (f_int z) 0%Z parse_uint64 z.
Proof.
  intros H. destruct (int_text_ok z) as [H1 H2]; [lia|]. split_and!; [done..|].
  rewrite int_text_nonneg by lia. by apply parse_uint64_dec.
Qed.

(** A number read into a field of type uint32. *)
Definition parse_uint32 (t : string) : option Z :=
  z ← parse_uint64 t; if (z <? 2 ^ 32)%Z then Some z else None.
Definition get_uint32 := get 0%Z parse_uint32.

Lemma fill_uint32 z : (0 ≤ z < 2 ^ 32)%Z → fill (f_int z) 0%Z parse_uint32 z.
Proof.
  intros H. destruct (fill_uint z) as (H1 & H2 & H3); [unfold max_uint64; lia|].
  split_and!; [done..|]. unfold parse_uint32. rewrite H3. cbn [mbind option_bind].
  by rewrite (proj2 (Z.ltb_lt _ _)) by apply H.
Qed.

Lemma fill_bool b : fill (f_bool b) false read_bool b.
Proof. split_and!; [apply ctext_bool|by destruct b..]. Qed.

Section fill_codec.
Context {A : Type} `{HC : Codec A, !CodecLaws A}.

Lemma fill_req (z x : A) : wf x → fill (f_req x) z dec x.
Proof.
  intros Hx. destruct (enc_wf x Hx) as (t & Ht & ?). unfold f_req. by rewrite Ht.
Qed.

Lemma part_req (x : A) : wf x → part_ok (f_req x).
Proof. intros Hx. by apply (fill_part_ok _ x dec x), fill_req. Qed.

Lemma fill_ptr (o : option A) :
  (∀ x, o = Some x → wf x) → fill (f_ptr o) None (λ t, Some <$> dec t) o.
Proof.
  intros H. destruct o as [x|]; [|done]. unfold f_ptr.
  destruct (enc_wf x (H x eq_refl)) as (t & -> & Hj & Hn & Hd).
  split_and!; [done..|]. by rewrite Hd.
Qed.

Lemma mapM_enc (l : list A) :
  Forall wf l → ∃ ts, mapM enc l = Some ts ∧ Forall ctext ts ∧ mapM dec ts = Some l.
Proof.
  induction 1 as [|x l Hx Hl IH]; [exists []; by repeat constructor|].
  destruct (enc_wf x Hx) as (t & Ht & Hj & _ & Hd).
  destruct IH as (ts & Hts & Hjs & Hds). simpl. rewrite Ht. exists (t :: ts). rewrite Hts. simpl.
  rewrite Hd. simpl. rewrite Hds. split_and!; [done|by constructor|done].
Qed.

Lemma fill_list_all (l : list A) :
  Forall wf l → fill (f_list l) [] (λ t, vs ← read_array t; mapM dec vs) l.
Proof.
  intros H. unfold f_list. destruct (mapM_enc l H) as (ts & -> & Hj & Hd).
  split_and!; [by apply ctext_array|done|]. rewrite read_array_text; [done|].
  eapply Forall_impl; [exact Hj|]. by intros t [].
Qed.

Lemma fill_list (l : list A) :
  Forall wf l → fill (f_list_omit l) [] (λ t, vs ← read_array t; mapM dec vs) l.
Proof. intros H. destruct l; [done|]. by apply fill_list_all. Qed.
End fill_codec.

(** *** Reading a struct back *)

Fixpoint names_ok (l : list string) : bool :=
  match l with
  | [] => true
  | k :: l' => valid_utf8 k && forallb (λ k', negb (field_match k k') && negb (field_match k' k)) l'
               && names_ok l'
  end.

Lemma field_none ms k :
  Forall (λ kv, field_match k kv.1 = false) ms → field ms k = None.
Proof.
  induction 1 as [|[k' v] ms Hk _ IH]; [done|]. rewrite field_cons, IH. simpl in Hk. by rewrite Hk.
Qed.

Lemma written_names l ts (P : string → Prop) :
  Forall P l.*1 → Forall (λ kv, P kv.1) (written l ts).
Proof.
  unfold written. revert ts. induction l as [|[k r] l IH]; intros ts; simpl; [constructor|].
  intros [Hk Hl]%Forall_cons. destruct ts as [|[t|] ts]; simpl; [constructor| |].
  - constructor; [done|]. by apply IH.
  - by apply IH.
Qed.

Lemma field_match_refl k : field_match k k = true.
Proof. unfold field_match. by rewrite String.eqb_refl. Qed.

Lemma struct_written l :
  names_ok l.*1 = true → Forall (λ p, part_ok p.2) l →
  ∃ ts, mapM snd l = Some ts ∧ Forall cmember_ok (written l ts) ∧
    ∀ k o, (k, Some o) ∈ l → field (written l ts) k = o.
Proof.
  induction l as [|[k r] l IH]; intros Hn Hp.
  { exists []. split_and!; [done|constructor|]. intros k o H. by apply not_elem_of_nil in H. }
  cbn [fmap list_fmap names_ok fst] in Hn.
  apply andb_true_iff in Hn as [[Hv Hd]%andb_true_iff Hn].
  apply Forall_cons in Hp as [Hr Hp]. cbn in Hr.
  destruct r as [o|]; [|done]. destruct (IH Hn Hp) as (ts & Hts & Hm & Hf).
  exists (o :: ts). split_and!.
  - simpl. by rewrite Hts.
  - unfold written. simpl. destruct o as [t|]; simpl; [|done].
    constructor; [by split|done].
  - pose proof (proj1 (forallb_forall _ _) Hd) as Hd'.
    assert (∀ k', k' ∈ l.*1 → field_match k k' = false ∧ field_match k' k = false) as Hd2.
    { intros k' Hk'%list_elem_of_In. specialize (Hd' k' Hk'). cbn beta in Hd'. by bool_prop. }
    intros k' o' [[= -> ->]|Hin]%elem_of_cons.
    + assert (field (written l ts) k = None) as Hnone.
      { apply field_none. apply (written_names _ _ (λ x, field_match k x = false)).
        apply Forall_forall. intros x Hx. by apply Hd2. }
      change (written ((k, Some o) :: l) (o :: ts)) with
        (match (k,.) <$> o with Some y => y :: written l ts | None => written l ts end).
      destruct o as [t|]; simpl; [|done]. by rewrite Hnone, field_match_refl.
    + apply (list_elem_of_fmap_2 fst) in Hin as Hin'. cbn in Hin'.
      change (written ((k, Some o) :: l) (o :: ts)) with
        (match (k,.) <$> o with Some y => y :: written l ts | None => written l ts end).
      destruct o as [t|]; simpl; [|by apply Hf].
      rewrite (Hf _ _ Hin). destruct o' as [t'|]; [done|].
      by rewrite (proj2 (Hd2 k' Hin')).
Qed.

Lemma struct_read l :
  names_ok l.*1 = true → Forall (λ p, part_ok p.2) l →
  ∃ t ms, enc_struct l = Some t ∧ ctext t ∧ is_null t = false ∧ read_object t = Some ms ∧
    (∀ k o, (k, Some o) ∈ l → field ms k = o) ∧
    (∀ A k r (z : A) dec x, (k, r) ∈ l → fill r z dec x → get z dec ms k = Some x).
Proof.
  intros Hn Hp. destruct (struct_written l Hn Hp) as (ts & Hts & Hm & Hf).
  eexists _, (written l ts). unfold enc_struct. rewrite Hts.
  split_and!; [done|by apply ctext_object|done| |done|].
  { apply read_object_text. eapply Forall_impl; [exact Hm|]. apply cmember_member. }
  intros A k r z d x Hin Hx. destruct r as [o|]; [|done].
  unfold get. rewrite (Hf _ _ Hin). destruct o as [t|]; simpl in Hx; [|by subst].
  by destruct Hx as (_ & -> & Hd).
Qed.

Lemma dec_struct_read {A} (z : A) body t ms :
  is_null t = false → read_object t = Some ms → dec_struct z body t = body ms.
Proof. intros H1 H2. unfold dec_struct. by rewrite H1, H2. Qed.

(** ** The documents *)

Definition wf_labels (m : Labels) : bool :=
  forallb (λ kv, valid_utf8 kv.1 && valid_utf8 kv.2) (map_to_list m).

Lemma mapM_read_strings (l : list (string * string)) :
  forallb (λ kv, valid_utf8 kv.1 && valid_utf8 kv.2) l = true →
  mapM (λ kv, (kv.1,.) <$> (if is_null kv.2 then Some "" else read_string kv.2))
    ((λ kv, (kv.1, quote_json kv.2)) <$> l) = Some l.
Proof.
  induction l as [|[k v] l IH]; [done|]. cbn [forallb fst snd].
  intros [[_ Hv]%andb_true_iff Hl]%andb_true_iff. cbn -[quote_json is_null read_string].
  rewrite jtext_not_null_string, read_string_quote by done. cbn -[quote_json is_null read_string].
  change (list_fmap _ _ ?f l) with (f <$> l). by rewrite IH.
Qed.

Lemma fill_labels m : wf_labels m = true → fill (f_labels_omit m) ∅ dec_labels m.
Proof.
  intros Hm. unfold f_labels_omit. case_bool_decide as He; [by subst|].
  set (l := sort_by key_less (map_to_list m)).
  assert (forallb (λ kv, valid_utf8 kv.1 && valid_utf8 kv.2) l = true) as Hl.
  { apply forallb_forall. intros kv Hin%list_elem_of_In.
    unfold l in Hin. rewrite (elem_of_sort_by key_less) in Hin.
    apply (proj1 (forallb_forall _ _) Hm), list_elem_of_In, Hin. }
  assert (Forall cmember_ok (labels_members m)) as Hok.
  { unfold labels_members. fold l. apply Forall_fmap, Forall_forall. intros kv Hin.
    pose proof (proj1 (forallb_forall _ _) Hl kv (proj1 (list_elem_of_In _ _) Hin)) as Hkv.
    apply andb_true_iff in Hkv as [Hk Hv]. split; [done|]. by apply ctext_string. }
  split_and!; [by apply ctext_object|done|].
  unfold dec_labels. change (is_null (object_text (labels_members m))) with false.
  cbv iota. rewrite read_object_text by (eapply Forall_impl; [exact Hok|]; apply cmember_member). cbn [mbind option_bind].
  unfold labels_members. fold l. rewrite mapM_read_strings by done. cbn [mbind option_bind].
  assert (reverse l ≡ₚ map_to_list m) as HP.
  { rewrite reverse_Permutation. apply sort_by_perm. }
  f_equal. trans (list_to_map (map_to_list m) : Labels); [|apply list_to_map_to_list].
  apply list_to_map_proper; [|done]. rewrite HP. apply NoDup_fst_map_to_list.
Qed.

(** Discharges the round trip of a struct from those of its fields. *)
Ltac fills :=
  match goal with
  | |- fill (f_str_omit _) _ _ _ => apply fill_str_omit; done
  | |- fill (f_str _) _ _ _ => apply fill_str; done
  | |- fill (f_int _) _ parse_uint32 _ => apply fill_uint32; lia
  | |- fill (f_int _) _ parse_uint64 _ => apply fill_uint; lia
  | |- fill (f_int _) _ _ _ => apply fill_int; lia
  | |- fill (f_bool _) _ _ _ => apply fill_bool
  | |- fill (f_labels_omit _) _ _ _ => apply fill_labels; done
  | |- fill (f_list_omit _) _ _ _ => apply fill_list; done
  | |- fill (f_list _) _ _ _ => apply fill_list_all; done
  | |- fill (f_req _) _ _ _ => apply fill_req; done
  | |- fill (f_ptr _) _ _ _ => apply fill_ptr; solve [eauto]
  end.

Ltac elem_here := repeat first [apply list_elem_of_here | apply list_elem_of_further].

(** All the strings are UTF-8. *)
Definition utf8 (l : list string) : Prop := Forall (λ s, valid_utf8 s = true) l.

Ltac wf_split :=
  repeat match goal with
  | H : _ ∧ _ |- _ => destruct H
  | H : utf8 _ |- _ => unfold utf8 in H
  | H : Forall _ (_ :: _) |- _ => apply Forall_cons in H
  | H : Forall _ [] |- _ => clear H
  end.

Ltac read_fields G :=
  repeat match goal with
  | |- context [get ?z ?d ?ms ?k] =>
      erewrite (G _ k _ z d _); [|elem_here|fills]; cbn [mbind option_bind]
  end.

Ltac struct_laws parts :=
  let t := fresh "t" in let ms := fresh "ms" in
  let He := fresh "He" in let Hj := fresh "Hj" in let Hn := fresh "Hn" in
  let Hr := fresh "Hr" in let F := fresh "F" in let G := fresh "G" in
  destruct (struct_read parts) as (t & ms & He & Hj & Hn & Hr & F & G);
  [ vm_compute; reflexivity
  | repeat first [apply Forall_nil_2 | apply Forall_cons_2]; cbn [snd];
    try first [apply part_req; done | apply part_int; lia | eapply fill_part_ok; fills]
  | exists t; split; [exact He|split; [exact Hj|split; [exact Hn|]]];
    rewrite (dec_struct_read _ _ _ ms) by done;
    unfold get_string, get_int, get_uint, get_uint32, get_bool, get_opt, get_list; read_fields G ].

Definition Subject_parts (s : Subject) : list part :=
  [("type", f_str (Subject_Type s)); ("id", f_str (Subject_ID s));
   ("name", f_str_omit (Subject_Name s))].

#[export] Instance Subject_codec : Codec Subject := {
  enc s := enc_struct (Subject_parts s);
  dec := dec_struct {| Subject_Type := ""; Subject_ID := ""; Subject_Name := "" |} (λ ms,
    ty ← get_string ms "type"; id ← get_string ms "id"; name ← get_string ms "name";
    Some {| Subject_Type := ty; Subject_ID := id; Subject_Name := name |});
  wf s := utf8 [Subject_Type s; Subject_ID s; Subject_Name s];
}.

#[export] Instance Subject_laws : CodecLaws Subject.
Proof.
  constructor. intros s H. cbn [wf enc dec Subject_codec] in *. wf_split.
  struct_laws (Subject_parts s). by destruct s.
Qed.

Definition Evidence_parts (e : Evidence) : list part :=
  [("type", f_str (Evidence_Type e)); ("ref", f_str_omit (Evidence_Ref e));
   ("summary", f_str (Evidence_Summary e))].

#[export] Instance Evidence_codec : Codec Evidence := {
  enc e := enc_struct (Evidence_parts e);
  dec := dec_struct {| Evidence_Type := ""; Evidence_Ref := ""; Evidence_Summary := "" |} (λ ms,
    ty ← get_string ms "type"; r ← get_string ms "ref"; su ← get_string ms "summary";
    Some {| Evidence_Type := ty; Evidence_Ref := r; Evidence_Summary := su |});
  wf e := utf8 [Evidence_Type e; Evidence_Ref e; Evidence_Summary e];
}.

#[export] Instance Evidence_laws : CodecLaws Evidence.
Proof.
  constructor. intros e H. cbn [wf enc dec Evidence_codec] in *. wf_split.
  struct_laws (Evidence_parts e). by destruct e.
Qed.

Definition Remediation_parts (r : Remediation) : list part :=
  [("summary", f_str (Rem_Summary r)); ("guide", f_str_omit (Rem_Guide r));
   ("reversible", f_bool (Rem_Reversible r))].

#[export] Instance Remediation_codec : Codec Remediation := {
  enc r := enc_struct (Remediation_parts r);
  dec := dec_struct {| Rem_Summary := ""; Rem_Guide := ""; Rem_Reversible := false |} (λ ms,
    s ← get_string ms "summary"; g ← get_string ms "guide"; b ← get_bool ms "reversible";
    Some {| Rem_Summary := s; Rem_Guide := g; Rem_Reversible := b |});
  wf r := utf8 [Rem_Summary r; Rem_Guide r];
}.

#[export] Instance Remediation_laws : CodecLaws Remediation.
Proof.
  constructor. intros r H. cbn [wf enc dec Remediation_codec] in *. wf_split.
  struct_laws (Remediation_parts r). by destruct r.
Qed.

Definition FindingAction_parts (a : FindingAction) : list part :=
  [("at", f_req (Action_At a)); ("actor", f_str (Action_Actor a));
   ("note", f_str_omit (Action_Note a))].

#[export] Instance FindingAction_codec : Codec FindingAction := {
  enc a := enc_struct (FindingAction_parts a);
  dec := dec_struct {| Action_At := zero_time; Action_Actor := ""; Action_Note := "" |} (λ ms,
    t ← get zero_time dec ms "at"; ac ← get_string ms "actor"; n ← get_string ms "note";
    Some {| Action_At := t; Action_Actor := ac; Action_Note := n |});
  wf a := wf (Action_At a) ∧ utf8 [Action_Actor a; Action_Note a];
}.

#[export] Instance FindingAction_laws : CodecLaws FindingAction.
Proof.
  constructor. intros a H. cbn [wf enc dec FindingAction_codec] in *. wf_split.
  struct_laws (FindingAction_parts a). by destruct a.
Qed.

Definition Event_parts (e : Event) : list part :=
  [("schema", f_str (Event_Schema e)); ("schema_version", f_int (Event_SchemaVersion e));
   ("id", f_str (Event_ID e)); ("type", f_str (Event_Type e));
   ("occurred_at", f_req (OccurredAt e)); ("recorded_at", f_req (RecordedAt e));
   ("source", f_str (Event_Source e)); ("platform", f_str_omit (Event_Platform e));
   ("subject", f_ptr (Event_Subject e)); ("finding_id", f_str_omit (FindingID e));
   ("correlation_id", f_str_omit (CorrelationID e)); ("labels", f_labels_omit (Event_Labels e));
   ("payload", f_raw_omit (Payload e))].

Definition zero_event : Event := {|
  Event_Schema := ""; Event_SchemaVersion := 0; Event_ID := ""; Event_Type := "";
  OccurredAt := zero_time; RecordedAt := zero_time; Event_Source := ""; Event_Platform := "";
  Event_Subject := None; FindingID := ""; CorrelationID := ""; Event_Labels := ∅;
  Payload := "" |}.

(** A payload that marshalling leaves as it is: absent, or JSON text as
    [json.Marshal] writes it. *)
Definition compact_payload (p : string) : Prop := p = "" ∨ ctext p.

#[export] Instance Event_codec : Codec Event := {
  enc e := enc_struct (Event_parts e);
  dec := dec_struct zero_event (λ ms,
    sc ← get_string ms "schema"; sv ← get_int ms "schema_version"; id ← get_string ms "id";
    ty ← get_string ms "type"; oc ← get zero_time dec ms "occurred_at";
    rc ← get zero_time dec ms "recorded_at"; so ← get_string ms "source";
    pl ← get_string ms "platform"; su ← get_opt dec ms "subject";
    fi ← get_string ms "finding_id"; co ← get_string ms "correlation_id";
    la ← get ∅ dec_labels ms "labels"; pa ← get_raw ms "payload";
    Some {| Event_Schema := sc; Event_SchemaVersion := sv; Event_ID := id; Event_Type := ty;
            OccurredAt := oc; RecordedAt := rc; Event_Source := so; Event_Platform := pl;
            Event_Subject := su; FindingID := fi; CorrelationID := co; Event_Labels := la;
            Payload := pa |});
  wf e :=
    utf8 [Event_Schema e; Event_ID e; Event_Type e; Event_Source e; Event_Platform e;
          FindingID e; CorrelationID e] ∧
    (0 ≤ Event_SchemaVersion e ≤ max_int64)%Z ∧ wf (OccurredAt e) ∧ wf (RecordedAt e) ∧
    (∀ s, Event_Subject e = Some s → wf s) ∧ wf_labels (Event_Labels e) = true ∧
    compact_payload (Payload e);
}.

Lemma f_raw_compact p :
  compact_payload p → f_raw_omit p = Some (if String.eqb p "" then None else Some p).
Proof.
  unfold f_raw_omit. intros Hp. destruct (String.eqb_spec p "") as [|Hne]; [done|].
  destruct Hp as [|Hp]; [done|]. by rewrite json_valid_jtext, compact_ctext by (by try apply Hp).
Qed.

#[export] Instance Event_laws : CodecLaws Event.
Proof.
  constructor. intros e H. cbn [wf enc dec Event_codec] in *. wf_split.
  assert (f_raw_omit (Payload e) = Some (if String.eqb (Payload e) "" then None else Some (Payload e)))
    as Hraw by (by apply f_raw_compact).
  struct_laws (Event_parts e).
  - rewrite Hraw. destruct (String.eqb_spec (Payload e) "") as [|Hne]; [done|].
    match goal with Hp : compact_payload _ |- _ => by destruct Hp end.
  - unfold get_raw. erewrite F by (rewrite <-Hraw; elem_here).
    cbn [mbind option_bind]. destruct e as [??????????? ? p]. cbn.
    by destruct (String.eqb_spec p "") as [->|].
Qed.

Definition Finding_parts (f : Finding) : list part :=
  [("schema", f_str (Finding_Schema f)); ("schema_version", f_int (Finding_SchemaVersion f));
   ("id", f_str (Finding_ID f)); ("detector_id", f_str (DetectorID f));
   ("category", f_str (Category f)); ("title", f_str (Title f)); ("summary", f_str (Summary f));
   ("severity", f_str (Finding_Severity f)); ("state", f_str (State f));
   ("first_seen", f_req (FirstSeen f)); ("last_seen", f_req (LastSeen f));
   ("updated_at", f_req (UpdatedAt f)); ("occurrences", f_int (Occurrences f));
   ("evidence", f_list_omit (Finding_Evidence f));
   ("remediation", f_ptr (Finding_Remediation f));
   ("labels", f_labels_omit (Finding_Labels f));
   ("suppressed_until", f_ptr (SuppressedUntil f));
   ("acknowledgement", f_ptr (Acknowledgement f)); ("resolution", f_ptr (Resolution f));
   ("last_event_id", f_str (LastEventID f));
   ("last_event_sequence", f_int (LastEventSequence f))].

Definition zero_finding : Finding := {|
  Finding_Schema := ""; Finding_SchemaVersion := 0; Finding_ID := ""; DetectorID := "";
  Category := ""; Title := ""; Summary := ""; Finding_Severity := ""; State := "";
  FirstSeen := zero_time; LastSeen := zero_time; UpdatedAt := zero_time; Occurrences := 0;
  Finding_Evidence := []; Finding_Remediation := None; Finding_Labels := ∅;
  SuppressedUntil := None; Acknowledgement := None; Resolution := None;
  LastEventID := ""; LastEventSequence := 0 |}.

#[export] Instance Finding_codec : Codec Finding := {
  enc f := enc_struct (Finding_parts f);
  dec := dec_struct zero_finding (λ ms,
    sc ← get_string ms "schema"; sv ← get_int ms "schema_version"; id ← get_string ms "id";
    de ← get_string ms "detector_id"; ca ← get_string ms "category";
    ti ← get_string ms "title"; su ← get_string ms "summary"; se ← get_string ms "severity";
    st ← get_string ms "state"; fs ← get zero_time dec ms "first_seen";
    ls ← get zero_time dec ms "last_seen"; up ← get zero_time dec ms "updated_at";
    oc ← get_uint ms "occurrences"; ev ← get_list dec ms "evidence";
    re ← get_opt dec ms "remediation"; la ← get ∅ dec_labels ms "labels";
    un ← get_opt dec ms "suppressed_until"; ac ← get_opt dec ms "acknowledgement";
    rs ← get_opt dec ms "resolution"; li ← get_string ms "last_event_id";
    lq ← get_int ms "last_event_sequence";
    Some {| Finding_Schema := sc; Finding_SchemaVersion := sv; Finding_ID := id;
            DetectorID := de; Category := ca; Title := ti; Summary := su;
            Finding_Severity := se; State := st; FirstSeen := fs; LastSeen := ls;
            UpdatedAt := up; Occurrences := oc; Finding_Evidence := ev;
            Finding_Remediation := re; Finding_Labels := la; SuppressedUntil := un;
            Acknowledgement := ac; Resolution := rs; LastEventID := li;
            LastEventSequence := lq |});
  wf f :=
    utf8 [Finding_Schema f; Finding_ID f; DetectorID f; Category f; Title f; Summary f;
          Finding_Severity f; State f; LastEventID f] ∧
    (0 ≤ Finding_SchemaVersion f ≤ max_int64)%Z ∧ (0 ≤ Occurrences f ≤ max_uint64)%Z ∧
    (0 ≤ LastEventSequence f ≤ max_int64)%Z ∧
    wf (FirstSeen f) ∧ wf (LastSeen f) ∧ wf (UpdatedAt f) ∧
    Forall wf (Finding_Evidence f) ∧ (∀ r, Finding_Remediation f = Some r → wf r) ∧
    wf_labels (Finding_Labels f) = true ∧ (∀ t, SuppressedUntil f = Some t → wf t) ∧
    (∀ a, Acknowledgement f = Some a → wf a) ∧ (∀ a, Resolution f = Some a → wf a);
}.

#[export] Instance Finding_laws : CodecLaws Finding.
Proof.
  constructor. intros f H. cbn [wf enc dec Finding_codec] in *. wf_split.
  struct_laws (Finding_parts f). by destruct f.
Qed.

Definition Observation_parts (o : FindingObservation) : list part :=
  [("detector_id", f_str (Obs_DetectorID o)); ("category", f_str (Obs_Category o));
   ("title", f_str (Obs_Title o)); ("summary", f_str (Obs_Summary o));
   ("severity", f_str (Obs_Severity o)); ("evidence", f_list_omit (Obs_Evidence o));
   ("remediation", f_ptr (Obs_Remediation o)); ("labels", f_labels_omit (Obs_Labels o))].

Definition zero_observation : FindingObservation := {|
  Obs_DetectorID := ""; Obs_Category := ""; Obs_Title := ""; Obs_Summary := "";
  Obs_Severity := ""; Obs_Evidence := []; Obs_Remediation := None; Obs_Labels := ∅ |}.

#[export] Instance Observation_codec : Codec FindingObservation := {
  enc o := enc_struct (Observation_parts o);
  dec := dec_struct zero_observation (λ ms,
    de ← get_string ms "detector_id"; ca ← get_string ms "category";
    ti ← get_string ms "title"; su ← get_string ms "summary"; se ← get_string ms "severity";
    ev ← get_list dec ms "evidence"; re ← get_opt dec ms "remediation";
    la ← get ∅ dec_labels ms "labels";
    Some {| Obs_DetectorID := de; Obs_Category := ca; Obs_Title := ti; Obs_Summary := su;
            Obs_Severity := se; Obs_Evidence := ev; Obs_Remediation := re;
            Obs_Labels := la |});
  wf o :=
    utf8 [Obs_DetectorID o; Obs_Category o; Obs_Title o; Obs_Summary o; Obs_Severity o] ∧
    Forall wf (Obs_Evidence o) ∧ (∀ r, Obs_Remediation o = Some r → wf r) ∧
    wf_labels (Obs_Labels o) = true;
}.

#[export] Instance Observation_laws : CodecLaws FindingObservation.
Proof.
  constructor. intros o H. cbn [wf enc dec Observation_codec] in *. wf_split.
  struct_laws (Observation_parts o). by destruct o.
Qed.

Definition Transition_parts (t : FindingTransition) : list part :=
  [("actor", f_str (Tr_Actor t)); ("note", f_str_omit (Tr_Note t)); ("until", f_ptr (Tr_Until t))].

Definition zero_transition : FindingTransition :=
  {| Tr_Actor := ""; Tr_Note := ""; Tr_Until := None |}.

#[export] Instance Transition_codec : Codec FindingTransition := {
  enc t := enc_struct (Transition_parts t);
  dec := dec_struct zero_transition (λ ms,
    ac ← get_string ms "actor"; no ← get_string ms "note"; un ← get_opt dec ms "until";
    Some {| Tr_Actor := ac; Tr_Note := no; Tr_Until := un |});
  wf t := utf8 [Tr_Actor t; Tr_Note t] ∧ (∀ u, Tr_Until t = Some u → wf u);
}.

#[export] Instance Transition_laws : CodecLaws FindingTransition.
Proof.
  constructor. intros t H. cbn [wf enc dec Transition_codec] in *. wf_split.
  struct_laws (Transition_parts t). by destruct t.
Qed.

(** Marshalling an event whose strings are UTF-8, whose times are
    representable and whose payload is compact JSON succeeds, and
    unmarshalling the text gives the event back, payload included. *)
Theorem Event_roundtrip (e : Event) :
  wf e → ∃ t, Marshal e = Some t ∧ Unmarshal t = Some e.
Proof. apply Marshal_Unmarshal. Qed.

(** A finding document survives the round trip through its JSON text:
    every field, the optional ones and the labels included. *)
Theorem Finding_roundtrip (f : Finding) :
  wf f → ∃ t, Marshal f = Some t ∧ Unmarshal t = Some f.
Proof. apply Marshal_Unmarshal. Qed.
