(* ===== verification/StrictJson.v ===== *)
(** * Strict decoding

    [decodeStrictReader] of [internal/controller/auth.go] and its twins: a
    [json.Decoder] with [DisallowUnknownFields] reads one value, and nothing
    but white space may follow.  The fields a Go type has, at every depth, are
    its [shape]; decoding fails on a member that matches none of them.  What
    is written for a well-formed value is accepted. *)

From S2P Require Import Prelude GoString Json JsonCompact Model ModelJson.

Inductive shape :=
  | Leaf
  | Fields (fs : list (string * shape))
  | Items (s : shape).

(** Every member of every object read into a struct has a field. *)
Fixpoint known (sh : shape) (t : string) : bool :=
  match sh with
  | Leaf => true
  | Fields fs =>
      is_null t ||
      match read_object t with
      | Some ms =>
          forallb (λ kv, existsb (λ f, match f with (name, s) =>
                                         field_match name kv.1 && known s kv.2 end) fs) ms
      | None => true
      end
  | Items s =>
      is_null t || match read_array t with Some ts => forallb (known s) ts | None => true end
  end.

Class Shaped (A : Type) := shape_of : shape.
Arguments shape_of A {_}.

(** The value of the only JSON value of a text. *)
Definition decode_strict {A} `{Codec A, Shaped A} (t : string) : option A :=
  '(v, r) ← value_text (skip_ws t);
  if String.eqb (skip_ws r) "" && known (shape_of A) v then dec v else None.

(** Text written for a value has no unknown member. *)
Class ShapedLaws (A : Type) `{Codec A, Shaped A} : Prop := {
  enc_known (x : A) t : wf x → enc x = Some t → known (shape_of A) t = true;
}.

Lemma decode_strict_followed {A} `{CodecLaws A} `{!Shaped A, !ShapedLaws A} (x : A) ws :
  wf x → ends_value ws = true → skip_ws ws = "" →
  ∃ t, Marshal x = Some t ∧ decode_strict (t +:+ ws) = Some x.
Proof.
  intros Hx Hstop Hws. destruct (enc_wf x Hx) as (t & Ht & Hj & _ & Hd). exists t. split; [done|].
  destruct Hj as [Hj _]. unfold decode_strict.
  rewrite (jtext_skip_ws t ws Hj), (value_text_app t ws Hj Hstop). cbn [mbind option_bind].
  by rewrite Hws, (enc_known x t Hx Ht).
Qed.

Lemma decode_strict_Marshal {A} `{CodecLaws A} `{!Shaped A, !ShapedLaws A} (x : A) :
  wf x → ∃ t, Marshal x = Some t ∧ decode_strict t = Some x.
Proof.
  intros Hx. destruct (decode_strict_followed x "" Hx eq_refl eq_refl) as (t & Ht & Hd).
  rewrite app_str_nil_r in Hd. by exists t.
Qed.

(** What an encoder writes: the text and a line feed. *)
Lemma decode_strict_line {A} `{CodecLaws A} `{!Shaped A, !ShapedLaws A} (x : A) :
  wf x → ∃ t, Marshal x = Some t ∧ decode_strict (t +:+ String "010" "") = Some x.
Proof. intros Hx. exact (decode_strict_followed x (String "010" "") Hx eq_refl eq_refl). Qed.

Lemma decode_strict_dec {A} `{Codec A, Shaped A} t (x : A) :
  decode_strict t = Some x → ∃ v, dec v = Some x.
Proof.
  unfold decode_strict. destruct (value_text _) as [[v r]|]; [|done]. cbn [mbind option_bind].
  destruct (_ && _); [|done]. eauto.
Qed.

(** ** Structs *)

Lemma elem_of_written l ts k v :
  mapM snd l = Some ts → (k, v) ∈ written l ts → (k, Some (Some v)) ∈ l.
Proof.
  unfold written. revert ts. induction l as [|[k' r] l IH]; intros ts Hts Hin.
  { by apply not_elem_of_nil in Hin. }
  cbn [mapM snd] in Hts. destruct r as [o|]; [|done]. cbn [mbind option_bind] in Hts.
  destruct (mapM snd l) as [ts'|] eqn:E; [|done]. injection Hts as <-.
  cbn in Hin. destruct o as [t|]; cbn in Hin.
  - apply elem_of_cons in Hin as [[= -> ->]|Hin]; [by left|right; by apply (IH ts')].
  - right. by apply (IH ts').
Qed.

Lemma known_struct fs l t :
  names_ok l.*1 = true → Forall (λ p, part_ok p.2) l → enc_struct l = Some t →
  Forall (λ p, ∃ s, (p.1, s) ∈ fs ∧ ∀ v, p.2 = Some (Some v) → known s v = true) l →
  known (Fields fs) t = true.
Proof.
  intros Hn Hp He Hk. destruct (struct_written l Hn Hp) as (ts & Hts & Hm & _).
  unfold enc_struct in He. rewrite Hts in He. injection He as <-.
  cbn [known]. rewrite read_object_text; [|eapply Forall_impl; [exact Hm|]; apply cmember_member].
  apply orb_true_intro. right. apply forallb_forall. intros [k v] Hin%list_elem_of_In.
  apply (elem_of_written _ _ _ _ Hts) in Hin. rewrite Forall_forall in Hk.
  destruct (Hk _ Hin) as (s & Hs & Hv). apply existsb_exists. exists (k, s).
  split; [by apply list_elem_of_In|]. cbn. rewrite field_match_refl. by apply Hv.
Qed.

Lemma known_list {A} `{CodecLaws A} `{!Shaped A, !ShapedLaws A} (l : list A) v :
  Forall wf l → f_list l = Some (Some v) → known (Items (shape_of A)) v = true.
Proof.
  intros Hl. unfold f_list. destruct (mapM_enc l Hl) as (ts & Hts & Hj & _). rewrite Hts.
  intros [= <-]. cbn [known]. rewrite read_array_text; [|eapply Forall_impl; [exact Hj|]; by intros ? []].
  apply orb_true_intro. right. apply forallb_forall. intros x Hx%list_elem_of_In.
  apply mapM_Some in Hts. apply list_elem_of_lookup in Hx as [i Hi].
  destruct (Forall2_lookup_r _ _ _ _ _ Hts Hi) as (a & Ha & Hax).
  eapply enc_known; [|exact Hax]. by apply (Forall_lookup_1 _ _ _ _ Hl Ha).
Qed.

(** The text of a nested value has no unknown member. *)
Lemma known_req {A} `{CodecLaws A} `{!Shaped A, !ShapedLaws A} (x : A) v :
  wf x → f_req x = Some (Some v) → known (shape_of A) v = true.
Proof.
  intros Hx. unfold f_req. destruct (enc x) as [tx|] eqn:E; [|done]. intros [= <-]. by eapply enc_known.
Qed.

(** Proves [known] of the text of a struct from the shapes of its fields. *)
Ltac known_fields :=
  repeat first [apply Forall_nil_2 | apply Forall_cons_2]; cbn [snd fst];
  try first [apply part_req; done | apply part_int; lia | eapply fill_part_ok; fills];
  try (eexists; split; [elem_here|done]).

(** ** Decoded values lie in the range of their types *)

Lemma get_uint_range ms k z : get_uint ms k = Some z → uint64 z.
Proof.
  unfold get_uint, get, uint64. assert (0 ≤ 0 ≤ max_uint64)%Z by (unfold max_uint64; lia).
  destruct (field ms k) as [t|]; [|by intros [= <-]]. destruct (is_null t); [by intros [= <-]|].
  apply parse_uint64_range.
Qed.

Lemma get_uint32_range ms k z : get_uint32 ms k = Some z → uint32 z.
Proof.
  unfold get_uint32, get, uint32. destruct (field ms k) as [t|]; [|intros [= <-]; lia].
  destruct (is_null t); [intros [= <-]; lia|]. unfold parse_uint32.
  destruct (parse_uint64 t) as [n|] eqn:E; [|done]. apply parse_uint64_range in E.
  cbn [mbind option_bind]. case_match; [|done]. intros [= <-]. bool_prop. lia.
Qed.

Lemma parse_int64_max s z : parse_int64 s = Some z → (z ≤ max_int64)%Z.
Proof.
  assert (∀ s z, parse_dec s = Some z → 0 ≤ z)%Z as Hn.
  { intros u w H. unfold parse_dec in H. destruct (String.eqb u ""); [done|].
    by apply parse_digits_nonneg in H. }
  assert (∀ s z, match parse_dec s with Some n => if (n <=? max_int64)%Z then Some n else None | None => None end
    = Some z → z ≤ max_int64)%Z as Hpos.
  { intros u w. destruct (parse_dec u); [|done]. case_match; [|done]. intros [= <-]. bool_prop. lia. }
  assert (∀ u, match parse_dec u with
    | Some n => if (n <=? max_int64 + 1)%Z then Some (- n)%Z else None | None => None end = Some z → z ≤ max_int64)%Z
    as Hneg.
  { intros u. destruct (parse_dec u) as [n|] eqn:E; [|done]. apply Hn in E. case_match; [|done].
    intros [= <-]. unfold max_int64. lia. }
  unfold parse_int64. repeat first [apply Hpos | apply Hneg | case_match].
Qed.

Lemma get_int_max ms k z : get_int ms k = Some z → (z ≤ max_int64)%Z.
Proof.
  unfold get_int, get. destruct (field ms k) as [t|]; [|intros [= <-]; by vm_compute].
  destruct (is_null t); [intros [= <-]; by vm_compute|]. apply parse_int64_max.
Qed.

Ltac dec_inv :=
  repeat match goal with
  | H : (?m ≫= _) = Some _ |- _ =>
      let E := fresh "E" in destruct m eqn:E; [|done]; cbn [mbind option_bind] in H
  end.

Lemma dec_struct_inv {A} (z : A) body t x (P : A → Prop) :
  P z → (∀ ms y, body ms = Some y → P y) → dec_struct z body t = Some x → P x.
Proof.
  intros Hz Hb. unfold dec_struct. destruct (is_null t); [by intros [= <-]|].
  destruct (read_object t) as [ms|]; [|done]. apply Hb.
Qed.

Lemma get_inv {A} (z : A) d ms k x (P : A → Prop) :
  P z → (∀ t y, d t = Some y → P y) → get z d ms k = Some x → P x.
Proof.
  intros Hz Hd. unfold get. destruct (field ms k) as [t|]; [|by intros [= <-]].
  destruct (is_null t); [by intros [= <-]|apply Hd].
Qed.
