(* ===== verification/JsonSize.v ===== *)
(** * Sizes of JSON documents

    Bounds on the length of what the codecs write, added up field by field. *)

From S2P Require Import Prelude GoString Calendar GoTime Json JsonCompact Model ModelJson.
#[local] Open Scope Z_scope.

Lemma slen_app s1 s2 : slen (s1 +:+ s2) = slen s1 + slen s2.
Proof. unfold slen. rewrite length_app_str. lia. Qed.

Lemma slen_cons c s : slen (String c s) = 1 + slen s.
Proof. unfold slen. cbn [String.length]. lia. Qed.

(** ** Scalars *)

Lemma slen_dec_digits f n acc k :
  0 ≤ n < 10 ^ Z.of_nat (S k) → slen (dec_digits f n acc) ≤ Z.of_nat (S k) + slen acc.
Proof.
  revert n acc k. induction f as [|f IH]; intros n acc k Hn; cbn [dec_digits]; [lia|].
  destruct (n / 10 =? 0) eqn:E; [rewrite slen_cons; lia|]. bool_prop.
  destruct k as [|k]; [cbn in Hn; rewrite Z.div_small in E by lia; done|].
  transitivity (Z.of_nat (S k) + slen (String (digit (n mod 10)) acc)); [|rewrite slen_cons; lia].
  apply IH. rewrite (Nat2Z.inj_succ (S k)), Z.pow_succ_r in Hn by lia.
  split; [apply Z.div_pos; lia|apply Z.div_lt_upper_bound; lia].
Qed.

Lemma slen_int_text n : 0 ≤ n ≤ max_uint64 → slen (int_text n) ≤ 20.
Proof.
  intros H. rewrite int_text_nonneg by lia. unfold dec_nonneg.
  etransitivity; [apply (slen_dec_digits _ n "" 19); unfold max_uint64 in H; cbn; lia|]. done.
Qed.

Lemma slen_pad w n : slen (pad w n) = Z.of_nat w.
Proof.
  revert n. induction w as [|w IH]; intros n; [done|]. cbn [pad].
  rewrite slen_app, IH, slen_cons. change (slen "") with 0. lia.
Qed.

Lemma slen_strip_zeros s : slen (strip_zeros s) ≤ slen s.
Proof.
  induction s as [|c s IH]; [done|]. cbn [strip_zeros]. rewrite slen_cons.
  destruct (strip_zeros s) as [|d r].
  - destruct (Ascii.eqb c "0"); [change (slen "") with 0|]; rewrite ?slen_cons; change (slen "") with 0;
      pose proof (slen_nonneg s); lia.
  - rewrite slen_cons. lia.
Qed.

Lemma slen_rfc3339nano t : time_in_range t = true → slen (rfc3339nano t) ≤ 35.
Proof.
  unfold time_in_range. intros H. bool_prop.
  unfold rfc3339nano, date_text, year_text.
  rewrite (proj2 (Z.ltb_ge _ _)) by lia. rewrite (proj2 (Z.ltb_lt _ 10000)) by lia.
  rewrite !slen_app, !slen_pad.
  assert (slen (frac_text (f_nano (wall t))) ≤ 10) as Hf.
  { unfold frac_text. destruct (_ =? 0); [done|].
    change (slen (String "." (strip_zeros (pad 9 (f_nano (wall t))))) ≤ 10).
    rewrite slen_cons. pose proof (slen_strip_zeros (pad 9 (f_nano (wall t)))) as Hs.
    rewrite slen_pad in Hs. lia. }
  assert (slen (zone_text (off t)) ≤ 6) as Hz.
  { unfold zone_text. destruct (_ =? 0); [done|]. cbv zeta.
    rewrite slen_cons, !slen_app, !slen_pad. done. }
  change (slen "-") with 1. change (slen "T") with 1. change (slen ":") with 1. lia.
Qed.

Lemma slen_time (t : Time) v : enc t = Some v → slen v ≤ 37.
Proof.
  cbn. destruct (time_in_range t) eqn:E; [|done]. intros [= <-].
  unfold raw_quote. rewrite slen_cons, slen_app, slen_cons. apply slen_rfc3339nano in E.
  change (slen "") with 0. lia.
Qed.

(** A text of bytes that a literal holds unescaped. *)
Definition unescaped (c : ascii) : bool := ascii_byte (byte c) && String.eqb (esc_ascii c) (String c "").

Lemma slen_quote s : forallb unescaped (chars s) = true → slen (quote_json s) = slen s + 2.
Proof.
  intros H. unfold quote_json. rewrite slen_cons, slen_app.
  assert (esc 0 s = s) as ->; [|rewrite slen_cons; change (slen "") with 0; lia].
  induction s as [|c s IH]; [done|]. cbn in H. apply andb_true_iff in H as [[Ha He]%andb_true_iff Hs].
  apply String.eqb_eq in He. cbn [esc]. rewrite Ha, He, IH by done. done.
Qed.

Lemma slen_quote_ident s : all_runes ident_rune s = true → slen (quote_json s) = slen s + 2.
Proof.
  intros H. apply slen_quote. pose proof (all_runes_ascii _ _ ident_rune_ascii H) as Ha.
  unfold all_runes in H. rewrite is_ascii_runes in H by done. clear Ha.
  induction s as [|c s IH]; [done|]. cbn in H. apply andb_true_iff in H as [Hc Hs].
  cbn [chars forallb]. rewrite IH, andb_true_r by done.
  clear -Hc. destruct c as [[] [] [] [] [] [] [] []]; try done.
Qed.

Lemma slen_quote_identifier m s : identifier_syntax m s = true → slen (quote_json s) ≤ m + 2.
Proof. intros (_ & Hl & Hr & _)%identifier_syntax_inv. rewrite slen_quote_ident by done. lia. Qed.

(** An escape takes at most six bytes. *)
Lemma slen_esc_ascii c : slen (esc_ascii c) ≤ 6.
Proof. unfold esc_ascii, u_escape. repeat case_match; by vm_compute. Qed.

Lemma slen_esc s : ∀ skip, slen (esc skip s) ≤ 6 * slen s.
Proof.
  induction s as [s IH] using (induction_ltof1 _ String.length). unfold ltof in IH. intros skip.
  destruct s as [|a s]; [done|]. cbn [esc]. rewrite slen_cons.
  assert (∀ k, slen (esc k s) ≤ 6 * slen s) as IH1 by (intros k; apply IH; cbn; lia).
  destruct skip as [|k]; [|rewrite slen_cons; specialize (IH1 k); lia].
  pose proof (slen_nonneg s).
  destruct (ascii_byte (byte a)).
  { rewrite slen_app. pose proof (slen_esc_ascii a). specialize (IH1 0%nat). lia. }
  cbv zeta. destruct (_ =? 1)%nat.
  { rewrite slen_app. change (slen (u_escape 0xFFFD)) with 6. specialize (IH1 0%nat). lia. }
  destruct s as [|b [|c s3]]; [cbn; unfold slen; cbn; lia| |].
  - rewrite slen_cons. specialize (IH1 (pred (decode_rune (bytes_n 4 (String a (String b "")))).2)). lia.
  - destruct (line_sep a b c).
    + rewrite slen_app, !slen_cons. assert (slen (esc 0 s3) ≤ 6 * slen s3) by (apply IH; cbn; lia).
      unfold u_escape. rewrite !slen_cons. change (slen "") with 0. lia.
    + rewrite slen_cons.
      specialize (IH1 (pred (decode_rune (bytes_n 4 (String a (String b (String c s3))))).2)). lia.
Qed.

Lemma slen_quote_any s : slen (quote_json s) ≤ 6 * slen s + 2.
Proof.
  unfold quote_json. rewrite slen_cons, slen_app, slen_cons. change (slen "") with 0.
  pose proof (slen_esc s 0). lia.
Qed.

(** ** Lists and structs *)

Lemma slen_join l : slen (join "," l) ≤ foldr (λ s n, slen s + 1 + n) 0 l.
Proof.
  induction l as [|x l IH]; [unfold slen; cbn; lia|]. cbn [join foldr]. pose proof (slen_nonneg x).
  destruct l as [|y l]; [cbn; lia|]. rewrite !slen_app. change (slen ",") with 1. lia.
Qed.

Lemma slen_array l b : Forall (λ s, slen s ≤ b) l → slen (array_text l) ≤ 2 + (b + 1) * Z.of_nat (length l).
Proof.
  intros H. unfold array_text. rewrite !slen_app. change (slen "[") with 1. change (slen "]") with 1.
  pose proof (slen_join l) as Hj. assert (foldr (λ s n, slen s + 1 + n) 0 l ≤ (b + 1) * Z.of_nat (length l)); [|lia].
  clear Hj. induction H as [|x l Hx _ IH]; [cbn; lia|]. cbn [foldr length]. lia.
Qed.

Lemma slen_list {A} `{Codec A} (l : list A) b v :
  Forall (λ x, ∀ t, enc x = Some t → slen t ≤ b) l → f_list l = Some (Some v) →
  slen v ≤ 2 + (b + 1) * Z.of_nat (length l).
Proof.
  intros Hl. unfold f_list. destruct (mapM enc l) as [ts|] eqn:E; [|done]. intros [= <-].
  apply mapM_Some in E. rewrite (Forall2_length _ _ _ E). apply slen_array.
  clear -Hl E. induction E as [|x t l ts Hx _ IH]; [constructor|].
  apply Forall_cons in Hl as [H1 Hl]. constructor; [by apply H1|by apply IH].
Qed.

(** Bounds for the fields of a struct, and the bound they add up to. *)
Definition struct_bound (bs : list (string * Z)) : Z :=
  2 + foldr (λ b n, slen (quote_json b.1) + 2 + b.2 + n) 0 bs.

Definition field_bound (p : part) (b : string * Z) : Prop :=
  p.1 = b.1 ∧ 0 ≤ b.2 ∧ ∀ v, p.2 = Some (Some v) → slen v ≤ b.2.

Lemma slen_struct l bs t :
  enc_struct l = Some t → Forall2 field_bound l bs → slen t ≤ struct_bound bs.
Proof.
  unfold enc_struct, struct_bound. destruct (mapM snd l) as [ts|] eqn:E; [|done]. intros [= <-] HF.
  unfold object_text. rewrite !slen_app. change (slen "{") with 1. change (slen "}") with 1.
  etransitivity; [apply Z.add_le_mono_l, Z.add_le_mono_r, slen_join|].
  assert (foldr (λ s n, slen s + 1 + n) 0 (member_text <$> written l ts)
    ≤ foldr (λ b n, slen (quote_json b.1) + 2 + b.2 + n) 0 bs); [|lia].
  unfold written. revert ts E. induction HF as [|[k r] [k' b] l bs (Hk & Hb & Hp) _ IH]; intros ts E.
  { cbn in E. by injection E as <-. }
  cbn [mapM snd] in E. destruct r as [o|]; [|done]. cbn [mbind option_bind] in E.
  destruct (mapM snd l) as [ts'|] eqn:E'; [|done]. injection E as <-.
  specialize (IH ts' eq_refl). cbn [fst snd] in Hk, Hb, Hp. subst k'.
  pose proof (slen_nonneg (quote_json k)).
  destruct o as [v|]; cbn [fmap list_fmap zip_with omap list_omap option_fmap option_map snd fst foldr].
  - unfold member_text at 1. cbn [fst snd]. rewrite slen_app, slen_cons. specialize (Hp v eq_refl).
    cbn in IH |- *. lia.
  - cbn in IH |- *. lia.
Qed.

Lemma bound_str k s n : slen (quote_json s) ≤ n → field_bound (k, f_str s) (k, n).
Proof.
  intros H. pose proof (slen_nonneg (quote_json s)). split; [done|]. split; [cbn [snd]; lia|]. by intros v [= <-].
Qed.

Lemma bound_int k z : 0 ≤ z ≤ max_uint64 → field_bound (k, f_int z) (k, 20).
Proof. intros H. split; [done|]. split; [done|]. intros v [= <-]. by apply slen_int_text. Qed.

Lemma bound_bool k b : field_bound (k, f_bool b) (k, 5).
Proof. split; [done|]. split; [done|]. intros v [= <-]. by destruct b. Qed.

Lemma bound_req {A} `{Codec A} k (x : A) n :
  0 ≤ n → (∀ v, enc x = Some v → slen v ≤ n) → field_bound (k, f_req x) (k, n).
Proof.
  intros Hn Hx. split; [done|]. split; [done|]. intros v. cbn [snd]. unfold f_req.
  destruct (enc x) as [t|]; [|done]. intros [= <-]. by apply Hx.
Qed.

Lemma bound_list {A} `{Codec A} k (l : list A) b n :
  0 ≤ b → Z.of_nat (length l) ≤ n → Forall (λ x, ∀ t, enc x = Some t → slen t ≤ b) l →
  field_bound (k, f_list l) (k, 2 + (b + 1) * n).
Proof.
  intros Hb Hn Hl. split; [done|]. split; [cbn [snd]; nia|]. intros v Hv. cbn [snd] in *.
  pose proof (slen_list l b v Hl Hv). nia.
Qed.

(** Collects the bounds of the fields of a struct. *)
Ltac bounds :=
  repeat first [apply Forall2_nil_2 | apply Forall2_cons_2];
  first [ apply bound_str | apply bound_int | apply bound_bool | apply bound_req; [lia|]
        | apply bound_list | idtac ].
