(* ===== verification/Profile.v ===== *)
(** * Package profile: presets, patches and capabilities

    [internal/profile/profile.go]: the four axes of a profile, the preset
    table, [Resolve] with its patches, and the capabilities a profile grants. *)

From S2P Require Import Prelude GoString Model.

Definition Schema := "io.oh-my-safety/profile".
Definition SchemaVersion : Z := 1.

Abbreviation Workload := string (only parsing).
Definition WorkloadWorkstation : Workload := "workstation".
Definition WorkloadDeveloper : Workload := "developer".
Definition WorkloadServer : Workload := "server".

Definition Workload_valid (value : Workload) : bool :=
  one_of value [WorkloadWorkstation; WorkloadDeveloper; WorkloadServer].

Abbreviation Protection := string (only parsing).
Definition ProtectionBalanced : Protection := "balanced".
Definition ProtectionStrict : Protection := "strict".

Definition Protection_valid (value : Protection) : bool :=
  one_of value [ProtectionBalanced; ProtectionStrict].

Abbreviation Management := string (only parsing).
Definition ManagementStandalone : Management := "standalone".
Definition ManagementManaged : Management := "managed".

Definition Management_valid (value : Management) : bool :=
  one_of value [ManagementStandalone; ManagementManaged].

Abbreviation Connectivity := string (only parsing).
Definition ConnectivityConnected : Connectivity := "connected".
Definition ConnectivityOffline : Connectivity := "offline".
Definition ConnectivityAirGapped : Connectivity := "airgapped".

Definition Connectivity_valid (value : Connectivity) : bool :=
  one_of value [ConnectivityConnected; ConnectivityOffline; ConnectivityAirGapped].

Record Axes := mkAxes {
  Axes_Workload : Workload;
  Axes_Protection : Protection;
  Axes_Management : Management;
  Axes_Connectivity : Connectivity;
}.

#[export] Instance axes_eq_dec : EqDecision Axes.
Proof. solve_decision. Defined.

Definition Axes_Validate (axes : Axes) : result unit :=
  first_error [
    (negb (Workload_valid (Axes_Workload axes)),
      Errorf "invalid workload axis %q" [FStr (Axes_Workload axes)]);
    (negb (Protection_valid (Axes_Protection axes)),
      Errorf "invalid protection axis %q" [FStr (Axes_Protection axes)]);
    (negb (Management_valid (Axes_Management axes)),
      Errorf "invalid management axis %q" [FStr (Axes_Management axes)]);
    (negb (Connectivity_valid (Axes_Connectivity axes)),
      Errorf "invalid connectivity axis %q" [FStr (Axes_Connectivity axes)])].

Record Profile := {
  Profile_Schema : string;
  Profile_SchemaVersion : Z;
  Preset : string;
  Profile_Axes : Axes;
}.

Definition Profile_Validate (profile : Profile) : result unit :=
  if negb (String.eqb (Profile_Schema profile) Schema) then
    Err (Errorf "unsupported profile schema %q" [FStr (Profile_Schema profile)])
  else if negb (Profile_SchemaVersion profile =? SchemaVersion)%Z then
    Err (Errorf "unsupported profile schema version %d" [FInt (Profile_SchemaVersion profile)])
  else if String.eqb (Preset profile) "" then Err (ErrorsNew "profile preset is required")
  else Axes_Validate (Profile_Axes profile).

(** A nil pointer is [None]. *)
Record Patch := {
  Patch_Workload : option Workload;
  Patch_Protection : option Protection;
  Patch_Management : option Management;
  Patch_Connectivity : option Connectivity;
}.

Record Capabilities := {
  AllowNetworkEnrichment : bool;
  AllowExternalNotifications : bool;
  AllowAutomaticRemediation : bool;
  RequireSignedOfflineBundles : bool;
  CentrallyManaged : bool;
}.

Definition PresetPersonalBalanced := "personal-balanced".
Definition PresetPersonalStrict := "personal-strict".
Definition PresetDeveloper := "developer".
Definition PresetManagedWorkstation := "managed-workstation".
Definition PresetManagedServer := "managed-server".
Definition PresetAirGappedHighAssurance := "airgapped-high-assurance".

Definition presets : gmap string Axes := list_to_map [
  (PresetPersonalBalanced,
    mkAxes WorkloadWorkstation ProtectionBalanced ManagementStandalone ConnectivityConnected);
  (PresetPersonalStrict,
    mkAxes WorkloadWorkstation ProtectionStrict ManagementStandalone ConnectivityConnected);
  (PresetDeveloper,
    mkAxes WorkloadDeveloper ProtectionStrict ManagementStandalone ConnectivityConnected);
  (PresetManagedWorkstation,
    mkAxes WorkloadWorkstation ProtectionStrict ManagementManaged ConnectivityConnected);
  (PresetManagedServer,
    mkAxes WorkloadServer ProtectionStrict ManagementManaged ConnectivityConnected);
  (PresetAirGappedHighAssurance,
    mkAxes WorkloadWorkstation ProtectionStrict ManagementStandalone ConnectivityAirGapped)].

(** One turn of the loop over the patches. *)
Definition apply_patch (axes : Axes) (patch : Patch) : Axes := {|
  Axes_Workload := default (Axes_Workload axes) (Patch_Workload patch);
  Axes_Protection := default (Axes_Protection axes) (Patch_Protection patch);
  Axes_Management := default (Axes_Management axes) (Patch_Management patch);
  Axes_Connectivity := default (Axes_Connectivity axes) (Patch_Connectivity patch);
|}.

Definition Resolve (preset : string) (patches : list Patch) : result Profile :=
  match presets !! preset with
  | None => Err (Errorf "unknown profile preset %q" [FStr preset])
  | Some axes =>
      let axes := foldl apply_patch axes patches in
      let resolved := {|
        Profile_Schema := Schema; Profile_SchemaVersion := SchemaVersion;
        Preset := preset; Profile_Axes := axes |} in
      _ ← Profile_Validate resolved;
      Ok resolved
  end.

Definition Profile_Capabilities (profile : Profile) : Capabilities :=
  let connected :=
    String.eqb (Axes_Connectivity (Profile_Axes profile)) ConnectivityConnected in
  {| AllowNetworkEnrichment := connected;
     AllowExternalNotifications := connected;
     AllowAutomaticRemediation := false;
     RequireSignedOfflineBundles :=
       String.eqb (Axes_Connectivity (Profile_Axes profile)) ConnectivityAirGapped;
     CentrallyManaged :=
       String.eqb (Axes_Management (Profile_Axes profile)) ManagementManaged |}.

Definition Presets : list string := [
  PresetPersonalBalanced; PresetPersonalStrict; PresetDeveloper;
  PresetManagedWorkstation; PresetManagedServer; PresetAirGappedHighAssurance].

(** ** Properties *)

(** The reference reading of the patches: on each axis the last patch that
    names it wins, and the preset's value stands when none does. *)
Definition last_named {A B} (f : A → option B) (l : list A) (d : B) : B :=
  default d (last (omap f l)).

Lemma last_named_cons {A B} (f : A → option B) x l d :
  last_named f (x :: l) d = last_named f l (default d (f x)).
Proof.
  unfold last_named. cbn [omap list_omap]. destruct (f x) as [b|]; cbn [default]; [|done].
  rewrite last_cons. by destruct (last _).
Qed.

Lemma foldl_apply_patch ps axes :
  foldl apply_patch axes ps = {|
    Axes_Workload := last_named Patch_Workload ps (Axes_Workload axes);
    Axes_Protection := last_named Patch_Protection ps (Axes_Protection axes);
    Axes_Management := last_named Patch_Management ps (Axes_Management axes);
    Axes_Connectivity := last_named Patch_Connectivity ps (Axes_Connectivity axes) |}.
Proof.
  revert axes. induction ps as [|p ps IH]; intros axes; simpl.
  - by destruct axes.
  - rewrite IH. by rewrite !last_named_cons.
Qed.

Lemma Axes_Validate_ok axes :
  Axes_Validate axes = Ok tt ↔
  Workload_valid (Axes_Workload axes) = true ∧ Protection_valid (Axes_Protection axes) = true ∧
  Management_valid (Axes_Management axes) = true ∧
  Connectivity_valid (Axes_Connectivity axes) = true.
Proof.
  split.
  - intros H. valid_inv H. by bool_prop.
  - intros (H1 & H2 & H3 & H4). apply first_error_ok.
    rewrite H1, H2, H3, H4. by repeat constructor.
Qed.

Lemma Presets_dom : dom presets = list_to_set Presets.
Proof. unfold presets. rewrite dom_list_to_map_L. set_solver. Qed.

Lemma presets_nonempty preset axes : presets !! preset = Some axes → preset ≠ "".
Proof. intros H ->. vm_compute in H. discriminate H. Qed.

(** [Resolve] returns a profile exactly for the listed presets whose axes
    are valid after every patch is applied; on each axis the last patch that
    sets it wins, and the result passes [Validate]. *)
Theorem Resolve_spec preset patches p :
  Resolve preset patches = Ok p ↔
  ∃ axes, presets !! preset = Some axes ∧
    p = {| Profile_Schema := Schema; Profile_SchemaVersion := SchemaVersion;
           Preset := preset;
           Profile_Axes := {|
             Axes_Workload := last_named Patch_Workload patches (Axes_Workload axes);
             Axes_Protection := last_named Patch_Protection patches (Axes_Protection axes);
             Axes_Management := last_named Patch_Management patches (Axes_Management axes);
             Axes_Connectivity :=
               last_named Patch_Connectivity patches (Axes_Connectivity axes) |} |} ∧
    Profile_Validate p = Ok tt.
Proof.
  unfold Resolve. destruct (presets !! preset) as [axes|] eqn:E.
  - rewrite foldl_apply_patch. split.
    + intros H. ok_inv. eauto.
    + intros (? & [= <-] & -> & H). by rewrite H.
  - split; [done|]. by intros (? & ? & _).
Qed.

(** A preset is known to [Resolve] exactly when [Presets] lists it, and an
    unpatched preset always resolves. *)
Theorem Presets_resolve preset : preset ∈ Presets ↔ is_ok (Resolve preset []) = true.
Proof.
  split.
  - unfold Presets. intros H.
    repeat (apply elem_of_cons in H as [->|H]; [by vm_compute|]).
    by apply not_elem_of_nil in H.
  - unfold Resolve. destruct (presets !! preset) as [axes|] eqn:E; [|done]. intros _.
    apply elem_of_dom_2 in E. rewrite Presets_dom in E. by apply elem_of_list_to_set in E.
Qed.

(** Whatever the preset and the patches, a resolved profile never allows
    automatic remediation, and it never both allows network access and
    requires signed offline bundles; it allows network enrichment exactly
    when it allows external notifications. *)
Theorem Capabilities_safe preset patches p :
  Resolve preset patches = Ok p →
  AllowAutomaticRemediation (Profile_Capabilities p) = false ∧
  AllowNetworkEnrichment (Profile_Capabilities p)
    && RequireSignedOfflineBundles (Profile_Capabilities p) = false ∧
  (Axes_Connectivity (Profile_Axes p) = ConnectivityOffline ∨
   xorb (AllowExternalNotifications (Profile_Capabilities p))
        (RequireSignedOfflineBundles (Profile_Capabilities p)) = true).
Proof.
  intros (axes & _ & -> & HV)%Resolve_spec. split; [done|].
  assert (Connectivity_valid (last_named Patch_Connectivity patches (Axes_Connectivity axes))
          = true) as Hc.
  { unfold Profile_Validate in HV. repeat case_in HV; try done.
    by apply Axes_Validate_ok in HV as (_ & _ & _ & HV). }
  unfold Connectivity_valid, one_of in Hc. cbn -[last_named String.eqb] in *.
  destruct (String.eqb_spec (last_named Patch_Connectivity patches (Axes_Connectivity axes))
    ConnectivityConnected) as [->|]; [split; [done|by right]|].
  split; [done|].
  destruct (String.eqb_spec (last_named Patch_Connectivity patches (Axes_Connectivity axes))
    ConnectivityAirGapped) as [->|]; [by right|]. left.
  rewrite !orb_true_iff in Hc. rewrite !String.eqb_eq in Hc.
  by destruct Hc as [?|[?|[?|?]]].
Qed.

Lemma Capabilities_safe_witness :
  AllowAutomaticRemediation (Profile_Capabilities {|
    Profile_Schema := Schema; Profile_SchemaVersion := SchemaVersion;
    Preset := PresetManagedServer;
    Profile_Axes := mkAxes WorkloadServer ProtectionStrict ManagementManaged
                      ConnectivityAirGapped |}) = false.
Proof.
  refine (proj1 (Capabilities_safe PresetManagedServer
    [{| Patch_Workload := None; Patch_Protection := None; Patch_Management := None;
        Patch_Connectivity := Some ConnectivityOffline |};
     {| Patch_Workload := None; Patch_Protection := None; Patch_Management := None;
        Patch_Connectivity := Some ConnectivityAirGapped |}] _ _)).
  reflexivity.
Defined.
