(* ===== verification/Scheduler.v ===== *)
(** * Package scheduler: schedules, the task registry, the executor, the planner

    [internal/scheduler/scheduler.go].  A registry is its map from task id to
    task, a planner its map from task id to the next instant.  A division by
    zero in [Schedule.Next] is the value [None], which stands for the panic;
    the theorems show it cannot happen once a specification is validated. *)

From S2P Require Import Prelude GoString GoTime Model.
#[local] Open Scope Z_scope.

Definition ErrDuplicateTask : error := Sentinel "scheduler task already registered".
Definition ErrTaskNotFound : error := Sentinel "scheduler task not found".

(** ** Contexts

    A context carries a deadline and the instant its parent cancels it; [Err]
    tells which of the two came first. *)

Record Ctx := { ctx_deadline : option Time; ctx_cancelled : option Time }.

Definition DeadlineExceeded : error := Sentinel "context deadline exceeded".
Definition Canceled : error := Sentinel "context canceled".

Definition reached (limit : option Time) (t : Time) : bool :=
  match limit with Some l => negb (after l t) | None => false end.

Definition ctx_err (c : Ctx) (t : Time) : option error :=
  match ctx_cancelled c, ctx_deadline c with
  | Some x, Some d =>
      if reached (Some d) t && negb (before x d) then Some DeadlineExceeded
      else if reached (Some x) t then Some Canceled else None
  | Some x, None => if reached (Some x) t then Some Canceled else None
  | None, d => if reached d t then Some DeadlineExceeded else None
  end.

(** [context.WithTimeout] called at instant [t]: the earlier deadline stands. *)
Definition WithTimeout (c : Ctx) (t : Time) (timeout : Z) : Ctx := {|
  ctx_deadline :=
    match ctx_deadline c with
    | Some d => Some (if before d (add t timeout) then d else add t timeout)
    | None => Some (add t timeout)
    end;
  ctx_cancelled := ctx_cancelled c |}.

(** ** Schedules *)

(** A nil handler is [None]; a handler maps its context to its error. *)
Definition Handler := option (Ctx → option error).

(** Durations are int64 nanoseconds. *)
Record Schedule := {
  Every : Z;
  Jitter : Z;
  Timeout : Z;
  RunOnStart : bool;
}.

Definition Schedule_Validate (schedule : Schedule) : result unit :=
  first_error [
    (Every schedule <=? 0, ErrorsNew "schedule interval must be positive");
    (Jitter schedule <? 0, ErrorsNew "schedule jitter cannot be negative");
    (Every schedule <=? Jitter schedule, ErrorsNew "schedule jitter must be less than interval");
    (Timeout schedule <? 0, ErrorsNew "schedule timeout cannot be negative")].

(** [hash/fnv]: 64-bit FNV-1a. *)
Definition fnv_offset : Z := 14695981039346656037.
Definition fnv_prime : Z := 1099511628211.
Definition fnv64a (l : list Z) : Z :=
  foldl (λ h b, (Z.lxor h b * fnv_prime) mod 2 ^ 64) fnv_offset l.

(** [Schedule.Next]; [None] is the division by zero. *)
Definition Schedule_Next (schedule : Schedule) (after : Time) (stableKey : string)
    : option Time :=
  let next := add after (Every schedule) in
  if Jitter schedule =? 0 then Some next
  else
    let sum := fnv64a (bytes stableKey ++ [0] ++ bytes (format_int (unix_nano after))) in
    let divisor := (to_int64 (Jitter schedule + 1)) mod 2 ^ 64 in
    if divisor =? 0 then None
    else Some (add next (to_int64 (sum mod divisor))).

(** ** Tasks *)

Record TaskSpec := {
  Spec_ID : string;
  Spec_Kind : string;
  Spec_Schedule : Schedule;
  Spec_Labels : Labels;
}.

Definition TaskSpec_Validate (spec : TaskSpec) : result unit :=
  if String.eqb (Spec_ID spec) "" then Err (ErrorsNew "task id is required")
  else if String.eqb (Spec_Kind spec) "" then Err (ErrorsNew "task kind is required")
  else Schedule_Validate (Spec_Schedule spec).

Record Task := { Task_Spec : TaskSpec; Task_Handler : Handler }.

Definition Task_Validate (task : Task) : result unit :=
  _ ← TaskSpec_Validate (Task_Spec task);
  match Task_Handler task with
  | None => Err (ErrorsNew "task handler is required")
  | Some _ => Ok tt
  end.

(** ** Registry *)

Abbreviation Registry := (gmap string Task).

Definition NewRegistry : Registry := ∅.

(** The registry after the call, and its outcome. *)
Definition Register (registry : Registry) (task : Task) : Registry * result unit :=
  match Task_Validate task with
  | Err e => (registry, Err e)
  | Ok _ =>
      match registry !! Spec_ID (Task_Spec task) with
      | Some _ => (registry, Err (Wrapf "%w: %s" ErrDuplicateTask [FStr (Spec_ID (Task_Spec task))]))
      | None => (<[Spec_ID (Task_Spec task) := task]> registry, Ok tt)
      end
  end.

Definition Registry_Get (registry : Registry) (id : string) : result Task :=
  match registry !! id with
  | None => Err (Wrapf "%w: %s" ErrTaskNotFound [FStr id])
  | Some task => Ok task
  end.

Definition spec_less (a b : TaskSpec) : bool := str_ltb (Spec_ID a) (Spec_ID b).

Definition Specs (registry : Registry) : list TaskSpec :=
  sort_by spec_less (Task_Spec ∘ snd <$> map_to_list registry).

(** ** Executor *)

Record Execution := {
  TaskID : string;
  StartedAt : Time;
  FinishedAt : Time;
  Duration : Z;
  TimedOut : bool;
  Exec_Error : option error;
}.

(** [Execute] with the two readings [now1], [now2] of [executor.Now], the
    system instant [start] at which the timeout is armed and the system
    instant [finish] at which the handler has returned. *)
Definition Execute (now1 now2 start finish : Time) (ctx : Ctx) (task : Task) : Execution :=
  let started := utc now1 in
  let finished := utc now2 in
  let execution timedOut e := {|
    TaskID := Spec_ID (Task_Spec task); StartedAt := started; FinishedAt := finished;
    Duration := sub finished started; TimedOut := timedOut; Exec_Error := e |} in
  match Task_Validate task, Task_Handler task with
  | Err e, _ => execution false (Some e)
  | Ok _, None => execution false None
  | Ok _, Some handler =>
      let runContext :=
        if 0 <? Timeout (Spec_Schedule (Task_Spec task))
        then WithTimeout ctx start (Timeout (Spec_Schedule (Task_Spec task)))
        else ctx in
      let err := handler runContext in
      let timedOut := bool_decide (ctx_err runContext finish = Some DeadlineExceeded) in
      execution timedOut
        match err with
        | Some e => Some e
        | None => if timedOut then Some DeadlineExceeded else None
        end
  end.

(** ** Planner *)

Abbreviation Planner := (gmap string Time).

Definition NewPlanner : Planner := ∅.

(** [None] is the panic of [Schedule.Next]. *)
Definition Planner_Add (planner : Planner) (spec : TaskSpec) (registeredAt : Time)
    : option (Planner * result unit) :=
  match TaskSpec_Validate spec with
  | Err e => Some (planner, Err e)
  | Ok _ =>
      match planner !! Spec_ID spec with
      | Some _ => Some (planner, Err (Wrapf "%w: %s" ErrDuplicateTask [FStr (Spec_ID spec)]))
      | None =>
          if RunOnStart (Spec_Schedule spec) then
            Some (<[Spec_ID spec := utc registeredAt]> planner, Ok tt)
          else
            next ← Schedule_Next (Spec_Schedule spec) (utc registeredAt) (Spec_ID spec);
            Some (<[Spec_ID spec := next]> planner, Ok tt)
      end
  end.

(** The loop of [Due]. *)
Fixpoint due_loop (planner : Planner) (specs : list TaskSpec) (now : Time)
    (due : list TaskSpec) : option (Planner * list TaskSpec) :=
  match specs with
  | [] => Some (planner, due)
  | spec :: specs' =>
      match planner !! Spec_ID spec with
      | None => due_loop planner specs' now due
      | Some next =>
          if after next now then due_loop planner specs' now due
          else
            n ← Schedule_Next (Spec_Schedule spec) (utc now) (Spec_ID spec);
            due_loop (<[Spec_ID spec := n]> planner) specs' now (due ++ [spec])
      end
  end.

Definition Due (planner : Planner) (specs : list TaskSpec) (now : Time)
    : option (Planner * list TaskSpec) :=
  '(planner, due) ← due_loop planner specs now [];
  Some (planner, sort_by spec_less due).

Definition Planner_Next (planner : Planner) (id : string) : option Time := planner !! id.

(** ** Properties: schedules *)

Lemma to_int64_id z : - 2 ^ 63 ≤ z < 2 ^ 63 → to_int64 z = z.
Proof. intros H. unfold to_int64. rewrite Z.mod_small; lia. Qed.

(** A specification that was validated; its durations are int64 values. *)
Definition spec_ok (spec : TaskSpec) : Prop :=
  TaskSpec_Validate spec = Ok tt ∧ Every (Spec_Schedule spec) ≤ max_int64.

Lemma Schedule_Validate_ok s :
  Schedule_Validate s = Ok tt → 0 < Every s ∧ 0 ≤ Jitter s < Every s ∧ 0 ≤ Timeout s.
Proof. intros H. valid_inv H. bool_prop. lia. Qed.

Lemma TaskSpec_Validate_ok s :
  TaskSpec_Validate s = Ok tt →
  Spec_ID s ≠ "" ∧ Spec_Kind s ≠ "" ∧ Schedule_Validate (Spec_Schedule s) = Ok tt.
Proof. unfold TaskSpec_Validate. intros H. repeat case_in H; bool_prop; done. Qed.

(** For a validated schedule the next run exists, and it falls between one
    interval and one interval plus the jitter after the given instant. *)
Theorem Schedule_Next_bounds s t key :
  Schedule_Validate s = Ok tt → Every s ≤ max_int64 →
  ∃ n, Schedule_Next s t key = Some n ∧ off n = off t ∧
    ns t + Every s ≤ ns n ≤ ns t + Every s + Jitter s.
Proof.
  intros HV Hmax. apply Schedule_Validate_ok in HV. unfold max_int64 in Hmax.
  unfold Schedule_Next. destruct (Jitter s =? 0) eqn:E; bool_prop.
  - eexists. split; [done|]. simpl. lia.
  - rewrite (to_int64_id (Jitter s + 1)) by lia. rewrite (Z.mod_small (Jitter s + 1)) by lia.
    rewrite (proj2 (Z.eqb_neq _ _)) by lia.
    generalize (fnv64a (bytes key ++ [0] ++ bytes (format_int (unix_nano t)))). intros h.
    pose proof (Z.mod_pos_bound h (Jitter s + 1) ltac:(lia)).
    eexists. split; [done|]. rewrite to_int64_id by lia. simpl. lia.
Qed.

Lemma Schedule_Next_bounds_witness :
  ∃ n, Schedule_Next {| Every := 10; Jitter := 3; Timeout := 0; RunOnStart := false |}
         (mkTime 5 0) "t" = Some n ∧ off n = off (mkTime 5 0) ∧ ns (mkTime 5 0) + 10 ≤ ns n ≤ ns (mkTime 5 0) + 10 + 3.
Proof.
  apply (Schedule_Next_bounds {| Every := 10; Jitter := 3; Timeout := 0; RunOnStart := false |});
    [reflexivity | unfold max_int64; simpl; lia].
Defined.

(** [Next] panics exactly when the jitter is -1; [Due] does not validate
    the specifications it is given. *)
Theorem Schedule_Next_panics s t key :
  - 2 ^ 63 ≤ Jitter s < 2 ^ 63 →
  Schedule_Next s t key = None ↔ Jitter s = -1.
Proof.
  intros HJ. unfold Schedule_Next. destruct (Jitter s =? 0) eqn:E; bool_prop.
  - split; [done|lia].
  - assert (to_int64 (Jitter s + 1) mod 2 ^ 64 = 0 ↔ Jitter s = -1) as <-.
    { unfold to_int64. rewrite Zminus_mod_idemp_l, Z.add_simpl_r. split; [|by intros ->].
      intros H. apply Z.mod_divide in H as [k Hk]; lia. }
    destruct (_ =? 0) eqn:E2; bool_prop; done.
Qed.

Lemma Schedule_Next_panics_witness :
  Schedule_Next {| Every := 1; Jitter := -1; Timeout := 0; RunOnStart := false |}
    zero_time "t" = None.
Proof.
  apply (Schedule_Next_panics
    {| Every := 1; Jitter := -1; Timeout := 0; RunOnStart := false |}); [simpl; lia|reflexivity].
Defined.

(** ** Properties: registry *)

Definition registry_ok (r : Registry) : Prop :=
  map_Forall (λ id task, Spec_ID (Task_Spec task) = id ∧ Task_Validate task = Ok tt) r.

Lemma Specs_NoDup r : registry_ok r → NoDup (Spec_ID <$> Specs r).
Proof.
  intros Hr. unfold Specs. rewrite (sort_by_perm spec_less).
  replace (Spec_ID <$> (Task_Spec ∘ snd <$> map_to_list r)) with (map_to_list r).*1;
    [apply NoDup_fst_map_to_list|].
  rewrite <-list_fmap_compose. apply list_fmap_ext. intros i [id task] Hi. simpl.
  symmetry. apply (Hr id). apply elem_of_map_to_list. by eapply list_elem_of_lookup_2.
Qed.

Lemma elem_of_Specs r spec :
  spec ∈ Specs r ↔ ∃ id task, r !! id = Some task ∧ Task_Spec task = spec.
Proof.
  unfold Specs. rewrite (elem_of_sort_by spec_less), list_elem_of_fmap. split.
  - intros ([id task] & -> & H%elem_of_map_to_list). eauto.
  - intros (id & task & H & <-). exists (id, task). split; [done|].
    by apply elem_of_map_to_list.
Qed.

#[local] Instance spec_less_strict : StrictLess spec_less.
Proof. unfold spec_less. apply (less_on_strict Spec_ID str_ltb). apply _. Qed.

Lemma sorted_specs_lt l :
  StronglySorted (le_by spec_less) l → NoDup (Spec_ID <$> l) →
  StronglySorted (λ a b, spec_less a b = true) l.
Proof.
  induction 1 as [|s l Hl IH Hs]; [constructor|]. cbn. intros [Hn HN]%NoDup_cons.
  constructor; [by apply IH|]. rewrite Forall_forall in Hs. apply Forall_forall.
  intros x Hx. pose proof (Hs x Hx) as H. unfold le_by in H.
  destruct (spec_less s x) eqn:E; [done|].
  destruct Hn. unfold spec_less in *. rewrite (str_ltb_total _ _ E H).
  exact (list_elem_of_fmap_2 Spec_ID l x Hx).
Qed.

(** [Register] keeps the registry well formed (every task is valid and
    filed under its own id); it refuses an id already present without
    touching the registry, and otherwise exactly that task becomes visible. *)
Theorem Register_spec r task :
  registry_ok r →
  registry_ok (Register r task).1 ∧
  ((Register r task).2 = Ok tt ↔
    Task_Validate task = Ok tt ∧ r !! Spec_ID (Task_Spec task) = None) ∧
  (∀ id, Registry_Get (Register r task).1 id =
    if bool_decide ((Register r task).2 = Ok tt ∧ id = Spec_ID (Task_Spec task))
    then Ok task else Registry_Get r id).
Proof.
  intros Hr. unfold Register, Registry_Get.
  destruct (Task_Validate task) as [[]|e] eqn:EV; cbn [fst snd].
  - destruct (r !! Spec_ID (Task_Spec task)) as [old|] eqn:EL; cbn [fst snd].
    + split_and!; [done|by split; [|intros [_ ?]]|].
      intros id. by rewrite bool_decide_eq_false_2 by (by intros [? _]).
    + split_and!; [by apply map_Forall_insert_2|done|].
      intros id. case_bool_decide as Hid.
      * destruct Hid as [_ ->]. by rewrite lookup_insert_eq.
      * by rewrite lookup_insert_ne by (intros <-; by apply Hid).
  - split_and!; [done|by split; [|intros [? _]]|].
    intros id. by rewrite bool_decide_eq_false_2 by (by intros [? _]).
Qed.

Definition demo_task (id : string) : Task := {|
  Task_Spec := {| Spec_ID := id; Spec_Kind := "scan";
    Spec_Schedule := {| Every := 60; Jitter := 5; Timeout := 0; RunOnStart := true |};
    Spec_Labels := ∅ |};
  Task_Handler := Some (λ _, None) |}.

Lemma Register_spec_witness :
  registry_ok (Register NewRegistry (demo_task "a")).1 ∧
  is_ok (Register NewRegistry (demo_task "a")).2 = true.
Proof.
  split; [|reflexivity]. apply (Register_spec NewRegistry (demo_task "a")).
  unfold registry_ok, NewRegistry. apply map_Forall_empty.
Defined.

(** On a well-formed registry [Specs] lists the registered specifications,
    each once, in strictly increasing order of their ids. *)
Theorem Specs_spec r :
  registry_ok r →
  StronglySorted (λ a b, spec_less a b = true) (Specs r) ∧
  (∀ spec, spec ∈ Specs r ↔ ∃ task, Registry_Get r (Spec_ID spec) = Ok task ∧ Task_Spec task = spec).
Proof.
  intros Hr. split.
  - apply sorted_specs_lt; [apply sort_by_sorted, _|by apply Specs_NoDup].
  - intros spec. rewrite elem_of_Specs. unfold Registry_Get. split.
    + intros (id & task & H & <-). exists task. destruct (Hr _ _ H) as [-> _]. by rewrite H.
    + intros (task & H & <-). case_in H; [|done]. injection H as ->. eauto.
Qed.

Lemma Specs_spec_witness :
  StronglySorted (λ a b, spec_less a b = true)
    (Specs (Register (Register NewRegistry (demo_task "b")).1 (demo_task "a")).1).
Proof.
  apply Specs_spec. intros id task.
  change (Register (Register NewRegistry (demo_task "b")).1 (demo_task "a")).1
    with (<["a" := demo_task "a"]> (<["b" := demo_task "b"]> (∅ : Registry))).
  rewrite !lookup_insert_Some, lookup_empty. naive_solver.
Defined.

(** ** Properties: planner *)

(** The task [id] has a planned instant that is not after [now]. *)
Definition is_due (p : Planner) (now : Time) (id : string) : Prop :=
  ∃ t, p !! id = Some t ∧ ns t ≤ ns now.

(** What a round of [Due] did, between two planners. *)
Record round (p : Planner) (specs : list TaskSpec) (now : Time)
    (p' : Planner) (due : list TaskSpec) : Prop := {
  round_nodup : NoDup (Spec_ID <$> due);
  round_from : due ⊆ specs;
  round_ids id : id ∈ Spec_ID <$> due ↔ id ∈ Spec_ID <$> specs ∧ is_due p now id;
  round_frame id : id ∉ Spec_ID <$> due → p' !! id = p !! id;
  round_next spec : spec ∈ due → ∃ t, p' !! Spec_ID spec = Some t ∧
    ns now + Every (Spec_Schedule spec) ≤ ns t
      ≤ ns now + Every (Spec_Schedule spec) + Jitter (Spec_Schedule spec);
}.

Lemma round_skip p spec specs now p' due :
  ¬ is_due p now (Spec_ID spec) → round p specs now p' due → round p (spec :: specs) now p' due.
Proof.
  intros Hn [H1 H2 H3 H4 H5]. split; [done|set_solver| |done|done].
  intros id. rewrite H3, fmap_cons, elem_of_cons. split; [intros [? ?]; auto|].
  intros [[->|?] ?]; [done|auto].
Qed.

Lemma round_take p spec specs now n p' due :
  is_due p now (Spec_ID spec) →
  0 < Every (Spec_Schedule spec) →
  ns now + Every (Spec_Schedule spec) ≤ ns n
    ≤ ns now + Every (Spec_Schedule spec) + Jitter (Spec_Schedule spec) →
  round (<[Spec_ID spec := n]> p) specs now p' due →
  round p (spec :: specs) now p' (spec :: due).
Proof.
  intros Hd Hpos Hn [H1 H2 H3 H4 H5].
  assert (Spec_ID spec ∉ Spec_ID <$> due) as Hfresh.
  { rewrite H3. intros [_ (t & Ht & Hle)]. rewrite lookup_insert_eq in Ht.
    injection Ht as <-. lia. }
  split.
  - by constructor.
  - set_solver.
  - intros id. rewrite !fmap_cons, !elem_of_cons, H3. unfold is_due.
    destruct (decide (id = Spec_ID spec)) as [->|Hne]; [by split; [|left]; auto|].
    rewrite lookup_insert_ne by done. naive_solver.
  - intros id. rewrite fmap_cons, elem_of_cons. intros Hid.
    rewrite H4, lookup_insert_ne by auto. done.
  - intros s [->|Hs]%elem_of_cons; [|by apply H5].
    exists n. rewrite H4, lookup_insert_eq by done. done.
Qed.

Lemma due_loop_round specs p now acc :
  Forall spec_ok specs →
  ∃ p' d, due_loop p specs now acc = Some (p', acc ++ d) ∧ round p specs now p' d.
Proof.
  intros Hok. revert p acc. induction Hok as [|spec specs [HV HM] _ IH]; intros p acc; simpl.
  - exists p, []. rewrite app_nil_r. split; [done|]. split; simpl; try done.
    + constructor.
    + set_solver.
    + set_solver.
  - apply TaskSpec_Validate_ok in HV as (_ & _ & HV).
    destruct (p !! Spec_ID spec) as [t|] eqn:Et.
    + destruct (after t now) eqn:Ea; unfold after in Ea; bool_prop.
      * destruct (IH p acc) as (p' & d & -> & Hr). exists p', d. split; [done|].
        apply round_skip; [|done]. intros (t' & Ht & ?). rewrite Et in Ht.
        injection Ht as ->. lia.
      * destruct (Schedule_Next_bounds _ (utc now) (Spec_ID spec) HV HM) as (n & -> & _ & Hn).
        simpl. destruct (IH (<[Spec_ID spec := n]> p) (acc ++ [spec])) as (p' & d & -> & Hr).
        exists p', (spec :: d). rewrite <-app_assoc. split; [done|].
        apply Schedule_Validate_ok in HV. eapply round_take; [by exists t|lia|exact Hn|done].
    + destruct (IH p acc) as (p' & d & -> & Hr). exists p', d. split; [done|].
      apply round_skip; [|done]. intros (t & Ht & _). by rewrite Et in Ht.
Qed.

Lemma round_perm p specs now p' d1 d2 :
  d1 ≡ₚ d2 → round p specs now p' d1 → round p specs now p' d2.
Proof.
  intros HP [H1 H2 H3 H4 H5]. split; try setoid_rewrite <-HP; done.
Qed.

Lemma Due_round p specs now :
  Forall spec_ok specs →
  ∃ p' due, Due p specs now = Some (p', due) ∧ round p specs now p' due ∧
    StronglySorted (λ a b, spec_less a b = true) due.
Proof.
  intros Hok. unfold Due. destruct (due_loop_round specs p now [] Hok) as (p' & d & -> & Hr).
  simpl. eexists p', _. split; [done|].
  assert (round p specs now p' (sort_by spec_less d)) as Hs
    by (eapply round_perm; [symmetry; apply sort_by_perm|done]).
  split; [done|]. apply sorted_specs_lt; [apply sort_by_sorted, _|apply Hs].
Qed.

(** C38. On validated specifications [Due] never panics; it returns each
    planned task that has come due exactly once, sorted by id, and no other;
    it replans just these, between one interval and one interval plus jitter
    after [now]. *)
Theorem Due_spec p specs now :
  Forall spec_ok specs →
  ∃ p' due, Due p specs now = Some (p', due) ∧
    StronglySorted (λ a b, spec_less a b = true) due ∧ due ⊆ specs ∧
    (∀ id, id ∈ Spec_ID <$> due ↔ id ∈ Spec_ID <$> specs ∧ is_due p now id) ∧
    (∀ id, id ∉ Spec_ID <$> due → Planner_Next p' id = Planner_Next p id) ∧
    (∀ spec, spec ∈ due → ∃ t, Planner_Next p' (Spec_ID spec) = Some t ∧
      ns now + Every (Spec_Schedule spec) ≤ ns t
        ≤ ns now + Every (Spec_Schedule spec) + Jitter (Spec_Schedule spec)).
Proof.
  intros Hok. destruct (Due_round p specs now Hok) as (p' & due & HD & [] & HS). eauto 10.
Qed.

Lemma Due_spec_witness :
  let s := Task_Spec (demo_task "a") in
  ∃ p' due, Due {["a" := zero_time]} [s; s] (mkTime 7 0) = Some (p', due) ∧
    ∀ id, id ∈ Spec_ID <$> due ↔ id ∈ Spec_ID <$> [s; s] ∧
      is_due {["a" := zero_time]} (mkTime 7 0) id.
Proof.
  intros s. destruct (Due_spec {["a" := zero_time]} [s; s] (mkTime 7 0)) as (p' & d & H).
  - repeat constructor; unfold max_int64; simpl; lia.
  - exists p', d. split; apply H.
Defined.

(** A task is handed out once per planned instant: asking again at the
    same time returns nothing and leaves the planner alone. *)
Theorem Due_once p specs now p' due :
  Forall spec_ok specs → Due p specs now = Some (p', due) → Due p' specs now = Some (p', []).
Proof.
  intros Hok HD. destruct (Due_round p specs now Hok) as (? & ? & HD' & Hr & _).
  rewrite HD in HD'. injection HD' as <- <-. unfold Due.
  assert (∀ l acc, l ⊆ specs → due_loop p' l now acc = Some (p', acc)) as ->; [|done..].
  induction l as [|s l IH]; intros acc Hl; simpl; [done|].
  destruct (p' !! Spec_ID s) as [t|] eqn:Et; [|apply IH; set_solver].
  destruct (after t now) eqn:Ea; [apply IH; set_solver|]. exfalso.
  unfold after in Ea. bool_prop.
  destruct (decide (Spec_ID s ∈ Spec_ID <$> due)) as [Hin|Hin].
  - apply list_elem_of_fmap in Hin as (s' & Hs' & Hin).
    destruct (round_next _ _ _ _ _ Hr s' Hin) as (t' & Ht' & Hb).
    rewrite <-Hs', Et in Ht'. injection Ht' as <-.
    apply (round_from _ _ _ _ _ Hr) in Hin.
    destruct (proj1 (Forall_forall _ _) Hok _ Hin) as [HV _].
    apply TaskSpec_Validate_ok in HV as (_ & _ & HV).
    apply Schedule_Validate_ok in HV. lia.
  - apply Hin, (round_ids _ _ _ _ _ Hr). split.
    + apply (list_elem_of_fmap_2 Spec_ID). set_solver.
    + exists t. by rewrite <-(round_frame _ _ _ _ _ Hr _ Hin).
Qed.

Lemma Due_once_witness :
  ∃ p', Due {["a" := zero_time]} [Task_Spec (demo_task "a")] (mkTime 7 0)
          = Some (p', [Task_Spec (demo_task "a")]) ∧
        Due p' [Task_Spec (demo_task "a")] (mkTime 7 0) = Some (p', []).
Proof.
  eexists. split; [reflexivity|].
  apply (Due_once {["a" := zero_time]} _ _ _ [Task_Spec (demo_task "a")]); [|reflexivity].
  repeat constructor; unfold max_int64; simpl; lia.
Defined.

(** ** Properties: executor *)

(** A validated task whose handler is still running when its timeout has
    elapsed is reported as timed out (unless the caller cancelled first), a
    timed-out execution always carries an error, and without a deadline from
    the caller a time-out is reported only after the task's own timeout. *)
Theorem Execute_timeout now1 now2 start finish ctx task :
  Task_Validate task = Ok tt →
  let x := Execute now1 now2 start finish ctx task in
  (0 < Timeout (Spec_Schedule (Task_Spec task)) → ctx_cancelled ctx = None →
   ns start + Timeout (Spec_Schedule (Task_Spec task)) ≤ ns finish → TimedOut x = true) ∧
  (TimedOut x = true → Exec_Error x ≠ None) ∧
  (TimedOut x = true → ctx_deadline ctx = None →
   0 < Timeout (Spec_Schedule (Task_Spec task)) ∧
   ns start + Timeout (Spec_Schedule (Task_Spec task)) ≤ ns finish).
Proof.
  intros HV. unfold Execute. rewrite HV.
  destruct (Task_Handler task) as [h|] eqn:Eh; [|unfold Task_Validate in HV; rewrite Eh in HV; ok_inv].
  cbn [TimedOut Exec_Error]. set (T := Timeout _). split_and!.
  - intros HT Hc Hf. rewrite (proj2 (Z.ltb_lt _ _) HT). apply bool_decide_eq_true.
    unfold ctx_err, WithTimeout, reached, before, after. simpl. rewrite Hc.
    destruct (ctx_deadline ctx) as [d|]; simpl; repeat case_match; simpl in *; bool_prop; try done; lia.
  - intros ->. by destruct (h _).
  - intros Hd Hn. apply bool_decide_eq_true in Hd. destruct (0 <? T) eqn:ET; bool_prop.
    + split; [done|]. unfold ctx_err, WithTimeout, reached, after in Hd.
      simpl in Hd. rewrite Hn in Hd. simpl in Hd. repeat case_in Hd; bool_prop; done || lia.
    + unfold ctx_err in Hd. rewrite Hn in Hd. simpl in Hd. by repeat case_in Hd.
Qed.

Lemma Execute_timeout_witness :
  let task := {| Task_Spec := {| Spec_ID := "a"; Spec_Kind := "scan";
    Spec_Schedule := {| Every := 60; Jitter := 0; Timeout := 5; RunOnStart := true |};
    Spec_Labels := ∅ |}; Task_Handler := Some (λ _, None) |} in
  TimedOut (Execute zero_time zero_time (mkTime 10 0) (mkTime 15 0)
    {| ctx_deadline := None; ctx_cancelled := None |} task) = true.
Proof.
  intros task.
  apply (Execute_timeout zero_time zero_time (mkTime 10 0) (mkTime 15 0)
    {| ctx_deadline := None; ctx_cancelled := None |} task); simpl; reflexivity || lia.
Defined.
