(* ===== verification/Journal.v ===== *)
(** * Package journal: the event journal and the findings projection

    [internal/journal/journal.go], [internal/journal/sqlite.go].  The database
    is a value: the rows of the table events in insertion order, the counter
    behind AUTOINCREMENT, and the table current_findings as a map from its
    primary key.  Each statement of the source is its relational meaning; a
    transaction works on a copy, which becomes the state when it commits and is
    dropped on an error.  [BINARY] text comparison is byte order, and LIKE
    folds ASCII letters.  Failures of the engine itself (disk, locking,
    cancelled contexts) are not modelled. *)

From S2P Require Import Prelude GoString GoTime Json Model ModelJson.
#[local] Open Scope Z_scope.

Definition ErrEventIDConflict : error :=
  Sentinel "journal event id already exists with different content".
Definition ErrFindingNotFound : error := Sentinel "finding not found".
Definition ErrInvalidTransition : error := Sentinel "invalid finding lifecycle transition".

Record JRecord := mkRecord { Sequence : Z; REvent : Event }.

(** ** The database *)

Record EventRow := {
  ev_sequence : Z;
  ev_event_id : string;
  ev_schema_name : string;
  ev_schema_version : Z;
  ev_event_type : string;
  ev_occurred_at : string;
  ev_recorded_at : string;
  ev_source : string;
  ev_platform : string;
  ev_finding_id : string;
  ev_correlation_id : string;
  ev_envelope : string;
}.

(** Columns of current_findings other than the key. *)
Record FindingRow := {
  cf_state : string;
  cf_severity : string;
  cf_updated_at : string;
  cf_last_event_sequence : Z;
  cf_document : string;
}.

Abbreviation FindingTable := (gmap string FindingRow).

Record Store := {
  events : list EventRow;
  autoincrement : Z;
  current_findings : FindingTable;
  user_version : Z;
  schema_migrations : gmap Z string;
}.

Definition databaseSchemaVersion : Z := 1.

(** A new database file, before [migrate]. *)
Definition empty_store : Store := {|
  events := []; autoincrement := 0; current_findings := ∅; user_version := 0;
  schema_migrations := ∅ |}.

(** [migrate]: the tables exist afterwards (here they always do), a newer
    version is refused, otherwise the version is recorded once. *)
Definition migrate (now : Time) (s : Store) : Store * result unit :=
  if databaseSchemaVersion <? user_version s then
    (s, Err (Errorf "journal schema version %d is newer than supported version %d"
               [FInt (user_version s); FInt databaseSchemaVersion]))
  else
    let migrations :=
      match schema_migrations s !! databaseSchemaVersion with
      | Some _ => schema_migrations s
      | None => <[databaseSchemaVersion := rfc3339nano (utc now)]> (schema_migrations s)
      end in
    ({| events := events s; autoincrement := autoincrement s;
        current_findings := current_findings s; user_version := databaseSchemaVersion;
        schema_migrations := migrations |}, Ok tt).

(** ** Appending events *)

Definition marshal_event (e : Event) : result string :=
  match Marshal e with
  | Some t => Ok t
  | None => Err (Wrapf "marshal event: %w" (ErrorsNew "json") [])
  end.

(** The inserted row. *)
Definition event_row (sequence : Z) (event : Event) (envelope : string) : EventRow := {|
  ev_sequence := sequence; ev_event_id := Event_ID event;
  ev_schema_name := Event_Schema event; ev_schema_version := Event_SchemaVersion event;
  ev_event_type := Event_Type event;
  ev_occurred_at := rfc3339nano (utc (OccurredAt event));
  ev_recorded_at := rfc3339nano (utc (RecordedAt event));
  ev_source := Event_Source event; ev_platform := Event_Platform event;
  ev_finding_id := FindingID event; ev_correlation_id := CorrelationID event;
  ev_envelope := envelope |}.

Definition insert_event (s : Store) (event : Event) (envelope : string) : Store := {|
  events := events s ++ [event_row (autoincrement s + 1) event envelope];
  autoincrement := autoincrement s + 1; current_findings := current_findings s;
  user_version := user_version s; schema_migrations := schema_migrations s |}.

(** SELECT ... WHERE event_id = ? *)
Definition row_by_id (s : Store) (id : string) : option EventRow :=
  snd <$> list_find (λ r, ev_event_id r = id) (events s).

(** [appendEvent]: the record and whether a row was inserted, on the events
    table of a transaction. *)
Definition appendEvent (s : Store) (event : Event) : result (Store * JRecord * bool) :=
  envelope ← marshal_event event;
  match row_by_id s (Event_ID event) with
  | Some row =>
      if negb (String.eqb (ev_envelope row) envelope) then
        Err (Wrapf "%w: %s" ErrEventIDConflict [FStr (Event_ID event)])
      else Ok (s, mkRecord (ev_sequence row) event, false)
  | None =>
      if max_int64 <=? autoincrement s then
        Err (Wrapf "append event: %w" (ErrorsNew "database or disk is full") [])
      else Ok (insert_event s event envelope, mkRecord (autoincrement s + 1) event, true)
  end.

(** ** The projection of findings *)

Definition decodePayload {A} `{Codec A} (event : Event) : result A :=
  if String.eqb (Payload event) "" then
    Err (Errorf "%s event payload is required" [FStr (Event_Type event)])
  else match Unmarshal (Payload event) with
  | Some x => Ok x
  | None => Err (Wrapf "decode %s payload: %w" (ErrorsNew "json") [FStr (Event_Type event)])
  end.

Definition transitionError (from to : FindingState) : error :=
  Wrapf "%w: %s to %s" ErrInvalidTransition [FStr from; FStr to].

Definition readTransition (event : Event) : result FindingTransition :=
  transition ← decodePayload event;
  if blank (Tr_Actor transition)
  then Err (ErrorsNew "finding transition actor is required")
  else Ok transition.

Definition actionFrom (event : Event) (transition : FindingTransition) : option FindingAction :=
  Some {| Action_At := utc (RecordedAt event); Action_Actor := Tr_Actor transition;
          Action_Note := Tr_Note transition |}.

Definition utcTimePointer (value : option Time) : option Time := utc <$> value.

Definition decode_finding (document : string) : result Finding :=
  match Unmarshal document with
  | Some f => Ok f
  | None => Err (Wrapf "decode current finding: %w" (ErrorsNew "json") [])
  end.

(** [currentFindingTx]; [None] when there is no row. *)
Definition currentFindingTx (findings : FindingTable) (id : string) : result (option Finding) :=
  match findings !! id with
  | None => Ok None
  | Some row => f ← decode_finding (cf_document row); Ok (Some f)
  end.

(** [advanceFinding] *)
Definition advanceFinding (f : Finding) (record : JRecord) : Finding := {|
  Finding_Schema := Finding_Schema f; Finding_SchemaVersion := Finding_SchemaVersion f;
  Finding_ID := Finding_ID f; DetectorID := DetectorID f; Category := Category f;
  Title := Title f; Summary := Summary f; Finding_Severity := Finding_Severity f;
  State := State f; FirstSeen := FirstSeen f; LastSeen := LastSeen f;
  UpdatedAt :=
    if after (RecordedAt (REvent record)) (UpdatedAt f)
    then utc (RecordedAt (REvent record)) else UpdatedAt f;
  Occurrences := Occurrences f; Finding_Evidence := Finding_Evidence f;
  Finding_Remediation := Finding_Remediation f; Finding_Labels := Finding_Labels f;
  SuppressedUntil := SuppressedUntil f; Acknowledgement := Acknowledgement f;
  Resolution := Resolution f;
  LastEventID := Event_ID (REvent record); LastEventSequence := Sequence record |}.

(** The assignments to the lifecycle fields. *)
Definition set_lifecycle (f : Finding) (state : FindingState) (until : option Time)
    (ack res : option FindingAction) : Finding := {|
  Finding_Schema := Finding_Schema f; Finding_SchemaVersion := Finding_SchemaVersion f;
  Finding_ID := Finding_ID f; DetectorID := DetectorID f; Category := Category f;
  Title := Title f; Summary := Summary f; Finding_Severity := Finding_Severity f;
  State := state; FirstSeen := FirstSeen f; LastSeen := LastSeen f;
  UpdatedAt := UpdatedAt f; Occurrences := Occurrences f;
  Finding_Evidence := Finding_Evidence f; Finding_Remediation := Finding_Remediation f;
  Finding_Labels := Finding_Labels f; SuppressedUntil := until; Acknowledgement := ack;
  Resolution := res; LastEventID := LastEventID f; LastEventSequence := LastEventSequence f |}.

(** The assignments of an observation to a known finding. *)
Definition observe_fields (event : Event) (observation : FindingObservation) (f : Finding)
    : Finding := {|
  Finding_Schema := Finding_Schema f; Finding_SchemaVersion := Finding_SchemaVersion f;
  Finding_ID := Finding_ID f; DetectorID := Obs_DetectorID observation;
  Category := Obs_Category observation; Title := Obs_Title observation;
  Summary := Obs_Summary observation; Finding_Severity := Obs_Severity observation;
  State := State f;
  FirstSeen :=
    if before (OccurredAt event) (FirstSeen f) then utc (OccurredAt event) else FirstSeen f;
  LastSeen :=
    if after (OccurredAt event) (LastSeen f) then utc (OccurredAt event) else LastSeen f;
  UpdatedAt := UpdatedAt f; Occurrences := (Occurrences f + 1) mod 2 ^ 64;
  Finding_Evidence := Obs_Evidence observation;
  Finding_Remediation := Obs_Remediation observation;
  Finding_Labels := Obs_Labels observation; SuppressedUntil := SuppressedUntil f;
  Acknowledgement := Acknowledgement f; Resolution := Resolution f;
  LastEventID := LastEventID f; LastEventSequence := LastEventSequence f |}.

(** A resolved finding that is seen again opens. *)
Definition reopen (f : Finding) : Finding :=
  if String.eqb (State f) FindingResolved
  then set_lifecycle f FindingOpen (SuppressedUntil f) None None else f.

(** A suppression that has run out opens. *)
Definition lapse (event : Event) (f : Finding) : Finding :=
  match SuppressedUntil f with
  | Some u =>
      if String.eqb (State f) FindingSuppressed && negb (after u (RecordedAt event))
      then set_lifecycle f FindingOpen None (Acknowledgement f) (Resolution f) else f
  | None => f
  end.

Definition first_observation (record : JRecord) (observation : FindingObservation) : Finding :=
  let event := REvent record in {|
  Finding_Schema := FindingSchema; Finding_SchemaVersion := FindingSchemaVersion;
  Finding_ID := FindingID event; DetectorID := Obs_DetectorID observation;
  Category := Obs_Category observation; Title := Obs_Title observation;
  Summary := Obs_Summary observation; Finding_Severity := Obs_Severity observation;
  State := FindingOpen; FirstSeen := utc (OccurredAt event);
  LastSeen := utc (OccurredAt event); UpdatedAt := utc (RecordedAt event);
  Occurrences := 1; Finding_Evidence := Obs_Evidence observation;
  Finding_Remediation := Obs_Remediation observation;
  Finding_Labels := Obs_Labels observation; SuppressedUntil := None;
  Acknowledgement := None; Resolution := None; LastEventID := Event_ID event;
  LastEventSequence := Sequence record |}.

Definition applyObservation (current : option Finding) (record : JRecord)
    (observation : FindingObservation) : Finding :=
  match current with
  | None => first_observation record observation
  | Some f =>
      advanceFinding
        (lapse (REvent record) (reopen (observe_fields (REvent record) observation f))) record
  end.

(** The switch of [projectFinding] on the event type. *)
Definition transition_finding (current : option Finding) (record : JRecord) : result Finding :=
  let event := REvent record in
  if String.eqb (Event_Type event) EventFindingObserved then
    observation ← decodePayload event;
    _ ← map_err (λ e, Wrapf "validate finding observation: %w" e []) (Observation_Validate observation);
    Ok (applyObservation current record observation)
  else if String.eqb (Event_Type event) EventFindingAcknowledged then
    match current with
    | None => Err ErrFindingNotFound
    | Some f =>
        if negb (String.eqb (State f) FindingOpen)
        then Err (transitionError (State f) FindingAcknowledged) else
        transition ← readTransition event;
        Ok (advanceFinding
              (set_lifecycle f FindingAcknowledged None (actionFrom event transition) None) record)
    end
  else if String.eqb (Event_Type event) EventFindingSuppressed then
    match current with
    | None => Err ErrFindingNotFound
    | Some f =>
        if String.eqb (State f) FindingResolved
        then Err (transitionError (State f) FindingSuppressed) else
        transition ← readTransition event;
        if match Tr_Until transition with
           | Some u => negb (after u (RecordedAt event)) | None => false end
        then Err (ErrorsNew "suppression until must be after recorded_at") else
        Ok (advanceFinding
              (set_lifecycle f FindingSuppressed (utcTimePointer (Tr_Until transition))
                 (Acknowledgement f) None) record)
    end
  else if String.eqb (Event_Type event) EventFindingUnsuppressed then
    match current with
    | None => Err ErrFindingNotFound
    | Some f =>
        if negb (String.eqb (State f) FindingSuppressed)
        then Err (transitionError (State f) FindingOpen) else
        _ ← readTransition event;
        Ok (advanceFinding
              (set_lifecycle f FindingOpen None (Acknowledgement f) (Resolution f)) record)
    end
  else if String.eqb (Event_Type event) EventFindingResolved then
    match current with
    | None => Err ErrFindingNotFound
    | Some f =>
        if String.eqb (State f) FindingResolved
        then Err (transitionError (State f) FindingResolved) else
        transition ← readTransition event;
        Ok (advanceFinding
              (set_lifecycle f FindingResolved None (Acknowledgement f)
                 (actionFrom event transition)) record)
    end
  else Err (Errorf "unsupported finding lifecycle event %q" [FStr (Event_Type event)]).

Definition finding_row (f : Finding) (document : string) : FindingRow := {|
  cf_state := State f; cf_severity := Finding_Severity f;
  cf_updated_at := rfc3339nano (utc (UpdatedAt f));
  cf_last_event_sequence := LastEventSequence f; cf_document := document |}.

Definition projectFinding (findings : FindingTable) (record : JRecord)
    : result (FindingTable * Finding) :=
  current ← currentFindingTx findings (FindingID (REvent record));
  f ← transition_finding current record;
  _ ← map_err (λ e, Wrapf "validate materialized finding: %w" e []) (Finding_Validate f);
  match Marshal f with
  | None => Err (Wrapf "marshal materialized finding: %w" (ErrorsNew "json") [])
  | Some document => Ok (<[Finding_ID f := finding_row f document]> findings, f)
  end.

Definition with_findings (s : Store) (findings : FindingTable) : Store := {|
  events := events s; autoincrement := autoincrement s; current_findings := findings;
  user_version := user_version s; schema_migrations := schema_migrations s |}.

(** The body of [Append] inside its transaction. *)
Definition append_tx (s : Store) (event : Event) : result (Store * JRecord) :=
  _ ← map_err (λ e, Wrapf "validate event: %w" e []) (Event_Validate json_valid event);
  _ ← fail_if (IsFindingLifecycle event && blank (FindingID event))
        (ErrorsNew "finding lifecycle event requires finding_id");
  '(s1, record, inserted) ← appendEvent s event;
  if inserted && IsFindingLifecycle event then
    '(findings, _) ← projectFinding (current_findings s1) record;
    Ok (with_findings s1 findings, record)
  else Ok (s1, record).

Definition Append (s : Store) (event : Event) : Store * result JRecord :=
  match append_tx s event with
  | Ok (s', record) => (s', Ok record)
  | Err e => (s, Err e)
  end.

(** ** Queries *)

Definition sequence_less (a b : EventRow) : bool := ev_sequence a <? ev_sequence b.

Definition scan_event (fmt : string) (row : EventRow) : result JRecord :=
  match Unmarshal (ev_envelope row) with
  | Some e => Ok (mkRecord (ev_sequence row) e)
  | None => Err (Wrapf fmt (ErrorsNew "json") [FInt (ev_sequence row)])
  end.

(** The loop over the rows: the first failure ends it. *)
Fixpoint scan_rows {A B} (f : A → result B) (rows : list A) : result (list B) :=
  match rows with
  | [] => Ok []
  | row :: rows' => x ← f row; l ← scan_rows f rows'; Ok (x :: l)
  end.

Definition read_limit (limit : Z) : Z :=
  let limit := if limit <=? 0 then 100 else limit in
  if 1000 <? limit then 1000 else limit.

Definition Read (s : Store) (afterSequence limit : Z) : result (list JRecord) :=
  if afterSequence <? 0 then Err (ErrorsNew "after sequence cannot be negative") else
  let rows := sort_by sequence_less
    (filter (λ r, (afterSequence <? ev_sequence r) = true) (events s)) in
  scan_rows (scan_event "decode event at sequence %d: %w")
    (take (Z.to_nat (read_limit limit)) rows).

Definition CurrentFinding (s : Store) (id : string) : result Finding :=
  match current_findings s !! id with
  | None => Err ErrFindingNotFound
  | Some row => decode_finding (cf_document row)
  end.

(** ORDER BY updated_at DESC, finding_id *)
Definition listing_less (a b : string * FindingRow) : bool :=
  if String.eqb (cf_updated_at a.2) (cf_updated_at b.2) then str_ltb a.1 b.1
  else str_ltb (cf_updated_at b.2) (cf_updated_at a.2).

Definition ListFindings (s : Store) (states : list FindingState) : result (list Finding) :=
  match List.find (λ st, negb (FindingState_Valid st)) states with
  | Some st => Err (Errorf "invalid finding state filter %q" [FStr st])
  | None =>
      findings ← scan_rows (λ kr, decode_finding (cf_document kr.2))
        (sort_by listing_less (map_to_list (current_findings s)));
      Ok (filter (λ f, match states with [] => true | _ => one_of (State f) states end = true)
            findings)
  end.

(** ** Rebuilding the projection *)

Fixpoint lower_ascii (s : string) : string :=
  match s with EmptyString => "" | String c s' => String (lower_byte c) (lower_ascii s') end.

(** [event_type LIKE 'finding.%'] *)
Definition like_finding (event_type : string) : bool :=
  has_prefix (lower_ascii event_type) "finding.".

Fixpoint replay (findings : FindingTable) (records : list JRecord) : result FindingTable :=
  match records with
  | [] => Ok findings
  | record :: records' =>
      '(findings, _) ← map_err (λ e, Wrapf "replay finding event at sequence %d: %w" e
                                       [FInt (Sequence record)])
                         (projectFinding findings record);
      replay findings records'
  end.

Definition rebuild_tx (s : Store) : result FindingTable :=
  records ← scan_rows (scan_event "decode finding event at sequence %d: %w")
    (sort_by sequence_less (filter (λ r, like_finding (ev_event_type r) = true) (events s)));
  replay ∅ records.

Definition RebuildFindings (s : Store) : Store * result unit :=
  match rebuild_tx s with
  | Ok findings => (with_findings s findings, Ok tt)
  | Err e => (s, Err e)
  end.

(** ** Sorting findings *)

Definition severityRank (severity : Severity) : Z :=
  if String.eqb severity SeverityCritical then 2
  else if String.eqb severity SeverityWarn then 1 else 0.

Definition finding_less (a b : Finding) : bool :=
  if negb (String.eqb (Finding_Severity a) (Finding_Severity b)) then
    severityRank (Finding_Severity b) <? severityRank (Finding_Severity a)
  else if negb (time_equal (UpdatedAt a) (UpdatedAt b)) then after (UpdatedAt a) (UpdatedAt b)
  else str_ltb (Finding_ID a) (Finding_ID b).

Definition SortFindings (findings : list Finding) : list Finding := sort_by finding_less findings.

(** ** Properties: appending *)

Lemma marshal_event_ok e t : marshal_event e = Ok t ↔ Marshal e = Some t.
Proof. unfold marshal_event. destruct (Marshal e); split; congruence. Qed.

(** What a successful append did. *)
Inductive appended (s : Store) (e : Event) : Store → JRecord → Prop :=
  | appended_again row :
      row_by_id s (Event_ID e) = Some row → Marshal e = Some (ev_envelope row) →
      appended s e s (mkRecord (ev_sequence row) e)
  | appended_other envelope :
      row_by_id s (Event_ID e) = None → Marshal e = Some envelope →
      autoincrement s < max_int64 → IsFindingLifecycle e = false →
      appended s e (insert_event s e envelope) (mkRecord (autoincrement s + 1) e)
  | appended_finding envelope findings f :
      row_by_id s (Event_ID e) = None → Marshal e = Some envelope →
      autoincrement s < max_int64 → IsFindingLifecycle e = true →
      blank (FindingID e) = false →
      projectFinding (current_findings s) (mkRecord (autoincrement s + 1) e) = Ok (findings, f) →
      appended s e (with_findings (insert_event s e envelope) findings)
        (mkRecord (autoincrement s + 1) e).

Lemma append_tx_appended s e s' r :
  append_tx s e = Ok (s', r) ↔
  Event_Validate json_valid e = Ok tt ∧
  IsFindingLifecycle e && blank (FindingID e) = false ∧ appended s e s' r.
Proof.
  unfold append_tx, appendEvent. split.
  - destruct (Event_Validate json_valid e) as [[]|] eqn:HV; [|done]. cbn [map_err mbind result_bind].
    destruct (IsFindingLifecycle e && blank (FindingID e)) eqn:Hb; [done|].
    cbn [fail_if mbind result_bind].
    destruct (marshal_event e) as [env|] eqn:Hm; [|done]. apply marshal_event_ok in Hm.
    cbn [mbind result_bind]. intros H. split_and!; [done..|].
    destruct (row_by_id s (Event_ID e)) as [row|] eqn:Er.
    + destruct (String.eqb_spec (ev_envelope row) env) as [<-|]; [|done].
      cbn in H. ok_inv. by constructor.
    + destruct (max_int64 <=? autoincrement s) eqn:Ea; [done|].
      cbn [mbind result_bind andb] in H.
      bool_prop. destruct (IsFindingLifecycle e) eqn:El.
      * destruct (projectFinding _ _) as [[fs f]|] eqn:Ep; [|done]. cbn in H. ok_inv.
        by eapply appended_finding.
      * ok_inv. by eapply appended_other.
  - intros (HV & Hb & HA). rewrite HV. cbn [map_err mbind result_bind].
    rewrite Hb. cbn [fail_if mbind result_bind].
    destruct HA as [row Hr Hm|env Hr Hm Ha Hl|env fs f Hr Hm Ha Hl Hbl Hp];
      rewrite (proj2 (marshal_event_ok _ _) Hm); cbn [mbind result_bind]; rewrite Hr.
    + rewrite String.eqb_refl. done.
    + rewrite (proj2 (Z.leb_gt _ _) Ha). cbn [mbind result_bind andb]. by rewrite Hl.
    + rewrite (proj2 (Z.leb_gt _ _) Ha). cbn [mbind result_bind andb]. rewrite Hl.
      change (current_findings (insert_event s e env)) with (current_findings s).
      by rewrite Hp.
Qed.
