(* ===== verification/JournalLog.v ===== *)
(** * The journal as a log

    Appending never changes an event already recorded, sequences grow, a retry
    of an accepted event is a no-op, a conflicting one is refused, and [Read]
    pages through the log without skipping. *)

From S2P Require Import Prelude GoString GoTime Json Model ModelJson Journal.
#[local] Open Scope Z_scope.

Definition appends (s : Store) (l : list Event) : Store := foldl (λ s e, (Append s e).1) s l.

Lemma Append_ok s e s' r : Append s e = (s', Ok r) ↔ append_tx s e = Ok (s', r).
Proof. unfold Append. destruct (append_tx s e) as [[s2 r2]|]; split; congruence. Qed.

Lemma Append_err s e s' err : Append s e = (s', Err err) → s' = s.
Proof. unfold Append. destruct (append_tx s e) as [[s2 r2]|]; congruence. Qed.

Lemma Append_cases s e :
  (∃ s' r, Append s e = (s', Ok r) ∧ appended s e s' r) ∨ ∃ err, Append s e = (s, Err err).
Proof.
  destruct (Append s e) as [s' [r|err]] eqn:E; [left|right].
  - exists s', r. split; [done|]. by apply Append_ok, append_tx_appended in E as (_ & _ & E).
  - pose proof (Append_err _ _ _ _ E) as ->. eauto.
Qed.

Lemma appended_events s e s' r :
  appended s e s' r →
  ∃ new, events s' = events s ++ new ∧ (length new ≤ 1)%nat ∧
    REvent r = e ∧ ∃ row, row_by_id s' (Event_ID e) = Some row ∧
      ev_sequence row = Sequence r ∧ Marshal e = Some (ev_envelope row).
Proof.
  assert (∀ s env fs, row_by_id s (Event_ID e) = None →
    row_by_id (with_findings (insert_event s e env) fs) (Event_ID e)
      = Some (event_row (autoincrement s + 1) e env)) as Hrow.
  { intros s0 env fs Hn. unfold row_by_id in *. cbn [events with_findings insert_event].
    destruct (list_find _ (events s0)) as [[]|] eqn:E; [done|]. rewrite list_find_app_r by done.
    cbn. by rewrite decide_True. }
  destruct 1 as [row Hr Hm|env Hr Hm Ha Hl|env fs f Hr Hm Ha Hl Hb Hp].
  - exists []. rewrite app_nil_r. split_and!; [done|simpl; lia|done|eauto].
  - exists [event_row (autoincrement s + 1) e env]. split_and!; [done|simpl; lia|done|].
    eexists. split; [apply (Hrow s env (current_findings s) Hr)|done].
  - exists [event_row (autoincrement s + 1) e env]. split_and!; [done|simpl; lia|done|].
    eexists. split; [by apply Hrow|done].
Qed.

Lemma Append_prefix s e : ∃ new, events (Append s e).1 = events s ++ new ∧ (length new ≤ 1)%nat.
Proof.
  destruct (Append_cases s e) as [(s' & r & -> & H)|[err ->]].
  - apply appended_events in H as (new & ? & ? & _). eauto.
  - exists []. rewrite app_nil_r. split; [done|cbn; lia].
Qed.

Lemma appends_prefix s l : events s `prefix_of` events (appends s l).
Proof.
  revert s. induction l as [|e l IH]; intros s; [done|]. cbn.
  etrans; [|apply IH]. destruct (Append_prefix s e) as (new & -> & _). by eexists.
Qed.

Lemma row_by_id_prefix s s' id row :
  events s `prefix_of` events s' → row_by_id s id = Some row → row_by_id s' id = Some row.
Proof.
  unfold row_by_id. intros [new ->]. destruct (list_find _ (events s)) as [[i r]|] eqn:E; [|done].
  intros [= <-]. by erewrite list_find_app_l by exact E.
Qed.

(** The event log is append-only: one [Append] leaves every recorded row
    in place and adds at most one, and adds nothing when it fails. *)
Theorem Append_only s e :
  (∃ new, events (Append s e).1 = events s ++ new ∧ (length new ≤ 1)%nat) ∧
  (is_ok (Append s e).2 = false → (Append s e).1 = s).
Proof.
  split; [apply Append_prefix|].
  destruct (Append_cases s e) as [(s' & r & -> & _)|[err ->]]; done.
Qed.

(** C13. Appending is idempotent under retry: once an event was accepted, the
    same event presented again, after any further traffic, is accepted with
    the same sequence and changes nothing. *)
Theorem Append_idempotent s e s1 r l :
  Append s e = (s1, Ok r) → Append (appends s1 l) e = (appends s1 l, Ok r).
Proof.
  intros H. apply Append_ok, append_tx_appended in H as (HV & Hb & HA).
  apply appended_events in HA as (new & _ & _ & Hre & row & Hr & Hs & Hm).
  apply Append_ok, append_tx_appended. split_and!; [done..|].
  destruct r as [q e']. cbn in Hre, Hs. subst e' q. apply appended_again; [|done].
  eapply row_by_id_prefix; [apply appends_prefix|done].
Qed.

(** An event that reuses a recorded id with different content is refused
    with the conflict error, and the store stays as it was. *)
Theorem Append_conflict s e row envelope :
  row_by_id s (Event_ID e) = Some row → Event_Validate json_valid e = Ok tt →
  IsFindingLifecycle e && blank (FindingID e) = false →
  Marshal e = Some envelope → envelope ≠ ev_envelope row →
  ∃ err, Append s e = (s, Err err) ∧
    errors_is err "journal event id already exists with different content" = true.
Proof.
  intros Hr HV Hb Hm Hne. eexists. unfold Append, append_tx, appendEvent.
  rewrite HV. cbn [map_err mbind result_bind]. rewrite Hb. cbn [fail_if mbind result_bind].
  rewrite (proj2 (marshal_event_ok _ _) Hm). cbn [mbind result_bind]. rewrite Hr.
  rewrite (proj2 (String.eqb_neq _ _)) by done. cbn. done.
Qed.

(** ** Sequences *)

Record log_ok (s : Store) : Prop := {
  log_sorted : StronglySorted (λ a b, ev_sequence a < ev_sequence b) (events s);
  log_bound : Forall (λ r, 0 < ev_sequence r ≤ autoincrement s) (events s);
  log_ids : NoDup (ev_event_id <$> events s);
  log_max : 0 ≤ autoincrement s ≤ max_int64;
}.

Lemma log_ok_empty : log_ok empty_store.
Proof. split; cbn; try constructor; unfold max_int64; lia. Qed.

Lemma row_by_id_None s id : row_by_id s id = None → id ∉ ev_event_id <$> events s.
Proof.
  unfold row_by_id. intros H Hin. apply list_elem_of_fmap in Hin as (row & -> & Hin).
  destruct (list_find _ (events s)) as [[]|] eqn:E; [done|].
  apply list_find_None in E. rewrite Forall_forall in E. by apply (E row).
Qed.

Lemma insert_event_log_ok s e env :
  log_ok s → row_by_id s (Event_ID e) = None → autoincrement s < max_int64 →
  log_ok (insert_event s e env).
Proof.
  intros [H1 H2 H3 H4] Hr Ha. split; cbn.
  - apply StronglySorted_snoc; [done|]. eapply Forall_impl; [exact H2|]. cbn. lia.
  - apply Forall_app. split; [|repeat constructor; cbn; lia].
    eapply Forall_impl; [exact H2|]. cbn. lia.
  - rewrite fmap_app. cbn. apply NoDup_app. split_and!; [done| |apply NoDup_singleton].
    intros x Hx ->%list_elem_of_singleton. by apply (row_by_id_None s (Event_ID e)).
  - lia.
Qed.

Lemma with_findings_log_ok s fs : log_ok s → log_ok (with_findings s fs).
Proof. by intros [? ? ? ?]. Qed.

Lemma Append_log_ok s e : log_ok s → log_ok (Append s e).1.
Proof.
  intros Hs. destruct (Append_cases s e) as [(s' & r & -> & H)|[err ->]]; [|done].
  destruct H; cbn; [done|by apply insert_event_log_ok|].
  by apply with_findings_log_ok, insert_event_log_ok.
Qed.

Lemma appends_log_ok s l : log_ok s → log_ok (appends s l).
Proof. revert s. induction l as [|e l IH]; intros s Hs; [done|]. by apply IH, Append_log_ok. Qed.

(** In every journal built by appending, sequences are positive, strictly
    increasing in the order of insertion and within an int64, and event ids
    are unique; a newly recorded event gets the next sequence. *)
Theorem journal_sequences l e s' r :
  let s := appends empty_store l in
  log_ok s ∧
  (Append s e = (s', Ok r) → events s' ≠ events s →
     Sequence r = autoincrement s + 1 ∧ Forall (λ row, ev_sequence row < Sequence r) (events s)).
Proof.
  intros s. assert (log_ok s) as Hs by apply appends_log_ok, log_ok_empty.
  split; [done|]. intros HA Hne. apply Append_ok, append_tx_appended in HA as (_ & _ & HA).
  assert (Sequence r = autoincrement s + 1) as Hr by (by destruct HA).
  split; [done|]. rewrite Hr. eapply Forall_impl; [apply Hs|]. cbn. lia.
Qed.

(** ** Reading *)

Lemma scan_rows_ok {A B} (f : A → result B) rows l :
  scan_rows f rows = Ok l ↔ Forall2 (λ x y, f x = Ok y) rows l.
Proof.
  revert l. induction rows as [|x rows IH]; intros l; cbn [scan_rows].
  - split; [by intros [= <-]|]. by inversion 1.
  - split.
    + intros H. ok_inv. constructor; [done|]. by apply IH.
    + inversion 1 as [|? y ? ys Hy Hys]; subst. rewrite Hy. cbn.
      rewrite (proj2 (IH ys) Hys). done.
Qed.

Lemma sequence_less_strict : StrictLess sequence_less.
Proof. unfold sequence_less. split; intros; lia. Qed.

(** ORDER BY sequence is the order of insertion. *)
Lemma sort_rows s (P : EventRow → Prop) `{∀ x, Decision (P x)} :
  log_ok s → sort_by sequence_less (filter P (events s)) = filter P (events s).
Proof.
  intros [Hs _ _ _]. apply sort_by_id; [apply sequence_less_strict|].
  apply StronglySorted_filter. clear -Hs. induction Hs as [|x l Hl IH Hx]; constructor; [done|].
  eapply Forall_impl; [exact Hx|]. intros y Hy. unfold le_by, sequence_less. cbn in *. lia.
Qed.

(** The rows hold the events they were made from. *)
Definition rows_of (rows : list EventRow) (recs : list JRecord) : Prop :=
  Forall2 (λ row rec, Unmarshal (ev_envelope row) = Some (REvent rec) ∧
    row = event_row (Sequence rec) (REvent rec) (ev_envelope row)) rows recs.

Lemma rows_of_sequence rows recs :
  rows_of rows recs → ev_sequence <$> rows = Sequence <$> recs.
Proof. induction 1 as [|row rec rows recs [_ ->] _ IH]; cbn; [done|]. by f_equal. Qed.

Lemma rows_of_filter (P : EventRow → Prop) (Q : JRecord → Prop)
    `{∀ x, Decision (P x)} `{∀ x, Decision (Q x)} rows recs :
  rows_of rows recs → (∀ rec env, rec ∈ recs → P (event_row (Sequence rec) (REvent rec) env) ↔ Q rec) →
  rows_of (filter P rows) (filter Q recs).
Proof.
  induction 1 as [|row rec rows recs [Hu Hr] Hrs IH]; intros HPQ; [constructor|].
  rewrite !filter_cons. assert (P row ↔ Q rec) as Hiff by (rewrite Hr; apply HPQ; by left).
  assert (rows_of (filter P rows) (filter Q recs)) as Hrec.
  { apply IH. intros ? ? Hin. apply HPQ. by right. }
  destruct (decide (P row)), (decide (Q rec)); try tauto. constructor; [by split|done].
Qed.

Lemma rows_of_scan fmt rows recs :
  rows_of rows recs → scan_rows (scan_event fmt) rows = Ok recs.
Proof.
  intros H. apply scan_rows_ok. eapply Forall2_impl; [exact H|].
  intros row [q e] [Hu Hr]. cbn in *. unfold scan_event. rewrite Hu. by rewrite Hr at 1.
Qed.

Lemma appends_rows_of s recs l :
  rows_of (events s) recs → Forall wf l →
  ∃ new, rows_of (events (appends s l)) (recs ++ new) ∧ Forall (λ rec, REvent rec ∈ l) new.
Proof.
  intros Hrs Hl. revert s recs Hrs. induction Hl as [|e l He Hl IH]; intros s recs Hrs; cbn.
  { exists []. by rewrite app_nil_r. }
  assert (∃ new, rows_of (events (Append s e).1) (recs ++ new) ∧
            Forall (λ rec, REvent rec = e) new) as (n1 & H1 & Hn1).
  { destruct (Append_cases s e) as [(s' & r & -> & H)|[err ->]];
      [|exists []; by rewrite app_nil_r].
    assert (∀ env fs, Marshal e = Some env →
      rows_of (events (with_findings (insert_event s e env) fs))
        (recs ++ [mkRecord (autoincrement s + 1) e])) as Hins.
    { intros env fs Hm. apply Forall2_app; [done|]. constructor; [|constructor]. cbn.
      split; [|done]. destruct (Marshal_Unmarshal e He) as (t & Ht & Hu). congruence. }
    destruct H as [row Hr Hm|env Hr Hm Ha Hlc|env fs f Hr Hm Ha Hlc Hb Hp].
    - exists []. by rewrite app_nil_r.
    - exists [mkRecord (autoincrement s + 1) e]. split; [|by repeat constructor].
      exact (Hins env (current_findings s) Hm).
    - exists [mkRecord (autoincrement s + 1) e]. split; [|by repeat constructor]. by apply Hins. }
  destruct (IH _ _ H1) as (n2 & H2 & Hn2). exists (n1 ++ n2). rewrite app_assoc.
  split; [done|]. apply Forall_app. split.
  - eapply Forall_impl; [exact Hn1|]. intros rec ->. by left.
  - eapply Forall_impl; [exact Hn2|]. intros rec Hin. by right.
Qed.

Lemma filter_rows_after after rows recs :
  rows_of rows recs →
  rows_of (filter (λ r, (after <? ev_sequence r) = true) rows)
    (filter (λ rec, (after <? Sequence rec) = true) recs).
Proof. intros H. by apply rows_of_filter. Qed.

(** On a journal of marshallable events, [Read] returns exactly the first
    events after the given sequence, in order, with the events that were
    appended, at most a thousand of them and at least one when there are any;
    a page shorter than the limit is the end of the journal. *)
Theorem Read_page l afterSequence limit :
  Forall wf l → 0 ≤ afterSequence →
  let s := appends empty_store l in
  ∃ all page, Read s afterSequence limit = Ok page ∧
    rows_of (events s) all ∧
    page = take (Z.to_nat (read_limit limit)) (filter (λ r, (afterSequence <? Sequence r) = true) all) ∧
    StronglySorted (λ a b, Sequence a < Sequence b) all ∧
    1 ≤ read_limit limit ≤ 1000.
Proof.
  intros Hl Ha s. destruct (appends_rows_of empty_store [] l ltac:(constructor) Hl) as (all & Hrs & _).
  fold s in Hrs. cbn in Hrs. assert (log_ok s) as Hok by apply appends_log_ok, log_ok_empty.
  exists all, (take (Z.to_nat (read_limit limit))
                (filter (λ r, (afterSequence <? Sequence r) = true) all)).
  split_and!; [|done|done| |unfold read_limit; repeat case_match; bool_prop; lia..].
  - unfold Read. rewrite (proj2 (Z.ltb_ge _ _)) by done.
    rewrite sort_rows by done. apply rows_of_scan. apply Forall2_take. by apply filter_rows_after.
  - destruct Hok as [Hs _ _ _]. apply rows_of_sequence in Hrs. clear -Hs Hrs.
    revert all Hrs. induction Hs as [|r rows Hrows IH Hr]; intros [|rec all] [=]; constructor; [by apply IH|].
    rewrite <-H. apply (Forall_fmap Sequence (λ q, ev_sequence r < q)).
    assert (Sequence <$> all = ev_sequence <$> rows) as -> by done. by apply Forall_fmap.
Qed.
