(* ===== verification/JournalFindings.v ===== *)
(** * The findings projection

    The lifecycle of a finding as a step relation that [projectFinding]
    follows; the projection as a replay of the log, so that [RebuildFindings]
    reproduces what the appends built; the count of occurrences; listing and
    sorting. *)

From S2P Require Import Prelude GoString GoTime Json Model ModelJson Journal JournalLog.
#[local] Open Scope Z_scope.

(** ** The projection is a replay of the log *)

Lemma replay_app fs l1 l2 : replay fs (l1 ++ l2) = (fs ← replay fs l1; replay fs l2).
Proof.
  revert fs. induction l1 as [|r l1 IH]; intros fs; [done|]. cbn.
  destruct (projectFinding fs r) as [[fs' f]|]; [|done]. cbn. apply IH.
Qed.

Definition is_lifecycle (rec : JRecord) : Prop := IsFindingLifecycle (REvent rec) = true.
Definition is_like (rec : JRecord) : Prop := like_finding (Event_Type (REvent rec)) = true.
#[local] Instance is_lifecycle_dec rec : Decision (is_lifecycle rec).
Proof. unfold is_lifecycle. apply _. Defined.
#[local] Instance is_like_dec rec : Decision (is_like rec).
Proof. unfold is_like. apply _. Defined.

(** The records of the log and the projection they replay to. *)
Definition projected (s : Store) (recs : list JRecord) : Prop :=
  rows_of (events s) recs ∧ replay ∅ (filter is_lifecycle recs) = Ok (current_findings s).

Lemma lifecycle_like e : IsFindingLifecycle e = true → like_finding (Event_Type e) = true.
Proof.
  unfold IsFindingLifecycle. rewrite one_of_elem. intros H.
  repeat (apply elem_of_cons in H as [->|H]; [reflexivity|]). by apply not_elem_of_nil in H.
Qed.

Lemma event_row_of e env q t : wf e → Marshal e = Some env →
  Unmarshal (ev_envelope (event_row q e env)) = Some (REvent (mkRecord t e)).
Proof.
  intros He Hm. destruct (Marshal_Unmarshal e He) as (u & Hu & Hd). cbn. congruence.
Qed.

Lemma Append_projected s e recs :
  wf e → projected s recs → ∃ new, projected (Append s e).1 (recs ++ new).
Proof.
  intros He [Hrs Hp].
  assert (projected s (recs ++ [])) as Hsame by (by rewrite app_nil_r).
  destruct (Append_cases s e) as [(s' & r & -> & H)|[err ->]]; [|by exists []].
  assert (∀ env fs, Marshal e = Some env →
    rows_of (events (with_findings (insert_event s e env) fs))
      (recs ++ [mkRecord (autoincrement s + 1) e])) as Hins.
  { intros env fs Hm. apply Forall2_app; [done|]. constructor; [|constructor].
    split; [by apply event_row_of|done]. }
  destruct H as [row Hr Hm|env Hr Hm Ha Hl|env fs f Hr Hm Ha Hl Hb Hf]; [by exists []|..];
    exists [mkRecord (autoincrement s + 1) e]; split.
  - exact (Hins env (current_findings s) Hm).
  - rewrite filter_app, (filter_cons_False is_lifecycle), app_nil_r; [done|].
    unfold is_lifecycle. cbn [REvent]. by rewrite Hl.
  - by apply Hins.
  - rewrite filter_app, (filter_cons_True is_lifecycle) by done. rewrite replay_app, Hp.
    cbn [mbind result_bind filter list_filter replay]. rewrite Hf. done.
Qed.

Lemma appends_projected s recs l :
  Forall wf l → projected s recs → ∃ all, projected (appends s l) all.
Proof.
  intros Hl. revert s recs. induction Hl as [|e l He Hl IH]; intros s recs Hs; [by eexists|].
  cbn. destruct (Append_projected s e recs He Hs) as [new Hn]. by eapply IH.
Qed.

Lemma projected_empty : projected empty_store [].
Proof. split; [constructor|done]. Qed.

Lemma rows_of_inj rows r1 r2 : rows_of rows r1 → rows_of rows r2 → r1 = r2.
Proof.
  intros H. revert r2. induction H as [|row [q1 e1] rows recs [Hu Hr] _ IH];
    intros r2 H2; inversion H2 as [|? [q2 e2] ? ? [Hu2 Hr2] H3]; subst; [done|].
  rewrite (IH _ H3). cbn [REvent Sequence] in *. rewrite Hu in Hu2. injection Hu2 as ->.
  f_equal. f_equal. rewrite Hr in Hr2. by injection Hr2.
Qed.

Lemma filter_agree {A} (P Q : A → Prop) `{∀ x, Decision (P x)} `{∀ x, Decision (Q x)} l :
  Forall (λ x, P x ↔ Q x) l → filter P l = filter Q l.
Proof.
  induction 1 as [|x l Hx _ IH]; [done|]. rewrite !filter_cons, IH.
  destruct (decide (P x)), (decide (Q x)); tauto.
Qed.

Lemma rows_like rows recs :
  rows_of rows recs →
  rows_of (filter (λ r, like_finding (ev_event_type r) = true) rows) (filter is_like recs).
Proof. intros H. by apply rows_of_filter. Qed.

Lemma rebuild_tx_replay s recs :
  log_ok s → rows_of (events s) recs → rebuild_tx s = replay ∅ (filter is_like recs).
Proof.
  intros Hok Hrs. unfold rebuild_tx. rewrite sort_rows by done.
  rewrite (rows_of_scan _ _ _ (rows_like _ _ Hrs)). done.
Qed.

(** C1. [RebuildFindings] reproduces exactly the projection that the appends
    maintained: in a journal of marshallable events whose finding.* types are
    lifecycle types, rebuilding succeeds and changes nothing. *)
Theorem Rebuild_identity l :
  Forall wf l →
  Forall (λ e, like_finding (Event_Type e) = true → IsFindingLifecycle e = true) l →
  let s := appends empty_store l in RebuildFindings s = (s, Ok tt).
Proof.
  intros Hl Hlike s. destruct (appends_projected _ _ l Hl projected_empty) as (all & Hrs & Hp).
  fold s in Hrs, Hp. unfold RebuildFindings.
  rewrite (rebuild_tx_replay s all); [|by apply appends_log_ok, log_ok_empty|done].
  destruct (appends_rows_of empty_store [] l ltac:(constructor) Hl) as (all' & Hrs' & Hin).
  cbn in Hrs'. fold s in Hrs'.
  assert (filter is_like all = filter is_lifecycle all) as ->.
  { rewrite (rows_of_inj _ _ _ Hrs Hrs'). apply filter_agree. eapply Forall_impl; [exact Hin|].
    intros rec Hr. unfold is_like, is_lifecycle. split; [|apply lifecycle_like].
    by apply (proj1 (Forall_forall _ _) Hlike). }
  rewrite Hp. by destruct s.
Qed.

Lemma transition_lifecycle cur rec f :
  transition_finding cur rec = Ok f → is_lifecycle rec.
Proof.
  unfold transition_finding, is_lifecycle, IsFindingLifecycle, one_of. cbn [existsb].
  destruct (String.eqb _ EventFindingObserved); [done|].
  destruct (String.eqb _ EventFindingAcknowledged); [done|].
  destruct (String.eqb _ EventFindingSuppressed); [done|].
  destruct (String.eqb _ EventFindingUnsuppressed); [done|].
  by destruct (String.eqb _ EventFindingResolved).
Qed.

Lemma projectFinding_inv t rec t' f :
  projectFinding t rec = Ok (t', f) →
  ∃ cur doc, currentFindingTx t (FindingID (REvent rec)) = Ok cur ∧
    transition_finding cur rec = Ok f ∧ Finding_Validate f = Ok tt ∧ Marshal f = Some doc ∧
    t' = <[Finding_ID f := finding_row f doc]> t.
Proof.
  unfold projectFinding. destruct (currentFindingTx _ _) as [cur|]; [|done]. cbn [mbind result_bind].
  destruct (transition_finding cur rec) as [g|] eqn:Et; [|done]. cbn [mbind result_bind].
  destruct (Finding_Validate g) as [[]|] eqn:EV; [|done]. cbn [map_err mbind result_bind].
  destruct (Marshal g) as [doc|] eqn:Em; [|done]. intros [= <- <-]. eauto 10.
Qed.

Lemma replay_lifecycle fs recs fs' : replay fs recs = Ok fs' → Forall is_lifecycle recs.
Proof.
  revert fs. induction recs as [|rec recs IH]; intros fs; [constructor|]. cbn.
  destruct (projectFinding fs rec) as [[fs1 f]|] eqn:Ep; [|done]. cbn. intros H.
  apply projectFinding_inv in Ep as (cur & doc & _ & Ht & _).
  constructor; [by eapply transition_lifecycle|by eapply IH].
Qed.

Lemma append_row l e s1 r :
  Forall wf l → wf e → Append (appends empty_store l) e = (s1, Ok r) →
  log_ok s1 ∧ ∃ all rec, rows_of (events s1) all ∧ rec ∈ all ∧ REvent rec = e.
Proof.
  intros Hl He HA. assert (s1 = appends empty_store (l ++ [e])) as Hs1.
  { unfold appends. rewrite foldl_app. cbn. unfold appends in HA. by rewrite HA. }
  split. { rewrite Hs1. apply appends_log_ok, log_ok_empty. }
  destruct (appends_rows_of empty_store [] (l ++ [e]) ltac:(constructor)) as (all & Hrs & _).
  { apply Forall_app. split; [done|]. constructor; [done|constructor]. }
  rewrite <-Hs1 in Hrs. cbn in Hrs. exists all.
  apply Append_ok, append_tx_appended in HA as (_ & _ & HA).
  apply appended_events in HA as (_ & _ & _ & _ & row & Hrow & _ & Hm).
  unfold row_by_id in Hrow. destruct (list_find _ _) as [[i row']|] eqn:E; [|done].
  injection Hrow as ->. apply list_find_Some in E as (Hi & _ & _).
  destruct (Forall2_lookup_l _ _ _ _ _ Hrs Hi) as (rec & Hrec & Hu & _).
  exists rec. split_and!; [done|by eapply list_elem_of_lookup_2|].
  destruct (Marshal_Unmarshal e He) as (t & Ht & Hd). congruence.
Qed.

(** One accepted event whose type matches [LIKE 'finding.%'] without being
    a lifecycle type, "finding.custom" or "Finding.observed" for instance,
    makes every later [RebuildFindings] fail. *)
Theorem Rebuild_blocked l e s1 r :
  Forall wf l → wf e →
  like_finding (Event_Type e) = true → IsFindingLifecycle e = false →
  Append (appends empty_store l) e = (s1, Ok r) →
  ∃ err, RebuildFindings s1 = (s1, Err err).
Proof.
  intros Hl He Hlike Hnl HA.
  destruct (append_row l e s1 r Hl He HA) as (Hok & all & rec & Hrs & Hin & Hrec).
  unfold RebuildFindings. rewrite (rebuild_tx_replay s1 all) by done.
  destruct (replay ∅ (filter is_like all)) as [fs|err] eqn:Er; [exfalso|by eexists].
  apply replay_lifecycle in Er. rewrite Forall_forall in Er.
  specialize (Er rec). unfold is_lifecycle in Er. rewrite Hrec, Hnl in Er.
  apply diff_false_true, Er, list_elem_of_filter. unfold is_like. by rewrite Hrec.
Qed.

(** ** The lifecycle *)

(** One lifecycle event on the state of a finding, [None] when unknown. *)
Inductive lifecycle_step : option FindingState → string → FindingState → Prop :=
  | step_first : lifecycle_step None EventFindingObserved FindingOpen
  | step_seen st : st ≠ FindingResolved → lifecycle_step (Some st) EventFindingObserved st
  | step_reopen : lifecycle_step (Some FindingResolved) EventFindingObserved FindingOpen
  | step_expired : lifecycle_step (Some FindingSuppressed) EventFindingObserved FindingOpen
  | step_acknowledge :
      lifecycle_step (Some FindingOpen) EventFindingAcknowledged FindingAcknowledged
  | step_suppress st : st ≠ FindingResolved →
      lifecycle_step (Some st) EventFindingSuppressed FindingSuppressed
  | step_unsuppress :
      lifecycle_step (Some FindingSuppressed) EventFindingUnsuppressed FindingOpen
  | step_resolve st : st ≠ FindingResolved →
      lifecycle_step (Some st) EventFindingResolved FindingResolved.

(** When a suppression lapses, and what an observation leaves. *)
Definition suppression_lapsed (f : Finding) (t : Time) : bool :=
  match SuppressedUntil f with Some u => negb (after u t) | None => false end.

Lemma transition_step cur rec f :
  transition_finding cur rec = Ok f →
  lifecycle_step (State <$> cur) (Event_Type (REvent rec)) (State f).
Proof.
  unfold transition_finding.
  destruct (String.eqb_spec (Event_Type (REvent rec)) EventFindingObserved) as [->|_].
  { intros H. ok_inv. destruct cur as [g|]; [|constructor].
    unfold applyObservation, lapse, reopen. cbn.
    destruct (String.eqb_spec (State g) FindingResolved) as [Hg|Hg]; cbn.
    - rewrite Hg. destruct (SuppressedUntil g); cbn; constructor.
    - destruct (SuppressedUntil g) as [u|]; cbn; [|by constructor].
      destruct (String.eqb_spec (State g) FindingSuppressed) as [Hs|Hs]; cbn; [|by constructor].
      destruct (negb _); cbn; rewrite Hs; by constructor. }
  destruct (String.eqb_spec (Event_Type (REvent rec)) EventFindingAcknowledged) as [->|_].
  { destruct cur as [g|]; [|done]. destruct (String.eqb_spec (State g) FindingOpen) as [Hs|]; [|done].
    intros H. cbn [negb] in H. ok_inv. cbn. rewrite Hs. constructor. }
  destruct (String.eqb_spec (Event_Type (REvent rec)) EventFindingSuppressed) as [->|_].
  { destruct cur as [g|]; [|done].
    destruct (String.eqb_spec (State g) FindingResolved) as [|Hs]; [done|].
    intros H. ok_inv. case_in H; ok_inv. cbn. by constructor. }
  destruct (String.eqb_spec (Event_Type (REvent rec)) EventFindingUnsuppressed) as [->|_].
  { destruct cur as [g|]; [|done].
    destruct (String.eqb_spec (State g) FindingSuppressed) as [Hs|]; [|done].
    intros H. cbn [negb] in H. ok_inv. cbn. rewrite Hs. constructor. }
  destruct (String.eqb_spec (Event_Type (REvent rec)) EventFindingResolved) as [->|_]; [|done].
  destruct cur as [g|]; [|done]. destruct (String.eqb_spec (State g) FindingResolved) as [|Hs]; [done|].
  intros H. ok_inv. cbn. by constructor.
Qed.

(** ** The stored documents

    Events as the program produces them: marshallable, with UTC times and a
    payload that decodes to marshallable values. *)

Definition payload_ok (e : Event) : Prop :=
  (Event_Type e = EventFindingObserved →
     ∀ o : FindingObservation, Unmarshal (Payload e) = Some o → wf o) ∧
  (IsFindingLifecycle e = true → Event_Type e ≠ EventFindingObserved →
     ∀ t : FindingTransition, Unmarshal (Payload e) = Some t →
       wf t ∧ ∀ u, Tr_Until t = Some u → wf (utc u)).

Definition event_ok (e : Event) : Prop :=
  wf e ∧ wf (utc (OccurredAt e)) ∧ wf (utc (RecordedAt e)) ∧ payload_ok e.

Lemma event_ok_wf l : Forall event_ok l → Forall wf l.
Proof. intros H. eapply Forall_impl; [exact H|]. by intros e [? _]. Qed.

Definition row_ok (id : string) (row : FindingRow) : Prop :=
  ∃ f, wf f ∧ Marshal f = Some (cf_document row) ∧ Finding_ID f = id ∧
    row = finding_row f (cf_document row) ∧ Finding_Validate f = Ok tt.

Definition table_ok (t : FindingTable) : Prop := map_Forall row_ok t.

Lemma row_decode row f :
  wf f → Marshal f = Some (cf_document row) → decode_finding (cf_document row) = Ok f.
Proof.
  intros Hw Hm. unfold decode_finding. destruct (Marshal_Unmarshal f Hw) as (t & Ht & Hu).
  rewrite Hm in Ht. injection Ht as <-. by rewrite Hu.
Qed.

Lemma table_current t id cur :
  table_ok t → currentFindingTx t id = Ok cur →
  match cur with
  | Some f => wf f ∧ Finding_ID f = id ∧ Finding_Validate f = Ok tt
  | None => t !! id = None
  end.
Proof.
  intros Ht. unfold currentFindingTx. destruct (t !! id) as [row|] eqn:E; [|by intros [= <-]].
  destruct (Ht _ _ E) as (f & Hw & Hm & Hid & _ & HV).
  rewrite (row_decode row f Hw Hm). by intros [= <-].
Qed.

Lemma decodePayload_ok {A} `{Codec A} e (x : A) :
  decodePayload e = Ok x → Unmarshal (Payload e) = Some x.
Proof. unfold decodePayload. destruct (String.eqb _ _); [done|]. destruct (Unmarshal _); congruence. Qed.

Lemma readTransition_ok e t :
  readTransition e = Ok t → Unmarshal (Payload e) = Some t ∧ blank (Tr_Actor t) = false.
Proof.
  unfold readTransition. destruct (decodePayload e) as [x|] eqn:E; [|done]. cbn [mbind result_bind].
  destruct (blank (Tr_Actor x)) eqn:Hb; [done|]. intros [= <-]. split; [|done].
  by apply decodePayload_ok.
Qed.

Ltac wf_close :=
  try split_and!; repeat first [apply Forall_nil_2 | apply Forall_cons_2]; done || lia.

Lemma advance_wf f rec :
  wf f → wf (utc (RecordedAt (REvent rec))) → valid_utf8 (Event_ID (REvent rec)) = true →
  0 ≤ Sequence rec ≤ max_int64 → wf (advanceFinding f rec).
Proof.
  cbn [wf Finding_codec]. intros H Ht Hid Hs. unfold utf8 in *. wf_split. unfold advanceFinding.
  cbn -[max_int64 max_uint64]. destruct (after _ _); wf_close.
Qed.

Lemma set_lifecycle_wf f st until ack res :
  wf f → valid_utf8 st = true → (∀ t, until = Some t → wf t) →
  (∀ a, ack = Some a → wf a) → (∀ a, res = Some a → wf a) → wf (set_lifecycle f st until ack res).
Proof.
  cbn [wf Finding_codec]. intros H Hst Hu Ha Hr. unfold utf8 in *. wf_split.
  unfold set_lifecycle. cbn -[max_int64 max_uint64]. wf_close.
Qed.

Lemma wf_actions f :
  wf f → (∀ t, SuppressedUntil f = Some t → wf t) ∧
    (∀ a, Acknowledgement f = Some a → wf a) ∧ (∀ a, Resolution f = Some a → wf a).
Proof. cbn [wf Finding_codec]. intros H. by wf_split. Qed.

Lemma reopen_wf f : wf f → wf (reopen f).
Proof.
  intros Hf. unfold reopen. destruct (String.eqb _ _); [|done].
  apply set_lifecycle_wf; try done. by apply wf_actions.
Qed.

Lemma lapse_wf e f : wf f → wf (lapse e f).
Proof.
  intros Hf. unfold lapse. destruct (SuppressedUntil f); [|done]. destruct (_ && _); [|done].
  apply set_lifecycle_wf; try done; by apply wf_actions.
Qed.

Lemma apply_wf cur rec o :
  (∀ f, cur = Some f → wf f) → wf o → event_ok (REvent rec) → 0 ≤ Sequence rec ≤ max_int64 →
  wf (applyObservation cur rec o).
Proof.
  intros Hcur Ho (He & Hoc & Hrc & _) Hs.
  assert (valid_utf8 (Event_ID (REvent rec)) = true ∧ valid_utf8 (FindingID (REvent rec)) = true)
    as [Hid Hfid].
  { cbn [wf Event_codec] in He. unfold utf8 in *. wf_split. done. }
  unfold applyObservation. destruct cur as [f|].
  - specialize (Hcur f eq_refl). apply advance_wf; [|done..].
    assert (wf (observe_fields (REvent rec) o f)) as Hf.
    { cbn [wf Finding_codec Observation_codec] in *. unfold utf8 in *. wf_split.
      unfold observe_fields. cbn -[max_int64 max_uint64].
      pose proof (Z.mod_pos_bound (Occurrences f + 1) (2 ^ 64) ltac:(lia)).
      unfold max_uint64 in *. destruct (before _ _), (after _ _); wf_close. }
    apply lapse_wf, reopen_wf, Hf.
  - cbn [wf Finding_codec Observation_codec] in *. unfold utf8 in *. wf_split.
    cbn -[max_int64 max_uint64]. unfold max_uint64 in *. wf_close.
Qed.

Lemma action_wf e t :
  wf (utc (RecordedAt e)) → wf t → ∀ a, actionFrom e t = Some a → wf a.
Proof.
  cbn [wf Transition_codec FindingAction_codec]. unfold utf8. intros Hr Ht a [= <-]. wf_split.
  cbn. wf_close.
Qed.

Lemma reopen_ID f : Finding_ID (reopen f) = Finding_ID f.
Proof. unfold reopen. by destruct (String.eqb _ _). Qed.
Lemma lapse_ID e f : Finding_ID (lapse e f) = Finding_ID f.
Proof. unfold lapse. destruct (SuppressedUntil f); [|done]. by destruct (_ && _). Qed.

Lemma transition_wf cur rec f :
  (∀ g, cur = Some g → wf g ∧ Finding_ID g = FindingID (REvent rec)) →
  event_ok (REvent rec) → 0 ≤ Sequence rec ≤ max_int64 →
  transition_finding cur rec = Ok f → wf f ∧ Finding_ID f = FindingID (REvent rec).
Proof.
  intros Hcur Hok Hs HT. pose proof Hok as (He & Hoc & Hrc & Hobs & Htr).
  specialize (Htr (transition_lifecycle _ _ _ HT)). revert HT.
  assert (valid_utf8 (Event_ID (REvent rec)) = true) as Hid.
  { cbn [wf Event_codec] in He. unfold utf8 in *. by wf_split. }
  unfold transition_finding.
  destruct (String.eqb_spec (Event_Type (REvent rec)) EventFindingObserved) as [Hty|Hty].
  { destruct (decodePayload (REvent rec)) as [o|] eqn:Eo; [|done]. cbn [mbind result_bind].
    intros H. ok_inv. apply decodePayload_ok in Eo. split.
    - apply apply_wf; [by intros g ->; apply Hcur|by apply Hobs|done|done].
    - destruct cur as [g|]; [|done]. destruct (Hcur g eq_refl) as [_ <-].
      unfold applyObservation. cbn [Finding_ID advanceFinding]. by rewrite lapse_ID, reopen_ID. }
  assert (∀ t, readTransition (REvent rec) = Ok t →
    wf t ∧ ∀ u, Tr_Until t = Some u → wf (utc u)) as Hread.
  { intros t [Ht _]%readTransition_ok. by apply (Htr Hty). }
  assert (∀ g st until ack res, wf g → valid_utf8 st = true → (∀ t, until = Some t → wf t) →
    (∀ a, ack = Some a → wf a) → (∀ a, res = Some a → wf a) →
    wf (advanceFinding (set_lifecycle g st until ack res) rec)) as Hset.
  { intros. by apply advance_wf; [apply set_lifecycle_wf|..]. }
  repeat (case_match; [destruct cur as [g|]; [destruct (Hcur g eq_refl) as [Hg Hgid]|done]|]);
    try done; repeat (case_match; [done|]); intros HR; ok_inv;
    try (case_in HR; ok_inv);
    repeat match goal with Ht : readTransition _ = Ok _ |- _ => apply Hread in Ht as [? ?] end;
    (split; [apply Hset; try done; try (by apply wf_actions); try (by apply action_wf)|done]).
  unfold utcTimePointer. intros t (u & Hu & ->)%fmap_Some. auto.
Qed.

Lemma projectFinding_table t rec t' f :
  table_ok t → event_ok (REvent rec) → 0 ≤ Sequence rec ≤ max_int64 →
  projectFinding t rec = Ok (t', f) →
  table_ok t' ∧ wf f ∧ Finding_ID f = FindingID (REvent rec) ∧
  ∃ doc, Marshal f = Some doc ∧ t' = <[FindingID (REvent rec) := finding_row f doc]> t.
Proof.
  intros Ht He Hs Hp. apply projectFinding_inv in Hp as (cur & doc & Hc & Htr & HV & Hm & ->).
  apply (table_current t _ cur Ht) in Hc.
  destruct (transition_wf cur rec f) as [Hw Hid]; [|done..|].
  { intros g ->. by destruct Hc as (? & ? & _). }
  rewrite Hid. split_and!; [|done..|by eexists].
  apply map_Forall_insert_2; [|done]. exists f. by rewrite Hid.
Qed.

Lemma Append_table s e :
  log_ok s → table_ok (current_findings s) → event_ok e →
  table_ok (current_findings (Append s e).1).
Proof.
  intros Hok Ht He. destruct (Append_cases s e) as [(s' & r & -> & H)|[err ->]]; [|done].
  destruct H as [| |env fs f Hr Hm Ha Hl Hb Hp]; [done..|]. cbn.
  eapply projectFinding_table in Hp as [Hp _]; [exact Hp|done|exact He|].
  cbn. destruct Hok as [_ _ _ ?]. lia.
Qed.

Lemma appends_table s l :
  log_ok s → table_ok (current_findings s) → Forall event_ok l →
  table_ok (current_findings (appends s l)).
Proof.
  intros Hs Ht Hl. revert s Hs Ht. induction Hl as [|e l He Hl IH]; intros s Hs Ht; [done|].
  cbn. apply IH; [by apply Append_log_ok|by apply Append_table].
Qed.

Lemma journal_table l : Forall event_ok l → table_ok (current_findings (appends empty_store l)).
Proof. intros H. apply appends_table; [apply log_ok_empty|apply map_Forall_empty|done]. Qed.

(** The finding under an id, as the readers see it. *)
Definition finding_at (s : Store) (id : string) : option Finding :=
  match CurrentFinding s id with Ok f => Some f | Err _ => None end.

Lemma CurrentFinding_table s id :
  table_ok (current_findings s) →
  currentFindingTx (current_findings s) id = Ok (finding_at s id).
Proof.
  intros Ht. unfold finding_at, CurrentFinding, currentFindingTx.
  destruct (current_findings s !! id) as [row|] eqn:E; [|done].
  destruct (Ht _ _ E) as (f & Hw & Hm & _). by rewrite (row_decode row f Hw Hm).
Qed.

Lemma CurrentFinding_insert s id f doc fs :
  wf f → Marshal f = Some doc → current_findings s = <[id := finding_row f doc]> fs →
  CurrentFinding s id = Ok f.
Proof.
  intros Hw Hm Hc. unfold CurrentFinding. rewrite Hc, lookup_insert_eq.
  by apply (row_decode (finding_row f doc)).
Qed.

(** What an accepted lifecycle event did to the table. *)
Lemma Append_finding s e s' r :
  log_ok s → table_ok (current_findings s) → event_ok e →
  IsFindingLifecycle e = true → row_by_id s (Event_ID e) = None → Append s e = (s', Ok r) →
  ∃ f, transition_finding (finding_at s (FindingID e)) r = Ok f ∧ Finding_Validate f = Ok tt ∧
    wf f ∧ REvent r = e ∧ CurrentFinding s' (FindingID e) = Ok f ∧
    (∀ id, id ≠ FindingID e → CurrentFinding s' id = CurrentFinding s id).
Proof.
  intros Hok Ht He Hl Hr HA. apply Append_ok, append_tx_appended in HA as (_ & _ & HA).
  destruct HA as [row Hr'|env Hr' Hm Ha Hl'|env fs f Hr' Hm Ha Hl' Hb Hp]; [congruence..|].
  pose proof Hp as Hp2. apply projectFinding_inv in Hp2 as (cur & _ & Hc & Htr & HV & _).
  rewrite (CurrentFinding_table s _ Ht) in Hc. injection Hc as <-.
  apply projectFinding_table in Hp as (_ & Hw & Hid & doc & Hd & Hfs);
    [|done|done|cbn; destruct Hok as [_ _ _ ?]; lia].
  cbn [REvent] in *. exists f. split_and!; [done..| |].
  - eapply CurrentFinding_insert; [done|exact Hd|]. cbn. exact Hfs.
  - intros id Hne. unfold CurrentFinding. cbn [current_findings with_findings]. rewrite Hfs.
    by rewrite lookup_insert_ne.
Qed.

(** The clocks of a finding only widen. *)
Lemma transition_clocks cur rec f :
  transition_finding (Some cur) rec = Ok f →
  ns (UpdatedAt cur) ≤ ns (UpdatedAt f) ∧ ns (FirstSeen f) ≤ ns (FirstSeen cur) ∧
  ns (LastSeen cur) ≤ ns (LastSeen f) ∧ LastEventID f = Event_ID (REvent rec) ∧
  LastEventSequence f = Sequence rec.
Proof.
  assert (∀ g, ns (UpdatedAt g) = ns (UpdatedAt cur) → ns (FirstSeen g) ≤ ns (FirstSeen cur) →
    ns (LastSeen cur) ≤ ns (LastSeen g) →
    ns (UpdatedAt cur) ≤ ns (UpdatedAt (advanceFinding g rec)) ∧
    ns (FirstSeen (advanceFinding g rec)) ≤ ns (FirstSeen cur) ∧
    ns (LastSeen cur) ≤ ns (LastSeen (advanceFinding g rec)) ∧
    LastEventID (advanceFinding g rec) = Event_ID (REvent rec) ∧
    LastEventSequence (advanceFinding g rec) = Sequence rec) as Hadv.
  { intros g H1 H2 H3. cbn. unfold after.
    destruct (_ <? _) eqn:E; cbn; bool_prop; split_and!; done || lia. }
  unfold transition_finding.
  repeat (case_match; [|]); try done; intros HR; ok_inv; try (case_in HR; ok_inv);
    try done; apply Hadv; try done; cbn; unfold lapse, reopen, observe_fields, before, after;
    repeat (cbn; case_match); cbn; bool_prop; try done; lia.
Qed.

(** C2. An accepted lifecycle event moves its finding, and no other, along one
    step of the lifecycle: the finding read back is in a state that the step
    relation allows, points at the event, and its clocks have only widened. *)
Theorem Append_lifecycle l e s' r :
  Forall event_ok l → event_ok e →
  let s := appends empty_store l in
  IsFindingLifecycle e = true → row_by_id s (Event_ID e) = None → Append s e = (s', Ok r) →
  ∃ f, CurrentFinding s' (FindingID e) = Ok f ∧
    lifecycle_step (State <$> finding_at s (FindingID e)) (Event_Type e) (State f) ∧
    (∀ g, finding_at s (FindingID e) = Some g →
       ns (UpdatedAt g) ≤ ns (UpdatedAt f) ∧ ns (FirstSeen f) ≤ ns (FirstSeen g) ∧
       ns (LastSeen g) ≤ ns (LastSeen f) ∧ LastEventID f = Event_ID e ∧
       LastEventSequence f = Sequence r) ∧
    (∀ id, id ≠ FindingID e → CurrentFinding s' id = CurrentFinding s id).
Proof.
  intros Hl He s Hlc Hr HA.
  destruct (Append_finding s e s' r) as (f & Htr & _ & _ & Hre & Hc & Hfr); try done.
  { apply appends_log_ok, log_ok_empty. }
  { by apply journal_table. }
  exists f. split_and!; [done| |..|done].
  - apply transition_step in Htr. by rewrite Hre in Htr.
  - intros g Hg. rewrite Hg in Htr. apply transition_clocks in Htr. by rewrite Hre in Htr.
Qed.

(** The error of a transition that is not allowed. *)
Definition refusal (cur : option Finding) : string :=
  match cur with
  | Some _ => "invalid finding lifecycle transition"
  | None => "finding not found"
  end.

Lemma lifecycle_types rec :
  is_lifecycle rec →
  Event_Type (REvent rec) = EventFindingObserved ∨
  Event_Type (REvent rec) = EventFindingAcknowledged ∨
  Event_Type (REvent rec) = EventFindingSuppressed ∨
  Event_Type (REvent rec) = EventFindingUnsuppressed ∨
  Event_Type (REvent rec) = EventFindingResolved.
Proof.
  unfold is_lifecycle, IsFindingLifecycle. rewrite one_of_elem. rewrite !elem_of_cons.
  intros [|[|[|[|[|H]]]]]; try tauto. by apply not_elem_of_nil in H.
Qed.

Lemma transition_refused cur rec :
  is_lifecycle rec → (∀ st, ¬ lifecycle_step (State <$> cur) (Event_Type (REvent rec)) st) →
  ∃ err, transition_finding cur rec = Err err ∧ errors_is err (refusal cur) = true.
Proof.
  intros Hl Hno. unfold transition_finding.
  destruct (lifecycle_types rec Hl) as [Ht|[Ht|[Ht|[Ht|Ht]]]]; rewrite Ht in Hno |- *;
    repeat match goal with |- context [String.eqb ?a ?b] =>
      is_const a; is_const b;
      let v := eval vm_compute in (String.eqb a b) in change (String.eqb a b) with v end;
    cbv iota; (destruct cur as [g|]; [|first [by eexists | destruct (Hno _ step_first)]]).
  - destruct (decide (State g = FindingResolved)) as [Hg|Hg]; cbn in Hno.
    + rewrite Hg in Hno. destruct (Hno _ step_reopen).
    + destruct (Hno _ (step_seen _ Hg)).
  - destruct (String.eqb_spec (State g) FindingOpen) as [Hg|Hg]; [|by eexists].
    cbn in Hno. rewrite Hg in Hno. destruct (Hno _ step_acknowledge).
  - destruct (String.eqb_spec (State g) FindingResolved) as [Hg|Hg]; [by eexists|].
    destruct (Hno _ (step_suppress _ Hg)).
  - destruct (String.eqb_spec (State g) FindingSuppressed) as [Hg|Hg]; [|by eexists].
    cbn in Hno. rewrite Hg in Hno. destruct (Hno _ step_unsuppress).
  - destruct (String.eqb_spec (State g) FindingResolved) as [Hg|Hg]; [by eexists|].
    destruct (Hno _ (step_resolve _ Hg)).
Qed.

(** C30. A lifecycle event that the current state does not allow is refused and
    changes nothing: with the invalid-transition error for a known finding,
    with the not-found error for an unknown one. *)
Theorem Append_illegal l e :
  Forall event_ok l → event_ok e →
  let s := appends empty_store l in
  Event_Validate json_valid e = Ok tt → blank (FindingID e) = false →
  IsFindingLifecycle e = true → row_by_id s (Event_ID e) = None → autoincrement s < max_int64 →
  (∀ st, ¬ lifecycle_step (State <$> finding_at s (FindingID e)) (Event_Type e) st) →
  ∃ err, Append s e = (s, Err err) ∧ errors_is err (refusal (finding_at s (FindingID e))) = true.
Proof.
  intros Hl He s HV Hb Hlc Hr Ha Hno.
  destruct (Marshal_Unmarshal e (proj1 He)) as (env & Hm & _).
  set (rec := mkRecord (autoincrement s + 1) e).
  destruct (transition_refused (finding_at s (FindingID e)) rec) as (err & Htr & Herr); [done..|].
  exists err. split; [|done]. unfold Append, append_tx, appendEvent.
  rewrite HV. cbn [map_err mbind result_bind]. rewrite Hlc, Hb. cbn [andb fail_if mbind result_bind].
  rewrite (proj2 (marshal_event_ok _ _) Hm). cbn [mbind result_bind]. rewrite Hr.
  rewrite (proj2 (Z.leb_gt _ _) Ha). cbn [mbind result_bind andb].
  change (current_findings (insert_event s e env)) with (current_findings s).
  unfold projectFinding. cbn [REvent].
  rewrite (CurrentFinding_table s _ (journal_table l Hl)). cbn [mbind result_bind].
  fold rec. by rewrite Htr.
Qed.

(** *** Observations are always accepted *)

Lemma reopen_fields f :
  Finding_Schema (reopen f) = Finding_Schema f ∧
  Finding_SchemaVersion (reopen f) = Finding_SchemaVersion f ∧
  DetectorID (reopen f) = DetectorID f ∧ Title (reopen f) = Title f ∧
  Finding_Severity (reopen f) = Finding_Severity f ∧ FirstSeen (reopen f) = FirstSeen f ∧
  LastSeen (reopen f) = LastSeen f ∧ UpdatedAt (reopen f) = UpdatedAt f ∧
  Occurrences (reopen f) = Occurrences f ∧
  (FindingState_Valid (State f) = true → FindingState_Valid (State (reopen f)) = true).
Proof. unfold reopen. destruct (String.eqb _ _); split_and!; done. Qed.

Lemma lapse_fields e f :
  Finding_Schema (lapse e f) = Finding_Schema f ∧
  Finding_SchemaVersion (lapse e f) = Finding_SchemaVersion f ∧
  DetectorID (lapse e f) = DetectorID f ∧ Title (lapse e f) = Title f ∧
  Finding_Severity (lapse e f) = Finding_Severity f ∧ FirstSeen (lapse e f) = FirstSeen f ∧
  LastSeen (lapse e f) = LastSeen f ∧ UpdatedAt (lapse e f) = UpdatedAt f ∧
  Occurrences (lapse e f) = Occurrences f ∧
  (FindingState_Valid (State f) = true → FindingState_Valid (State (lapse e f)) = true).
Proof.
  unfold lapse. destruct (SuppressedUntil f); [|by split_and!].
  destruct (_ && _); split_and!; done.
Qed.

Lemma observation_valid cur rec o :
  Event_Validate json_valid (REvent rec) = Ok tt → blank (FindingID (REvent rec)) = false →
  Observation_Validate o = Ok tt → 0 < Sequence rec →
  (∀ g, cur = Some g → Finding_Validate g = Ok tt ∧ 0 ≤ Occurrences g < max_uint64) →
  Finding_Validate (applyObservation cur rec o) = Ok tt.
Proof.
  rewrite Event_Validate_ok, Observation_Validate_ok, Finding_Validate_ok.
  intros (_ & _ & Hid & _ & Hoc & Hrc & _) Hf (Ho1 & Ho2 & _ & Ho3) Hs Hcur.
  destruct cur as [g|]; [|by split_and!].
  destruct (Hcur g eq_refl) as [HV Hocc].
  apply Finding_Validate_ok in HV as (V1 & V2 & V3 & _ & _ & _ & V4 & (V5 & V6 & V7) & _).
  unfold applyObservation. set (h := observe_fields (REvent rec) o g).
  destruct (reopen_fields h) as (R1 & R2 & R3 & R4 & R5 & R6 & R7 & R8 & R9 & R10).
  destruct (lapse_fields (REvent rec) (reopen h))
    as (L1 & L2 & L3 & L4 & L5 & L6 & L7 & L8 & L9 & L10).
  cbn [advanceFinding Finding_Schema Finding_SchemaVersion Finding_ID DetectorID Title
       Finding_Severity State FirstSeen LastSeen UpdatedAt Occurrences LastEventID
       LastEventSequence].
  rewrite L1, L2, L3, L4, L5, L6, L7, L8, L9, R1, R2, R3, R4, R5, R6, R7, R8, R9.
  rewrite lapse_ID, reopen_ID. unfold max_uint64 in Hocc.
  split_and!; try done; [by apply L10, R10| | | |].
  - cbn. by destruct (before _ _).
  - cbn. by destruct (after _ _).
  - by destruct (after _ _).
  - cbn. rewrite Z.mod_small; lia.
Qed.

Lemma accept_observation s e o :
  log_ok s → table_ok (current_findings s) → event_ok e →
  Event_Validate json_valid e = Ok tt → blank (FindingID e) = false →
  Event_Type e = EventFindingObserved → decodePayload e = Ok o → Observation_Validate o = Ok tt →
  row_by_id s (Event_ID e) = None → autoincrement s < max_int64 →
  (∀ g, finding_at s (FindingID e) = Some g → Occurrences g < max_uint64) →
  let rec := mkRecord (autoincrement s + 1) e in
  ∃ s', Append s e = (s', Ok rec) ∧
    CurrentFinding s' (FindingID e) = Ok (applyObservation (finding_at s (FindingID e)) rec o).
Proof.
  intros Hok Ht He HV Hb Hty Hdec Ho Hr Ha Hocc rec.
  assert (0 < Sequence rec ≤ max_int64) as Hseq
    by (destruct Hok as [_ _ _ ?]; unfold rec; cbn [Sequence]; lia).
  destruct (Marshal_Unmarshal e (proj1 He)) as (env & Hm & _).
  pose proof (CurrentFinding_table s (FindingID e) Ht) as Hc.
  set (cur := finding_at s (FindingID e)) in *.
  pose proof (table_current _ _ _ Ht Hc) as Hcur.
  set (f := applyObservation cur rec o).
  assert (transition_finding cur rec = Ok f) as Htr.
  { unfold transition_finding. cbn [REvent rec]. rewrite Hty. cbn [String.eqb].
    rewrite Hdec. cbn [mbind result_bind]. rewrite Ho. done. }
  assert (Finding_Validate f = Ok tt) as HVf.
  { apply observation_valid; try done; [lia|]. intros g ->. destruct Hcur as (Hg & _ & ?).
    split; [done|]. split; [|by apply Hocc]. cbn [wf Finding_codec] in Hg. by wf_split. }
  destruct (transition_wf cur rec f) as [Hwf Hid]; try done; [|lia|].
  { intros g ->. by destruct Hcur as (? & ? & _). }
  destruct (Marshal_Unmarshal f Hwf) as (doc & Hd & _).
  exists (with_findings (insert_event s e env)
            (<[FindingID e := finding_row f doc]> (current_findings s))). split.
  - apply (proj2 (Append_ok _ _ _ _)), (proj2 (append_tx_appended _ _ _ _)).
    split_and!; [done|by rewrite Hb, andb_false_r|].
    apply (appended_finding s e env _ f); try done; [by unfold IsFindingLifecycle; rewrite Hty|].
    unfold projectFinding. cbn [REvent]. rewrite Hc. cbn [mbind result_bind].
    fold rec. rewrite Htr. cbn [mbind result_bind]. rewrite HVf. cbn [map_err mbind result_bind].
    rewrite Hd. by rewrite Hid.
  - by eapply CurrentFinding_insert.
Qed.

(** C31. An observation is never refused: whatever the state of the finding,
    a valid observation event with a new id is accepted, and the finding read
    back is the observation applied to the previous one. *)
Theorem observation_accepted l e o :
  Forall event_ok l → event_ok e →
  let s := appends empty_store l in
  Event_Validate json_valid e = Ok tt → blank (FindingID e) = false →
  Event_Type e = EventFindingObserved → decodePayload e = Ok o → Observation_Validate o = Ok tt →
  row_by_id s (Event_ID e) = None → autoincrement s < max_int64 →
  (∀ g, finding_at s (FindingID e) = Some g → Occurrences g < max_uint64) →
  let rec := mkRecord (autoincrement s + 1) e in
  ∃ s', Append s e = (s', Ok rec) ∧
    CurrentFinding s' (FindingID e) = Ok (applyObservation (finding_at s (FindingID e)) rec o).
Proof.
  intros Hl He s. apply accept_observation; [|by apply journal_table|done].
  apply appends_log_ok, log_ok_empty.
Qed.

(** ** Occurrences *)

Definition observes (id : string) (rec : JRecord) : Prop :=
  Event_Type (REvent rec) = EventFindingObserved ∧ FindingID (REvent rec) = id.
#[local] Instance observes_dec id rec : Decision (observes id rec).
Proof. unfold observes. apply _. Defined.

Definition observations (id : string) (recs : list JRecord) : Z :=
  Z.of_nat (length (filter (observes id) recs)).

Lemma observations_snoc id recs rec :
  observations id (recs ++ [rec]) =
    observations id recs + (if decide (observes id rec) then 1 else 0).
Proof.
  unfold observations. rewrite filter_app, length_app, filter_cons, filter_nil.
  destruct (decide _); cbn; lia.
Qed.

Lemma lapse_occurrences e f : Occurrences (lapse e f) = Occurrences f.
Proof. unfold lapse. destruct (SuppressedUntil f); [|done]. by destruct (_ && _). Qed.
Lemma reopen_occurrences f : Occurrences (reopen f) = Occurrences f.
Proof. unfold reopen. by destruct (String.eqb _ _). Qed.

Lemma transition_occurrences cur rec f :
  (∀ g, cur = Some g → 0 ≤ Occurrences g ≤ max_uint64) →
  transition_finding cur rec = Ok f → Finding_Validate f = Ok tt →
  Occurrences f = from_option Occurrences 0 cur
    + (if decide (Event_Type (REvent rec) = EventFindingObserved) then 1 else 0).
Proof.
  intros Hcur Htr HV. assert (Occurrences f ≠ 0) as Hpos by (unfold Finding_Validate in HV; valid_inv HV; by bool_prop).
  clear HV. revert Htr. unfold transition_finding.
  destruct (String.eqb_spec (Event_Type (REvent rec)) EventFindingObserved) as [Ht|Ht].
  - rewrite decide_True by done. intros H. ok_inv. destruct cur as [g|]; [|done].
    unfold applyObservation in *. cbn [advanceFinding Occurrences] in *.
    rewrite lapse_occurrences, reopen_occurrences in *. cbn [observe_fields Occurrences] in *.
    cbn [from_option]. specialize (Hcur g eq_refl). unfold max_uint64 in Hcur.
    destruct (decide (Occurrences g = 2 ^ 64 - 1)) as [He|He].
    + rewrite He in Hpos. by vm_compute in Hpos.
    + apply Z.mod_small. lia.
  - rewrite decide_False by done. intros HR.
    repeat (case_match; [destruct cur as [g|]; [|done]|]); try done; ok_inv;
      repeat (case_in HR; [done|]); ok_inv; try (case_in HR; ok_inv); cbn; lia.
Qed.

Definition counted (s : Store) (recs : list JRecord) : Prop :=
  rows_of (events s) recs ∧
  ∀ id, from_option Occurrences 0 (finding_at s id) = observations id recs.

Lemma finding_at_wf s id f : table_ok (current_findings s) → finding_at s id = Some f → wf f.
Proof.
  intros Ht Hf. pose proof (CurrentFinding_table s id Ht) as Hc. rewrite Hf in Hc.
  by apply (table_current _ _ _ Ht) in Hc as [? _].
Qed.

Lemma Append_counted s e recs :
  log_ok s → table_ok (current_findings s) → event_ok e → counted s recs →
  ∃ recs', counted (Append s e).1 recs'.
Proof.
  intros Hok Ht He [Hrs Hc].
  destruct (Append s e) as [s' [r|err]] eqn:HA; [|apply Append_err in HA as ->; by eexists].
  pose proof HA as HA2. apply Append_ok, append_tx_appended in HA2 as (_ & _ & HA2).
  assert (∀ env fs, Marshal e = Some env →
    rows_of (events (with_findings (insert_event s e env) fs))
      (recs ++ [mkRecord (autoincrement s + 1) e])) as Hins.
  { intros env fs Hm. apply Forall2_app; [done|]. constructor; [|constructor].
    split; [apply event_row_of; [apply He|done]|done]. }
  inversion HA2 as [row Hr Hm|env Hr Hm Ha Hl|env fs f' Hr Hm Ha Hl Hb Hp]; subst; [by eexists|..];
    exists (recs ++ [mkRecord (autoincrement s + 1) e]); (split; [by apply (Hins env)|]);
    intros id; rewrite observations_snoc; unfold observes; cbn [REvent fst].
  - rewrite decide_False; [rewrite Z.add_0_r; apply Hc|].
    intros [Hty _]. unfold IsFindingLifecycle in Hl. by rewrite Hty in Hl.
  - destruct (Append_finding _ _ _ _ Hok Ht He Hl Hr HA) as (f & Htr & HV & Hw & _ & Hcf & Hfr).
    destruct (decide (id = FindingID e)) as [->|Hne].
    + assert (finding_at (with_findings (insert_event s e env) fs) (FindingID e) = Some f) as ->
        by (unfold finding_at; by rewrite Hcf).
      cbn [from_option].
      apply transition_occurrences in Htr as ->; [|intros g Hg|done].
      2:{ apply (finding_at_wf s) in Hg; [|done]. cbn [wf Finding_codec] in Hg. by wf_split. }
      rewrite Hc.
      cbn [REvent]. destruct (decide (Event_Type e = _)) as [Hty|Hty].
      * by rewrite decide_True.
      * rewrite decide_False; [done|]. by intros [? _].
    + rewrite decide_False by (intros [_ ?]; congruence).
      rewrite Z.add_0_r, <-Hc. unfold finding_at. by rewrite Hfr.
Qed.

(** A finding's occurrence count is the number of observation events the
    journal holds for it, retries excluded; it cannot wrap around. *)
Theorem occurrences_count l :
  Forall event_ok l →
  let s := appends empty_store l in
  ∃ recs, rows_of (events s) recs ∧
    ∀ id f, CurrentFinding s id = Ok f → Occurrences f = observations id recs.
Proof.
  intros Hl s. assert (∃ recs, counted s recs) as (recs & Hrs & Hc).
  { assert (∀ s0 recs, log_ok s0 → table_ok (current_findings s0) → counted s0 recs →
      ∃ recs', counted (appends s0 l) recs') as Hgen.
    { clear s. induction Hl as [|e l He Hl IH]; intros s0 recs Hok Ht Hc; [by eexists|].
      destruct (Append_counted s0 e recs Hok Ht He Hc) as [recs' Hc'].
      eapply IH; [by apply Append_log_ok|by apply Append_table|exact Hc']. }
    apply (Hgen empty_store []); [apply log_ok_empty|apply map_Forall_empty|].
    split; [constructor|done]. }
  exists recs. split; [done|]. intros id f Hf. specialize (Hc id).
  unfold finding_at in Hc. by rewrite Hf in Hc.
Qed.

(** ** Listing and sorting *)

#[export] Instance listing_strict : StrictLess listing_less.
Proof.
  apply (lex_by_strict (λ a : string * FindingRow, cf_updated_at a.2) String.eqb
    (λ x y, str_ltb y x) (λ a b, str_ltb a.1 b.1)); [apply str_eqb_eq| | |].
  - intros x y H1 H2. by apply str_ltb_total.
  - apply flip_strict, _.
  - apply (less_on_strict fst str_ltb), _.
Qed.

Lemma listing_antisym a b :
  le_by listing_less a b → le_by listing_less b a → a.1 = b.1.
Proof.
  unfold le_by, listing_less. rewrite (String.eqb_sym (cf_updated_at a.2)).
  destruct (String.eqb_spec (cf_updated_at b.2) (cf_updated_at a.2)) as [He|Hne].
  - intros H1 H2. by apply str_ltb_total.
  - intros H1 H2. destruct Hne. by apply str_ltb_total.
Qed.

Lemma scan_findings t l :
  table_ok t → (∀ kr, kr ∈ l → t !! kr.1 = Some kr.2) →
  ∃ fs, scan_rows (λ kr, decode_finding (cf_document kr.2)) l = Ok fs ∧
    Finding_ID <$> fs = l.*1 ∧
    ∀ f, f ∈ fs ↔ ∃ kr, kr ∈ l ∧ decode_finding (cf_document kr.2) = Ok f.
Proof.
  intros Ht. induction l as [|[k row] l IH]; intros Hl.
  { exists []. split_and!; [done..|]. intros f. split; [by intros ?%not_elem_of_nil|].
    by intros (kr & ?%not_elem_of_nil & _). }
  destruct IH as (fs & Hfs & Hids & Hin); [by intros kr ?; apply Hl; right|].
  pose proof (Hl (k, row) ltac:(by left)) as Hrow. cbn in Hrow.
  destruct (Ht _ _ Hrow) as (f & Hw & Hm & Hid & _).
  pose proof (row_decode row f Hw Hm) as Hd.
  exists (f :: fs). cbn. rewrite Hd. cbn. rewrite Hfs. cbn. split_and!; [done|by f_equal|].
  intros g. rewrite elem_of_cons, Hin. split.
  - intros [->|(kr & ? & ?)]; [exists (k, row); by split; [left|]|exists kr; by split; [right|]].
  - intros (kr & [->|Hkr]%elem_of_cons & Hg); [left; cbn in Hg; congruence|right; eauto].
Qed.

Lemma list_findings s states :
  table_ok (current_findings s) →
  if forallb FindingState_Valid states then
    ∃ fs, ListFindings s states = Ok fs ∧ NoDup (Finding_ID <$> fs) ∧
      ∀ f, f ∈ fs ↔ CurrentFinding s (Finding_ID f) = Ok f ∧ (states = [] ∨ State f ∈ states)
  else is_ok (ListFindings s states) = false.
Proof.
  intros Ht. unfold ListFindings.
  destruct (List.find _ states) as [st|] eqn:Ef.
  { apply List.find_some in Ef as [Hin Hst]. destruct (forallb _ states) eqn:Hf; [|done].
    apply (proj1 (forallb_forall _ _)) with (x := st) in Hf; [|done].
    by rewrite Hf in Hst. }
  rewrite (proj2 (forallb_forall _ _)); cycle 1.
  { intros st Hin. pose proof (List.find_none _ _ Ef st Hin) as Hst. by apply negb_false_iff. }
  set (rows := sort_by listing_less (map_to_list (current_findings s))).
  assert (∀ kr, kr ∈ rows ↔ current_findings s !! kr.1 = Some kr.2) as Hrows.
  { intros [k row]. unfold rows. rewrite (elem_of_sort_by listing_less). apply elem_of_map_to_list. }
  destruct (scan_findings _ rows Ht) as (fs & -> & Hids & Hin); [by intros kr ?%Hrows|].
  cbn. eexists. split; [done|]. split.
  - eapply sublist_NoDup; [|apply fmap_sublist, sublist_filter]. rewrite Hids.
    unfold rows. rewrite (sort_by_perm listing_less). apply NoDup_fst_map_to_list.
  - intros f. rewrite list_elem_of_filter, Hin.
    assert ((match states with [] => true | _ => one_of (State f) states end = true)
      ↔ states = [] ∨ State f ∈ states) as ->.
    { destruct states as [|st states]; [naive_solver|]. rewrite one_of_elem. naive_solver. }
    assert ((∃ kr, kr ∈ rows ∧ decode_finding (cf_document kr.2) = Ok f)
      ↔ CurrentFinding s (Finding_ID f) = Ok f) as ->; [|tauto].
    unfold CurrentFinding. split.
    + intros (kr & Hkr%Hrows & Hd). destruct (Ht _ _ Hkr) as (g & Hw & Hm & Hid & _).
      rewrite (row_decode _ g Hw Hm) in Hd. injection Hd as <-. rewrite Hid, Hkr.
      by apply row_decode.
    + destruct (current_findings s !! Finding_ID f) as [row|] eqn:Er; [|done].
      intros Hd. exists (Finding_ID f, row). by rewrite Hrows.
Qed.

(** [ListFindings] returns each current finding in a requested state
    exactly once (all of them when no state is named), agrees with
    [CurrentFinding], and refuses an unknown state. *)
Theorem ListFindings_spec l states :
  Forall event_ok l →
  let s := appends empty_store l in
  if forallb FindingState_Valid states then
    ∃ fs, ListFindings s states = Ok fs ∧ NoDup (Finding_ID <$> fs) ∧
      ∀ f, f ∈ fs ↔ CurrentFinding s (Finding_ID f) = Ok f ∧ (states = [] ∨ State f ∈ states)
  else is_ok (ListFindings s states) = false.
Proof. intros Hl s. by apply list_findings, journal_table. Qed.
