(* ===== verification/JournalOrder.v ===== *)
(** * Orders of the findings

    The order in which [ListFindings] returns findings compares RFC 3339 texts
    whose trailing zeros are trimmed, which is not the order of time;
    [SortFindings] compares times and is deterministic. *)

From S2P Require Import Prelude GoString Calendar GoTime Json Model ModelJson.
From S2P Require Import Journal JournalLog JournalFindings.
#[local] Open Scope Z_scope.

Lemma str_ltb_app p a b : str_ltb (p +:+ a) (p +:+ b) = str_ltb a b.
Proof.
  induction p as [|c p IH]; [done|]. rewrite !app_str_cons. unfold String.ltb in *. simpl.
  by rewrite ascii_compare_refl.
Qed.

Lemma same_second t d :
  ns t mod second = 0 → 0 < d < second →
  date_text (wall (utc (add t d))) = date_text (wall (utc t)) ∧
  f_nano (wall (utc (add t d))) = d ∧ f_nano (wall (utc t)) = 0.
Proof.
  intros Ht Hd. unfold wall. cbn [ns off utc add]. rewrite !Z.mul_0_l, !Z.add_0_r.
  assert (second = 1000000000) as Hsec by done.
  assert (day_ns = 86400 * second) as Hday by done.
  apply Z.mod_divide in Ht as [q Hq]; [|lia]. rewrite Hq.
  assert ((q * second + d) / day_ns = q * second / day_ns ∧
          (q * second + d) mod day_ns / second = q * second mod day_ns / second) as [-> ->].
  { rewrite Hday, Z.mul_comm with (n := 86400). rewrite Hsec in *.
    rewrite <-!Z.div_div by lia. rewrite !Z.rem_mul_r by lia.
    rewrite Z.div_add_l, Z.div_mul, (Z.div_small d), Z.add_0_r by lia.
    rewrite Z.mod_mul, (Z.add_comm (q * _)), Z.mod_add, Z.mod_small, Z.add_0_l by lia.
    split; [done|]. rewrite (Z.mul_comm 1000000000), Z.div_add, Z.div_small, Z.div_mul by lia.
    done. }
  split_and!; [done| |].
  - rewrite Z.add_comm, Z.mod_add by lia. apply Z.mod_small. lia.
  - apply Z.mod_mul. lia.
Qed.

Lemma text_order t d :
  ns t mod second = 0 → 0 < d < second →
  str_ltb (rfc3339nano (utc (add t d))) (rfc3339nano (utc t)) = true.
Proof.
  intros Ht Hd. destruct (same_second t d Ht Hd) as (Hdate & Hn1 & Hn2).
  unfold rfc3339nano. rewrite Hdate, Hn1, Hn2, str_ltb_app.
  unfold frac_text. rewrite (proj2 (Z.eqb_neq d 0)) by lia. rewrite Z.eqb_refl.
  by rewrite app_str_cons.
Qed.

Lemma listing_pair (k1 k2 : string) (r1 r2 : FindingRow) (t : FindingTable) :
  k1 ≠ k2 → t = <[k1 := r1]> {[k2 := r2]} → listing_less (k1, r1) (k2, r2) = true →
  sort_by listing_less (map_to_list t) = [(k1, r1); (k2, r2)].
Proof.
  intros Hne -> Hless.
  assert (map_to_list (<[k1 := r1]> ({[k2 := r2]} : FindingTable)) ≡ₚ [(k1, r1); (k2, r2)]) as HP.
  { rewrite map_to_list_insert by (by rewrite lookup_singleton_ne). by rewrite map_to_list_singleton. }
  rewrite (sort_by_ext listing_less (map_to_list _) [(k1, r1); (k2, r2)]); [| |exact HP].
  - apply sort_by_id; [apply listing_strict|]. repeat constructor.
    unfold le_by. apply less_asym; [apply listing_strict|done].
  - intros [a ra] [b rb]. rewrite !elem_of_map_to_list. intros Ha Hb H1 H2.
    pose proof (listing_antisym _ _ H1 H2) as Hab. cbn in Hab. subst b. congruence.
Qed.

(** [ListFindings] orders by the text of [updated_at], newest first as a
    text: of two findings updated within the same second, one exactly on the
    second comes before the later one. *)
Theorem ListFindings_order f g df dg s :
  wf f → wf g → Marshal f = Some df → Marshal g = Some dg → Finding_ID f ≠ Finding_ID g →
  ns (UpdatedAt f) mod second = 0 →
  ns (UpdatedAt f) < ns (UpdatedAt g) < ns (UpdatedAt f) + second →
  current_findings s = <[Finding_ID f := finding_row f df]> {[Finding_ID g := finding_row g dg]} →
  ListFindings s [] = Ok [f; g].
Proof.
  intros Hf Hg Hmf Hmg Hne Hsec Ht Hs. unfold ListFindings. cbn [List.find].
  rewrite (listing_pair _ _ _ _ _ Hne Hs).
  - cbn [scan_rows snd finding_row cf_document].
    pose proof (row_decode (finding_row f df) f Hf Hmf) as Hdf.
    pose proof (row_decode (finding_row g dg) g Hg Hmg) as Hdg.
    cbn [cf_document finding_row] in Hdf, Hdg. by rewrite Hdf, Hdg.
  - unfold listing_less. cbn [snd fst finding_row cf_updated_at].
    pose proof (text_order (UpdatedAt f) (ns (UpdatedAt g) - ns (UpdatedAt f)) Hsec ltac:(lia)) as Ho.
    assert (utc (add (UpdatedAt f) (ns (UpdatedAt g) - ns (UpdatedAt f))) = utc (UpdatedAt g)) as He.
    { unfold utc, add. cbn. f_equal. lia. }
    rewrite He in Ho. destruct (String.eqb_spec (rfc3339nano (utc (UpdatedAt f)))
      (rfc3339nano (utc (UpdatedAt g)))) as [Heq|_]; [|done].
    by rewrite Heq, str_ltb_irrefl in Ho.
Qed.

(** ** SortFindings *)

(** On valid severities the callback compares rank, time and id in turn. *)
Definition ranked_less : Finding → Finding → bool :=
  lex_by (λ f, severityRank (Finding_Severity f)) Z.eqb (λ x y, y <? x)
    (lex_by (λ f, ns (UpdatedAt f)) Z.eqb (λ x y, y <? x)
       (λ a b, str_ltb (Finding_ID a) (Finding_ID b))).

Lemma Z_desc_total (x y : Z) : (y <? x) = false → (x <? y) = false → x = y.
Proof. lia. Qed.

#[local] Instance ranked_strict : StrictLess ranked_less.
Proof.
  apply lex_by_strict; [apply Z.eqb_eq|apply Z_desc_total|apply flip_strict, _|].
  apply lex_by_strict; [apply Z.eqb_eq|apply Z_desc_total|apply flip_strict, _|].
  apply (less_on_strict Finding_ID str_ltb), _.
Qed.

Lemma finding_less_ranked a b :
  Severity_Valid (Finding_Severity a) = true → Severity_Valid (Finding_Severity b) = true →
  finding_less a b = ranked_less a b.
Proof.
  unfold Severity_Valid. rewrite !one_of_elem, !elem_of_cons. intros Ha Hb.
  unfold finding_less, ranked_less, lex_by, time_equal, after.
  assert ((severityRank (Finding_Severity a) =? severityRank (Finding_Severity b))
    = String.eqb (Finding_Severity a) (Finding_Severity b)) as ->.
  { destruct Ha as [->|[->|[->|[]%not_elem_of_nil]]], Hb as [->|[->|[->|[]%not_elem_of_nil]]]; done. }
  destruct (String.eqb _ _); [|done]. cbn [negb]. by destruct (_ =? _).
Qed.

Lemma ranked_antisym a b :
  le_by ranked_less a b → le_by ranked_less b a → Finding_ID a = Finding_ID b.
Proof.
  unfold le_by, ranked_less, lex_by. intros H1 H2. repeat case_in H1; repeat case_in H2;
    bool_prop; try lia. by apply str_ltb_total.
Qed.

Lemma SortFindings_sorted fs :
  Forall (λ f, Severity_Valid (Finding_Severity f) = true) fs → NoDup (Finding_ID <$> fs) →
  SortFindings fs ≡ₚ fs ∧
  StronglySorted (λ a b, finding_less b a = false) (SortFindings fs) ∧
  ∀ fs', fs' ≡ₚ fs → SortFindings fs' = SortFindings fs.
Proof.
  intros Hv Hn. rewrite Forall_forall in Hv.
  assert (∀ l, l ≡ₚ fs → SortFindings l = sort_by ranked_less l) as Hagree.
  { intros l HP. apply sort_by_agree. intros x y Hx Hy.
    apply finding_less_ranked; apply Hv; by rewrite <-HP. }
  split_and!.
  - apply sort_by_perm.
  - rewrite Hagree by done. pose proof (sort_by_sorted ranked_less fs) as Hs.
    assert (∀ x, x ∈ sort_by ranked_less fs → Severity_Valid (Finding_Severity x) = true) as Hv'.
    { intros x Hx. apply Hv. by rewrite (elem_of_sort_by ranked_less) in Hx. }
    induction Hs as [|x l Hl IH Hx]; constructor.
    + apply IH. intros y Hy. apply Hv'. by right.
    + apply Forall_forall. intros y Hy. rewrite finding_less_ranked.
      * by apply (proj1 (Forall_forall _ _) Hx).
      * apply Hv'. by right.
      * apply Hv'. by left.
  - intros fs' HP. rewrite !Hagree by done. apply sort_by_ext; [apply ranked_strict| |done].
    intros x y Hx Hy H1 H2. pose proof (ranked_antisym _ _ H1 H2) as Hid.
    rewrite HP in Hx, Hy. apply list_elem_of_lookup_1 in Hx as [i Hi], Hy as [j Hj].
    assert (i = j) as ->; [|congruence].
    eapply (NoDup_lookup (Finding_ID <$> fs)); [done|by rewrite list_lookup_fmap, Hi|].
    rewrite list_lookup_fmap, Hj. cbn. by rewrite Hid.
Qed.

(** For findings with valid severities and distinct ids [SortFindings] is
    a deterministic sort: most severe first, then the latest, then by id; the
    result has the same findings and does not depend on the order given. *)
Theorem SortFindings_spec fs :
  Forall (λ f, Severity_Valid (Finding_Severity f) = true) fs → NoDup (Finding_ID <$> fs) →
  SortFindings fs ≡ₚ fs ∧
  StronglySorted (λ a b, finding_less b a = false) (SortFindings fs) ∧
  ∀ fs', fs' ≡ₚ fs → SortFindings fs' = SortFindings fs.
Proof. apply SortFindings_sorted. Qed.
