(* ===== verification/JournalDemo.v ===== *)
(** * Concrete journals

    Events, findings and small journals at which the journal's theorems are
    applied, so that their hypotheses are seen to hold together. *)

From S2P Require Import Prelude GoString Calendar GoTime Json JsonCompact Model ModelJson.
From S2P Require Import Journal JournalLog JournalFindings JournalOrder.
#[local] Open Scope Z_scope.

(** 2026-07-29T12:00:00Z *)
Definition t0 : Time := mkTime 63920923200000000000 0.

Definition demo_event (id ty finding payload : string) : Event := {|
  Event_Schema := EventSchema; Event_SchemaVersion := EventSchemaVersion; Event_ID := id;
  Event_Type := ty; OccurredAt := t0; RecordedAt := t0; Event_Source := "agent";
  Event_Platform := "linux"; Event_Subject := None; FindingID := finding; CorrelationID := "";
  Event_Labels := ∅; Payload := payload |}.

Definition demo_observation : FindingObservation := {|
  Obs_DetectorID := "d"; Obs_Category := ""; Obs_Title := "t"; Obs_Summary := "s";
  Obs_Severity := SeverityWarn; Obs_Evidence := []; Obs_Remediation := None; Obs_Labels := ∅ |}.
Definition demo_transition : FindingTransition :=
  {| Tr_Actor := "me"; Tr_Note := ""; Tr_Until := None |}.

Definition text_of {A} `{Codec A} (x : A) : string := default "" (Marshal x).

Lemma text_of_ok `{CodecLaws A} (x : A) :
  wf x → Marshal x = Some (text_of x) ∧ ctext (text_of x) ∧ Unmarshal (text_of x) = Some x.
Proof.
  intros Hx. destruct (enc_wf x Hx) as (t & Ht & Hj & _ & Hd). unfold text_of.
  change (Marshal x) with (enc x). rewrite Ht. cbn. split_and!; [done..|].
  rewrite Unmarshal_jtext; [done|apply Hj].
Qed.

Lemma wf_demo_observation : wf demo_observation.
Proof. cbn. unfold utf8. wf_close. Qed.
Lemma wf_demo_transition : wf demo_transition.
Proof. cbn. unfold utf8. wf_close. Qed.

Lemma t0_nonzero : ns t0 ≠ 0.
Proof. cbn. lia. Qed.
Lemma wf_t0 : representable t0 = true.
Proof. vm_compute. reflexivity. Qed.

Lemma wf_demo id ty finding payload :
  utf8 [id; ty; finding] → compact_payload payload → wf (demo_event id ty finding payload).
Proof.
  unfold utf8. intros H Hp. wf_split. cbn -[max_int64 representable]. unfold max_int64.
  pose proof wf_t0. unfold utf8. wf_close.
Qed.

Definition plain_event (id : string) : Event := demo_event id "host.seen" "" "".
Definition observed (id finding : string) : Event :=
  demo_event id EventFindingObserved finding (text_of demo_observation).
Definition moved (id ty finding : string) : Event :=
  demo_event id ty finding (text_of demo_transition).

Lemma observed_ok id finding : utf8 [id; finding] → event_ok (observed id finding).
Proof.
  intros H. destruct (text_of_ok demo_observation wf_demo_observation) as (_ & Hc & Hu).
  assert (wf (observed id finding)) as Hw.
  { apply wf_demo; [|by right]. unfold utf8 in *. wf_split. wf_close. }
  split; [done|]. split; [exact wf_t0|]. split; [exact wf_t0|]. split; [|done].
  intros _ o Ho. cbn in Ho. rewrite Hu in Ho. injection Ho as <-. apply wf_demo_observation.
Qed.

Lemma moved_ok id ty finding :
  utf8 [id; ty; finding] → ty ≠ EventFindingObserved → event_ok (moved id ty finding).
Proof.
  intros H Hne. destruct (text_of_ok demo_transition wf_demo_transition) as (_ & Hc & Hu).
  assert (wf (moved id ty finding)) as Hw by (apply wf_demo; [done|by right]).
  split; [done|]. split; [exact wf_t0|]. split; [exact wf_t0|]. split; [done|].
  intros _ _ t Ht. cbn in Ht. rewrite Hu in Ht. injection Ht as <-.
  split; [apply wf_demo_transition|done].
Qed.

(** ** Accepted events *)

Lemma Append_plain s id :
  row_by_id s id = None → autoincrement s < max_int64 → utf8 [id] → blank id = false →
  ∃ env, Marshal (plain_event id) = Some env ∧ Append s (plain_event id)
    = (insert_event s (plain_event id) env, Ok (mkRecord (autoincrement s + 1) (plain_event id))).
Proof.
  intros Hr Ha Hu Hb.
  destruct (Marshal_Unmarshal (plain_event id)) as (env & Hm & _).
  { apply wf_demo; [|by left]. unfold utf8 in *. wf_split. wf_close. }
  exists env. split; [done|]. apply (proj2 (Append_ok _ _ _ _)), (proj2 (append_tx_appended _ _ _ _)). split_and!; [|done|by apply appended_other].
  apply Event_Validate_ok.
  split_and!; [done|done|exact Hb|done|exact t0_nonzero|exact t0_nonzero|done|].
  intros H. by destruct H.
Qed.

Lemma Event_Validate_demo id ty finding payload :
  blank id = false → blank ty = false → (payload ≠ "" → json_valid payload = true) →
  Event_Validate json_valid (demo_event id ty finding payload) = Ok tt.
Proof.
  intros Hid Hty Hp. apply Event_Validate_ok.
  split_and!; [done|done|exact Hid|exact Hty|exact t0_nonzero|exact t0_nonzero|done|exact Hp].
Qed.

Lemma text_valid `{CodecLaws A} (x : A) : wf x → json_valid (text_of x) = true.
Proof. intros Hx. destruct (text_of_ok x Hx) as (_ & Hc & _). apply json_valid_jtext, Hc. Qed.

Lemma decode_text `{CodecLaws A} e (x : A) :
  wf x → Payload e = text_of x → decodePayload e = Ok x.
Proof.
  intros Hx Hp. destruct (text_of_ok x Hx) as (_ & Hc & Hu). unfold decodePayload.
  rewrite Hp, Hu. destruct (String.eqb_spec (text_of x) "") as [He|]; [|done].
  rewrite He in Hc. by destruct Hc as [[_ Hh] _].
Qed.

(** One observation, as a journal. *)
Definition s1 : Store := appends empty_store [observed "e1" "f1"].

Lemma utf8_2 a b : is_ascii a = true → is_ascii b = true → utf8 [a; b].
Proof. intros. unfold utf8. repeat constructor; by apply is_ascii_valid. Qed.

Lemma ok1 : Forall event_ok [observed "e1" "f1"].
Proof. constructor; [|constructor]. by apply observed_ok, utf8_2. Qed.

(** ** Witnesses: documents *)

Lemma Event_roundtrip_witness :
  ∃ t, Marshal (observed "e1" "f1") = Some t ∧ Unmarshal t = Some (observed "e1" "f1").
Proof. apply (Event_roundtrip (observed "e1" "f1")). apply (observed_ok "e1" "f1"), utf8_2; reflexivity. Defined.

Definition demo_finding (id : string) (d : Z) : Finding := {|
  Finding_Schema := FindingSchema; Finding_SchemaVersion := 1; Finding_ID := id;
  DetectorID := "d"; Category := ""; Title := "t"; Summary := "s";
  Finding_Severity := SeverityWarn; State := FindingOpen; FirstSeen := t0; LastSeen := t0;
  UpdatedAt := add t0 d; Occurrences := 1; Finding_Evidence := []; Finding_Remediation := None;
  Finding_Labels := ∅; SuppressedUntil := None; Acknowledgement := None; Resolution := None;
  LastEventID := "e1"; LastEventSequence := 1 |}.

Lemma wf_demo_finding id d :
  valid_utf8 id = true → representable (add t0 d) = true → wf (demo_finding id d).
Proof.
  intros Hid Hd. pose proof wf_t0. cbn -[max_int64 max_uint64 representable].
  unfold max_int64, max_uint64, utf8. wf_close.
Qed.

Lemma Finding_roundtrip_witness :
  ∃ t, Marshal (demo_finding "f1" 0) = Some t ∧ Unmarshal t = Some (demo_finding "f1" 0).
Proof. apply (Finding_roundtrip (demo_finding "f1" 0)). apply wf_demo_finding; reflexivity. Defined.

(** ** Witnesses: the log *)

Lemma Append_idempotent_witness :
  ∃ s r, Append empty_store (plain_event "e1") = (s, Ok r) ∧
    Append (appends s [plain_event "e2"]) (plain_event "e1") = (appends s [plain_event "e2"], Ok r).
Proof.
  destruct (Append_plain empty_store "e1") as (env & Hm & H); [reflexivity..| |reflexivity|].
  { constructor; [reflexivity|constructor]. }
  eexists _, _. split; [exact H|]. apply (Append_idempotent _ _ _ _ _ H).
Defined.

Lemma Marshal_inj `{CodecLaws A} (x y : A) t :
  wf x → wf y → Marshal x = Some t → Marshal y = Some t → x = y.
Proof.
  intros Hx Hy H1 H2. destruct (Marshal_Unmarshal x Hx) as (t1 & Ht1 & Hu1).
  destruct (Marshal_Unmarshal y Hy) as (t2 & Ht2 & Hu2). congruence.
Qed.

Lemma wf_plain id ty : utf8 [id; ty] → wf (demo_event id ty "" "").
Proof. intros H. apply wf_demo; [|by left]. unfold utf8 in *. wf_split. wf_close. Qed.

Lemma Append_conflict_witness :
  ∃ s, ∃ err, Append s (demo_event "e1" "other" "" "") = (s, Err err) ∧
    errors_is err "journal event id already exists with different content" = true.
Proof.
  destruct (Append_plain empty_store "e1") as (env & Hm & H); [reflexivity..| |reflexivity|].
  { constructor; [reflexivity|constructor]. }
  assert (utf8 ["e1"; "other"] ∧ utf8 ["e1"; "host.seen"]) as [U1 U2] by (split; apply utf8_2; reflexivity).
  destruct (Marshal_Unmarshal _ (wf_plain "e1" "other" U1)) as (env2 & Hm2 & _).
  assert (env2 ≠ env) as Hne.
  { intros ->. pose proof (Marshal_inj _ _ _ (wf_plain _ _ U1) (wf_plain _ _ U2) Hm2 Hm) as Heq.
    discriminate Heq. }
  exists (insert_event empty_store (plain_event "e1") env).
  refine (Append_conflict (insert_event empty_store (plain_event "e1") env)
    (demo_event "e1" "other" "" "") (event_row 1 (plain_event "e1") env) env2 eq_refl _ eq_refl Hm2 Hne).
  apply Event_Validate_demo; [reflexivity..|]. intros Hp. destruct (Hp eq_refl).
Defined.

Lemma appended_new s e s' r :
  appended s e s' r → row_by_id s (Event_ID e) = None →
  autoincrement s' = autoincrement s + 1 ∧
  ev_event_id <$> events s' = (ev_event_id <$> events s) ++ [Event_ID e].
Proof.
  destruct 1 as [row Hr|env|env fs f]; intros Hn; [congruence|..];
    (split; [done|]); cbn [events insert_event with_findings]; by rewrite fmap_app.
Qed.

(** The journal [s1] and its finding. *)
Definition f1 : Finding :=
  first_observation (mkRecord 1 (observed "e1" "f1")) demo_observation.

Lemma s1_facts :
  Append empty_store (observed "e1" "f1") = (s1, Ok (mkRecord 1 (observed "e1" "f1"))) ∧
  finding_at s1 "f1" = Some f1 ∧ autoincrement s1 = 1 ∧ ev_event_id <$> events s1 = ["e1"].
Proof.
  destruct (accept_observation empty_store (observed "e1" "f1") demo_observation)
    as (s & HA & Hc).
  - apply log_ok_empty.
  - apply map_Forall_empty.
  - apply (observed_ok "e1" "f1"). apply utf8_2; reflexivity.
  - apply Event_Validate_demo; [reflexivity..|]. intros _. apply text_valid, wf_demo_observation.
  - reflexivity.
  - reflexivity.
  - apply decode_text; [apply wf_demo_observation|reflexivity].
  - reflexivity.
  - reflexivity.
  - reflexivity.
  - intros g Hg. discriminate Hg.
  - assert (s1 = s) as -> by (unfold s1, appends; cbn [foldl]; by rewrite HA).
    split; [exact HA|]. split; [unfold finding_at; by rewrite (Hc : CurrentFinding s "f1" = _)|].
    apply (proj1 (Append_ok _ _ _ _)), (proj1 (append_tx_appended _ _ _ _)) in HA as (_ & _ & HA).
    exact (appended_new _ _ _ _ HA eq_refl).
Qed.

Lemma s1_no_row id : id ≠ "e1" → row_by_id s1 id = None.
Proof.
  intros Hne. destruct s1_facts as (_ & _ & _ & Hids). unfold row_by_id.
  destruct (list_find _ (events s1)) as [[i row]|] eqn:E; [|done].
  apply list_find_Some in E as (Hi & Hid & _). apply list_elem_of_lookup_2 in Hi.
  apply (list_elem_of_fmap_2 ev_event_id) in Hi. rewrite Hids in Hi.
  apply list_elem_of_singleton in Hi. congruence.
Qed.

Lemma journal_sequences_witness :
  ∃ s r, Append s1 (plain_event "e2") = (s, Ok r) ∧ log_ok s1 ∧ Sequence r = autoincrement s1 + 1.
Proof.
  destruct s1_facts as (_ & _ & Ha & _).
  destruct (Append_plain s1 "e2") as (env & Hm & H).
  { by apply s1_no_row. } { rewrite Ha. reflexivity. }
  { constructor; [reflexivity|constructor]. } { reflexivity. }
  eexists _, _. split; [exact H|].
  destruct (journal_sequences [observed "e1" "f1"] (plain_event "e2")
    (insert_event s1 (plain_event "e2") env)
    (mkRecord (autoincrement s1 + 1) (plain_event "e2"))) as [H1 H2].
  split; [exact H1|]. eapply H2; [exact H|].
  intros Heq. apply (f_equal length) in Heq. cbn in Heq. rewrite length_app in Heq. cbn in Heq. lia.
Defined.

Lemma Read_page_witness :
  ∃ all page, Read s1 0 10 = Ok page ∧ rows_of (events s1) all ∧
    page = take (Z.to_nat (read_limit 10)) (filter (λ r, (0 <? Sequence r) = true) all).
Proof.
  destruct (Read_page [observed "e1" "f1"] 0 10) as (all & page & H1 & H2 & H3 & _).
  - apply event_ok_wf, ok1.
  - lia.
  - exists all, page. split_and!; [exact H1|exact H2|exact H3].
Defined.

(** ** Witnesses: the projection *)

Lemma Rebuild_identity_witness : RebuildFindings s1 = (s1, Ok tt).
Proof.
  apply (Rebuild_identity [observed "e1" "f1"]).
  - apply event_ok_wf, ok1.
  - constructor; [reflexivity|constructor].
Defined.

Lemma Rebuild_blocked_witness :
  ∃ s r err, Append empty_store (demo_event "e1" "finding.custom" "" "") = (s, Ok r) ∧
    RebuildFindings s = (s, Err err).
Proof.
  assert (wf (demo_event "e1" "finding.custom" "" "")) as Hw by (apply wf_plain, utf8_2; reflexivity).
  destruct (Marshal_Unmarshal _ Hw) as (env & Hm & _).
  assert (Append empty_store (demo_event "e1" "finding.custom" "" "")
    = (insert_event empty_store (demo_event "e1" "finding.custom" "" "") env,
       Ok (mkRecord 1 (demo_event "e1" "finding.custom" "" "")))) as HA.
  { apply (proj2 (Append_ok _ _ _ _)), (proj2 (append_tx_appended _ _ _ _)).
    split_and!; [|reflexivity|by apply (appended_other empty_store)].
    apply Event_Validate_demo; [reflexivity..|]. intros Hp. destruct (Hp eq_refl). }
  destruct (Rebuild_blocked [] _ _ _ ltac:(constructor) Hw eq_refl eq_refl HA) as [err H].
  exists (insert_event empty_store (demo_event "e1" "finding.custom" "" "") env),
    (mkRecord 1 (demo_event "e1" "finding.custom" "" "")), err. split; [exact HA|exact H].
Defined.

Lemma moved_valid id ty finding :
  blank id = false → blank ty = false → Event_Validate json_valid (moved id ty finding) = Ok tt.
Proof.
  intros Hid Hty. apply Event_Validate_demo; [done..|]. intros _. apply text_valid, wf_demo_transition.
Qed.

Lemma observation_accepted_witness :
  ∃ s, Append s1 (observed "e2" "f1") = (s, Ok (mkRecord (autoincrement s1 + 1) (observed "e2" "f1"))) ∧
    CurrentFinding s "f1" =
      Ok (applyObservation (finding_at s1 "f1") (mkRecord (autoincrement s1 + 1) (observed "e2" "f1"))
            demo_observation).
Proof.
  destruct s1_facts as (_ & Hf & Ha & _).
  apply (observation_accepted [observed "e1" "f1"] (observed "e2" "f1") demo_observation).
  - exact ok1.
  - apply observed_ok, utf8_2; reflexivity.
  - apply Event_Validate_demo; [reflexivity..|]. intros _. apply text_valid, wf_demo_observation.
  - reflexivity.
  - reflexivity.
  - apply decode_text; [apply wf_demo_observation|reflexivity].
  - reflexivity.
  - by apply s1_no_row.
  - change (appends empty_store [observed "e1" "f1"]) with s1. rewrite Ha. reflexivity.
  - intros g Hg. change (finding_at _ _) with (finding_at s1 "f1") in Hg. rewrite Hf in Hg.
    injection Hg as <-. reflexivity.
Defined.

Lemma occurrences_count_witness :
  ∃ recs, rows_of (events s1) recs ∧
    ∀ id f, CurrentFinding s1 id = Ok f → Occurrences f = observations id recs.
Proof. apply (occurrences_count [observed "e1" "f1"]). exact ok1. Defined.

Lemma ListFindings_spec_witness :
  ∃ fs, ListFindings s1 [FindingOpen] = Ok fs ∧ NoDup (Finding_ID <$> fs) ∧
    ∀ f, f ∈ fs ↔ CurrentFinding s1 (Finding_ID f) = Ok f ∧
      ([FindingOpen] = [] ∨ State f ∈ [FindingOpen]).
Proof. apply (ListFindings_spec [observed "e1" "f1"] [FindingOpen] ok1). Defined.

Lemma ListFindings_order_witness :
  ∃ s, ListFindings s [] = Ok [demo_finding "f1" 0; demo_finding "f2" 500000000] ∧
    after (UpdatedAt (demo_finding "f2" 500000000)) (UpdatedAt (demo_finding "f1" 0)) = true.
Proof.
  assert (wf (demo_finding "f1" 0) ∧ wf (demo_finding "f2" 500000000)) as [W1 W2]
    by (split; apply wf_demo_finding; reflexivity).
  destruct (Marshal_Unmarshal _ W1) as (d1 & M1 & _).
  destruct (Marshal_Unmarshal _ W2) as (d2 & M2 & _).
  exists (with_findings empty_store (<["f1" := finding_row (demo_finding "f1" 0) d1]>
    {["f2" := finding_row (demo_finding "f2" 500000000) d2]})).
  split; [|reflexivity].
  apply (ListFindings_order _ _ d1 d2 _ W1 W2 M1 M2); [discriminate|reflexivity| |reflexivity].
  unfold second. cbn. lia.
Defined.

Lemma SortFindings_spec_witness :
  SortFindings [demo_finding "f2" 5; demo_finding "f1" 0]
    = SortFindings [demo_finding "f1" 0; demo_finding "f2" 5].
Proof.
  apply (SortFindings_spec [demo_finding "f1" 0; demo_finding "f2" 5]).
  - repeat constructor.
  - cbn. constructor; [|apply NoDup_singleton]. by intros ?%list_elem_of_singleton.
  - apply Permutation_swap.
Defined.

Lemma Append_lifecycle_witness :
  ∃ s r f, Append s1 (observed "e2" "f1") = (s, Ok r) ∧ CurrentFinding s "f1" = Ok f ∧
    lifecycle_step (Some FindingOpen) EventFindingObserved (State f).
Proof.
  destruct s1_facts as (_ & Hf & Ha & _).
  assert (event_ok (observed "e2" "f1")) as Hok by (apply observed_ok, utf8_2; reflexivity).
  destruct (accept_observation s1 (observed "e2" "f1") demo_observation) as (s & HA & Hc).
  - apply appends_log_ok, log_ok_empty.
  - apply journal_table, ok1.
  - exact Hok.
  - apply Event_Validate_demo; [reflexivity..|]. intros _. apply text_valid, wf_demo_observation.
  - reflexivity.
  - reflexivity.
  - apply decode_text; [apply wf_demo_observation|reflexivity].
  - reflexivity.
  - by apply s1_no_row.
  - rewrite Ha. reflexivity.
  - intros g Hg. change (FindingID _) with "f1" in Hg. rewrite Hf in Hg.
    injection Hg as <-. reflexivity.
  - destruct (Append_lifecycle [observed "e1" "f1"] (observed "e2" "f1") s _ ok1 Hok eq_refl
      (s1_no_row "e2" ltac:(discriminate)) HA) as (f & Hcf & Hstep & _).
    eexists _, _, f. split; [exact HA|]. split; [exact Hcf|].
    change (finding_at _ _) with (finding_at s1 "f1") in Hstep. rewrite Hf in Hstep. exact Hstep.
Defined.

Lemma Append_illegal_witness :
  ∃ err, Append s1 (moved "e2" EventFindingUnsuppressed "f1") = (s1, Err err) ∧
    errors_is err "invalid finding lifecycle transition" = true.
Proof.
  destruct s1_facts as (_ & Hf & Ha & _).
  destruct (Append_illegal [observed "e1" "f1"] (moved "e2" EventFindingUnsuppressed "f1"))
    as (err & H1 & H2).
  - exact ok1.
  - apply moved_ok; [|discriminate]. unfold utf8. repeat constructor.
  - apply moved_valid; reflexivity.
  - reflexivity.
  - reflexivity.
  - by apply s1_no_row.
  - change (appends empty_store [observed "e1" "f1"]) with s1. rewrite Ha. reflexivity.
  - intros st Hst. change (finding_at _ _) with (finding_at s1 "f1") in Hst. rewrite Hf in Hst.
    cbn in Hst. inversion Hst.
  - exists err. split; [exact H1|].
    change (finding_at _ _) with (finding_at s1 "f1") in H2. rewrite Hf in H2. exact H2.
Defined.
