(* ===== verification/GoHttp.v ===== *)
(** * mime and net/http

    What the program uses of these packages of the Go standard library. *)

From S2P Require Import Prelude GoString.
#[local] Open Scope Z_scope.

(** ** Media types

    [mime.ParseMediaType] of the Go standard library, as far as its callers
    observe it: the media type, lower-cased, of a well-formed header value with
    well-formed parameters.  The values of the parameters are read but not
    returned, since the program does not use them. *)

Definition semicolon : ascii := ";".
Definition dquote : ascii := "034".
Definition backslash : ascii := "\".

(** [isTSpecial], [isTokenChar] *)
Definition is_tspecial (c : ascii) : bool :=
  bool_decide (c ∈ ["("; ")"; "<"; ">"; "@"; ","; ";"; ":"; "\"; dquote; "/"; "["; "]"; "?"; "="]%char).
Definition is_token_char (c : ascii) : bool :=
  between 0x21 0x7E (byte c) && negb (is_tspecial c).

Fixpoint consumeToken (v : string) : string * string :=
  match v with
  | String c v' =>
      if is_token_char c then let '(token, rest) := consumeToken v' in (String c token, rest)
      else ("", v)
  | EmptyString => ("", "")
  end.

(** A quoted string after its opening quote: the value and what follows the
    closing one. *)
Fixpoint quoted_value (v : string) : option (string * string) :=
  match v with
  | EmptyString => None
  | String c v' =>
      if Ascii.eqb c dquote then Some ("", v') else
      match v' with
      | String d v'' =>
          if Ascii.eqb c backslash && is_tspecial d
          then '(value, rest) ← quoted_value v''; Some (String d value, rest)
          else if Ascii.eqb c "013" || Ascii.eqb c "010" then None
          else '(value, rest) ← quoted_value v'; Some (String c value, rest)
      | EmptyString => None
      end
  end.

(** [consumeValue]; [None] is the failure ["", v]. *)
Definition consumeValue (v : string) : option (string * string) :=
  match v with
  | EmptyString => None
  | String c v' =>
      if Ascii.eqb c dquote then quoted_value v'
      else let '(value, rest) := consumeToken v in
           if String.eqb value "" then None else Some (value, rest)
  end.

(** [consumeMediaParam] *)
Definition consumeMediaParam (v : string) : option (string * string * string) :=
  rest ← strip_prefix ";" (trim_left v);
  let '(param, rest) := consumeToken (trim_left rest) in
  let param := to_lower param in
  if String.eqb param "" then None else
  rest ← strip_prefix "=" (trim_left rest);
  '(value, rest) ← consumeValue (trim_left rest);
  Some (param, value, rest).

(** The parameters of [v] are well formed, and a repeated name repeats its
    value. *)
Fixpoint params_ok (fuel : nat) (params : gmap string string) (v : string) : bool :=
  match fuel with
  | O => false
  | S fuel' =>
      let v := trim_left v in
      if String.eqb v "" then true else
      match consumeMediaParam v with
      | None => String.eqb (trim_space v) ";"
      | Some (key, value, rest) =>
          match params !! key with
          | Some value' => String.eqb value' value && params_ok fuel' params rest
          | None => params_ok fuel' (<[key := value]> params) rest
          end
      end
  end.

(** [checkMediaTypeDisposition] *)
Definition disposition_ok (s : string) : bool :=
  let '(type, rest) := consumeToken s in
  negb (String.eqb type "") &&
  (String.eqb rest "" ||
   match strip_prefix "/" rest with
   | Some rest =>
       let '(subtype, rest) := consumeToken rest in
       negb (String.eqb subtype "") && String.eqb rest ""
   | None => false
   end).

(** What precedes the first semicolon, and the rest from it on. *)
Fixpoint cut_semicolon (v : string) : string * string :=
  match v with
  | String c v' =>
      if Ascii.eqb c semicolon then ("", v)
      else let '(base, rest) := cut_semicolon v' in (String c base, rest)
  | EmptyString => ("", "")
  end.

(** [None] where [ParseMediaType] returns an error. *)
Definition ParseMediaType (v : string) : option string :=
  let '(base, rest) := cut_semicolon v in
  let mediatype := trim_space (to_lower base) in
  if disposition_ok mediatype && params_ok (S (String.length rest)) ∅ rest
  then Some mediatype else None.

Example media_plain : ParseMediaType "application/json" = Some "application/json".
Proof. vm_compute. reflexivity. Qed.
Example media_params :
  ParseMediaType " Application/JSON ; charset=utf-8; a=b;" = Some "application/json" ∧
  ParseMediaType "application/json; charset" = None ∧
  ParseMediaType "application/json; a=b; a=c" = None ∧
  ParseMediaType "" = None.
Proof. vm_compute. auto. Qed.

(** ** The fuel is enough: every parameter consumes text *)

Lemma length_trim_left v : (String.length (trim_left v) ≤ String.length v)%nat.
Proof.
  enough (∀ n v, (String.length v ≤ n)%nat → (String.length (trim_left v) ≤ String.length v)%nat)
    by eauto.
  clear v. induction n as [|n IH]; intros v Hv.
  { destruct v; [done|cbn in Hv; lia]. }
  destruct v as [|a s1]; [done|]. cbn in Hv. cbn [trim_left].
  repeat case_match; cbn in *; try lia;
    match goal with |- (String.length (trim_left ?s) ≤ _)%nat =>
      specialize (IH s); cbn in IH; lia end.
Qed.

Lemma length_strip_prefix p v r :
  strip_prefix p v = Some r → String.length v = (String.length p + String.length r)%nat.
Proof.
  revert v. induction p as [|c p IH]; intros v; cbn; [by intros [= ->]|].
  destruct v as [|d v]; [done|]. case_match; [|done]. intros H'%IH. cbn. lia.
Qed.

Lemma length_consumeToken v :
  (String.length (consumeToken v).2 ≤ String.length v)%nat.
Proof.
  induction v as [|c v IH]; [done|]. cbn. destruct (is_token_char c); [|done].
  destruct (consumeToken v) as [t r]. cbn in *. lia.
Qed.

Lemma length_quoted_value v value rest :
  quoted_value v = Some (value, rest) → (String.length rest ≤ String.length v)%nat.
Proof.
  enough (∀ n v value rest, (String.length v ≤ n)%nat → quoted_value v = Some (value, rest) →
    (String.length rest ≤ String.length v)%nat) by eauto.
  clear. induction n as [|n IH]; intros v value rest Hv.
  { destruct v; [done|cbn in Hv; lia]. }
  destruct v as [|c v]; [done|]. cbn in Hv. cbn [quoted_value].
  case_match; [by intros [= _ <-]; cbn; lia|]. destruct v as [|d v]; [done|].
  case_match; [|case_match; [done|]].
  - destruct (quoted_value v) as [[w r]|] eqn:E; [|done]. intros [= _ <-].
    apply IH in E; cbn in *; lia.
  - destruct (quoted_value (String d v)) as [[w r]|] eqn:E; [|done]. intros [= _ <-].
    apply IH in E; cbn in *; lia.
Qed.

Lemma length_consumeMediaParam v key value rest :
  consumeMediaParam v = Some (key, value, rest) → (String.length rest < String.length v)%nat.
Proof.
  unfold consumeMediaParam. destruct (strip_prefix ";" (trim_left v)) as [r|] eqn:E1; [|done].
  apply length_strip_prefix in E1. cbn [mbind option_bind]. pose proof (length_trim_left v).
  pose proof (length_consumeToken (trim_left r)). pose proof (length_trim_left r).
  destruct (consumeToken (trim_left r)) as [p r2]. cbn [snd] in *. case_match; [done|].
  destruct (strip_prefix "=" (trim_left r2)) as [r3|] eqn:E2; [|done].
  apply length_strip_prefix in E2. cbn [mbind option_bind]. pose proof (length_trim_left r2).
  destruct (consumeValue (trim_left r3)) as [[w r4]|] eqn:E3; [|done]. intros [= _ _ <-].
  pose proof (length_trim_left r3). cbn [String.length] in *.
  enough (String.length r4 ≤ String.length (trim_left r3))%nat by lia.
  unfold consumeValue in E3. destruct (trim_left r3) as [|c s]; [done|].
  destruct (Ascii.eqb c dquote).
  - apply length_quoted_value in E3. cbn. lia.
  - pose proof (length_consumeToken (String c s)). destruct (consumeToken (String c s)) as [w' r'].
    case_match; [done|]. injection E3 as _ <-. done.
Qed.

(** More fuel than text changes nothing. *)
Lemma params_fuel v params fuel fuel' :
  (String.length v < fuel)%nat → (String.length v < fuel')%nat →
  params_ok fuel params v = params_ok fuel' params v.
Proof.
  revert v params fuel'. induction fuel as [|fuel IH]; intros v params fuel' H1 H2; [lia|].
  destruct fuel' as [|fuel']; [lia|]. cbn [params_ok]. pose proof (length_trim_left v).
  case_match; [done|].
  destruct (consumeMediaParam (trim_left v)) as [[[key value] rest]|] eqn:E; [|done].
  apply length_consumeMediaParam in E.
  destruct (params !! key); [f_equal|]; apply IH; lia.
Qed.

(** ** net/http

    Requests and answers as the program's clients see them.  A header has one
    value per canonical name.  The other end of a connection and everything
    below it is the class [Transport]: a client without redirects or cookies
    sends a request to a network state and gets an [exchange]. *)

Record HTTPRequest := {
  Req_Method : string; Req_URL : string; Req_Header : gmap string string; Req_Body : string }.

Record Response := { Status : Z; Headers : gmap string string; Content : string }.

(** What [Client.Do] gives and reading the body yields: an answer; an answer
    whose body breaks off after [Content]; or an error.  The last two come with
    [ctx.Err()]; the error of [NotSent] is a [net.Error] or not. *)
Inductive exchange :=
  | Answered (response : Response)
  | Interrupted (response : Response) (ctx_err : option error)
  | NotSent (ctx_err : option error) (network : bool).

Class Transport (N : Type) := Do : HTTPRequest → N → N * exchange.

(** [Header.Get] with a canonical name *)
Definition header (name : string) (headers : gmap string string) : string :=
  default "" (headers !! name).

(** [http.CanonicalHeaderKey]: a name that is not a token is left alone. *)
Definition is_token_byte (c : ascii) : bool := is_alnum (byte c) || in_chars c "!#$%&'*+-.^_`|~".

Definition upper_byte (c : ascii) : ascii :=
  if is_lower_alpha (byte c) then chr (byte c - 32) else c.

Fixpoint canonical_key (upper : bool) (s : string) : string :=
  match s with
  | EmptyString => ""
  | String c s' =>
      String (if upper then upper_byte c else lower_byte c) (canonical_key (Ascii.eqb c "-") s')
  end.

Definition CanonicalHeaderKey (s : string) : string :=
  if forallb is_token_byte (chars s) then canonical_key true s else s.

Example CanonicalHeaderKey_1 :
  CanonicalHeaderKey <$> ["x-request-id"; "X-REQUEST-ID"; "a b"; "content-type"; "--x"] =
    ["X-Request-Id"; "X-Request-Id"; "a b"; "Content-Type"; "--X"].
Proof. reflexivity. Qed.
