(* ===== verification/GoLib.v ===== *)
(** * Go library functions over text

    [path.Clean], [net.ParseIP] (the bytes of an address),
    [strconv.ParseBool] and the line splitting of [bufio.Scanner]. *)

From S2P Require Import Prelude GoString Json.
#[local] Open Scope Z_scope.

(** ** path *)

(** The components kept by [path.Clean], innermost first. *)
Fixpoint clean_stack (rooted : bool) (stack comps : list string) : list string :=
  match comps with
  | [] => stack
  | c :: comps' =>
      if String.eqb c "" || String.eqb c "." then clean_stack rooted stack comps'
      else if String.eqb c ".." then
        match stack with
        | [] => clean_stack rooted (if rooted then [] else [".."]) comps'
        | top :: stack' =>
            if String.eqb top ".." then clean_stack rooted (".." :: stack) comps'
            else clean_stack rooted stack' comps'
        end
      else clean_stack rooted (c :: stack) comps'
  end.

Definition path_Clean (p : string) : string :=
  let rooted := has_prefix p "/" in
  let out := join "/" (reverse (clean_stack rooted [] (split_on "/" p))) in
  if rooted then "/" +:+ out else if String.eqb out "" then "." else out.

Example path_Clean_1 : path_Clean "docs//checks/../a/./b" = "docs/a/b".
Proof. reflexivity. Qed.
Example path_Clean_2 : path_Clean "../../x/.." = "../..".
Proof. reflexivity. Qed.

(** ** net *)

(** One decimal field of an IPv4 address. *)
Definition ipv4_field (s : string) : option Z :=
  n ← parse_dec s;
  if (n <=? 255) && (String.eqb s "0" || negb (head_is "0" s)) && (slen s <=? 3) then Some n else None.

Definition parse_ipv4 (s : string) : option (list Z) :=
  fields ← mapM ipv4_field (split_on "." s);
  if (Z.of_nat (length fields) =? 4) then Some fields else None.

Fixpoint take_hex (n : nat) (s : string) (acc : Z) : string * nat * Z :=
  match n, s with
  | S n', String c s' =>
      match hex_value c with
      | Some d => let '(r, k, v) := take_hex n' s' (16 * acc + d) in (r, S k, v)
      | None => (s, O, acc)
      end
  | _, _ => (s, O, acc)
  end.

(** The loop of [netip.parseIPv6]: [ip] are the bytes written, [ell] where
    "::" stood. *)
Fixpoint parse_ipv6_loop (fuel : nat) (ip : list Z) (ell : option nat) (s : string)
    : option (list Z * option nat) :=
  match fuel with
  | O => if String.eqb s "" then Some (ip, ell) else None
  | S f =>
      let '(r, digits, acc) := take_hex 5 s 0 in
      if (digits =? 0)%nat || (4 <? digits)%nat then None else
      if head_is "." r then
        if negb (bool_decide (is_Some ell)) && negb (length ip =? 12)%nat then None
        else if (16 <? length ip + 4)%nat then None
        else ip4 ← parse_ipv4 s; Some (ip ++ ip4, ell)
      else
      let ip := ip ++ [acc / 256; acc mod 256] in
      match r with
      | EmptyString => Some (ip, ell)
      | String c r1 =>
          if negb (Ascii.eqb c ":") then None else
          match r1 with
          | EmptyString => None
          | String d r2 =>
              if Ascii.eqb d ":" then
                if bool_decide (is_Some ell) then None
                else if String.eqb r2 "" then Some (ip, Some (length ip))
                else parse_ipv6_loop f ip (Some (length ip)) r2
              else parse_ipv6_loop f ip ell r1
          end
      end
  end.

Definition parse_ipv6 (s : string) : option (list Z) :=
  let '(ell, s1) :=
    match strip_prefix "::" s with Some s1 => (Some O, s1) | None => (None, s) end in
  if bool_decide (ell = Some O) && String.eqb s1 "" then Some (replicate 16 0) else
  '(ip, ell) ← parse_ipv6_loop 8 [] ell s1;
  if (length ip <? 16)%nat
  then n ← ell; Some (take n ip ++ replicate (16 - length ip) 0 ++ drop n ip)
  else match ell with None => Some ip | Some _ => None end.

(** Which of '.' and ':' comes first decides the family; a zone is refused. *)
Fixpoint ip_family (s : string) : option bool :=
  match s with
  | EmptyString => None
  | String c s' =>
      if Ascii.eqb c "." then Some true
      else if Ascii.eqb c ":" then Some false
      else if Ascii.eqb c "%" then None else ip_family s'
  end.

(** [net.ParseIP], as the 4 or 16 bytes of the address. *)
Definition ParseIP (s : string) : option (list Z) :=
  match ip_family s with
  | Some true => parse_ipv4 s
  | Some false => if contains s "%" then None else parse_ipv6 s
  | None => None
  end.

(** [net.ParseIP(s) != nil] *)
Definition valid_ip (s : string) : bool := bool_decide (is_Some (ParseIP s)).

(** [IP.IsLoopback]; an IPv4-mapped address counts as its IPv4 address. *)
Definition ip_is_loopback (ip : list Z) : bool :=
  match (if bool_decide (take 12 ip = replicate 10 0 ++ [255; 255]) then drop 12 ip else ip) with
  | [a; _; _; _] => a =? 127
  | ip => bool_decide (ip = replicate 15 0 ++ [1])
  end.

Definition ip_IsLoopback (host : string) : bool :=
  match ParseIP host with Some ip => ip_is_loopback ip | None => false end.

Example ip_IsLoopback_1 :
  ip_IsLoopback <$> ["127.0.0.1"; "127.9.9.9"; "::1"; "::ffff:127.0.0.1"; "0:0:0:0:0:0:0:1"; "128.0.0.1";
    "::2"; "::"; "localhost"; "2001:db8::1"] = [true; true; true; true; true; false; false; false; false; false].
Proof. reflexivity. Qed.

(** [netip.ParseAddr], for an address that may have a zone, but not an IPv4
    address: what a URL may hold between brackets. *)
Definition bracketed_ip (s : string) : bool :=
  match ip_family s, cut "%" s with
  | Some false, (ip, None) => bool_decide (is_Some (parse_ipv6 ip))
  | Some false, (ip, Some zone) => negb (String.eqb zone "") && bool_decide (is_Some (parse_ipv6 ip))
  | _, _ => false
  end.

Example valid_ip_1 :
  valid_ip <$> ["192.0.2.7"; "::1"; "2001:db8::a:0"; "::ffff:1.2.3.4"; "1:2:3:4:5:6:7:8"; "::"]
    = replicate 6 true.
Proof. reflexivity. Qed.
Example valid_ip_2 :
  valid_ip <$> ["192.0.2"; "192.0.2.256"; "01.2.3.4"; "1::2::3"; "1:2:3:4:5:6:7::8:9"; "fe80::1%eth0";
    ":1"; "12345::"] = replicate 8 false.
Proof. reflexivity. Qed.

(** ** strconv *)

Definition ParseBool (s : string) : option bool :=
  if existsb (String.eqb s) ["1"; "t"; "T"; "TRUE"; "true"; "True"] then Some true
  else if existsb (String.eqb s) ["0"; "f"; "F"; "FALSE"; "false"; "False"] then Some false
  else None.

(** ** bufio *)

Definition newline : ascii := "010".
Definition carriage_return : ascii := "013".

(** [dropCR] *)
Fixpoint drop_cr (s : string) : string :=
  match s with
  | String c EmptyString => if Ascii.eqb c carriage_return then "" else s
  | String c s' => String c (drop_cr s')
  | EmptyString => ""
  end.

Fixpoint drop_last_empty (l : list string) : list string :=
  match l with
  | [] => []
  | [x] => if String.eqb x "" then [] else [x]
  | x :: l' => x :: drop_last_empty l'
  end.

(** The raw lines of a text; an empty rest after the last newline is none. *)
Definition raw_lines (content : string) : list string :=
  drop_last_empty (split_on newline content).

(** What [bufio.Scanner] delivers with a buffer of [limit] bytes: the lines up
    to the first that does not fit, and whether it met one. *)
Fixpoint scanner_lines (limit : Z) (raw : list string) : list string * bool :=
  match raw with
  | [] => ([], false)
  | line :: raw' =>
      if limit <=? slen line then ([], true)
      else let '(l, e) := scanner_lines limit raw' in (drop_cr line :: l, e)
  end.
