(* ===== verification/GoUrl.v ===== *)
(** * net/url

    [url.Parse], [URL.String], the parts of a URL the program reads, escaping,
    and the values of a query, as of Go 1.26: a host with a colon that is not
    before a port is refused, and what stands in brackets must be an IPv6
    address. *)

From S2P Require Import Prelude GoString JsonString Json GoLib.
#[local] Open Scope Z_scope.

(** ** Escaping *)

Inductive encoding :=
  encodePath | encodeHost | encodeZone | encodeUserPassword | encodeQueryComponent | encodeFragment.
#[export] Instance encoding_eq_dec : EqDecision encoding.
Proof. solve_decision. Defined.

Definition host_mode (mode : encoding) : bool :=
  match mode with encodeHost | encodeZone => true | _ => false end.

Definition shouldEscape (c : ascii) (mode : encoding) : bool :=
  if is_alnum (byte c) then false
  else if host_mode mode && in_chars c ("!$&'()*+,;=:[]<>" +:+ String "034" "") then false
  else if in_chars c "-_.~" then false
  else if in_chars c "$&+,/:;=?@" && negb (host_mode mode) then
    match mode with
    | encodePath => Ascii.eqb c "?"
    | encodeUserPassword => in_chars c "@/?:"
    | encodeQueryComponent => true
    | _ => false
    end
  else negb (bool_decide (mode = encodeFragment) && in_chars c "!()*").

Definition upper_hex (d : Z) : ascii := if d <? 10 then chr (48 + d) else chr (55 + d).

Fixpoint escape (s : string) (mode : encoding) : string :=
  match s with
  | EmptyString => ""
  | String c s' =>
      if shouldEscape c mode then
        if Ascii.eqb c " " && bool_decide (mode = encodeQueryComponent)
        then String "+" (escape s' mode)
        else String "%" (String (upper_hex (byte c / 16)) (String (upper_hex (byte c mod 16))
               (escape s' mode)))
      else String c (escape s' mode)
  end.

Fixpoint unescape (s : string) (mode : encoding) : option string :=
  match s with
  | EmptyString => Some ""
  | String c s' =>
      if Ascii.eqb c "%" then
        match s' with
        | String a (String b r) =>
            x ← hex_value a; y ← hex_value b;
            let v := 16 * x + y in
            let percent := Ascii.eqb a "2" && Ascii.eqb b "5" in
            if bool_decide (mode = encodeHost) && (x <? 8) && negb percent then None
            else if bool_decide (mode = encodeZone) && negb percent && negb (v =? 32)
                    && shouldEscape (chr v) encodeHost then None
            else String (chr v) <$> unescape r mode
        | _ => None
        end
      else if Ascii.eqb c "+" then
        String (if bool_decide (mode = encodeQueryComponent) then " " else c)%char <$> unescape s' mode
      else if host_mode mode && (byte c <? 0x80) && shouldEscape c mode then None
      else String c <$> unescape s' mode
  end.

(** ** URLs *)

Record URL := {
  Scheme : string; Opaque : string;
  User : option (string * option string);
  Host : string; URL_Path : string; RawPath : string;
  OmitHost : bool; ForceQuery : bool; RawQuery : string;
  Fragment : string; RawFragment : string;
}.

Definition validOptionalPort (port : string) : bool :=
  match port with
  | EmptyString => true
  | String c digits => Ascii.eqb c ":" && all_digits digits
  end.

(** [Some None] when there is no scheme. *)
Fixpoint getScheme (first : bool) (rawURL : string) : option (option (string * string)) :=
  match rawURL with
  | EmptyString => Some None
  | String c s' =>
      let more := option_map (option_map (λ p, (String c p.1, p.2))) (getScheme false s') in
      if is_lower_alpha (byte c) || is_upper_alpha (byte c) then more
      else if is_digit (byte c) || in_chars c "+-." then if first then Some None else more
      else if Ascii.eqb c ":" then if first then None else Some (Some ("", s'))
      else Some None
  end.

Definition parseHost (host : string) : option string :=
  match host with
  | String "[" rest =>
      if bool_decide (is_Some (cut_last "[" rest)) then None else
      '(hostname, colonPort) ← cut_last "]" rest;
      if negb (validOptionalPort colonPort) then None else
      hostname ←
        (if contains hostname "%25" then
           let '(address, zone) := cut "%" hostname in
           address ← unescape address encodeHost;
           zone ← unescape ("%" +:+ default "" zone) encodeZone;
           Some (address +:+ zone)
         else unescape hostname encodeHost);
      if bracketed_ip hostname then Some ("[" +:+ hostname +:+ "]" +:+ colonPort) else None
  | _ =>
      if bool_decide (is_Some (cut_last "[" host)) then None else
      match cut ":" host with
      | (_, Some port) => if all_digits port then unescape host encodeHost else None
      | (_, None) => unescape host encodeHost
      end
  end.

Definition validUserinfo (s : string) : bool :=
  all_runes (λ r, is_alnum r || existsb (Z.eqb r) (bytes "-._:~!$&'()*+,;=%@")) s.

Definition parseAuthority (authority : string) : option (option (string * option string) * string) :=
  match cut_last "@" authority with
  | None => host ← parseHost authority; Some (None, host)
  | Some (userinfo, host) =>
      host ← parseHost host;
      if negb (validUserinfo userinfo) then None else
      match cut ":" userinfo with
      | (name, None) => name ← unescape name encodeUserPassword; Some (Some (name, None), host)
      | (name, Some password) =>
          name ← unescape name encodeUserPassword;
          password ← unescape password encodeUserPassword;
          Some (Some (name, Some password), host)
      end
  end.

Definition has_control (s : string) : bool :=
  existsb (λ b, (b <? 32) || (b =? 127)) (bytes s).

(** [setPath], [setFragment]: the value, and the text when it is not the
    default encoding of the value. *)
Definition encoded_part (p : string) (mode : encoding) : option (string * string) :=
  value ← unescape p mode;
  Some (value, if String.eqb p (escape value mode) then "" else p).

(** A trailing question mark that is the only one makes an empty query. *)
Definition split_query (rest : string) : bool * string * string :=
  match cut "?" rest with
  | (rest, Some query) => if String.eqb query "" then (true, rest, "") else (false, rest, query)
  | (rest, None) => (false, rest, "")
  end.

Definition make_URL (scheme opaque : string) user (host : string) (path : string * string)
    (omit force : bool) (query : string) : URL := {|
  Scheme := scheme; Opaque := opaque; User := user; Host := host;
  URL_Path := path.1; RawPath := path.2; OmitHost := omit; ForceQuery := force; RawQuery := query;
  Fragment := ""; RawFragment := "" |}.

(** What follows the scheme. *)
Definition parse_rest (scheme : string) (force : bool) (rest query : string) : option URL :=
  let absolute := negb (String.eqb scheme "") in
  if negb (has_prefix rest "/") && absolute
  then Some (make_URL scheme rest None "" ("", "") false force query)
  else if negb (has_prefix rest "/") && contains (cut "/" rest).1 ":" then None
  else
    match strip_prefix "//" rest with
    | Some rest' =>
        if absolute || negb (has_prefix rest' "/") then
          let '(authority, path) := cut "/" rest' in
          '(user, host) ← parseAuthority authority;
          path ← encoded_part (match path with Some path => "/" +:+ path | None => "" end) encodePath;
          Some (make_URL scheme "" user host path false force query)
        else path ← encoded_part rest encodePath; Some (make_URL scheme "" None "" path false force query)
    | None =>
        path ← encoded_part rest encodePath;
        Some (make_URL scheme "" None "" path (absolute && has_prefix rest "/") force query)
    end.

(** [parse(rawURL, false)] *)
Definition parse_reference (rawURL : string) : option URL :=
  if has_control rawURL then None
  else if String.eqb rawURL "*" then Some (make_URL "" "" None "" ("*", "") false false "")
  else
    s ← getScheme true rawURL;
    let '(scheme, rest) := match s with Some (scheme, rest) => (to_lower scheme, rest) | None => ("", rawURL) end in
    let '(force, rest, query) := split_query rest in
    parse_rest scheme force rest query.

(** [url.Parse] *)
Definition url_Parse (rawURL : string) : option URL :=
  let '(reference, fragment) := cut "#" rawURL in
  u ← parse_reference reference;
  match fragment with
  | None => Some u
  | Some fragment =>
      if String.eqb fragment "" then Some u else
      f ← encoded_part fragment encodeFragment;
      Some {| Scheme := Scheme u; Opaque := Opaque u; User := User u; Host := Host u;
              URL_Path := URL_Path u; RawPath := RawPath u; OmitHost := OmitHost u;
              ForceQuery := ForceQuery u; RawQuery := RawQuery u; Fragment := f.1; RawFragment := f.2 |}
  end.

(** *** Reading a URL *)

Definition splitHostPort (hostPort : string) : string * string :=
  let '(host, port) :=
    match cut_last ":" hostPort with
    | Some (host, port) => if all_digits port then (host, port) else (hostPort, "")
    | None => (hostPort, "")
    end in
  match host with
  | String "[" rest => match cut_last "]" rest with
                       | Some (inner, "") => (inner, port)
                       | _ => (host, port)
                       end
  | _ => (host, port)
  end.

Definition url_Hostname (u : URL) : string := (splitHostPort (Host u)).1.
Definition url_Port (u : URL) : string := (splitHostPort (Host u)).2.
Definition IsAbs (u : URL) : bool := negb (String.eqb (Scheme u) "").

Definition validEncoded (s : string) (mode : encoding) : bool :=
  forallb (λ c, in_chars c "!$&'()*+,;=:@[]%" || negb (shouldEscape c mode)) (chars s).

(** [EscapedPath], [EscapedFragment] *)
Definition escaped_part (value raw : string) (mode : encoding) : string :=
  if negb (String.eqb raw "") && validEncoded raw mode && bool_decide (unescape raw mode = Some value)
  then raw
  else if String.eqb value "*" && bool_decide (mode = encodePath) then "*" else escape value mode.

Definition EscapedPath (u : URL) : string := escaped_part (URL_Path u) (RawPath u) encodePath.

Definition user_text (user : string * option string) : string :=
  escape user.1 encodeUserPassword +:+
  match user.2 with Some password => ":" +:+ escape password encodeUserPassword | None => "" end.

(** [URL.String] *)
Definition url_String (u : URL) : string :=
  let scheme := if String.eqb (Scheme u) "" then "" else Scheme u +:+ ":" in
  let body :=
    if negb (String.eqb (Opaque u) "") then Opaque u else
    let has_user := bool_decide (is_Some (User u)) in
    let authority :=
      if negb (String.eqb (Scheme u) "") || negb (String.eqb (Host u) "") || has_user then
        if OmitHost u && String.eqb (Host u) "" && negb has_user then ""
        else
          (if negb (String.eqb (Host u) "") || negb (String.eqb (URL_Path u) "") || has_user then "//" else "")
          +:+ match User u with Some user => user_text user +:+ "@" | None => "" end
          +:+ escape (Host u) encodeHost
      else "" in
    let path := EscapedPath u in
    authority
    +:+ (if negb (String.eqb path "") && negb (has_prefix path "/") && negb (String.eqb (Host u) "")
         then "/"
         else if String.eqb (scheme +:+ authority) "" && contains (cut "/" path).1 ":" then "./" else "")
    +:+ path in
  scheme +:+ body
  +:+ (if ForceQuery u || negb (String.eqb (RawQuery u) "") then "?" +:+ RawQuery u else "")
  +:+ (if String.eqb (Fragment u) "" then ""
       else "#" +:+ escaped_part (Fragment u) (RawFragment u) encodeFragment).

(** ** Queries *)

(** [URL.Query]: the pairs in order; what does not parse is left out. *)
Definition parse_pair (key : string) : option (string * string) :=
  if contains key ";" || String.eqb key "" then None else
  let '(key, value) := cut "=" key in
  key ← unescape key encodeQueryComponent;
  value ← unescape (default "" value) encodeQueryComponent;
  Some (key, value).

Definition ParseQuery (query : string) : list (string * string) :=
  omap parse_pair (split_on "&" query).

Definition url_Query (u : URL) : list (string * string) := ParseQuery (RawQuery u).

(** [Values.Set] *)
Definition values_Set (key value : string) (values : list (string * string)) : list (string * string) :=
  filter (λ kv, kv.1 ≠ key) values ++ [(key, value)].

(** [Values.Encode]: by key, the values of a key in their order. *)
Definition values_Encode (values : list (string * string)) : string :=
  join "&" ((λ kv, escape kv.1 encodeQueryComponent +:+ "=" +:+ escape kv.2 encodeQueryComponent)
              <$> sort_by (λ a b, str_ltb a.1 b.1) values).

Definition shown (raw : string) := (λ u, (url_String u, Host u, URL_Path u, url_Query u)) <$> url_Parse raw.

Example url_1 : shown "HTTPS://fleet.example:8443/a%2fb/c%20d?x=1&y=%41+b&wait#top"
  = Some ("https://fleet.example:8443/a%2fb/c%20d?x=1&y=%41+b&wait#top", "fleet.example:8443", "/a/b/c d",
          [("x", "1"); ("y", "A b"); ("wait", "")]).
Proof. vm_compute. reflexivity. Qed.
Example url_2 : (λ raw, (λ u, (url_Hostname u, url_Port u)) <$> url_Parse raw) <$>
    ["http://[::1]:80/"; "http://[fe80::1%25en0]"; "https://u:p@h"; "https://h:80:80"; "http://[1.2.3.4]";
     "https://a b"; "https://h/%zz"; "1http://x"; "x:y"; "a:b/c"; "/a:b"; "//h/p"; "https://h:/"; ":x"; "*"]
  = [Some ("::1", "80"); Some ("fe80::1%en0", ""); Some ("h", ""); None; None; None; None;
     None; Some ("", ""); Some ("", ""); Some ("", ""); Some ("h", ""); Some ("h", ""); None; Some ("", "")].
Proof. vm_compute. reflexivity. Qed.
Example url_3 : url_String <$> url_Parse "https://host?" = Some "https://host?".
Proof. vm_compute. reflexivity. Qed.
Example query_1 : values_Encode (values_Set "wait" "true" (ParseQuery "b=2&a=x%26y&wait=1&b=1;c&b=3"))
  = "a=x%26y&b=2&b=3&wait=true".
Proof. vm_compute. reflexivity. Qed.

(** ** Laws *)

Lemma hex_value_upper d : 0 ≤ d < 16 → hex_value (upper_hex d) = Some d.
Proof.
  intros H. assert (Forall (λ d, hex_value (upper_hex d) = Some d) (seqZ 0 16)) as Hf
    by (repeat constructor).
  apply (proj1 (Forall_forall _ _) Hf). apply elem_of_seqZ. lia.
Qed.

(** Only the host part refuses bytes and escapes, so it is left out. *)
Definition plain_mode (mode : encoding) : bool := negb (host_mode mode).

Lemma unescape_byte c r mode : plain_mode mode = true →
  unescape (String "%" (String (upper_hex (byte c / 16)) (String (upper_hex (byte c mod 16)) r))) mode
    = String c <$> unescape r mode.
Proof.
  intros Hm. pose proof (byte_range c). cbn [unescape]. rewrite Ascii.eqb_refl.
  rewrite (hex_value_upper (byte c / 16)) by (split; [apply Z.div_pos|apply Z.div_lt_upper_bound]; lia).
  rewrite hex_value_upper by (apply Z.mod_pos_bound; lia).
  cbn [mbind option_bind].
  rewrite !bool_decide_eq_false_2 by (intros ->; discriminate Hm). cbn [andb].
  by rewrite <-(Z.div_mod (byte c) 16), chr_byte by lia.
Qed.

(** Unescaping what was escaped gives it back. *)
Lemma unescape_escape s mode : plain_mode mode = true → unescape (escape s mode) mode = Some s.
Proof.
  intros Hm. induction s as [|c s IH]; [done|]. cbn [escape].
  destruct (shouldEscape c mode) eqn:Hc.
  - destruct (Ascii.eqb c " " && bool_decide (mode = encodeQueryComponent)) eqn:Hs.
    + apply andb_true_iff in Hs as [->%Ascii.eqb_eq Hq]. cbn [unescape Ascii.eqb].
      rewrite Hq. cbn. by rewrite IH.
    + by rewrite unescape_byte, IH.
  - cbn [unescape]. destruct (Ascii.eqb c "%") eqn:Hp.
    { apply Ascii.eqb_eq in Hp as ->. destruct mode; discriminate. }
    destruct (Ascii.eqb c "+") eqn:Hplus.
    { apply Ascii.eqb_eq in Hplus as ->. destruct mode; try discriminate; cbn; by rewrite IH. }
    unfold plain_mode in Hm. apply negb_true_iff in Hm. rewrite Hm. cbn [andb]. by rewrite IH.
Qed.

(** *** Encoding a query *)

(** Nothing that separates the pairs of a query or their parts. *)
Definition plain_query (s : string) : bool := forallb (λ c, negb (in_chars c "&=;")) (chars s).

Lemma upper_hex_plain d : 0 ≤ d < 16 → in_chars (upper_hex d) "&=;" = false.
Proof.
  intros H. assert (Forall (λ d, in_chars (upper_hex d) "&=;" = false) (seqZ 0 16)) as Hf
    by (repeat constructor).
  apply (proj1 (Forall_forall _ _) Hf). apply elem_of_seqZ. lia.
Qed.

Lemma escape_plain_query s : plain_query (escape s encodeQueryComponent) = true.
Proof.
  unfold plain_query. induction s as [|c s IH]; [done|]. cbn [escape].
  destruct (shouldEscape c encodeQueryComponent) eqn:Hc.
  - destruct (_ && _); cbn [chars forallb]; [by rewrite IH|]. pose proof (byte_range c).
    rewrite !upper_hex_plain, IH; [done|apply Z.mod_pos_bound; lia|].
    split; [apply Z.div_pos; lia|apply Z.div_lt_upper_bound; lia].
  - cbn [chars forallb]. rewrite IH, andb_true_r. apply negb_true_iff.
    destruct (in_chars c "&=;") eqn:Hi; [|done]. exfalso. unfold in_chars in Hi. bool_prop. cbn in Hi.
    repeat (apply elem_of_cons in Hi as [Hi|Hi]; [subst c; done|]). by apply elem_of_nil in Hi.
Qed.

Lemma plain_query_free c s : in_chars c "&=;" = true → plain_query s = true → free_of c s.
Proof.
  intros Hc. unfold plain_query. induction s as [|d s IH]; [intros _; apply not_elem_of_nil|].
  cbn [chars forallb]. intros [Hd Hs]%andb_true_iff. apply free_of_cons. split; [|by apply IH].
  intros ->. by rewrite Hc in Hd.
Qed.

Lemma cut_free sep s t : free_of sep s → cut sep (s +:+ String sep t) = (s, Some t).
Proof.
  induction s as [|c s IH]; [intros _; rewrite app_str_nil_l; cbn [cut]; by rewrite Ascii.eqb_refl|].
  intros [Hc Hs]%free_of_cons. rewrite app_str_cons. cbn [cut].
  rewrite (proj2 (Ascii.eqb_neq _ _)) by done. by rewrite IH.
Qed.

Lemma contains_free c s : free_of c s → contains s (String c "") = false.
Proof.
  induction s as [|d s IH]; [done|]. intros [Hd Hs]%free_of_cons. cbn [contains]. rewrite IH by done.
  unfold has_prefix. cbn [strip_prefix]. by rewrite (proj2 (Ascii.eqb_neq c d)) by done.
Qed.

Definition pair_text (kv : string * string) : string :=
  escape kv.1 encodeQueryComponent +:+ "=" +:+ escape kv.2 encodeQueryComponent.

Lemma pair_text_free c kv : in_chars c "&;" = true → free_of c (pair_text kv).
Proof.
  intros Hc. assert (in_chars c "&=;" = true ∧ c ≠ "="%char) as [Hc' Hn].
  { unfold in_chars in Hc. apply bool_decide_eq_true in Hc. cbn in Hc.
    repeat (apply elem_of_cons in Hc as [->|Hc]; [done|]). by apply elem_of_nil in Hc. }
  unfold pair_text. rewrite !free_of_app, free_of_cons.
  split_and!; [by apply plain_query_free, escape_plain_query|done| |by apply plain_query_free, escape_plain_query].
  apply not_elem_of_nil.
Qed.

Lemma parse_pair_text kv : parse_pair (pair_text kv) = Some kv.
Proof.
  unfold parse_pair. rewrite contains_free by (by apply pair_text_free). unfold pair_text.
  destruct (String.eqb _ "") eqn:E.
  { bool_prop. apply (f_equal String.length) in E. rewrite !length_app_str in E. cbn in E. lia. }
  cbn [orb]. change ("=" +:+ escape kv.2 encodeQueryComponent) with (String "=" (escape kv.2 encodeQueryComponent)).
  rewrite cut_free by (by apply plain_query_free, escape_plain_query). cbn [default]. unfold id.
  rewrite !unescape_escape by done. cbn [mbind option_bind]. by destruct kv.
Qed.

(** Decoding a query that was encoded gives its pairs, ordered by key. *)
Lemma ParseQuery_Encode values :
  ParseQuery (values_Encode values) = sort_by (λ a b, str_ltb a.1 b.1) values.
Proof.
  unfold ParseQuery, values_Encode. fold pair_text. set (l := sort_by _ values). clearbody l.
  destruct l as [|kv l]; [done|]. rewrite (split_join "&"); [|done|].
  - generalize (kv :: l). clear. intros l. induction l as [|kv l IH]; [done|].
    cbn [fmap list_fmap omap list_omap]. change (escape kv.1 _ +:+ "=" +:+ escape kv.2 _) with (pair_text kv).
    rewrite parse_pair_text. by f_equal.
  - apply Forall_fmap, Forall_forall. intros x _. by apply (pair_text_free "&").
Qed.

(** *** Appending a path *)

Lemma cut_app sep s t : cut sep (s +:+ t) =
  match cut sep s with
  | (l, Some r) => (l, Some (r +:+ t))
  | (l, None) => (l +:+ (cut sep t).1, (cut sep t).2)
  end.
Proof.
  induction s as [|c s IH]; [change ("" +:+ t) with t; cbn [cut]; by destruct (cut sep t)|].
  rewrite app_str_cons. cbn [cut]. destruct (Ascii.eqb c sep); [done|]. rewrite IH. by destruct (cut sep s) as [l [r|]].
Qed.

Lemma getScheme_app s t first scheme rest :
  getScheme first s = Some (Some (scheme, rest)) →
  getScheme first (s +:+ t) = Some (Some (scheme, rest +:+ t)).
Proof.
  revert first scheme rest. induction s as [|c s IH]; intros first scheme rest; [done|].
  rewrite app_str_cons. cbn [getScheme]. cbv zeta.
  assert (option_map (option_map (λ p : string * string, (String c p.1, p.2))) (getScheme false s)
            = Some (Some (scheme, rest)) →
          option_map (option_map (λ p : string * string, (String c p.1, p.2))) (getScheme false (s +:+ t))
            = Some (Some (scheme, rest +:+ t))) as Hmore.
  { destruct (getScheme false s) as [[[a b]|]|] eqn:E; cbn; try done.
    intros [= <- <-]. by rewrite (IH _ _ _ E). }
  repeat case_match; try done; intros [= <- <-]; done.
Qed.

Lemma unescape_app s t mode a b :
  unescape s mode = Some a → unescape t mode = Some b → unescape (s +:+ t) mode = Some (a +:+ b).
Proof.
  intros Hs Ht. revert a Hs.
  induction s as [s IH] using (well_founded_induction (well_founded_ltof string String.length)).
  intros a. destruct s as [|c s]; [by intros [= <-]|]. rewrite app_str_cons. cbn [unescape].
  assert (∀ d r a, (String.length r < String.length (String c s))%nat →
    String d <$> unescape r mode = Some a → String d <$> unescape (r +:+ t) mode = Some (a +:+ b)) as Hgo.
  { intros d r a' Hlen. destruct (unescape r mode) as [x|] eqn:E; [|done]. intros [= <-].
    by rewrite (IH r Hlen x E). }
  destruct (Ascii.eqb c "%").
  - destruct s as [|d [|e r]]; [done..|]. rewrite !app_str_cons.
    destruct (hex_value d); [|done]. destruct (hex_value e); [|done]. cbn [mbind option_bind]. cbv zeta.
    do 2 (case_match; [done|]). apply Hgo. cbn. lia.
  - case_match; [apply Hgo; cbn; lia|]. case_match; [done|]. apply Hgo. cbn. lia.
Qed.

(** A path with nothing to decode and nothing that ends it. *)
Definition plain_path (path : string) : bool :=
  has_prefix path "/" && negb (has_control path)
  && forallb (λ c, negb (in_chars c "#?%")) (chars path).

Lemma cut_plain sep path : plain_path path = true → in_chars sep "#?%" = true → cut sep path = (path, None).
Proof.
  intros [_ Hf]%andb_true_iff Hs. induction path as [|c path IH]; [done|]. cbn in Hf.
  apply andb_true_iff in Hf as [Hc Hf]. cbn [cut].
  destruct (Ascii.eqb c sep) eqn:E; [apply Ascii.eqb_eq in E as ->; by rewrite Hs in Hc|].
  by rewrite IH.
Qed.

Lemma unescape_plain path mode : host_mode mode = false → plain_path path = true →
  is_Some (unescape path mode).
Proof.
  intros Hm [_ Hf]%andb_true_iff. induction path as [|c path IH]; [by eexists|]. cbn in Hf.
  apply andb_true_iff in Hf as [Hc Hf]. cbn [unescape]. destruct (IH Hf) as [x ->].
  destruct (Ascii.eqb c "%") eqn:E; [by apply Ascii.eqb_eq in E as ->|].
  rewrite Hm. destruct (Ascii.eqb c "+"); by eexists.
Qed.

Lemma has_control_app s t : has_control (s +:+ t) = has_control s || has_control t.
Proof. unfold has_control. by rewrite bytes_app, existsb_app. Qed.

Lemma encoded_part_app s t mode a :
  encoded_part s mode = Some a → is_Some (unescape t mode) → is_Some (encoded_part (s +:+ t) mode).
Proof.
  unfold encoded_part. intros H [b Hb]. destruct (unescape s mode) as [x|] eqn:E; [|done].
  by rewrite (unescape_app s t mode x b E Hb).
Qed.

Lemma strip_prefix_then p s t r : strip_prefix p s = Some r → strip_prefix p (s +:+ t) = Some (r +:+ t).
Proof.
  revert s. induction p as [|c p IH]; intros s; [by intros [= ->]|]. destruct s as [|d s]; [done|].
  rewrite app_str_cons. cbn [strip_prefix]. destruct (Ascii.eqb c d); [apply IH|done].
Qed.

Lemma has_prefix_then s t p : has_prefix s p = true → has_prefix (s +:+ t) p = true.
Proof.
  unfold has_prefix. destruct (strip_prefix p s) as [r|] eqn:E; [|done].
  by rewrite (strip_prefix_then p s t r E).
Qed.

Lemma plain_path_slash path : plain_path path = true → ∃ rest, path = "/" +:+ rest.
Proof.
  unfold plain_path, has_prefix. destruct (strip_prefix "/" path) as [rest|] eqn:E; [|done].
  intros _. exists rest. by apply strip_prefix_inv.
Qed.

Lemma cut_none sep s l : cut sep s = (l, None) → l = s.
Proof.
  revert l. induction s as [|c s IH]; intros l; cbn [cut]; [by intros [= <-]|].
  destruct (Ascii.eqb c sep); [done|]. destruct (cut sep s) as [l' r]. intros [= <- ->]. by rewrite (IH l').
Qed.

Lemma parse_rest_scheme scheme force rest query u :
  parse_rest scheme force rest query = Some u → Scheme u = scheme.
Proof.
  unfold parse_rest. cbv zeta. intros H.
  repeat (case_match; simplify_option_eq; try done).
Qed.

(** Only the branch with an authority gives a host; its path is the end of
    the text. *)
Lemma parse_rest_append scheme force rest query u path force' query' :
  parse_rest scheme force rest query = Some u → scheme ≠ "" → Host u ≠ "" → plain_path path = true →
  is_Some (parse_rest scheme force' rest query') ∧
  is_Some (parse_rest scheme force' (rest +:+ path) query').
Proof.
  unfold parse_rest. cbv zeta. rewrite <-String.eqb_neq. intros H Hs Hh Hp. rewrite Hs in *.
  cbn [negb andb orb] in *. rewrite andb_true_r in *.
  destruct (has_prefix rest "/") eqn:Hslash; cbn [negb] in *;
    [|exfalso; injection H as <-; by apply Hh].
  rewrite (has_prefix_then rest path "/" Hslash). cbn [negb andb] in *.
  destruct (strip_prefix "//" rest) as [rest'|] eqn:Hr.
  2: { destruct (encoded_part rest encodePath); cbn in H; [|done]. exfalso. injection H as <-. by apply Hh. }
  rewrite (strip_prefix_then _ _ path _ Hr), cut_app.
  destruct (cut "/" rest') as [authority [old|]].
  - destruct (parseAuthority authority) as [[user host]|]; [|done]. cbn [mbind option_bind] in *.
    destruct (encoded_part ("/" +:+ old) encodePath) as [p|] eqn:Ho; [|done]. split; [by eexists|].
    destruct (encoded_part_app _ path _ _ Ho (unescape_plain path encodePath eq_refl Hp)) as [q Hq].
    change ("/" +:+ old +:+ path) with (("/" +:+ old) +:+ path). rewrite Hq. by eexists.
  - destruct (plain_path_slash path Hp) as [rest'' ->].
    assert (cut "/" ("/" +:+ rest'') = ("", Some rest'')) as -> by done.
    cbn [fst snd]. rewrite app_str_nil_r.
    destruct (parseAuthority authority) as [[user host]|]; [|done]. cbn [mbind option_bind] in *.
    split; [cbn; by eexists|]. unfold encoded_part.
    destruct (unescape_plain ("/" +:+ rest'') encodePath eq_refl Hp) as [x ->]. by eexists.
Qed.

(** A URL with a host stays a URL when a path is appended. *)
Lemma url_Parse_append raw u path :
  url_Parse raw = Some u → Scheme u ≠ "" → Host u ≠ "" → plain_path path = true →
  is_Some (url_Parse (raw +:+ path)).
Proof.
  intros H Hs Hh Hp. unfold url_Parse in *. rewrite cut_app.
  assert (∀ reference v, parse_reference reference = Some v → Scheme v ≠ "" → Host v ≠ "" →
            is_Some (parse_reference (reference +:+ path))) as Href.
  { clear raw u H Hs Hh. intros raw u H Hs Hh. unfold parse_reference in *. rewrite has_control_app.
    destruct (has_control raw); [done|]. assert (has_control path = false) as ->.
    { unfold plain_path in Hp. by apply andb_true_iff in Hp as [[_ Hp%negb_true_iff]%andb_true_iff _]. }
    cbn [orb]. destruct (String.eqb raw "*"); [exfalso; injection H as <-; by apply Hh|].
    destruct (String.eqb (raw +:+ path) "*"); [by eexists|].
    destruct (getScheme true raw) as [[[scheme rest]|]|] eqn:Hg; [| |done]; cbn [mbind option_bind] in *.
    2: { destruct (split_query raw) as [[force rest] query]. exfalso.
         by apply parse_rest_scheme in H. }
    rewrite (getScheme_app _ path _ _ _ Hg). cbn [mbind option_bind].
    unfold split_query in *. rewrite cut_app.
    assert (to_lower scheme ≠ "") as Hl.
    { destruct (cut "?" rest) as [r [q|]]; [destruct (String.eqb q "")|];
        by apply parse_rest_scheme in H as <-. }
    destruct (cut "?" rest) as [r [q|]] eqn:Hq.
    - destruct (String.eqb q "").
      + destruct (String.eqb (q +:+ path) ""); by eapply parse_rest_append.
      + destruct (String.eqb (q +:+ path) ""); by eapply parse_rest_append.
    - rewrite (cut_plain "?" path Hp eq_refl). cbn [fst snd].
      apply cut_none in Hq as ->.
      by eapply parse_rest_append. }
  destruct (cut "#" raw) as [reference [fragment|]].
  - destruct (parse_reference reference) as [v|]; [|done]. cbn [mbind option_bind] in *.
    destruct (String.eqb fragment "") eqn:Hf.
    + apply String.eqb_eq in Hf as ->. injection H as <-.
      destruct (unescape_plain path encodeFragment eq_refl Hp) as [x Hx].
      change ("" +:+ path) with path. unfold encoded_part. rewrite Hx.
      destruct (String.eqb path ""); by eexists.
    + destruct (encoded_part fragment encodeFragment) as [f|] eqn:E; [|done].
      destruct (encoded_part_app _ path _ _ E (unescape_plain path encodeFragment eq_refl Hp)) as [x ->].
      destruct (String.eqb (fragment +:+ path) ""); by eexists.
  - rewrite (cut_plain "#" path Hp eq_refl). cbn [fst snd].
    destruct (parse_reference reference) as [v|] eqn:E; [|done]. injection H as <-.
    destruct (Href reference v E Hs Hh) as [w ->]. by eexists.
Qed.
