(* ===== verification/GoCrypto.v ===== *)
(** * crypto: SHA-256, SHA-1 and Ed25519

    Hashes and signatures of the Go standard library.  Theorems are about every
    lawful hash and signature; the executable ones evaluate the witnesses. *)

From S2P Require Import Prelude GoString Model.
#[local] Open Scope Z_scope.

(** ** crypto/sha256

    The hash as the class [Hash] of functions from texts to bytes, with the law
    that a digest is thirty-two bytes, and SHA-256 (FIPS 180-4) as its instance.
    The theorems of the development hold for every lawful hash; the instance
    evaluates the digests of the witnesses. *)

(** [sha256.Sum256] *)
Class Hash := Sum256 : string → list Z.

Definition is_bytes (l : list Z) : Prop := Forall (λ b, 0 ≤ b < 256) l.

Class HashLaws `{Hash} : Prop := {
  Sum256_length t : length (Sum256 t) = 32%nat;
  Sum256_bytes t : is_bytes (Sum256 t);
}.

(** ** SHA-256 *)

Definition word (x : Z) : Z := x mod 2 ^ 32.

Definition round_constants : list Z := [
  1116352408; 1899447441; 3049323471; 3921009573; 961987163; 1508970993; 2453635748; 2870763221; 
  3624381080; 310598401; 607225278; 1426881987; 1925078388; 2162078206; 2614888103; 3248222580; 
  3835390401; 4022224774; 264347078; 604807628; 770255983; 1249150122; 1555081692; 1996064986; 
  2554220882; 2821834349; 2952996808; 3210313671; 3336571891; 3584528711; 113926993; 338241895; 
  666307205; 773529912; 1294757372; 1396182291; 1695183700; 1986661051; 2177026350; 2456956037; 
  2730485921; 2820302411; 3259730800; 3345764771; 3516065817; 3600352804; 4094571909; 275423344; 
  430227734; 506948616; 659060556; 883997877; 958139571; 1322822218; 1537002063; 1747873779; 
  1955562222; 2024104815; 2227730452; 2361852424; 2428436474; 2756734187; 3204031479; 3329325298].

Definition initial_hash : list Z := [
  1779033703; 3144134277; 1013904242; 2773480762; 1359893119; 2600822924; 528734635; 1541459225].

Definition rotr (n x : Z) : Z := Z.lor (Z.shiftr x n) (word (Z.shiftl x (32 - n))).
Definition small_sigma0 (x : Z) : Z := Z.lxor (rotr 7 x) (Z.lxor (rotr 18 x) (Z.shiftr x 3)).
Definition small_sigma1 (x : Z) : Z := Z.lxor (rotr 17 x) (Z.lxor (rotr 19 x) (Z.shiftr x 10)).
Definition big_sigma0 (x : Z) : Z := Z.lxor (rotr 2 x) (Z.lxor (rotr 13 x) (rotr 22 x)).
Definition big_sigma1 (x : Z) : Z := Z.lxor (rotr 6 x) (Z.lxor (rotr 11 x) (rotr 25 x)).
Definition choose (x y z : Z) : Z := Z.lxor (Z.land x y) (Z.land (Z.lxor x (2 ^ 32 - 1)) z).
Definition majority (x y z : Z) : Z := Z.lxor (Z.land x y) (Z.lxor (Z.land x z) (Z.land y z)).

(** The message schedule, kept as a window of the last sixteen words. *)
Definition next_word (w : list Z) : Z :=
  match w with
  | [w0; w1; _; _; _; _; _; _; _; w9; _; _; _; _; w14; _] =>
      word (small_sigma1 w14 + w9 + small_sigma0 w1 + w0)
  | _ => 0
  end.

Definition one_round (k w : Z) (v : list Z) : list Z :=
  match v with
  | [a; b; c; d; e; f; g; h] =>
      let t1 := h + big_sigma1 e + choose e f g + k + w in
      let t2 := big_sigma0 a + majority a b c in
      [word (t1 + t2); a; b; c; word (d + t1); e; f; g]
  | _ => v
  end.

Fixpoint rounds (ks w v : list Z) : list Z :=
  match ks, w with
  | k :: ks', w0 :: w' => rounds ks' (w' ++ [next_word w]) (one_round k w0 v)
  | _, _ => v
  end.

Definition compress (hash block : list Z) : list Z :=
  zip_with (λ x y, word (x + y)) hash (rounds round_constants block hash).

Fixpoint words_of (bytes : list Z) : list Z :=
  match bytes with
  | a :: b :: c :: d :: rest => (((a * 256 + b) * 256 + c) * 256 + d) :: words_of rest
  | _ => []
  end.

(** The length in bits as eight bytes. *)
Definition length_bytes (n : Z) : list Z :=
  (λ i, Z.shiftr n (8 * (7 - Z.of_nat i)) mod 256) <$> seq 0 8.

Definition padding (bytes : list Z) : list Z :=
  let n := Z.of_nat (length bytes) in
  bytes ++ [128] ++ replicate (Z.to_nat ((55 - n) mod 64)) 0 ++ length_bytes (8 * n).

Fixpoint blocks (fuel : nat) (hash ws : list Z) : list Z :=
  match fuel, ws with
  | S fuel', _ :: _ => blocks fuel' (compress hash (take 16 ws)) (drop 16 ws)
  | _, _ => hash
  end.

Definition word_bytes (w : Z) : list Z :=
  [Z.shiftr w 24 mod 256; Z.shiftr w 16 mod 256; Z.shiftr w 8 mod 256; w mod 256].

Definition sha256 (s : string) : list Z :=
  let ws := words_of (padding (bytes s)) in
  w ← blocks (length ws) initial_hash ws; word_bytes w.

#[export] Instance sha256_hash : Hash := sha256.

(** The published digests of the empty text and of abc, and one of a text of
    more than one block. *)
Example sha256_empty :
  hex_encode (sha256 "") = "e3b0c44298fc1c149afbf4c8996fb92427ae41e4649b934ca495991b7852b855".
Proof. vm_compute. reflexivity. Qed.
Example sha256_abc :
  hex_encode (sha256 "abc") = "ba7816bf8f01cfea414140de5dae2223b00361a396177a9cb410ff61f20015ad".
Proof. vm_compute. reflexivity. Qed.
Example sha256_two_blocks :
  hex_encode (sha256 "abcdbcdecdefdefgefghfghighijhijkijkljklmklmnlmnomnopnopq") =
  "248d6a61d20638b8e5c026930c3e6039a33ce45964ff2167f6ecedd419db06c1".
Proof. vm_compute. reflexivity. Qed.

(** ** The laws *)

Lemma one_round_length k w v : length (one_round k w v) = length v.
Proof. unfold one_round. by repeat (case_match; try done). Qed.

Lemma rounds_length ks w v : length (rounds ks w v) = length v.
Proof.
  revert w v. induction ks as [|k ks IH]; intros [|w0 w] v; cbn [rounds]; try done.
  by rewrite IH, one_round_length.
Qed.

Lemma blocks_length fuel hash ws : length (blocks fuel hash ws) = length hash.
Proof.
  revert hash ws. induction fuel as [|fuel IH]; intros hash [|w ws]; cbn [blocks]; try done.
  rewrite IH. unfold compress. rewrite length_zip_with, rounds_length. lia.
Qed.

#[export] Instance sha256_laws : @HashLaws sha256_hash.
Proof.
  split; intros t; unfold Sum256, sha256_hash, sha256; cbn zeta;
    pose proof (blocks_length (length (words_of (padding (bytes t)))) initial_hash
                  (words_of (padding (bytes t)))) as Hl.
  - revert Hl. generalize (blocks (length (words_of (padding (bytes t)))) initial_hash
      (words_of (padding (bytes t)))). intros l Hl.
    change (length initial_hash) with 8%nat in Hl.
    do 8 (destruct l as [|? l]; [done|]). by destruct l.
  - apply Forall_forall. intros b. rewrite list_elem_of_bind. intros (w & Hb & _).
    unfold word_bytes in Hb. rewrite !elem_of_cons in Hb.
    destruct Hb as [->|[->|[->|[->|[]%not_elem_of_nil]]]]; apply Z.mod_pos_bound; lia.
Qed.

Lemma hex_char_ascii d : 0 ≤ d < 16 → ascii_byte (byte (hex_char d)) = true.
Proof.
  intros H. assert (∃ n, d = Z.of_nat n ∧ (n < 16)%nat) as (n & -> & Hn)
    by (exists (Z.to_nat d); lia).
  do 16 (destruct n as [|n]; [reflexivity|]). lia.
Qed.

Lemma is_ascii_hex l : is_bytes l → is_ascii (hex_encode l) = true.
Proof.
  induction 1 as [|b l Hb Hl IH]; [done|].
  change (ascii_byte (byte (hex_char (b / 16))) && (ascii_byte (byte (hex_char (b mod 16)))
    && is_ascii (hex_encode l)) = true).
  rewrite !hex_char_ascii, IH; [done|apply Z.mod_pos_bound; lia|].
  split; [apply Z.div_pos; lia|apply Z.div_lt_upper_bound; lia].
Qed.

Lemma hex_encode_nonempty l : l ≠ [] → hex_encode l ≠ "".
Proof. by destruct l. Qed.

Lemma hex_char_inj a b : 0 ≤ a < 16 → 0 ≤ b < 16 → hex_char a = hex_char b → a = b.
Proof.
  intros Ha Hb. assert (∀ d, 0 ≤ d < 16 → byte (hex_char d) = if d <? 10 then 48 + d else 87 + d)
    as Hd.
  { intros d H. assert (∃ n, d = Z.of_nat n ∧ (n < 16)%nat) as (n & -> & Hn)
      by (exists (Z.to_nat d); lia).
    do 16 (destruct n as [|n]; [reflexivity|]). lia. }
  intros H. apply (f_equal byte) in H. rewrite !Hd in H by done.
  destruct (a <? 10) eqn:E1, (b <? 10) eqn:E2; lia.
Qed.

Lemma hex_encode_inj l1 l2 : is_bytes l1 → is_bytes l2 → hex_encode l1 = hex_encode l2 → l1 = l2.
Proof.
  intros H1. revert l2. induction H1 as [|a l1 Ha H1 IH]; intros l2 H2; destruct H2 as [|b l2 Hb H2];
    cbn [hex_encode]; [done|done|done|].
  assert (∀ z, 0 ≤ z < 256 → 0 ≤ z / 16 < 16 ∧ 0 ≤ z mod 16 < 16) as Hz.
  { intros z ?. split; [|apply Z.mod_pos_bound; lia].
    split; [apply Z.div_pos; lia|apply Z.div_lt_upper_bound; lia]. }
  intros [= E1 E2 E3]. apply hex_char_inj in E1; [|by apply Hz..].
  apply hex_char_inj in E2; [|by apply Hz..]. f_equal; [|by apply IH].
  rewrite (Z.div_mod a 16), (Z.div_mod b 16) by lia. lia.
Qed.

(** ** crypto/sha1

    SHA-1 (FIPS 180-4), with the blocks, words and padding of SHA-256. *)

Definition rotl (n x : Z) : Z := rotr (32 - n) x.

(** The message schedule, kept as a window of the last sixteen words. *)
Definition sha1_next_word (w : list Z) : Z :=
  match w with
  | [w0; _; w2; _; _; _; _; _; w8; _; _; _; _; w13; _; _] =>
      rotl 1 (Z.lxor (Z.lxor w13 w8) (Z.lxor w2 w0))
  | _ => 0
  end.

(** The function and the constant of a round. *)
Definition sha1_round_function (t : nat) (b c d : Z) : Z * Z :=
  if (t <? 20)%nat then (choose b c d, 0x5A827999)
  else if (t <? 40)%nat then (Z.lxor b (Z.lxor c d), 0x6ED9EBA1)
  else if (t <? 60)%nat then (majority b c d, 0x8F1BBCDC)
  else (Z.lxor b (Z.lxor c d), 0xCA62C1D6).

Definition sha1_round (t : nat) (w : Z) (v : list Z) : list Z :=
  match v with
  | [a; b; c; d; e] =>
      let '(f, k) := sha1_round_function t b c d in
      [word (rotl 5 a + f + e + k + w); a; rotl 30 b; c; d]
  | _ => v
  end.

Fixpoint sha1_rounds (n t : nat) (w v : list Z) : list Z :=
  match n, w with
  | S n', w0 :: w' => sha1_rounds n' (S t) (w' ++ [sha1_next_word w]) (sha1_round t w0 v)
  | _, _ => v
  end.

Fixpoint sha1_blocks (fuel : nat) (hash ws : list Z) : list Z :=
  match fuel, ws with
  | S fuel', _ :: _ =>
      sha1_blocks fuel' (zip_with (λ x y, word (x + y)) hash (sha1_rounds 80 0 (take 16 ws) hash)) (drop 16 ws)
  | _, _ => hash
  end.

Definition sha1_initial : list Z := [0x67452301; 0xEFCDAB89; 0x98BADCFE; 0x10325476; 0xC3D2E1F0].

(** [sha1.Sum] *)
Definition sha1 (s : string) : list Z :=
  let ws := words_of (padding (bytes s)) in
  w ← sha1_blocks (length ws) sha1_initial ws; word_bytes w.

Example sha1_abc : hex_encode (sha1 "abc") = "a9993e364706816aba3e25717850c26c9cd0d89d".
Proof. vm_compute. reflexivity. Qed.
Example sha1_password : hex_encode (sha1 "password") = "5baa61e4c9b93f3f0682250b6cf8331b7ee68fd8".
Proof. vm_compute. reflexivity. Qed.
Example sha1_two_blocks : hex_encode (sha1 "abcdbcdecdefdefgefghfghighijhijkijkljklmklmnlmnomnopnopq")
  = "84983e441c3bd26ebaae4aa1f95129e5e54670f1".
Proof. vm_compute. reflexivity. Qed.

(** ** The laws *)

Lemma sha1_rounds_length n t w v : length (sha1_rounds n t w v) = length v.
Proof.
  revert t w v. induction n as [|n IH]; intros t [|w0 w] v; cbn [sha1_rounds]; try done.
  rewrite IH. unfold sha1_round. repeat (case_match; try done).
Qed.

Lemma sha1_blocks_length fuel hash ws : length (sha1_blocks fuel hash ws) = length hash.
Proof.
  revert hash ws. induction fuel as [|fuel IH]; intros hash [|w ws]; cbn [sha1_blocks]; try done.
  rewrite IH, length_zip_with, sha1_rounds_length. lia.
Qed.

Lemma sha1_length s : length (sha1 s) = 20%nat.
Proof.
  unfold sha1. cbv zeta. pose proof (sha1_blocks_length (length (words_of (padding (bytes s)))) sha1_initial
    (words_of (padding (bytes s)))) as Hl. revert Hl.
  generalize (sha1_blocks (length (words_of (padding (bytes s)))) sha1_initial (words_of (padding (bytes s)))).
  intros l Hl. change (length sha1_initial) with 5%nat in Hl. do 5 (destruct l as [|? l]; [done|]). by destruct l.
Qed.

Lemma sha1_bytes s : is_bytes (sha1 s).
Proof.
  apply Forall_forall. intros b. unfold sha1. rewrite list_elem_of_bind. intros (w & Hb & _).
  unfold word_bytes in Hb. repeat (apply elem_of_cons in Hb as [->|Hb]; [apply Z.mod_pos_bound; lia|]).
  by apply elem_of_nil in Hb.
Qed.

(** ** Ed25519

    The signatures of crypto/ed25519 as the class [Ed25519] with its documented
    laws: a key pair is a 32-byte seed and the public key derived from it, and
    verification accepts what signing made.  Controller policies and
    intelligence bundles are signed with it. *)

Class Ed25519 := {
  ed_public : list Z → list Z;
  ed_sign : list Z → string → list Z;
  ed_verify : list Z → string → list Z → bool;
}.

(** A private key as the library keeps it: the seed, then the public key. *)
Definition ed_private `{Ed25519} (seed : list Z) : list Z := seed ++ ed_public seed.

Class Ed25519Laws `{Ed25519} : Prop := {
  ed_public_length seed : length (ed_public seed) = 32%nat;
  ed_public_bytes seed : is_bytes (ed_public seed);
  ed_sign_length key m : length (ed_sign key m) = 64%nat;
  ed_sign_bytes key m : is_bytes (ed_sign key m);
  ed_verify_sign seed m :
    length seed = 32%nat → is_bytes seed →
    ed_verify (ed_public seed) m (ed_sign (ed_private seed) m) = true;
}.
