(* ===== verification/Scan.v ===== *)
(** * Package bridge: the last-scan format

    [internal/bridge/scan.go]: the snapshot of a shell scan, its validation,
    the parser of the tab-separated format, and the canonical digest.  The
    hash is the class [Hash] of the file Sha256; the theorems hold for every
    lawful hash. *)

From S2P Require Import Prelude GoString Calendar GoTime Json Model ModelJson GoLib GoCrypto.
#[local] Open Scope Z_scope.

Definition ScanSchemaVersion : Z := 1.
Definition MaxScanInputBytes : Z := 4194304.
Definition MaxScanLineBytes : Z := 65536.
Definition MaxScanResults : Z := 4096.

Abbreviation ScanScope := string (only parsing).
Definition ScanScopeFull : ScanScope := "full".
Definition ScanScopePartial : ScanScope := "partial".
Definition ScanScopeComposite : ScanScope := "composite".

Record ScanMetadata := {
  Timestamp : Time;
  Meta_UpdatedAt : Time;
  Version : string;
  Platform : string;
  Source : string;
  Scope : ScanScope;
  Exit : Z;
  FDA : bool;
  PublicIP : string;
}.

Abbreviation CheckStatus := string (only parsing).
Definition CheckStatusOK : CheckStatus := "ok".
Definition CheckStatusWarn : CheckStatus := "warn".
Definition CheckStatusCritical : CheckStatus := "critical".
Definition CheckStatusSkip : CheckStatus := "skip".
Definition CheckStatusError : CheckStatus := "error".

Record CheckResult := {
  Res_Category : string;
  Name : string;
  Status : CheckStatus;
  Res_Severity : Severity;
  Res_Summary : string;
  Res_Remediation : string;
  Guide : string;
}.

Record ScanSnapshot := {
  Snap_SchemaVersion : Z;
  Metadata : ScanMetadata;
  Results : list CheckResult;
}.

#[export] Instance metadata_eq_dec : EqDecision ScanMetadata.
Proof. solve_decision. Defined.
#[export] Instance result_row_eq_dec : EqDecision CheckResult.
Proof. solve_decision. Defined.
#[export] Instance snapshot_eq_dec : EqDecision ScanSnapshot.
Proof. solve_decision. Defined.

(** ** Validation *)

Definition validIdentifier (value : string) : bool :=
  if String.eqb value "" || (128 <? slen value) || String.eqb value "." || String.eqb value ".."
  then false else all_runes ident_rune value.

Definition validToken (value : string) (maximum : Z) : bool :=
  if String.eqb value "" || (maximum <? slen value) || negb (String.eqb value (trim_space value))
  then false else all_runes (λ r, negb (is_control r)) value.

Definition backslash : string := String bslash "".

Definition validGuide (value : string) : bool :=
  if (1024 <? slen value) || contains value backslash || has_prefix value "/"
     || negb (String.eqb (path_Clean value) value) || String.eqb value "." || String.eqb value ".."
     || has_prefix value "../"
  then false else validToken value 1024.

Definition status_severity (result : CheckResult) : Prelude.result unit :=
  let status s := String.eqb (Status result) s in
  let sev s := String.eqb (Res_Severity result) s in
  if status CheckStatusOK || status CheckStatusSkip then
    fail_if (negb (sev SeverityInfo)) (ErrorsNew "ok and skip results must have info severity")
  else if status CheckStatusWarn then
    fail_if (negb (sev SeverityInfo) && negb (sev SeverityWarn))
      (ErrorsNew "warn results must have info or warn severity")
  else if status CheckStatusCritical || status CheckStatusError then
    fail_if (negb (sev SeverityCritical))
      (ErrorsNew "critical and error results must have critical severity")
  else Err (ErrorsNew "status is invalid").

Definition CheckResult_Validate (result : CheckResult) : Prelude.result unit :=
  _ ← fail_if (negb (validIdentifier (Res_Category result))) (ErrorsNew "category is invalid");
  _ ← fail_if (negb (validIdentifier (Name result))) (ErrorsNew "check name is invalid");
  _ ← fail_if (negb (validToken (Res_Summary result) MaxScanLineBytes))
        (ErrorsNew "summary is empty or invalid");
  _ ← fail_if (negb (String.eqb (Res_Remediation result) "")
               && negb (validToken (Res_Remediation result) MaxScanLineBytes))
        (ErrorsNew "remediation is invalid");
  _ ← fail_if (negb (String.eqb (Guide result) "") && negb (validGuide (Guide result)))
        (ErrorsNew "guide path is invalid");
  status_severity result.

(** The key of a result, category NUL name. *)
Definition nul : ascii := "000".
Definition result_key (result : CheckResult) : string :=
  Res_Category result +:+ String nul (Name result).

(** The loop of [Validate] over the results. *)
Fixpoint validate_results (seen : gset string) (results : list CheckResult) : result unit :=
  match results with
  | [] => Ok tt
  | result :: results' =>
      _ ← map_err (λ e, Wrapf "invalid check result: %w" e []) (CheckResult_Validate result);
      _ ← fail_if (bool_decide (result_key result ∈ seen))
            (ErrorsNew "scan contains a duplicate check result");
      validate_results ({[result_key result]} ∪ seen) results'
  end.

Fixpoint expected_exit (expected : Z) (results : list CheckResult) : Z :=
  match results with
  | [] => expected
  | result :: results' =>
      let status s := String.eqb (Status result) s in
      expected_exit
        (if status CheckStatusWarn then if expected <? 1 then 1 else expected
         else if status CheckStatusCritical then if expected <? 2 then 2 else expected
         else if status CheckStatusError then 3 else expected) results'
  end.

Definition validateExit (snapshot : ScanSnapshot) : result unit :=
  let expected := expected_exit 0 (Results snapshot) in
  fail_if (negb (Exit (Metadata snapshot) =? expected))
    (Errorf "scan exit %d is inconsistent with result statuses; expected %d"
       [FInt (Exit (Metadata snapshot)); FInt expected]).

Definition valid_scope (scope : ScanScope) : bool :=
  one_of scope [ScanScopeFull; ScanScopePartial; ScanScopeComposite].

Definition ScanSnapshot_Validate (snapshot : ScanSnapshot) : result unit :=
  _ ← fail_if (negb (Snap_SchemaVersion snapshot =? ScanSchemaVersion))
        (Errorf "unsupported scan schema version %d" [FInt (Snap_SchemaVersion snapshot)]);
  let metadata := Metadata snapshot in
  let count := Z.of_nat (length (Results snapshot)) in
  _ ← first_error [
    (is_zero (Timestamp metadata), ErrorsNew "scan timestamp is required");
    (is_zero (Meta_UpdatedAt metadata), ErrorsNew "scan updated_at is required");
    (before (Meta_UpdatedAt metadata) (Timestamp metadata),
      ErrorsNew "scan updated_at cannot precede timestamp");
    (negb (validToken (Version metadata) 64), ErrorsNew "scan version is invalid");
    (negb (validIdentifier (Platform metadata)), ErrorsNew "scan platform is invalid");
    (negb (validIdentifier (Source metadata)), ErrorsNew "scan source is invalid");
    (negb (valid_scope (Scope metadata)), ErrorsNew "scan scope is invalid");
    ((Exit metadata <? 0) || (3 <? Exit metadata), ErrorsNew "scan exit must be from 0 through 3");
    (negb (String.eqb (PublicIP metadata) "") && negb (valid_ip (PublicIP metadata)),
      ErrorsNew "scan public_ip is invalid");
    (count =? 0, ErrorsNew "scan must contain at least one result row");
    (MaxScanResults <? count, Errorf "scan contains more than %d results" [FInt MaxScanResults])];
  _ ← validate_results ∅ (Results snapshot);
  validateExit snapshot.

(** ** Parsing *)

Definition validateLineCharacters (line : string) : bool :=
  all_runes (λ r, (r =? 9) || negb (is_control r)) line.

Definition knownMetadataKey (key : string) : bool :=
  one_of key ["timestamp"; "updated_at"; "version"; "platform"; "source"; "scope"; "exit"; "fda";
              "public_ip"].

Definition parseResult (fields : list string) : result CheckResult :=
  match fields with
  | [_; category; name; status; severity; summary; remediation; guide] =>
      let result := {| Res_Category := category; Name := name; Status := status;
                       Res_Severity := severity; Res_Summary := summary;
                       Res_Remediation := remediation; Guide := guide |} in
      _ ← CheckResult_Validate result;
      Ok result
  | _ => Err (ErrorsNew "result row must contain exactly eight fields")
  end.

(** The variables of the loop of [ParseScan]. *)
Record Parser := {
  p_metadata : gmap string string;
  p_keys : gset string;
  p_results : list CheckResult;
  p_schemaSeen : bool;
  p_resultSection : bool;
  p_line : Z;
}.

Definition new_parser : Parser := {|
  p_metadata := ∅; p_keys := ∅; p_results := []; p_schemaSeen := false;
  p_resultSection := false; p_line := 0 |}.

Definition tab : ascii := "009".

Definition at_line (s : Parser) (line : Z) : Parser := {|
  p_metadata := p_metadata s; p_keys := p_keys s; p_results := p_results s;
  p_schemaSeen := p_schemaSeen s; p_resultSection := p_resultSection s; p_line := line |}.

Definition parse_meta (s : Parser) (fields : list string) : result Parser :=
  let line := [FInt (p_line s)] in
  _ ← fail_if (p_resultSection s) (Errorf "metadata row after results at line %d" line);
  match fields with
  | [_; key; value] =>
      _ ← fail_if (String.eqb key "") (Errorf "malformed metadata row at line %d" line);
      _ ← fail_if (negb (knownMetadataKey key)) (Errorf "unknown metadata key at line %d" line);
      _ ← fail_if (bool_decide (is_Some (p_metadata s !! key)))
            (Errorf "duplicate metadata key at line %d" line);
      Ok {| p_metadata := <[key := value]> (p_metadata s); p_keys := p_keys s;
            p_results := p_results s; p_schemaSeen := p_schemaSeen s;
            p_resultSection := p_resultSection s; p_line := p_line s |}
  | _ => Err (Errorf "malformed metadata row at line %d" line)
  end.

Definition parse_result_row (s : Parser) (fields : list string) : Prelude.result Parser :=
  let line := [FInt (p_line s)] in
  result ← map_err (λ e, Wrapf "invalid result row at line %d: %w" e line) (parseResult fields);
  _ ← fail_if (bool_decide (result_key result ∈ p_keys s))
        (Errorf "duplicate check result at line %d" line);
  let results := p_results s ++ [result] in
  _ ← fail_if (MaxScanResults <? Z.of_nat (length results))
        (Errorf "scan contains more than %d results" [FInt MaxScanResults]);
  Ok {| p_metadata := p_metadata s; p_keys := {[result_key result]} ∪ p_keys s;
        p_results := results; p_schemaSeen := p_schemaSeen s; p_resultSection := true;
        p_line := p_line s |}.

(** One turn of the loop, on a line of the scanner. *)
Definition parse_line (s : Parser) (line : string) : result Parser :=
  let s := at_line s (p_line s + 1) in
  if String.eqb line "" then Ok s else
  _ ← fail_if (negb (validateLineCharacters line))
        (Errorf "scan line %d contains unsupported control characters" [FInt (p_line s)]);
  let fields := split_on tab line in
  if negb (p_schemaSeen s) then
    if bool_decide (fields = ["schema"; "1"]) then
      Ok {| p_metadata := p_metadata s; p_keys := p_keys s; p_results := p_results s;
            p_schemaSeen := true; p_resultSection := p_resultSection s; p_line := p_line s |}
    else Err (ErrorsNew "scan must begin with schema version 1")
  else
    let kind := default "" (head fields) in
    if String.eqb kind "schema" then
      Err (Errorf "duplicate schema row at line %d" [FInt (p_line s)])
    else if String.eqb kind "meta" then parse_meta s fields
    else if String.eqb kind "result" then parse_result_row s fields
    else if String.eqb kind "detail" then
      Ok {| p_metadata := p_metadata s; p_keys := p_keys s; p_results := p_results s;
            p_schemaSeen := p_schemaSeen s; p_resultSection := true; p_line := p_line s |}
    else Err (Errorf "unknown scan row type at line %d" [FInt (p_line s)]).

Fixpoint parse_lines (s : Parser) (lines : list string) : result Parser :=
  match lines with
  | [] => Ok s
  | line :: lines' => s ← parse_line s line; parse_lines s lines'
  end.

Definition missing_key (values : gmap string string) : option string :=
  List.find (λ key, bool_decide (values !! key = None))
    ["timestamp"; "version"; "platform"; "source"; "exit"; "fda"].

Definition value_of (values : gmap string string) (key : string) : string :=
  default "" (values !! key).

Definition parse_time (text : string) (e : error) : result Time :=
  match parse_rfc3339 false text with Some t => Ok t | None => Err e end.

(** [updated_at], the timestamp when absent. *)
Definition parse_updated (values : gmap string string) (timestamp : Time) : result Time :=
  match values !! "updated_at" with
  | None => Ok timestamp
  | Some raw =>
      _ ← fail_if (String.eqb raw "") (ErrorsNew "scan updated_at must be RFC3339");
      parse_time raw (ErrorsNew "scan updated_at must be RFC3339")
  end.

Definition parse_scope (values : gmap string string) : result ScanScope :=
  scope ← match values !! "scope" with
          | None => Ok ScanScopeFull
          | Some raw =>
              _ ← fail_if (String.eqb raw "") (ErrorsNew "scan scope is invalid"); Ok raw
          end;
  _ ← fail_if (negb (valid_scope scope)) (ErrorsNew "scan scope is invalid");
  Ok scope.

Definition parse_exit (values : gmap string string) : result Z :=
  let e := ErrorsNew "scan exit must be an integer from 0 through 3" in
  let rawExit := value_of values "exit" in
  _ ← fail_if (negb (one_of rawExit ["0"; "1"; "2"; "3"])) e;
  match parse_int64 rawExit with Some n => Ok n | None => Err e end.

Definition parse_fda (values : gmap string string) : result bool :=
  let e := ErrorsNew "scan fda must be true or false" in
  match ParseBool (value_of values "fda") with
  | None => Err e
  | Some b => _ ← fail_if (negb (one_of (value_of values "fda") ["true"; "false"])) e; Ok b
  end.

Definition parseMetadata (values : gmap string string) : result ScanMetadata :=
  let get := value_of values in
  match missing_key values with
  | Some key => Err (Errorf "required scan metadata %q is missing" [FStr key])
  | None =>
      timestamp ← parse_time (get "timestamp") (ErrorsNew "scan timestamp must be RFC3339");
      updatedAt ← parse_updated values timestamp;
      let timestamp := utc timestamp in
      let updatedAt := utc updatedAt in
      _ ← fail_if (before updatedAt timestamp)
            (ErrorsNew "scan updated_at cannot precede timestamp");
      _ ← fail_if (negb (validToken (get "version") 64)) (ErrorsNew "scan version is invalid");
      _ ← fail_if (negb (validIdentifier (get "platform"))) (ErrorsNew "scan platform is invalid");
      _ ← fail_if (negb (validIdentifier (get "source"))) (ErrorsNew "scan source is invalid");
      scope ← parse_scope values;
      exitCode ← parse_exit values;
      fda ← parse_fda values;
      _ ← fail_if (negb (String.eqb (get "public_ip") "") && negb (valid_ip (get "public_ip")))
            (ErrorsNew "scan public_ip is invalid");
      Ok {| Timestamp := timestamp; Meta_UpdatedAt := updatedAt; Version := get "version";
            Platform := get "platform"; Source := get "source"; Scope := scope;
            Exit := exitCode; FDA := fda; PublicIP := get "public_ip" |}
  end.

(** [ParseScan]; a nil reader is [None], and [Err] is a read that failed within
    the bytes that are asked for. *)
Definition ParseScan (reader : option (result string)) : result ScanSnapshot :=
  match reader with
  | None => Err (ErrorsNew "scan input is required")
  | Some read =>
      content ← map_err (λ _, ErrorsNew "read scan input") read;
      _ ← fail_if (MaxScanInputBytes <? slen content)
            (Errorf "scan input exceeds %d bytes" [FInt MaxScanInputBytes]);
      let '(lines, tooLong) := scanner_lines MaxScanLineBytes (raw_lines content) in
      s ← parse_lines new_parser lines;
      _ ← fail_if tooLong (Errorf "scan line exceeds %d bytes" [FInt MaxScanLineBytes]);
      _ ← fail_if (negb (p_schemaSeen s)) (ErrorsNew "scan schema row is required");
      _ ← fail_if (bool_decide (p_results s = []))
            (ErrorsNew "scan must contain at least one result row");
      metadata ← parseMetadata (p_metadata s);
      let snapshot := {| Snap_SchemaVersion := ScanSchemaVersion; Metadata := metadata;
                         Results := p_results s |} in
      _ ← ScanSnapshot_Validate snapshot;
      Ok snapshot
  end.

(** ** The canonical digest *)

Definition resultLess (left right : CheckResult) : bool :=
  if negb (String.eqb (Res_Category left) (Res_Category right))
  then str_ltb (Res_Category left) (Res_Category right)
  else str_ltb (Name left) (Name right).

(** The inner loop of [sortResults] on the sorted prefix, walked from its end:
    the elements that [current] passes move up by one. *)
Fixpoint shift_in (current : CheckResult) (prefix_rev : list CheckResult) : list CheckResult :=
  match prefix_rev with
  | [] => [current]
  | x :: rest => if resultLess current x then x :: shift_in current rest else current :: prefix_rev
  end.

(** [sortResults]: the array is its sorted prefix, kept reversed, and the rest. *)
Fixpoint sort_loop (prefix_rev rest : list CheckResult) : list CheckResult :=
  match rest with
  | [] => reverse prefix_rev
  | current :: rest' => sort_loop (shift_in current prefix_rev) rest'
  end.

Definition sortResults (results : list CheckResult) : list CheckResult := sort_loop [] results.

Definition Metadata_parts (m : ScanMetadata) : list part :=
  [("timestamp", f_req (Timestamp m)); ("updated_at", f_req (Meta_UpdatedAt m));
   ("version", f_str (Version m)); ("platform", f_str (Platform m));
   ("source", f_str (Source m)); ("scope", f_str (Scope m)); ("exit", f_int (Exit m));
   ("fda", f_bool (FDA m)); ("public_ip", f_str_omit (PublicIP m))].

Definition CheckResult_parts (r : CheckResult) : list part :=
  [("category", f_str (Res_Category r)); ("name", f_str (Name r)); ("status", f_str (Status r));
   ("severity", f_str (Res_Severity r)); ("summary", f_str (Res_Summary r));
   ("remediation", f_str_omit (Res_Remediation r)); ("guide", f_str_omit (Guide r))].

Definition zero_metadata : ScanMetadata :=
  {| Timestamp := zero_time; Meta_UpdatedAt := zero_time; Version := ""; Platform := "";
     Source := ""; Scope := ""; Exit := 0; FDA := false; PublicIP := "" |}.

#[export] Instance Metadata_codec : Codec ScanMetadata := {
  enc m := enc_struct (Metadata_parts m);
  dec := dec_struct zero_metadata (λ ms,
    ts ← get zero_time dec ms "timestamp"; up ← get zero_time dec ms "updated_at";
    ve ← get_string ms "version"; pl ← get_string ms "platform"; so ← get_string ms "source";
    sc ← get_string ms "scope"; ex ← get_int ms "exit"; fd ← get_bool ms "fda";
    ip ← get_string ms "public_ip";
    Some {| Timestamp := ts; Meta_UpdatedAt := up; Version := ve; Platform := pl; Source := so;
            Scope := sc; Exit := ex; FDA := fd; PublicIP := ip |});
  wf m := wf (Timestamp m) ∧ wf (Meta_UpdatedAt m) ∧ 0 ≤ Exit m ≤ max_int64 ∧
    utf8 [Version m; Platform m; Source m; Scope m; PublicIP m];
}.

#[export] Instance CheckResult_codec : Codec CheckResult := {
  enc r := enc_struct (CheckResult_parts r);
  dec := dec_struct
    {| Res_Category := ""; Name := ""; Status := ""; Res_Severity := ""; Res_Summary := "";
       Res_Remediation := ""; Guide := "" |} (λ ms,
    ca ← get_string ms "category"; na ← get_string ms "name"; st ← get_string ms "status";
    se ← get_string ms "severity"; su ← get_string ms "summary";
    re ← get_string ms "remediation"; gu ← get_string ms "guide";
    Some {| Res_Category := ca; Name := na; Status := st; Res_Severity := se; Res_Summary := su;
            Res_Remediation := re; Guide := gu |});
  wf r := utf8 [Res_Category r; Name r; Status r; Res_Severity r; Res_Summary r;
                Res_Remediation r; Guide r];
}.

Definition Snapshot_parts (s : ScanSnapshot) : list part :=
  [("schema_version", f_int (Snap_SchemaVersion s)); ("metadata", f_req (Metadata s));
   ("results", f_list (Results s))].

#[export] Instance Snapshot_codec : Codec ScanSnapshot := {
  enc s := enc_struct (Snapshot_parts s);
  dec := dec_struct {| Snap_SchemaVersion := 0; Metadata := zero_metadata; Results := [] |} (λ ms,
    v ← get_int ms "schema_version"; m ← get zero_metadata dec ms "metadata";
    rs ← get_list dec ms "results";
    Some {| Snap_SchemaVersion := v; Metadata := m; Results := rs |});
  wf s := 0 ≤ Snap_SchemaVersion s ≤ max_int64 ∧ wf (Metadata s) ∧ Forall wf (Results s);
}.

Definition utc_metadata (m : ScanMetadata) : ScanMetadata := {|
  Timestamp := utc (Timestamp m); Meta_UpdatedAt := utc (Meta_UpdatedAt m);
  Version := Version m; Platform := Platform m; Source := Source m; Scope := Scope m;
  Exit := Exit m; FDA := FDA m; PublicIP := PublicIP m |}.

Definition canonical_snapshot (s : ScanSnapshot) : ScanSnapshot := {|
  Snap_SchemaVersion := Snap_SchemaVersion s; Metadata := utc_metadata (Metadata s);
  Results := sortResults (Results s) |}.

Definition SnapshotDigest `{Hash} (snapshot : ScanSnapshot) : result string :=
  _ ← ScanSnapshot_Validate snapshot;
  match Marshal (canonical_snapshot snapshot) with
  | None => Err (ErrorsNew "encode canonical scan snapshot")
  | Some encoded => Ok (hex_encode (Sum256 encoded))
  end.
