(* ===== verification/ScanFacts.v ===== *)
(** * Facts about the last-scan format

    Validation as a set of conditions, the exit code as a maximum, the
    insertion sort, and the digest, which does not depend on the order of the
    results. *)

From S2P Require Import Prelude GoString Calendar GoTime Json Model ModelJson GoLib GoCrypto Scan.
#[local] Open Scope Z_scope.

(** ** Validation *)

Lemma validate_results_ok seen results :
  validate_results seen results = Ok tt ↔
  Forall (λ r, CheckResult_Validate r = Ok tt) results ∧
  NoDup (result_key <$> results) ∧ Forall (λ r, result_key r ∉ seen) results.
Proof.
  revert seen. induction results as [|r rs IH]; intros seen; cbn [validate_results].
  { split; [intros _; split_and!; constructor|done]. }
  destruct (CheckResult_Validate r) as [[]|e] eqn:E; cbn [map_err mbind result_bind].
  - case_bool_decide as Hin; cbn [fail_if mbind result_bind].
    + split; [done|]. intros (_ & _ & H). apply Forall_cons in H as [H _]. done.
    + rewrite IH, fmap_cons, NoDup_cons, !Forall_cons. split.
      * intros (H1 & H2 & H3). split_and!; try done.
        -- intros (r' & Hk & Hr')%list_elem_of_fmap. rewrite Forall_forall in H3.
           apply (H3 r' Hr'). rewrite <-Hk. set_solver.
        -- eapply Forall_impl; [exact H3|]. set_solver.
      * intros ((_ & H1) & (H2 & H3) & (_ & H4)). split_and!; [done|done|].
        rewrite Forall_forall in *. intros x Hx. specialize (H4 x Hx).
        assert (result_key x ≠ result_key r); [|set_solver].
        intros He. apply H2. rewrite <-He. by apply list_elem_of_fmap_2.
  - split; [done|]. intros (H & _). apply Forall_cons in H as [H _]. congruence.
Qed.

Definition status_rank (status : CheckStatus) : Z :=
  if String.eqb status CheckStatusWarn then 1
  else if String.eqb status CheckStatusCritical then 2
  else if String.eqb status CheckStatusError then 3 else 0.

Definition worst (results : list CheckResult) : Z :=
  foldr (λ r m, Z.max (status_rank (Status r)) m) 0 results.

Lemma status_rank_range status : 0 ≤ status_rank status ≤ 3.
Proof. unfold status_rank. repeat case_match; lia. Qed.

Lemma worst_nonneg results : 0 ≤ worst results ≤ 3.
Proof.
  induction results as [|r rs IH]; cbn [worst foldr]; [lia|].
  fold (worst rs). pose proof (status_rank_range (Status r)). lia.
Qed.

Lemma expected_exit_worst expected results :
  0 ≤ expected ≤ 3 → expected_exit expected results = Z.max expected (worst results).
Proof.
  revert expected. induction results as [|r rs IH]; intros x Hx; cbn [expected_exit worst foldr].
  { lia. }
  fold (worst rs). pose proof (worst_nonneg rs). unfold status_rank.
  rewrite IH; repeat case_match; bool_prop; lia.
Qed.

Lemma worst_perm l1 l2 : l1 ≡ₚ l2 → worst l1 = worst l2.
Proof. unfold worst. induction 1; cbn [foldr]; lia. Qed.

(** The conditions on the metadata, and on the number of results. *)
Definition metadata_ok (m : ScanMetadata) : Prop :=
  ns (Timestamp m) ≠ 0 ∧ ns (Meta_UpdatedAt m) ≠ 0 ∧ ns (Timestamp m) ≤ ns (Meta_UpdatedAt m) ∧
  validToken (Version m) 64 = true ∧ validIdentifier (Platform m) = true ∧
  validIdentifier (Source m) = true ∧ valid_scope (Scope m) = true ∧ 0 ≤ Exit m ≤ 3 ∧
  (PublicIP m = "" ∨ valid_ip (PublicIP m) = true).

Lemma negb_andb_eqb_empty s (b : bool) :
  negb (String.eqb s "") && negb b = false ↔ s = "" ∨ b = true.
Proof. destruct (String.eqb_spec s ""), b; naive_solver. Qed.

(** What [Validate] accepts. *)
Definition snapshot_ok (s : ScanSnapshot) : Prop :=
  Snap_SchemaVersion s = 1 ∧ metadata_ok (Metadata s) ∧
  1 ≤ Z.of_nat (length (Results s)) ≤ MaxScanResults ∧
  Forall (λ r, CheckResult_Validate r = Ok tt) (Results s) ∧
  NoDup (result_key <$> Results s) ∧ Exit (Metadata s) = worst (Results s).

Lemma snapshot_valid s : ScanSnapshot_Validate s = Ok tt ↔ snapshot_ok s.
Proof.
  unfold snapshot_ok.
  unfold ScanSnapshot_Validate, metadata_ok, is_zero, before, validateExit.
  rewrite expected_exit_worst by lia. pose proof (worst_nonneg (Results s)) as Hw.
  rewrite Z.max_r by lia. split.
  - intros H. ok_inv. valid_inv H1. apply validate_results_ok in H2 as (V1 & V2 & _).
    repeat match goal with H : _ |- _ => rewrite negb_andb_eqb_empty in H end.
    bool_prop. split_and!; try done; lia.
  - intros (-> & (E1 & E2 & E3 & -> & -> & -> & -> & E4 & E5) & E6 & E7 & E8 & ->).
    rewrite first_error_ok; cbn [mbind result_bind fail_if negb Z.eqb ScanSchemaVersion].
    + rewrite (proj2 (validate_results_ok ∅ _)), Z.eqb_refl; [done|].
      split_and!; [done..|]. apply Forall_forall. set_solver.
    + apply negb_andb_eqb_empty in E5. rewrite E5.
      repeat constructor; cbn [fst]; rewrite ?orb_false_iff, ?Z.eqb_neq, ?Z.ltb_ge; lia.
Qed.

(** ** Sorting *)

#[export] Instance resultLess_strict : StrictLess resultLess.
Proof.
  assert (∀ a b, resultLess a b =
    lex_by Res_Category String.eqb str_ltb (λ a b, str_ltb (Name a) (Name b)) a b) as E.
  { intros a b. unfold resultLess, lex_by. by destruct (String.eqb _ _). }
  destruct (lex_by_strict Res_Category String.eqb str_ltb (λ a b, str_ltb (Name a) (Name b)))
    as [L1 L2 L3].
  { apply str_eqb_eq. }
  { intros x y. apply str_ltb_total. }
  { apply _. }
  { apply (less_on_strict Name str_ltb), _. }
  split; intros *; rewrite !E; eauto.
Qed.

Lemma shift_in_insert x l :
  StronglySorted (le_by resultLess) l → shift_in x (reverse l) = reverse (insert_by resultLess x l).
Proof.
  induction l as [|y l IH] using rev_ind; intros Hs; [done|].
  rewrite reverse_app. cbn [reverse app shift_in]. destruct (resultLess x y) eqn:E.
  - change (reverse [y] ++ reverse l) with (y :: reverse l).
    assert (insert_by resultLess x (l ++ [y]) = insert_by resultLess x l ++ [y]) as ->.
    { clear -E. induction l as [|z l IH]; simpl; [by rewrite E|].
      destruct (resultLess x z); [done|]. by rewrite IH. }
    rewrite reverse_app. cbn. rewrite E. f_equal. apply IH. by apply StronglySorted_app_1_l in Hs.
  - change (reverse [y] ++ reverse l) with (y :: reverse l). cbn. rewrite E.
    rewrite insert_by_last; [by rewrite !reverse_app|apply _|].
    apply StronglySorted_app_2; [|done|repeat constructor].
    intros a b Ha ->%list_elem_of_singleton. unfold le_by.
    apply elem_of_app in Ha as [Ha| ->%list_elem_of_singleton]; [|done].
    assert (le_by resultLess a y) as Hay.
    { eapply (StronglySorted_app_1_elem_of _ l [y]); [done..|set_solver]. }
    by apply (less_neg_trans x y a).
Qed.

Lemma sort_loop_insert l acc :
  StronglySorted (le_by resultLess) acc →
  sort_loop (reverse acc) l = foldl (λ acc x, insert_by resultLess x acc) acc l.
Proof.
  revert acc. induction l as [|x l IH]; intros acc Hs; cbn [sort_loop foldl].
  { by rewrite reverse_involutive. }
  rewrite shift_in_insert by done. apply IH. by apply insert_by_sorted; [apply _|].
Qed.

(** The insertion sort of the source is the stable sort by [resultLess]. *)
Lemma sortResults_sort_by l : sortResults l = sort_by resultLess l.
Proof. apply (sort_loop_insert l []). constructor. Qed.

Lemma resultLess_antisym a b :
  le_by resultLess a b → le_by resultLess b a → result_key a = result_key b.
Proof.
  unfold le_by, resultLess, result_key. rewrite (String.eqb_sym (Res_Category b)).
  destruct (String.eqb_spec (Res_Category a) (Res_Category b)) as [->|Hne]; cbn [negb].
  - intros H1 H2. by rewrite (str_ltb_total _ _ H1 H2).
  - intros H1 H2. by destruct Hne, (str_ltb_total _ _ H1 H2).
Qed.

Lemma distinct_keys (l : list CheckResult) :
  NoDup (result_key <$> l) →
  ∀ a b, a ∈ l → b ∈ l → result_key a = result_key b → a = b.
Proof.
  induction l as [|r l IH]; cbn [fmap list_fmap]; intros Hd a b Ha Hb Hk; [set_solver|].
  apply NoDup_cons in Hd as [Hn Hd].
  apply elem_of_cons in Ha as [->|Ha], Hb as [->|Hb]; [done| | |by apply IH].
  - destruct Hn. rewrite Hk. by apply list_elem_of_fmap_2.
  - destruct Hn. rewrite <-Hk. by apply list_elem_of_fmap_2.
Qed.

Lemma sortResults_order l1 l2 :
  NoDup (result_key <$> l1) → l1 ≡ₚ l2 → sortResults l1 = sortResults l2.
Proof.
  intros Hd HP. rewrite !sortResults_sort_by. apply sort_by_ext; [apply _| |done].
  intros a b Ha Hb H1 H2. by apply (distinct_keys l1), resultLess_antisym.
Qed.

(** ** The digest *)

#[export] Instance Metadata_laws : CodecLaws ScanMetadata.
Proof.
  constructor. intros m H. cbn [wf enc dec Metadata_codec] in *. wf_split.
  struct_laws (Metadata_parts m). by destruct m.
Qed.

#[export] Instance CheckResult_laws : CodecLaws CheckResult.
Proof.
  constructor. intros r H. cbn [wf enc dec CheckResult_codec] in *. wf_split.
  struct_laws (CheckResult_parts r). by destruct r.
Qed.

#[export] Instance Snapshot_laws : CodecLaws ScanSnapshot.
Proof.
  constructor. intros s H. cbn [wf enc dec Snapshot_codec] in *. wf_split.
  struct_laws (Snapshot_parts s). by destruct s.
Qed.

(** The same scan: the order of the results and the zone of the times do not
    matter. *)
Definition same_scan (s1 s2 : ScanSnapshot) : Prop :=
  Snap_SchemaVersion s1 = Snap_SchemaVersion s2 ∧
  utc_metadata (Metadata s1) = utc_metadata (Metadata s2) ∧ Results s1 ≡ₚ Results s2.

#[export] Instance same_scan_equivalence : Equivalence same_scan.
Proof.
  split; unfold same_scan.
  - done.
  - by intros s1 s2 (-> & -> & ->).
  - by intros s1 s2 s3 (-> & -> & ->).
Qed.

Lemma metadata_ok_utc m : metadata_ok (utc_metadata m) ↔ metadata_ok m.
Proof. done. Qed.

#[export] Instance snapshot_ok_same : Proper (same_scan ==> iff) snapshot_ok.
Proof.
  intros s1 s2 (E1 & E2 & E3). unfold snapshot_ok.
  rewrite <-(metadata_ok_utc (Metadata s1)), <-(metadata_ok_utc (Metadata s2)), E1, E2.
  assert (Exit (Metadata s1) = Exit (Metadata s2)) as -> by (by injection E2).
  rewrite (worst_perm _ _ E3), E3. reflexivity.
Qed.

Lemma canonical_same s1 s2 :
  NoDup (result_key <$> Results s1) → same_scan s1 s2 →
  canonical_snapshot s1 = canonical_snapshot s2.
Proof.
  intros Hd (E1 & E2 & E3). unfold canonical_snapshot.
  by rewrite E1, E2, (sortResults_order _ _ Hd E3).
Qed.

Lemma same_canonical s : same_scan (canonical_snapshot s) s.
Proof.
  split_and!; [done|done|]. cbn. rewrite sortResults_sort_by. apply sort_by_perm.
Qed.

(** A snapshot whose texts are UTF-8 and whose times JSON can carry. *)
Definition encodable (s : ScanSnapshot) : Prop :=
  wf (utc_metadata (Metadata s)) ∧ Forall wf (Results s).

Lemma canonical_wf s : snapshot_ok s → encodable s → wf (canonical_snapshot s).
Proof.
  intros (E & _) (H1 & H2). cbn [wf Snapshot_codec canonical_snapshot Snap_SchemaVersion
    Metadata Results]. rewrite E. split; [done|]. split; [done|].
  rewrite sortResults_sort_by. by rewrite sort_by_perm.
Qed.

Section digest.
Context `{Hash}.

(** The text that is hashed. *)
Definition digest_text (s : ScanSnapshot) : option string := Marshal (canonical_snapshot s).

Lemma SnapshotDigest_same s1 s2 :
  snapshot_ok s1 → same_scan s1 s2 → SnapshotDigest s1 = SnapshotDigest s2.
Proof.
  intros Hs E. assert (snapshot_ok s2) as Hs2 by (by rewrite <-E).
  unfold SnapshotDigest. rewrite (proj2 (snapshot_valid s1) Hs), (proj2 (snapshot_valid s2) Hs2).
  cbn [mbind result_bind]. rewrite (canonical_same s1 s2); [done|apply Hs|done].
Qed.

Lemma SnapshotDigest_text s :
  snapshot_ok s → encodable s →
  ∃ t, digest_text s = Some t ∧ SnapshotDigest s = Ok (hex_encode (Sum256 t)) ∧
    Unmarshal t = Some (canonical_snapshot s).
Proof.
  intros Hs He. destruct (Marshal_Unmarshal _ (canonical_wf s Hs He)) as (t & Ht & Hu).
  exists t. split_and!; [done| |done]. unfold SnapshotDigest.
  by rewrite (proj2 (snapshot_valid s) Hs), bind_ok, Ht.
Qed.

(** C37. [SnapshotDigest] of an accepted and encodable snapshot, whose texts are
    valid UTF-8 and whose times JSON can carry, is the hex of the hash of a
    text, and two such snapshots have the same text exactly when they are the
    same scan: equal up to the order of their results and the zone of their
    times.  So equal digests of different ones are a collision of the hash.
    (In other texts JSON replaces the ill-formed bytes, so that snapshots that
    differ in them have one digest.) *)
Theorem SnapshotDigest_identity s1 s2 :
  snapshot_ok s1 → encodable s1 → snapshot_ok s2 → encodable s2 →
  ∃ t1 t2, SnapshotDigest s1 = Ok (hex_encode (Sum256 t1)) ∧
    SnapshotDigest s2 = Ok (hex_encode (Sum256 t2)) ∧ (t1 = t2 ↔ same_scan s1 s2).
Proof.
  intros H1 E1 H2 E2. destruct (SnapshotDigest_text s1 H1 E1) as (t1 & T1 & -> & U1).
  destruct (SnapshotDigest_text s2 H2 E2) as (t2 & T2 & -> & U2).
  exists t1, t2. split_and!; [done|done|]. split.
  - intros ->. assert (canonical_snapshot s1 = canonical_snapshot s2) as E by congruence.
    trans (canonical_snapshot s1); [symmetry; apply same_canonical|].
    rewrite E. apply same_canonical.
  - intros E. unfold digest_text in *.
    rewrite (canonical_same s1 s2) in T1; [congruence|apply H1|done].
Qed.
End digest.

(** [Validate] accepts a snapshot exactly when its schema version is 1, the
    metadata conditions hold, it has 1 to 4096 individually valid results with
    distinct (category, name), and the exit code is the worst status of them:
    3 for an error, 2 for critical, 1 for warn, 0 otherwise. *)
Theorem ScanSnapshot_Validate_ok s :
  ScanSnapshot_Validate s = Ok tt ↔
  Snap_SchemaVersion s = 1 ∧ metadata_ok (Metadata s) ∧
  1 ≤ Z.of_nat (length (Results s)) ≤ MaxScanResults ∧
  Forall (λ r, CheckResult_Validate r = Ok tt) (Results s) ∧
  NoDup (result_key <$> Results s) ∧ Exit (Metadata s) = worst (Results s).
Proof. apply snapshot_valid. Qed.

(** [sortResults] gives a permutation of the results sorted by category,
    then name, and on results with distinct keys the outcome does not depend
    on the order they came in. *)
Theorem sortResults_spec l :
  sortResults l ≡ₚ l ∧ StronglySorted (λ a b, resultLess b a = false) (sortResults l) ∧
  (∀ l', NoDup (result_key <$> l) → l ≡ₚ l' → sortResults l' = sortResults l).
Proof.
  split_and!.
  - rewrite sortResults_sort_by. apply sort_by_perm.
  - rewrite sortResults_sort_by. apply (sort_by_sorted resultLess).
  - intros l' Hd HP. symmetry. by apply sortResults_order.
Qed.
