(* ===== verification/ScanText.v ===== *)
(** * Writing and parsing the last-scan format

    [print_scan] writes an accepted snapshot as the scanner does, one
    tab-separated row per line; [ParseScan] reads it back. *)

From S2P Require Import Prelude GoString Calendar GoTime Json Model ModelJson GoLib GoCrypto Scan.
From S2P Require Import ScanFacts.
#[local] Open Scope Z_scope.

(** ** Runes of a text cut at an ASCII character *)

Lemma decode_rune_cut b l t r :
  t < 0x80 → decode_rune (b :: l ++ t :: r) = decode_rune (b :: l).
Proof.
  intros Ht. assert (cont t = false) as Hc by (unfold cont; lia).
  assert (∀ lo hi, 0x80 <= lo → between lo hi t = false) as Hb by (unfold between; intros; lia).
  unfold decode_rune. destruct (b <? 0x80); [done|].
  destruct l as [|b1 [|b2 [|b3 l]]]; cbn [app]; rewrite ?Hc, ?andb_false_r; try done.
  - rewrite (Hb (if b =? 0xE0 then 0xA0 else 0x80)) by (destruct (b =? 0xE0); lia).
    rewrite (Hb (if b =? 0xF0 then 0x90 else 0x80)) by (destruct (b =? 0xF0); lia).
    rewrite !andb_false_r. cbn. by repeat case_match.
  - rewrite ?andb_false_r. by repeat case_match.
Qed.

Lemma decode_rune_room b l : (pred (decode_rune (b :: l)).2 ≤ length l)%nat.
Proof.
  unfold decode_rune. destruct l as [|b1 [|b2 [|b3 l]]]; cbn [length];
    repeat case_match; cbn; lia.
Qed.

Lemma runes_from_cut skip l t r :
  t < 0x80 → (skip ≤ length l)%nat →
  runes_from skip (l ++ t :: r) = runes_from skip l ++ (t, 1%nat) :: runes_from 0 r.
Proof.
  intros Ht. revert skip. induction l as [|b l IH]; intros skip Hs.
  { destruct skip; [|cbn in Hs; lia]. cbn [app]. apply runes_from_ascii_cons.
    unfold ascii_byte. lia. }
  cbn [app runes_from]. destruct skip as [|k]; [|apply IH; cbn in Hs; lia].
  cbn zeta. rewrite decode_rune_cut by done. cbn [app]. f_equal. apply IH, decode_rune_room.
Qed.

Lemma runes_cut s c t :
  byte c < 0x80 → runes (s +:+ String c t) = runes s ++ byte c :: runes t.
Proof.
  intros Hc. unfold runes, runes_w. rewrite bytes_app. cbn [bytes].
  rewrite runes_from_cut by (done || lia). by rewrite fmap_app.
Qed.

Lemma all_runes_cut P s c t :
  byte c < 0x80 → all_runes P (s +:+ String c t) = all_runes P s && P (byte c) && all_runes P t.
Proof.
  intros Hc. unfold all_runes. rewrite runes_cut by done. rewrite forallb_app. cbn.
  by rewrite andb_assoc.
Qed.

(** A byte below U+0080 is a rune of its text. *)
Lemma free_of_runes c s : byte c < 0x80 → byte c ∉ runes s → free_of c s.
Proof.
  unfold free_of. intros Hc Hr Hin. apply Hr. clear Hr.
  apply list_elem_of_split in Hin as (l1 & l2 & E).
  unfold runes, runes_w. rewrite E, runes_from_cut by (done || lia). rewrite fmap_app. set_solver.
Qed.

(** ** Joining and splitting *)

Fixpoint join (sep : ascii) (l : list string) : string :=
  match l with
  | [] => ""
  | [x] => x
  | x :: l' => x +:+ String sep (join sep l')
  end.

Lemma split_on_join sep l : l ≠ [] → Forall (free_of sep) l → split_on sep (join sep l) = l.
Proof.
  intros Hne H. induction H as [|x l Hx Hl IH]; [done|]. destruct l as [|y l].
  - by apply split_on_free.
  - change (join sep (x :: y :: l)) with (x +:+ String sep (join sep (y :: l))).
    rewrite split_on_cut by done. f_equal. by apply IH.
Qed.

(** ** Lines *)

Definition lines_text (lines : list string) : string :=
  foldr (λ line t, line +:+ String newline t) "" lines.

Lemma drop_last_empty_snoc l : drop_last_empty (l ++ [""]) = l.
Proof.
  induction l as [|x l IH]; [done|]. cbn [app drop_last_empty]. rewrite IH.
  destruct (l ++ [""]) as [|y k] eqn:E; [by destruct l|done].
Qed.

Lemma raw_lines_text lines : Forall (free_of newline) lines → raw_lines (lines_text lines) = lines.
Proof.
  intros H. unfold raw_lines.
  assert (split_on newline (lines_text lines) = lines ++ [""]) as ->; [|apply drop_last_empty_snoc].
  induction H as [|x l Hx Hl IH]; [done|]. cbn [lines_text foldr]. rewrite split_on_cut by done.
  cbn [app]. by f_equal.
Qed.

Lemma drop_cr_free s : free_of carriage_return s → drop_cr s = s.
Proof.
  induction s as [|c s IH]; [done|]. intros [Hc Hs]%free_of_cons. cbn [drop_cr].
  destruct s as [|d s]; [by rewrite (proj2 (Ascii.eqb_neq _ _)) by done|]. by rewrite IH.
Qed.

Lemma scanner_lines_ok limit lines :
  Forall (λ l, slen l < limit ∧ free_of carriage_return l) lines →
  scanner_lines limit lines = (lines, false).
Proof.
  induction 1 as [|x l [Hx Hc] Hl IH]; [done|]. cbn [scanner_lines].
  rewrite (proj2 (Z.leb_gt _ _)) by done. by rewrite IH, drop_cr_free.
Qed.

(** ** Rows of clean fields *)

(** No control character: what [validToken] and [validIdentifier] ensure. *)
Definition clean (s : string) : Prop := all_runes (λ r, negb (is_control r)) s = true.

Lemma clean_free c s : byte c < 0x20 → clean s → free_of c s.
Proof.
  intros Hc Hs. apply free_of_runes; [lia|]. intros Hin.
  apply (proj1 (forallb_forall _ _)) with (x := byte c) in Hs; [|by apply list_elem_of_In].
  unfold is_control, between in Hs. pose proof (byte_range c).
  rewrite (proj2 (Z.leb_le 0 _)), (proj2 (Z.leb_le _ 0x1F)) in Hs by lia. done.
Qed.

Lemma all_runes_impl (P Q : Z → bool) s :
  (∀ r, P r = true → Q r = true) → all_runes P s = true → all_runes Q s = true.
Proof.
  intros HPQ. unfold all_runes. rewrite !forallb_forall. auto.
Qed.

Definition text_row (fields : list string) : string := join tab fields.

Lemma text_row_fields fields : fields ≠ [] → Forall clean fields →
  split_on tab (text_row fields) = fields.
Proof.
  intros Hne H. apply split_on_join; [done|]. eapply Forall_impl; [exact H|].
  intros s. by apply clean_free.
Qed.

Lemma text_row_chars fields : Forall clean fields → validateLineCharacters (text_row fields) = true.
Proof.
  unfold validateLineCharacters. induction 1 as [|x l Hx Hl IH]; [done|].
  assert (all_runes (λ r, (r =? 9) || negb (is_control r)) x = true) as Hx'.
  { eapply all_runes_impl; [|exact Hx]. intros r ->. by rewrite orb_true_r. }
  destruct l as [|y l]; [done|].
  change (text_row (x :: y :: l)) with (x +:+ String tab (text_row (y :: l))).
  rewrite all_runes_cut by done. by rewrite Hx', IH.
Qed.

Lemma text_row_free c fields : byte c < 0x20 → c ≠ tab → Forall clean fields →
  free_of c (text_row fields).
Proof.
  intros Hc Ht. induction 1 as [|x l Hx Hl IH]; [apply not_elem_of_nil|].
  destruct l as [|y l]; [by apply clean_free|].
  change (text_row (x :: y :: l)) with (x +:+ String tab (text_row (y :: l))).
  apply free_of_app. split; [by apply clean_free|]. apply free_of_cons. by split.
Qed.

(** ** The rows of a snapshot *)

Definition metadata_rows (m : ScanMetadata) : list (string * string) :=
  [("timestamp", rfc3339nano (Timestamp m)); ("updated_at", rfc3339nano (Meta_UpdatedAt m));
   ("version", Version m); ("platform", Platform m); ("source", Source m); ("scope", Scope m);
   ("exit", int_text (Exit m)); ("fda", bool_text (FDA m)); ("public_ip", PublicIP m)].

Definition meta_line (kv : string * string) : string := text_row ["meta"; kv.1; kv.2].

Definition result_line (r : CheckResult) : string :=
  text_row ["result"; Res_Category r; Name r; Status r; Res_Severity r; Res_Summary r;
            Res_Remediation r; Guide r].

Definition scan_lines (s : ScanSnapshot) : list string :=
  text_row ["schema"; "1"] :: (meta_line <$> metadata_rows (Metadata s)) ++
  (result_line <$> Results s).

Definition print_scan (s : ScanSnapshot) : string := lines_text (scan_lines s).

(** *** One line *)

Definition dispatch (s : Parser) (kind : string) (fields : list string) : result Parser :=
  if String.eqb kind "schema" then Err (Errorf "duplicate schema row at line %d" [FInt (p_line s)])
  else if String.eqb kind "meta" then parse_meta s fields
  else if String.eqb kind "result" then parse_result_row s fields
  else if String.eqb kind "detail" then
    Ok {| p_metadata := p_metadata s; p_keys := p_keys s; p_results := p_results s;
          p_schemaSeen := p_schemaSeen s; p_resultSection := true; p_line := p_line s |}
  else Err (Errorf "unknown scan row type at line %d" [FInt (p_line s)]).

Lemma parse_line_row s kind fields :
  p_schemaSeen s = true → kind ≠ "" → Forall clean (kind :: fields) →
  parse_line s (text_row (kind :: fields)) = dispatch (at_line s (p_line s + 1)) kind (kind :: fields).
Proof.
  intros Hs Hk Hc. unfold parse_line. cbn zeta.
  rewrite (proj2 (String.eqb_neq (text_row _) "")).
  2:{ destruct kind as [|c kind]; [done|]. by destruct fields. }
  rewrite text_row_chars by done. cbn [negb fail_if mbind result_bind].
  rewrite text_row_fields; [|done|exact Hc]. unfold dispatch. cbn [at_line p_schemaSeen]. by rewrite Hs.
Qed.

Definition with_meta (s : Parser) (m : gmap string string) : Parser := {|
  p_metadata := m; p_keys := p_keys s; p_results := p_results s; p_schemaSeen := p_schemaSeen s;
  p_resultSection := p_resultSection s; p_line := p_line s |}.

Lemma parse_meta_line s kv :
  p_schemaSeen s = true → p_resultSection s = false → knownMetadataKey kv.1 = true →
  p_metadata s !! kv.1 = None → clean kv.1 → clean kv.2 →
  parse_line s (meta_line kv) =
    Ok (with_meta (at_line s (p_line s + 1)) (<[kv.1 := kv.2]> (p_metadata s))).
Proof.
  destruct kv as [k v]. cbn [fst snd]. intros Hs Hr Hk Hn Hck Hcv. unfold meta_line. cbn [fst snd].
  rewrite parse_line_row; [|done|done|by repeat constructor].
  unfold dispatch. cbn [String.eqb Ascii.eqb Bool.eqb].
  unfold parse_meta. cbn [at_line p_resultSection p_metadata]. rewrite Hr.
  cbn [fail_if mbind result_bind]. rewrite (proj2 (String.eqb_neq k "")) by (intros ->; discriminate Hk).
  rewrite Hk, Hn. cbn [negb fail_if mbind result_bind]. rewrite bool_decide_eq_false_2.
  - unfold with_meta. cbn [at_line p_resultSection fail_if mbind result_bind]. by rewrite Hr.
  - by intros [? ?].
Qed.

Definition with_result (s : Parser) (r : CheckResult) : Parser := {|
  p_metadata := p_metadata s; p_keys := {[result_key r]} ∪ p_keys s;
  p_results := p_results s ++ [r]; p_schemaSeen := p_schemaSeen s; p_resultSection := true;
  p_line := p_line s |}.

Lemma ident_clean v : validIdentifier v = true → clean v.
Proof.
  unfold validIdentifier. case_match; [done|]. apply all_runes_impl. intros r Hr.
  unfold ident_rune, is_alnum, is_lower_alpha, is_upper_alpha, is_digit, between in Hr.
  unfold is_control, between. rewrite !orb_true_iff, !andb_true_iff in Hr.
  rewrite negb_true_iff, orb_false_iff, !andb_false_iff. lia.
Qed.

Lemma token_clean v n : validToken v n = true → clean v.
Proof. unfold validToken. by case_match. Qed.

Lemma result_clean r : CheckResult_Validate r = Ok tt →
  Forall clean ["result"; Res_Category r; Name r; Status r; Res_Severity r; Res_Summary r;
                Res_Remediation r; Guide r].
Proof.
  unfold CheckResult_Validate. intros H. ok_inv. bool_prop.
  repeat match goal with Hx : _ && _ = false |- _ => apply negb_andb_eqb_empty in Hx end.
  assert (clean (Status r) ∧ clean (Res_Severity r)) as [Hst Hse].
  { unfold status_severity in H. repeat (case_in H; [|]); try done; ok_inv; bool_prop;
      repeat match goal with Hx : _ || _ = true |- _ => apply orb_true_iff in Hx as [Hx|Hx] end;
      repeat match goal with Hx : _ && _ = false |- _ => apply andb_false_iff in Hx as [Hx|Hx] end;
      bool_prop;
      repeat match goal with Hx : Status r = _ |- _ => rewrite Hx; clear Hx
             | Hx : Res_Severity r = _ |- _ => rewrite Hx; clear Hx end; done. }
  repeat constructor; try done; try (by apply ident_clean); try (by eapply token_clean).
  - match goal with E : Res_Remediation r = "" ∨ _ |- _ =>
      destruct E as [E|E]; [by rewrite E|by eapply token_clean] end.
  - match goal with E : Guide r = "" ∨ _ |- _ => destruct E as [E|E]; [by rewrite E|] end.
    unfold validGuide in *. case_match; [done|]. by eapply token_clean.
Qed.

Lemma parse_result_line s r :
  p_schemaSeen s = true → CheckResult_Validate r = Ok tt → result_key r ∉ p_keys s →
  Z.of_nat (length (p_results s)) < MaxScanResults →
  parse_line s (result_line r) = Ok (with_result (at_line s (p_line s + 1)) r).
Proof.
  intros Hs Hv Hk Hl. unfold result_line.
  rewrite parse_line_row; [|done|done|by apply result_clean].
  unfold dispatch. cbn [String.eqb Ascii.eqb Bool.eqb].
  unfold parse_result_row. cbn [at_line p_keys p_results p_line].
  destruct r as [ca na st se su re gu]. unfold parseResult.
  cbn [Res_Category Name Status Res_Severity Res_Summary Res_Remediation Guide]. cbv zeta.
  rewrite Hv. cbn [map_err mbind result_bind]. rewrite bool_decide_eq_false_2 by done.
  cbn [fail_if mbind result_bind]. rewrite length_app. cbn [length].
  rewrite (proj2 (Z.ltb_ge _ _)) by lia. done.
Qed.

(** *** All the lines *)

Lemma parse_lines_app s l1 l2 s1 :
  parse_lines s l1 = Ok s1 → parse_lines s (l1 ++ l2) = parse_lines s1 l2.
Proof.
  revert s. induction l1 as [|x l1 IH]; intros s; cbn [app parse_lines]; [by intros [= ->]|].
  intros H. apply bind_ok_inv in H as (s2 & -> & H). cbn [mbind result_bind]. by apply IH.
Qed.

Definition meta_ok (kv : string * string) : Prop :=
  knownMetadataKey kv.1 = true ∧ clean kv.1 ∧ clean kv.2.

Lemma parse_meta_lines kvs s :
  p_schemaSeen s = true → p_resultSection s = false → Forall meta_ok kvs →
  NoDup kvs.*1 → (∀ k, k ∈ kvs.*1 → p_metadata s !! k = None) →
  ∃ s', parse_lines s (meta_line <$> kvs) = Ok s' ∧ p_schemaSeen s' = true ∧
    p_resultSection s' = false ∧ p_keys s' = p_keys s ∧ p_results s' = p_results s ∧
    (∀ k v, (k, v) ∈ kvs → p_metadata s' !! k = Some v) ∧
    (∀ k, k ∉ kvs.*1 → p_metadata s' !! k = p_metadata s !! k).
Proof.
  intros Hs Hr Hok. revert s Hs Hr. induction Hok as [|[k v] kvs (Hk & Hck & Hcv) Hok IH];
    intros s Hs Hr Hd Hn.
  { exists s. split_and!; try done. intros k v H. by apply not_elem_of_nil in H. }
  cbn [fmap list_fmap fst] in Hd, Hn. apply NoDup_cons in Hd as [Hnk Hd].
  set (s1 := with_meta (at_line s (p_line s + 1)) (<[k:=v]> (p_metadata s))).
  destruct (IH s1) as (s' & H1 & H2 & H3 & H4 & H5 & H6 & H7); [done|done|done| |].
  { intros k' Hk'. cbn. rewrite lookup_insert_ne by (by intros ->). apply Hn. by right. }
  exists s'. split_and!; try done.
  - rewrite fmap_cons. cbn [parse_lines].
    rewrite parse_meta_line; try done. apply Hn. by left.
  - intros k' v' [[= -> ->]|Hin]%elem_of_cons; [|by apply H6].
    rewrite H7 by done. cbn. by rewrite lookup_insert_eq.
  - intros k' [Hne Hk']%not_elem_of_cons. rewrite H7 by done. cbn. by rewrite lookup_insert_ne.
Qed.

Lemma parse_result_lines rs s :
  p_schemaSeen s = true → Forall (λ r, CheckResult_Validate r = Ok tt) rs →
  NoDup (result_key <$> rs) → (∀ r, r ∈ rs → result_key r ∉ p_keys s) →
  Z.of_nat (length (p_results s) + length rs) ≤ MaxScanResults →
  ∃ s', parse_lines s (result_line <$> rs) = Ok s' ∧ p_schemaSeen s' = true ∧
    p_results s' = p_results s ++ rs ∧ p_metadata s' = p_metadata s.
Proof.
  intros Hs Hok. revert s Hs. induction Hok as [|r rs Hr Hok IH]; intros s Hs Hd Hk Hl.
  { exists s. by rewrite app_nil_r. }
  rewrite fmap_cons in Hd. apply NoDup_cons in Hd as [Hnk Hd]. cbn [length] in Hl.
  set (s1 := with_result (at_line s (p_line s + 1)) r).
  destruct (IH s1) as (s' & H1 & H2 & H3 & H4); [done|done| | |].
  { intros r' Hr'. cbn. apply not_elem_of_union. split; [|apply Hk; by right].
    intros E%elem_of_singleton. apply Hnk. rewrite <-E. by apply list_elem_of_fmap_2. }
  { cbn. rewrite length_app. cbn. lia. }
  exists s'. split_and!; try done.
  - rewrite fmap_cons. cbn [parse_lines].
    rewrite parse_result_line; try done; [apply Hk; by left|lia].
  - rewrite H3. cbn. by rewrite <-app_assoc.
Qed.

(** *** The metadata *)

(** The times are in UTC and in the years that RFC 3339 can write, and the
    address is a line of text. *)
Definition printable (m : ScanMetadata) : Prop :=
  utc (Timestamp m) = Timestamp m ∧ utc (Meta_UpdatedAt m) = Meta_UpdatedAt m ∧
  wf (Timestamp m) ∧ wf (Meta_UpdatedAt m) ∧ clean (PublicIP m).

Lemma rfc3339nano_nonempty t : rfc3339nano t ≠ "".
Proof.
  unfold rfc3339nano, date_text, year_text. intros E. apply (f_equal bytes) in E.
  rewrite !bytes_app in E. cbn in E. apply (f_equal length) in E.
  rewrite !length_app in E. cbn in E. lia.
Qed.

Lemma parse_exit_text values n :
  0 ≤ n ≤ 3 → value_of values "exit" = int_text n → parse_exit values = Ok n.
Proof.
  intros H E. unfold parse_exit. rewrite E.
  assert (n = 0 ∨ n = 1 ∨ n = 2 ∨ n = 3) as [->|[->|[->| ->]]] by lia; reflexivity.
Qed.

Lemma parse_fda_text values b : value_of values "fda" = bool_text b → parse_fda values = Ok b.
Proof. intros E. unfold parse_fda. rewrite E. by destruct b. Qed.

Lemma plain_clean s : plain s = true → clean s.
Proof.
  intros H. unfold clean, all_runes. rewrite is_ascii_runes by (by apply plain_ascii).
  induction s as [|c s IH]; [done|]. cbn [plain] in H. apply andb_true_iff in H as [Hc Hs].
  cbn [bytes forallb]. rewrite IH by done. clear -Hc.
  by destruct c as [[] [] [] [] [] [] [] []].
Qed.

Lemma metadata_rows_ok m : metadata_ok m → printable m → Forall meta_ok (metadata_rows m).
Proof.
  intros (_ & _ & _ & H4 & H5 & H6 & H7 & H8 & _) (_ & _ & W1 & W2 & Hip).
  cbn [wf time_codec] in W1, W2. apply representable_range in W1, W2.
  assert (clean (Scope m)) as Hsc.
  { unfold valid_scope in H7. apply one_of_elem in H7. rewrite !elem_of_cons in H7.
    by destruct H7 as [->|[->|[->|[]%not_elem_of_nil]]]. }
  assert (clean (int_text (Exit m))) as Hex.
  { assert (Exit m = 0 ∨ Exit m = 1 ∨ Exit m = 2 ∨ Exit m = 3) as [->|[->|[->| ->]]] by lia;
      reflexivity. }
  unfold metadata_rows. repeat first [apply Forall_nil_2 | apply Forall_cons_2];
    (split; [reflexivity|split; [reflexivity|]]); cbn [snd]; try done.
  - by apply plain_clean, plain_rfc3339nano.
  - by apply plain_clean, plain_rfc3339nano.
  - by eapply token_clean.
  - by apply ident_clean.
  - by apply ident_clean.
  - by destruct (FDA m).
Qed.

Lemma metadata_values m values :
  metadata_ok m → printable m → (∀ k v, (k, v) ∈ metadata_rows m → values !! k = Some v) →
  parseMetadata values = Ok m.
Proof.
  intros (H1 & H2 & H3 & H4 & H5 & H6 & H7 & H8 & H9) (U1 & U2 & W1 & W2 & _) Hv.
  cbn [wf time_codec] in W1, W2.
  assert (∀ k v, (k, v) ∈ metadata_rows m → value_of values k = v) as Hget.
  { intros k v Hin. unfold value_of. by rewrite (Hv k v Hin). }
  unfold metadata_rows in Hget, Hv.
  assert (missing_key values = None) as Hmiss.
  { unfold missing_key. cbn [List.find].
    repeat (rewrite bool_decide_eq_false_2; [|by erewrite Hv by elem_here]). done. }
  unfold parseMetadata. rewrite Hmiss.
  rewrite (Hget "timestamp" _ ltac:(elem_here)), (Hget "version" _ ltac:(elem_here)),
    (Hget "platform" _ ltac:(elem_here)), (Hget "source" _ ltac:(elem_here)),
    (Hget "public_ip" _ ltac:(elem_here)).
  unfold parse_time at 1. rewrite parse_rfc3339nano by done. cbn [mbind result_bind].
  unfold parse_updated. rewrite (Hv "updated_at" _ ltac:(elem_here)).
  rewrite (proj2 (String.eqb_neq (rfc3339nano _) "")) by apply rfc3339nano_nonempty.
  cbn [fail_if mbind result_bind]. unfold parse_time. rewrite parse_rfc3339nano by done.
  cbn [mbind result_bind]. cbv zeta. rewrite U1, U2.
  unfold before. rewrite (proj2 (Z.ltb_ge _ _)) by done. rewrite H4, H5, H6.
  cbn [negb fail_if mbind result_bind].
  unfold parse_scope. rewrite (Hv "scope" _ ltac:(elem_here)).
  rewrite (proj2 (String.eqb_neq (Scope m) "")) by (intros E; by rewrite E in H7).
  cbn [fail_if mbind result_bind]. rewrite H7. cbn [negb fail_if mbind result_bind].
  rewrite (parse_exit_text _ _ H8 (Hget "exit" _ ltac:(elem_here))).
  rewrite (parse_fda_text _ _ (Hget "fda" _ ltac:(elem_here))). cbn [mbind result_bind].
  rewrite (proj2 (negb_andb_eqb_empty _ _) H9). cbn [fail_if mbind result_bind].
  by destruct m.
Qed.

Lemma scan_lines_clean s :
  metadata_ok (Metadata s) → printable (Metadata s) →
  Forall (λ r, CheckResult_Validate r = Ok tt) (Results s) →
  Forall (λ l, free_of newline l ∧ free_of carriage_return l) (scan_lines s).
Proof.
  intros Hm Hu Hrs.
  assert (∀ fields, Forall clean fields →
    free_of newline (text_row fields) ∧ free_of carriage_return (text_row fields)) as Hf
    by (intros; split; by apply text_row_free).
  apply Forall_cons. split; [by apply Hf; repeat constructor|]. apply Forall_app. split.
  - apply Forall_fmap. eapply Forall_impl; [by apply metadata_rows_ok|].
    intros [k v] (_ & Hk & Hv). apply Hf. by repeat constructor.
  - apply Forall_fmap. eapply Forall_impl; [exact Hrs|]. intros r Hr. by apply Hf, result_clean.
Qed.

Lemma parse_lines_step s s' l ls :
  parse_line s l = Ok s' → parse_lines s (l :: ls) = parse_lines s' ls.
Proof. cbn [parse_lines]. by intros ->. Qed.

Lemma metadata_keys_nodup m : NoDup (metadata_rows m).*1.
Proof.
  assert ((metadata_rows m).*1 = ["timestamp"; "updated_at"; "version"; "platform"; "source";
    "scope"; "exit"; "fda"; "public_ip"]) as -> by reflexivity.
  apply (bool_decide_unpack _). vm_compute. reflexivity.
Qed.

Lemma parse_schema_line :
  parse_line new_parser (text_row ["schema"; "1"]) =
  Ok {| p_metadata := ∅; p_keys := ∅; p_results := []; p_schemaSeen := true;
        p_resultSection := false; p_line := 1 |}.
Proof. vm_compute. reflexivity. Qed.

Lemma parse_scan_lines s :
  metadata_ok (Metadata s) → printable (Metadata s) →
  Forall (λ r, CheckResult_Validate r = Ok tt) (Results s) → NoDup (result_key <$> Results s) →
  Z.of_nat (length (Results s)) ≤ MaxScanResults →
  ∃ p, parse_lines new_parser (scan_lines s) = Ok p ∧ p_schemaSeen p = true ∧
    p_results p = Results s ∧
    ∀ k v, (k, v) ∈ metadata_rows (Metadata s) → p_metadata p !! k = Some v.
Proof.
  intros Hm Hu Hrs Hd Hl. unfold scan_lines. rewrite (parse_lines_step _ _ _ _ parse_schema_line).
  destruct (parse_meta_lines (metadata_rows (Metadata s)) {| p_metadata := ∅; p_keys := ∅;
    p_results := []; p_schemaSeen := true; p_resultSection := false; p_line := 1 |})
    as (s1 & H1 & H2 & H3 & H4 & H5 & H6 & _); try done.
  { by apply metadata_rows_ok. }
  { apply metadata_keys_nodup. }
  rewrite (parse_lines_app _ _ _ _ H1).
  destruct (parse_result_lines (Results s) s1) as (s2 & -> & ? & Hr2 & Hm2); try done.
  { intros r _. by rewrite H4. }
  { by rewrite H5. }
  exists s2. split_and!; [done|done|by rewrite Hr2, H5|]. intros k v Hin. rewrite Hm2. by apply H6.
Qed.

(** C36. Every accepted snapshot with printable metadata, that is with times in
    UTC of years RFC 3339 can write and an address without control characters,
    written as a scan file whose lines and whole fit the limits, is parsed
    back: [ParseScan] returns exactly the snapshot, its results in the order
    written. *)
Theorem ParseScan_print s :
  ScanSnapshot_Validate s = Ok tt → printable (Metadata s) →
  Forall (λ line, slen line < MaxScanLineBytes) (scan_lines s) →
  slen (print_scan s) ≤ MaxScanInputBytes →
  ParseScan (Some (Ok (print_scan s))) = Ok s.
Proof.
  intros HV Hu Hl Ht. pose proof (proj1 (snapshot_valid s) HV) as (Hv & Hm & Hn & Hrs & Hd & _).
  unfold ParseScan. cbn [map_err mbind result_bind]. rewrite (proj2 (Z.ltb_ge _ _)) by done. cbn [fail_if mbind result_bind].
  pose proof (scan_lines_clean s Hm Hu Hrs) as Hc.
  unfold print_scan. rewrite raw_lines_text; [|by eapply Forall_impl; [exact Hc|]; intros l [? ?]].
  rewrite scanner_lines_ok.
  2:{ rewrite Forall_forall in *. intros l Hin. split; [by apply Hl|by apply Hc]. }
  destruct (parse_scan_lines s) as (p & -> & Hseen & Hres & Hval); [done..|lia|].
  cbn [mbind result_bind fail_if]. rewrite Hseen, Hres. cbn [negb fail_if mbind result_bind].
  rewrite bool_decide_eq_false_2; [|by intros E; rewrite E in Hn; cbn in Hn; lia].
  cbn [fail_if mbind result_bind]. rewrite (metadata_values (Metadata s)) by done.
  cbn [mbind result_bind].
  replace {| Snap_SchemaVersion := ScanSchemaVersion; Metadata := Metadata s; Results := Results s |}
    with s by (destruct s; cbn in Hv; by rewrite Hv).
  by rewrite HV.
Qed.
