(* ===== verification/Ingest.v ===== *)
(** * Package bridge: ingesting a scan into the journal, and queries

    [internal/bridge/ingest.go], [internal/bridge/query.go].  The store is the
    interface [IngestStore] of the source; [StoreLaws] is what the theorems
    ask of it, and the journal of [internal/journal] is an instance of both. *)

From S2P Require Import Prelude GoString Calendar GoTime Json JsonCompact Model ModelJson Journal.
From S2P Require Import JournalLog JournalFindings GoLib GoCrypto Scan.
#[local] Open Scope Z_scope.

Definition IngestSchema := "io.oh-my-safety/scan-ingest".
Definition IngestSchemaVersion : Z := 1.
Definition CheckResultSchema := "io.oh-my-safety/check-result".
Definition ScanCompletedSchema := "io.oh-my-safety/scan-completed".
Definition PayloadSchemaVersion : Z := 1.

(** ** The interface: journal.Journal and journal.FindingReader *)

Class IngestStore (S : Type) := {
  store_Append : S → Event → S * result JRecord;
  store_Read : S → Z → Z → result (list JRecord);
  store_CurrentFinding : S → string → result Finding;
  store_ListFindings : S → list FindingState → result (list Finding);
}.

#[export] Instance journal_store : IngestStore Store := {
  store_Append := Append;
  store_Read := Read;
  store_CurrentFinding := CurrentFinding;
  store_ListFindings := ListFindings;
}.

Record IngestEnvelope := {
  Env_Schema : string;
  Env_SchemaVersion : Z;
  SnapshotID : string;
  Env_CorrelationID : string;
  Env_Results : Z;
  AlreadyIngested : bool;
}.

Record ScanCounts := {
  Count_OK : Z; Count_Warn : Z; Count_Critical : Z; Count_Skipped : Z; Count_Error : Z }.

(** ** Payloads *)

(** [CheckResultPayload] *)
Definition CheckResultPayload_parts (result : CheckResult) (scope : ScanScope) : list part :=
  [("schema", f_str CheckResultSchema); ("schema_version", f_int PayloadSchemaVersion);
   ("category", f_str (Res_Category result)); ("name", f_str (Name result));
   ("status", f_str (Status result)); ("severity", f_str (Res_Severity result));
   ("summary", f_str (Res_Summary result)); ("remediation", f_str_omit (Res_Remediation result));
   ("guide", f_str_omit (Guide result)); ("scope", f_str scope)].

Definition ScanCounts_parts (c : ScanCounts) : list part :=
  [("ok", f_int (Count_OK c)); ("warn", f_int (Count_Warn c)); ("critical", f_int (Count_Critical c));
   ("skipped", f_int (Count_Skipped c)); ("error", f_int (Count_Error c))].

(** [ScanCompletedPayload] *)
Definition ScanCompletedPayload_parts (metadata : ScanMetadata) (counts : ScanCounts) : list part :=
  [("schema", f_str ScanCompletedSchema); ("schema_version", f_int PayloadSchemaVersion);
   ("metadata", f_req metadata);
   ("counts", Some <$> enc_struct (ScanCounts_parts counts))].

Definition count_one (c : ScanCounts) (status : CheckStatus) : ScanCounts :=
  let add s := if String.eqb status s then 1 else 0 in
  {| Count_OK := Count_OK c + add CheckStatusOK; Count_Warn := Count_Warn c + add CheckStatusWarn;
     Count_Critical := Count_Critical c + add CheckStatusCritical;
     Count_Skipped := Count_Skipped c + add CheckStatusSkip;
     Count_Error := Count_Error c + add CheckStatusError |}.

Definition scanCounts (results : list CheckResult) : ScanCounts :=
  foldl (λ c r, count_one c (Status r))
    {| Count_OK := 0; Count_Warn := 0; Count_Critical := 0; Count_Skipped := 0; Count_Error := 0 |}
    results.

(** ** Events *)

Definition checkFindingID (result : CheckResult) : string :=
  "check:" +:+ Res_Category result +:+ "/" +:+ Name result.

Definition check_subject (result : CheckResult) : Subject := {|
  Subject_Type := "check"; Subject_ID := Res_Category result +:+ "/" +:+ Name result;
  Subject_Name := Name result |}.

(** What [deterministicEventID] hashes. *)
Definition event_preimage (digest : string) (parts : list string) : string :=
  "oh-my-safety:bridge:v1" +:+ String nul (digest +:+ foldr (λ p s, String nul (p +:+ s)) "" parts).

Section ingest.
Context `{Hash}.

Definition deterministicEventID (digest : string) (parts : list string) : string :=
  "bridge:v1:" +:+ hex_encode (Sum256 (event_preimage digest parts)).

(** [bridgeEvent]; [payload] is the outcome of [json.Marshal]. *)
Definition bridgeEvent (snapshot : ScanSnapshot) (id eventType correlationID findingID : string)
    (subject : Subject) (labels : Labels) (payload : option string) : result Event :=
  match payload with
  | None => Err (ErrorsNew "encode bridge event payload")
  | Some encoded =>
      let timestamp := utc (Meta_UpdatedAt (Metadata snapshot)) in
      let event := {|
        Event_Schema := EventSchema; Event_SchemaVersion := EventSchemaVersion; Event_ID := id;
        Event_Type := eventType; OccurredAt := timestamp; RecordedAt := timestamp;
        Event_Source := Source (Metadata snapshot); Event_Platform := Platform (Metadata snapshot);
        Event_Subject := Some subject; FindingID := findingID; CorrelationID := correlationID;
        Event_Labels := labels; Payload := encoded |} in
      _ ← map_err (λ e, Wrapf "validate bridge event: %w" e []) (Event_Validate json_valid event);
      Ok event
  end.

Definition checkResultEvent (snapshot : ScanSnapshot) (result : CheckResult)
    (digest correlationID : string) : Prelude.result Event :=
  bridgeEvent snapshot
    (deterministicEventID digest ["check.result"; Res_Category result; Name result])
    "check.result" correlationID "" (check_subject result)
    (list_to_map [("category", Res_Category result); ("scope", Scope (Metadata snapshot));
                  ("status", Status result)])
    (enc_struct (CheckResultPayload_parts result (Scope (Metadata snapshot)))).

Definition scan_observation (snapshot : ScanSnapshot) (result : CheckResult)
    : FindingObservation := {|
  Obs_DetectorID := Name result; Obs_Category := Res_Category result;
  Obs_Title := Name result +:+ " check reported " +:+ Status result;
  Obs_Summary := Res_Summary result; Obs_Severity := Res_Severity result; Obs_Evidence := [];
  Obs_Remediation :=
    if negb (String.eqb (Res_Remediation result) "") || negb (String.eqb (Guide result) "") then
      Some {| Rem_Summary :=
                if String.eqb (Res_Remediation result) "" then "Review the check guide."
                else Res_Remediation result;
              Rem_Guide := Guide result; Rem_Reversible := false |}
    else None;
  Obs_Labels := list_to_map [("scope", Scope (Metadata snapshot));
                             ("source", Source (Metadata snapshot)); ("status", Status result)] |}.

Definition finding_labels (snapshot : ScanSnapshot) (result : CheckResult) : Labels :=
  list_to_map [("category", Res_Category result); ("scope", Scope (Metadata snapshot))].

Definition findingObservedEvent (snapshot : ScanSnapshot) (result : CheckResult)
    (digest correlationID : string) : Prelude.result Event :=
  bridgeEvent snapshot
    (deterministicEventID digest [EventFindingObserved; Res_Category result; Name result])
    EventFindingObserved correlationID (checkFindingID result) (check_subject result)
    (finding_labels snapshot result) (Marshal (scan_observation snapshot result)).

Definition resolved_transition : FindingTransition :=
  {| Tr_Actor := "bridge:last-scan-v1"; Tr_Note := "check returned ok"; Tr_Until := None |}.

Definition findingResolvedEvent (snapshot : ScanSnapshot) (result : CheckResult)
    (digest correlationID : string) : Prelude.result Event :=
  bridgeEvent snapshot
    (deterministicEventID digest [EventFindingResolved; Res_Category result; Name result])
    EventFindingResolved correlationID (checkFindingID result) (check_subject result)
    (finding_labels snapshot result) (Marshal resolved_transition).

Definition scanCompletedEvent (snapshot : ScanSnapshot) (digest correlationID : string)
    : result Event :=
  bridgeEvent snapshot (deterministicEventID digest ["scan.completed"]) "scan.completed"
    correlationID ""
    {| Subject_Type := "host"; Subject_ID := "local"; Subject_Name := Platform (Metadata snapshot) |}
    (list_to_map [("scope", Scope (Metadata snapshot))])
    (enc_struct (ScanCompletedPayload_parts (Metadata snapshot) (scanCounts (Results snapshot)))).
End ingest.

(** ** Ingesting *)

(** The search ran out of fuel: no value of the program; the theorems show
    that fuel beyond the number of events suffices. *)
Definition OutOfFuel : error := Sentinel "model: out of fuel".

Section store.
Context {S : Type} `{IngestStore S} `{Hash}.

(** One page: the record with the id, or the next position. *)
Fixpoint scan_page (id : string) (after : Z) (records : list JRecord) : JRecord + Z :=
  match records with
  | [] => inr after
  | record :: records' =>
      if String.eqb (Event_ID (REvent record)) id then inl record
      else scan_page id (Sequence record) records'
  end.

Fixpoint event_search (fuel : nat) (store : S) (id : string) (after : Z)
    : result (option JRecord) :=
  match fuel with
  | O => Err OutOfFuel
  | Datatypes.S fuel' =>
      records ← map_err (λ e, Wrapf "search journal: %w" e []) (store_Read store after 1000);
      match records with
      | [] => Ok None
      | _ =>
          match scan_page id after records with
          | inl record => Ok (Some record)
          | inr after' => event_search fuel' store id after'
          end
      end
  end.

Definition eventByID (fuel : nat) (store : S) (id : string) : result (option JRecord) :=
  event_search fuel store id 0.

Definition append (w : string) (event : Event) : eff S unit :=
  _ ← wrap_err (λ e, Wrapf w e []) (λ s, store_Append s event); mret tt.

(** One turn of the loop over the sorted results. *)
Definition ingest_result (snapshot : ScanSnapshot) (digest correlationID : string)
    (result : CheckResult) : eff S unit :=
  checkEvent ← pure_ (checkResultEvent snapshot result digest correlationID);
  _ ← append "append check result: %w" checkEvent;
  if one_of (Status result) [CheckStatusWarn; CheckStatusCritical; CheckStatusError] then
    findingEvent ← pure_ (findingObservedEvent snapshot result digest correlationID);
    append "append observed finding: %w" findingEvent
  else if String.eqb (Status result) CheckStatusOK then
    λ s,
      match store_CurrentFinding s (checkFindingID result) with
      | Err e =>
          if errors_is e "finding not found" then (s, Ok tt)
          else (s, Err (Wrapf "read finding before resolution: %w" e []))
      | Ok current =>
          if String.eqb (State current) FindingResolved then (s, Ok tt)
          else (resolvedEvent ← pure_ (findingResolvedEvent snapshot result digest correlationID);
                append "append resolved finding: %w" resolvedEvent) s
      end
  else mret tt.

Fixpoint ingest_results (snapshot : ScanSnapshot) (digest correlationID : string)
    (results : list CheckResult) : eff S unit :=
  match results with
  | [] => mret tt
  | result :: results' =>
      _ ← ingest_result snapshot digest correlationID result;
      ingest_results snapshot digest correlationID results'
  end.

Definition ingest_envelope (snapshot : ScanSnapshot) (digest : string) (already : bool)
    : IngestEnvelope := {|
  Env_Schema := IngestSchema; Env_SchemaVersion := IngestSchemaVersion;
  SnapshotID := "sha256:" +:+ digest; Env_CorrelationID := "scan:" +:+ digest;
  Env_Results := Z.of_nat (length (Results snapshot)); AlreadyIngested := already |}.

(** [IngestScan] on a store that is not nil; [fuel] bounds the search of the
    journal for the completed event. *)
Definition IngestScan (fuel : nat) (snapshot : ScanSnapshot) : eff S IngestEnvelope :=
  _ ← pure_ (ScanSnapshot_Validate snapshot);
  digest ← pure_ (SnapshotDigest snapshot);
  let correlationID := "scan:" +:+ digest in
  completed ← pure_ (scanCompletedEvent snapshot digest correlationID);
  existing ← query (λ s, eventByID fuel s (Event_ID completed));
  match existing with
  | Some record =>
      match Marshal (REvent record), Marshal completed with
      | Some stored, Some expected =>
          if String.eqb stored expected then mret (ingest_envelope snapshot digest true)
          else pure_ (Err (Wrapf "%w: %s" ErrEventIDConflict [FStr (Event_ID completed)]))
      | _, _ => pure_ (Err (Wrapf "%w: %s" ErrEventIDConflict [FStr (Event_ID completed)]))
      end
  | None =>
      _ ← ingest_results snapshot digest correlationID (sortResults (Results snapshot));
      _ ← append "append completed scan: %w" completed;
      mret (ingest_envelope snapshot digest false)
  end.

(** ** Queries *)

Definition HistorySchema := "io.oh-my-safety/history".
Definition HistorySchemaVersion : Z := 1.
Definition FindingsSchema := "io.oh-my-safety/findings".
Definition FindingsSchemaVersion : Z := 1.
Definition DefaultQueryLimit : Z := 100.
Definition MaxQueryLimit : Z := 1000.

Definition ValidateQueryLimit (limit : Z) : result unit :=
  fail_if ((limit <? 1) || (MaxQueryLimit <? limit))
    (Errorf "limit must be between 1 and %d" [FInt MaxQueryLimit]).

Record HistoryEnvelope := {
  His_Schema : string; His_SchemaVersion : Z; His_Limit : Z; His_Count : Z;
  His_Events : list JRecord }.

Record FindingsEnvelope := {
  Fnd_Schema : string; Fnd_SchemaVersion : Z; Fnd_Limit : Z; Fnd_Count : Z;
  Fnd_Findings : list Finding }.

(** [History] with a reader that is not nil. *)
Definition History (store : S) (limit : Z) : result HistoryEnvelope :=
  _ ← ValidateQueryLimit limit;
  records ← map_err (λ e, Wrapf "read history: %w" e []) (store_Read store 0 limit);
  Ok {| His_Schema := HistorySchema; His_SchemaVersion := HistorySchemaVersion;
        His_Limit := limit; His_Count := Z.of_nat (length records); His_Events := records |}.

Definition Findings (store : S) (limit : Z) : result FindingsEnvelope :=
  _ ← ValidateQueryLimit limit;
  findings ← map_err (λ e, Wrapf "read findings: %w" e []) (store_ListFindings store []);
  let findings := SortFindings findings in
  let findings :=
    if limit <? Z.of_nat (length findings) then take (Z.to_nat limit) findings else findings in
  Ok {| Fnd_Schema := FindingsSchema; Fnd_SchemaVersion := FindingsSchemaVersion;
        Fnd_Limit := limit; Fnd_Count := Z.of_nat (length findings); Fnd_Findings := findings |}.
End store.

(** ** What the journal promises to the bridge

    [StoreLaws] states, for any store behind the interface [IngestStore], what
    the theorems about ingestion rely on: a log with increasing positive
    sequences and unique event ids, paged reads, appends that are recorded once
    and refused without effect, and a projection that moves one finding along
    the lifecycle.  The journal of [internal/journal] is an instance. *)

Definition record_id (r : JRecord) : string := Event_ID (REvent r).

Class StoreLaws (S : Type) `{IngestStore S} := {
  store_log : S → list JRecord;
  store_ok : S → Prop;
  law_sequences s : store_ok s →
    StronglySorted (λ a b, Sequence a < Sequence b) (store_log s) ∧
    Forall (λ r, 0 < Sequence r) (store_log s);
  law_ids s : store_ok s → NoDup (record_id <$> store_log s);
  law_read s after limit : store_ok s → 0 ≤ after → 1 ≤ limit ≤ 1000 →
    store_Read s after limit =
      Ok (take (Z.to_nat limit) (filter (λ r, (after <? Sequence r) = true) (store_log s)));
  law_refused s e s' err : store_Append s e = (s', Err err) → s' = s;
  law_accepted s e s' r : store_ok s → event_ok e → store_Append s e = (s', Ok r) →
    store_ok s' ∧ REvent r = e ∧
    ((r ∈ store_log s ∧ s' = s) ∨
     ((Event_ID e ∉ record_id <$> store_log s) ∧ store_log s' = store_log s ++ [r]));
  law_other s e s' r id : store_ok s → event_ok e → store_Append s e = (s', Ok r) →
    IsFindingLifecycle e = false ∨ id ≠ FindingID e →
    store_CurrentFinding s' id = store_CurrentFinding s id;
  law_moved s e s' r : store_ok s → event_ok e → store_Append s e = (s', Ok r) →
    IsFindingLifecycle e = true → Event_ID e ∉ (record_id <$> store_log s) →
    ∃ f, store_CurrentFinding s' (FindingID e) = Ok f ∧
      lifecycle_step
        (match store_CurrentFinding s (FindingID e) with Ok g => Some (State g) | Err _ => None end)
        (Event_Type e) (State f);
  law_list s : store_ok s → ∃ fs, store_ListFindings s [] = Ok fs ∧ NoDup (Finding_ID <$> fs) ∧
    (∀ f, f ∈ fs → Severity_Valid (Finding_Severity f) = true) ∧
    ∀ f, f ∈ fs ↔ store_CurrentFinding s (Finding_ID f) = Ok f;
}.

(** ** The journal *)

Definition row_record (row : EventRow) : option JRecord :=
  mkRecord (ev_sequence row) <$> Unmarshal (ev_envelope row).

Definition journal_log (s : Store) : list JRecord := omap row_record (events s).

Definition journal_ok (s : Store) : Prop :=
  log_ok s ∧ table_ok (current_findings s) ∧ rows_of (events s) (journal_log s).

Lemma rows_of_log rows recs : rows_of rows recs → omap row_record rows = recs.
Proof.
  induction 1 as [|row [q e] rows recs [Hu Hr] _ IH]; [done|]. cbn [omap list_omap].
  unfold row_record at 1. rewrite Hu. cbn. rewrite Hr at 1. cbn. f_equal. exact IH.
Qed.

Lemma rows_of_ids rows recs : rows_of rows recs → ev_event_id <$> rows = record_id <$> recs.
Proof. induction 1 as [|row rec rows recs [_ ->] _ IH]; cbn; [done|]. by f_equal. Qed.

Lemma journal_ok_empty : journal_ok empty_store.
Proof. split_and!; [apply log_ok_empty|apply map_Forall_empty|constructor]. Qed.

Lemma journal_row s row e :
  journal_ok s → row_by_id s (Event_ID e) = Some row → wf e → Marshal e = Some (ev_envelope row) →
  mkRecord (ev_sequence row) e ∈ journal_log s.
Proof.
  intros (_ & _ & Hr) Hrow He Hm. unfold row_by_id in Hrow.
  apply fmap_Some in Hrow as ([i row'] & Hf & ->). cbn [snd] in *.
  apply list_find_Some in Hf as (Hf & _). apply list_elem_of_lookup_2 in Hf.
  apply list_elem_of_omap. exists row'. split; [done|]. unfold row_record.
  destruct (Marshal_Unmarshal e He) as (t & Ht & Hu).
  assert (t = ev_envelope row') as -> by congruence. by rewrite Hu.
Qed.

Lemma insert_log s e env fs :
  wf e → Marshal e = Some env → rows_of (events s) (journal_log s) →
  let s' := with_findings (insert_event s e env) fs in
  journal_log s' = journal_log s ++ [mkRecord (autoincrement s + 1) e] ∧
  rows_of (events s') (journal_log s').
Proof.
  intros He Hm Hr s'. destruct (Marshal_Unmarshal e He) as (t & Ht & Hu).
  assert (t = env) as -> by congruence.
  assert (rows_of (events s') (journal_log s ++ [mkRecord (autoincrement s + 1) e])) as Hrs.
  { apply Forall2_app; [done|]. by repeat constructor. }
  assert (journal_log s' = journal_log s ++ [mkRecord (autoincrement s + 1) e]) as HE
    by (by apply rows_of_log).
  by rewrite HE.
Qed.

Lemma journal_accepted s e s' r :
  journal_ok s → event_ok e → Append s e = (s', Ok r) →
  journal_ok s' ∧ REvent r = e ∧
  ((r ∈ journal_log s ∧ s' = s) ∨
   ((Event_ID e ∉ record_id <$> journal_log s) ∧ journal_log s' = journal_log s ++ [r])).
Proof.
  intros Hs He HA. pose proof Hs as (Hlog & Htab & Hrows). pose proof (proj1 He) as Hw.
  assert (log_ok s' ∧ table_ok (current_findings s')) as [H1 H2].
  { replace s' with (Append s e).1 by (by rewrite HA).
    split; [by apply Append_log_ok|by apply Append_table]. }
  apply Append_ok, append_tx_appended in HA as (_ & _ & HA). unfold journal_ok.
  destruct HA as [row Hr Hm|env Hr Hm Ha Hl|env fs f Hr Hm Ha Hl Hb Hp].
  - split_and!; [done..|]. left. split; [by apply journal_row|done].
  - pose proof (insert_log s e env (current_findings s) Hw Hm Hrows) as [E1 E2].
    split_and!; [done..|]. right. split; [|exact E1].
    rewrite <-(rows_of_ids _ _ Hrows). by apply row_by_id_None.
  - pose proof (insert_log s e env fs Hw Hm Hrows) as [E1 E2].
    split_and!; [done..|]. right. split; [|exact E1].
    rewrite <-(rows_of_ids _ _ Hrows). by apply row_by_id_None.
Qed.

Lemma row_by_id_fresh s id :
  rows_of (events s) (journal_log s) → id ∉ (record_id <$> journal_log s) → row_by_id s id = None.
Proof.
  intros Hr Hid. rewrite <-(rows_of_ids _ _ Hr) in Hid. unfold row_by_id.
  destruct (list_find _ (events s)) as [[i row]|] eqn:E; [|done].
  apply list_find_Some in E as (E & <- & _). apply list_elem_of_lookup_2 in E.
  destruct Hid. by apply list_elem_of_fmap_2.
Qed.

Lemma journal_sorted rows recs :
  rows_of rows recs → StronglySorted (λ a b, ev_sequence a < ev_sequence b) rows →
  StronglySorted (λ a b, Sequence a < Sequence b) recs.
Proof.
  intros Hr. apply rows_of_sequence in Hr. intros Hs. revert recs Hr.
  induction Hs as [|row rows Hrows IH Hrow]; intros [|rec recs] [=]; constructor; [by apply IH|].
  rewrite <-H. apply (Forall_fmap Sequence (λ q, ev_sequence row < q)).
  assert (Sequence <$> recs = ev_sequence <$> rows) as -> by done. by apply Forall_fmap.
Qed.

#[export, refine] Instance journal_laws : StoreLaws Store := {
  store_log := journal_log;
  store_ok := journal_ok;
}.
Proof.
  - intros s ([H1 H2 _ _] & _ & Hr). split; [by eapply journal_sorted|].
    apply (Forall_fmap Sequence (λ q, 0 < q)). rewrite <-(rows_of_sequence _ _ Hr).
    apply Forall_fmap. eapply Forall_impl; [exact H2|]. cbn. lia.
  - intros s (Hl & _ & Hr). rewrite <-(rows_of_ids _ _ Hr). apply Hl.
  - intros s after limit (Hl & _ & Hr) Ha Hlim. cbn. unfold Read.
    rewrite (proj2 (Z.ltb_ge _ _)), sort_rows by done.
    assert (read_limit limit = limit) as ->.
    { unfold read_limit. repeat case_match; bool_prop; lia. }
    apply rows_of_scan, Forall2_take. by apply filter_rows_after.
  - apply Append_err.
  - apply journal_accepted.
  - intros s e s' r id (Hl & Ht & Hr) He HA Hor. cbn [store_Append store_CurrentFinding journal_store] in *.
    destruct (IsFindingLifecycle e) eqn:Hlc, (row_by_id s (Event_ID e)) as [row|] eqn:Er.
    + apply Append_ok, append_tx_appended in HA as (_ & _ & HA). by destruct HA; [|congruence..].
    + destruct Hor as [|Hne]; [congruence|].
      destruct (Append_finding s e s' r) as (f & _ & _ & _ & _ & _ & Hf); [done..|]. by apply Hf.
    + apply Append_ok, append_tx_appended in HA as (_ & _ & HA). by destruct HA; [|congruence..].
    + apply Append_ok, append_tx_appended in HA as (_ & _ & HA). destruct HA; [done|done|congruence].
  - intros s e s' r (Hl & Ht & Hr) He HA Hlc Hid. cbn [store_Append store_CurrentFinding journal_store] in *.
    destruct (Append_finding s e s' r) as (f & Htr & _ & _ & Hre & Hf & _);
      [done..|by apply row_by_id_fresh|done|].
    exists f. split; [done|]. apply transition_step in Htr. rewrite Hre in Htr.
    unfold finding_at in Htr. by destruct (CurrentFinding s (FindingID e)).
  - intros s (_ & Ht & _). destruct (list_findings s [] Ht) as (fs & H1 & H2 & H3).
    assert (∀ f, f ∈ fs ↔ CurrentFinding s (Finding_ID f) = Ok f) as H4.
    { intros f. rewrite H3. tauto. }
    exists fs. split_and!; [done|done| |exact H4].
    intros f Hf%H4. unfold CurrentFinding in Hf.
    destruct (current_findings s !! Finding_ID f) as [row|] eqn:Er; [|done].
    destruct (Ht _ _ Er) as (g & Hw & Hm & _ & _ & HV). rewrite (row_decode row g Hw Hm) in Hf.
    injection Hf as ->. by apply Finding_Validate_ok in HV as (_ & _ & _ & _ & _ & ? & _).
Defined.
