(* ===== verification/BridgeEvents.v ===== *)
(** * The events of an ingestion

    Every event that the bridge builds from an accepted, encodable snapshot can
    be built, is marshallable, and carries the id, type and finding it should;
    the ids of different events are hashes of different texts. *)

From S2P Require Import Prelude GoString Calendar GoTime Json JsonCompact Model ModelJson.
From S2P Require Import Journal JournalFindings GoCrypto GoLib Scan ScanFacts Ingest.
#[local] Open Scope Z_scope.

Lemma validIdentifier_ascii v : validIdentifier v = true → is_ascii v = true.
Proof.
  unfold validIdentifier. case_match; [done|]. apply all_runes_ascii, ident_rune_ascii.
Qed.

Lemma validIdentifier_nonempty v : validIdentifier v = true → v ≠ "".
Proof. by intros H ->. Qed.

Lemma result_fields r :
  CheckResult_Validate r = Ok tt →
  validIdentifier (Res_Category r) = true ∧ validIdentifier (Name r) = true ∧
  validToken (Res_Summary r) MaxScanLineBytes = true ∧ status_severity r = Ok tt.
Proof.
  unfold CheckResult_Validate. intros H. ok_inv. bool_prop. by split_and!.
Qed.

Definition statuses : list string :=
  [CheckStatusOK; CheckStatusWarn; CheckStatusCritical; CheckStatusSkip; CheckStatusError].

Lemma status_known r : status_severity r = Ok tt → Status r ∈ statuses.
Proof.
  unfold status_severity, statuses. rewrite !elem_of_cons.
  intros H. repeat (case_in H; bool_prop; [repeat match goal with Ho : _ || _ = true |- _ =>
    apply orb_true_iff in Ho as [Ho|Ho] end; bool_prop; tauto|]). done.
Qed.

Lemma known_ascii s : s ∈ statuses → is_ascii s = true.
Proof. unfold statuses. rewrite !elem_of_cons. by intros [->|[->|[->|[->|[->|[]%not_elem_of_nil]]]]]. Qed.

Lemma wf_list_to_map (l : list (string * string)) :
  Forall (λ kv, valid_utf8 kv.1 = true ∧ valid_utf8 kv.2 = true) l →
  wf_labels (list_to_map l) = true.
Proof.
  intros H. apply forallb_forall. intros [k v] Hin%list_elem_of_In.
  apply elem_of_map_to_list, elem_of_list_to_map_2 in Hin.
  rewrite Forall_forall in H. destruct (H _ Hin) as [-> ->]. done.
Qed.

Lemma ascii_utf8 l : Forall (λ s, is_ascii s = true) l → utf8 l.
Proof. intros H. eapply Forall_impl; [exact H|]. intros s. apply is_ascii_valid. Qed.

Section events.
Context `{HH : Hash, !HashLaws}.

Lemma digest_ascii t : is_ascii (hex_encode (Sum256 t)) = true.
Proof. apply is_ascii_hex, Sum256_bytes. Qed.

Lemma event_id_ascii digest parts : is_ascii (deterministicEventID digest parts) = true.
Proof. unfold deterministicEventID. by rewrite is_ascii_app, digest_ascii. Qed.

(** What an event of the bridge holds. *)
Record bridge_event (snapshot : ScanSnapshot) (id eventType correlationID findingID : string)
    (e : Event) : Prop := {
  be_id : Event_ID e = id;
  be_type : Event_Type e = eventType;
  be_correlation : CorrelationID e = correlationID;
  be_finding : FindingID e = findingID;
  be_occurred : OccurredAt e = utc (Meta_UpdatedAt (Metadata snapshot));
  be_recorded : RecordedAt e = utc (Meta_UpdatedAt (Metadata snapshot));
  be_wf : wf e;
  be_valid : Event_Validate json_valid e = Ok tt;
}.

Lemma utc_utc t : utc (utc t) = utc t.
Proof. done. Qed.

Lemma bridge_event_ok snapshot id ty corr fid e :
  encodable snapshot → bridge_event snapshot id ty corr fid e → payload_ok e → event_ok e.
Proof.
  intros ((_ & Ht & _) & _) [_ _ _ _ Ho Hr Hw _] Hp. cbn in Ht.
  unfold event_ok. rewrite Ho, Hr. by rewrite !utc_utc.
Qed.

Lemma bridgeEvent_total snapshot id ty corr fid subj labels payload p :
  snapshot_ok snapshot → encodable snapshot → payload = Some p → ctext p →
  Forall (λ s, is_ascii s = true) [id; ty; corr; fid] → blank id = false → blank ty = false →
  wf subj → wf_labels labels = true →
  ∃ e, bridgeEvent snapshot id ty corr fid subj labels payload = Ok e ∧
    bridge_event snapshot id ty corr fid e ∧ Payload e = p.
Proof.
  intros Hs (Hm & _) -> Hp Ha Hid Hty Hsubj Hlab. unfold bridgeEvent.
  destruct Hs as (_ & (_ & Ht0 & _ & _ & Hpl & Hso & _) & _).
  set (e := Build_Event _ _ _ _ _ _ _ _ _ _ _ _ _).
  assert (Event_Validate json_valid e = Ok tt) as HV.
  { apply Event_Validate_ok. split_and!; [done|done|done|done|exact Ht0|exact Ht0| |].
    - apply ident_not_blank; [by apply validIdentifier_nonempty|].
      unfold validIdentifier in Hso. by case_in Hso.
    - intros _. apply json_valid_jtext, Hp. }
  rewrite HV. exists e. split_and!; [done| |done]. split; try done.
  cbn [wf Metadata_codec utc_metadata Meta_UpdatedAt Timestamp] in Hm.
  destruct Hm as (_ & Hup & _ & Hu).
  cbn [wf Event_codec e Event_Schema Event_ID Event_Type Event_Source Event_Platform FindingID
       CorrelationID Event_SchemaVersion OccurredAt RecordedAt Event_Subject Event_Labels Payload].
  split_and!; try done.
  - apply ascii_utf8. rewrite !Forall_cons in Ha. destruct Ha as (? & ? & ? & ? & _).
    repeat constructor; try done; by apply validIdentifier_ascii.
  - by intros x [= <-].
  - by right.
Qed.

(** The text of a struct that need not be read back. *)
Ltac struct_text parts t Ht Hc :=
  destruct (struct_read parts) as (t & ? & Ht & Hc & _);
  [ vm_compute; reflexivity
  | repeat first [apply Forall_nil_2 | apply Forall_cons_2]; cbn [snd];
    try first [apply part_req; done | apply part_int; first [lia | done] | eapply fill_part_ok; fills]
  | ].

Lemma payload_ok_other e : IsFindingLifecycle e = false → payload_ok e.
Proof.
  intros Hl. split; [|congruence]. intros Ht.
  unfold IsFindingLifecycle in Hl. by rewrite Ht in Hl.
Qed.

Lemma ctext_enc {A} `{HC : Codec A, HL : !CodecLaws A} (x : A) : wf x → ∃ t, Marshal x = Some t ∧ ctext t ∧ Unmarshal t = Some x.
Proof.
  intros Hx. destruct (enc_wf x Hx) as (t & Ht & Hc & _ & Hd). exists t.
  by rewrite Unmarshal_jtext by apply Hc.
Qed.

Section snapshot.
Context (snapshot : ScanSnapshot) (digest : string).
Context (Hok : snapshot_ok snapshot) (Henc : encodable snapshot) (Hdig : is_ascii digest = true).

Definition corr : string := "scan:" +:+ digest.

Lemma corr_ascii : is_ascii corr = true.
Proof. unfold corr. by rewrite is_ascii_app, Hdig. Qed.

Definition is_result (r : CheckResult) : Prop := CheckResult_Validate r = Ok tt ∧ wf r.

Lemma result_in r : r ∈ Results snapshot → is_result r.
Proof.
  intros Hr. destruct Hok as (_ & _ & _ & HV & _), Henc as (_ & Hw).
  rewrite Forall_forall in HV, Hw. split; auto.
Qed.

Lemma metadata_ascii :
  is_ascii (Platform (Metadata snapshot)) = true ∧ is_ascii (Source (Metadata snapshot)) = true ∧
  is_ascii (Scope (Metadata snapshot)) = true.
Proof.
  destruct Hok as (_ & (_ & _ & _ & _ & Hp & Hs & Hsc & _) & _).
  split_and!; try (by apply validIdentifier_ascii).
  unfold valid_scope in Hsc. apply one_of_elem in Hsc. rewrite !elem_of_cons in Hsc.
  by destruct Hsc as [->|[->|[->|[]%not_elem_of_nil]]].
Qed.

Lemma result_ascii r : is_result r →
  is_ascii (Res_Category r) = true ∧ is_ascii (Name r) = true ∧ is_ascii (Status r) = true ∧
  is_ascii (checkFindingID r) = true ∧ is_ascii (Subject_ID (check_subject r)) = true.
Proof.
  intros (HV & _). apply result_fields in HV as (Hc & Hn & _ & Hs).
  apply validIdentifier_ascii in Hc, Hn. apply status_known, known_ascii in Hs.
  unfold checkFindingID. cbn [check_subject Subject_ID].
  split_and!; try done; by rewrite !is_ascii_app, Hc, Hn.
Qed.

Lemma check_subject_wf r : is_result r → wf (check_subject r).
Proof.
  intros Hr. destruct (result_ascii r Hr) as (_ & Hn & _ & _ & Hi).
  cbn [wf Subject_codec]. apply ascii_utf8. by repeat constructor.
Qed.

Lemma id_not_blank parts : blank (deterministicEventID digest parts) = false.
Proof. by apply blank_ascii. Qed.

Lemma bridge_built parts ty fid subj labels payload t :
  payload = Some t → ctext t → is_ascii ty = true → is_ascii fid = true → blank ty = false →
  wf subj → wf_labels labels = true →
  (∀ e, Event_Type e = ty → Payload e = t → payload_ok e) →
  let id := deterministicEventID digest parts in
  ∃ e, bridgeEvent snapshot id ty corr fid subj labels payload = Ok e ∧ event_ok e ∧
    bridge_event snapshot id ty corr fid e.
Proof.
  intros Ht Hc Hty Hfid Hb Hs Hl Hp id.
  destruct (bridgeEvent_total snapshot id ty corr fid subj labels payload t)
    as (e & He & Hbe & Hpe); try done.
  { rewrite !Forall_cons. split_and!; [apply event_id_ascii|done|apply corr_ascii|done|].
    by apply Forall_nil_2. }
  { apply id_not_blank. }
  exists e. split_and!; [done| |done]. eapply bridge_event_ok; [done|exact Hbe|].
  apply Hp; [apply Hbe|done].
Qed.

Lemma payload_ok_type e ty :
  Event_Type e = ty → one_of ty [EventFindingObserved; EventFindingAcknowledged;
    EventFindingSuppressed; EventFindingUnsuppressed; EventFindingResolved] = false → payload_ok e.
Proof. intros <- Hl. by apply payload_ok_other. Qed.

Ltac labels_wf := apply wf_list_to_map; repeat constructor; by apply is_ascii_valid.

Lemma check_event r : is_result r →
  ∃ e, checkResultEvent snapshot r digest corr = Ok e ∧ event_ok e ∧
    bridge_event snapshot (deterministicEventID digest ["check.result"; Res_Category r; Name r])
      "check.result" corr "" e.
Proof.
  intros Hr. destruct (result_ascii r Hr) as (Hc & Hn & Hs & _), metadata_ascii as (_ & _ & Hsc).
  pose proof (proj2 Hr) as Hw. cbn [wf CheckResult_codec] in Hw. unfold utf8 in Hw. wf_split.
  assert (valid_utf8 (Scope (Metadata snapshot)) = true) by (by apply is_ascii_valid).
  struct_text (CheckResultPayload_parts r (Scope (Metadata snapshot))) t Ht Hct.
  apply (bridge_built _ _ _ _ _ _ t); try done; [by apply check_subject_wf|labels_wf|].
  intros e He _. by apply (payload_ok_type e _ He).
Qed.

Lemma scan_observation_wf r : is_result r → wf (scan_observation snapshot r).
Proof.
  intros Hr. destruct (result_ascii r Hr) as (Hc & Hn & Hs & _), metadata_ascii as (_ & Hso & Hsc).
  pose proof (proj2 Hr) as Hw. cbn [wf CheckResult_codec] in Hw. unfold utf8 in Hw. wf_split.
  cbn [wf Observation_codec scan_observation Obs_DetectorID Obs_Category Obs_Title Obs_Summary
       Obs_Severity Obs_Evidence Obs_Remediation Obs_Labels].
  split_and!.
  - unfold utf8. repeat constructor; try done. apply is_ascii_valid.
    by rewrite !is_ascii_app, Hn, Hs.
  - by apply Forall_nil_2.
  - intros x. case_match; [|done]. intros [= <-]. cbn. unfold utf8.
    destruct (String.eqb _ _); by repeat constructor.
  - labels_wf.
Qed.

Lemma finding_labels_wf r : is_result r → wf_labels (finding_labels snapshot r) = true.
Proof.
  intros Hr. destruct (result_ascii r Hr) as (Hc & _), metadata_ascii as (_ & _ & Hsc). labels_wf.
Qed.

Lemma observed_event r : is_result r →
  ∃ e, findingObservedEvent snapshot r digest corr = Ok e ∧ event_ok e ∧
    bridge_event snapshot (deterministicEventID digest [EventFindingObserved; Res_Category r; Name r])
      EventFindingObserved corr (checkFindingID r) e.
Proof.
  intros Hr. destruct (result_ascii r Hr) as (_ & _ & _ & Hf & _).
  destruct (ctext_enc _ (scan_observation_wf r Hr)) as (t & Ht & Hc & Hu).
  apply (bridge_built _ _ _ _ _ _ t); try done;
    [by apply check_subject_wf|by apply finding_labels_wf|].
  intros e He Hp. split; [|by rewrite He]. intros _ o Ho. rewrite Hp, Hu in Ho.
  injection Ho as <-. by apply scan_observation_wf.
Qed.

Lemma resolved_event r : is_result r →
  ∃ e, findingResolvedEvent snapshot r digest corr = Ok e ∧ event_ok e ∧
    bridge_event snapshot (deterministicEventID digest [EventFindingResolved; Res_Category r; Name r])
      EventFindingResolved corr (checkFindingID r) e.
Proof.
  intros Hr. destruct (result_ascii r Hr) as (_ & _ & _ & Hf & _).
  assert (wf resolved_transition) as Hw by (split; [by repeat constructor|done]).
  destruct (ctext_enc _ Hw) as (t & Ht & Hc & Hu).
  apply (bridge_built _ _ _ _ _ _ t); try done;
    [by apply check_subject_wf|by apply finding_labels_wf|].
  intros e He Hp. split; [by rewrite He|]. intros _ _ x Hx. rewrite Hp, Hu in Hx.
  by injection Hx as <-.
Qed.

Lemma counts_range results c :
  let c' := foldl (λ c r, count_one c (Status r)) c results in
  let n := Z.of_nat (length results) in
  (Count_OK c ≤ Count_OK c' ≤ Count_OK c + n) ∧ (Count_Warn c ≤ Count_Warn c' ≤ Count_Warn c + n) ∧
  (Count_Critical c ≤ Count_Critical c' ≤ Count_Critical c + n) ∧
  (Count_Skipped c ≤ Count_Skipped c' ≤ Count_Skipped c + n) ∧
  (Count_Error c ≤ Count_Error c' ≤ Count_Error c + n).
Proof.
  revert c. induction results as [|r l IH]; intros c; cbn [foldl length]; [lia|].
  specialize (IH (count_one c (Status r))). cbn zeta in *.
  set (c' := foldl _ _ l) in *. clearbody c'. unfold count_one in IH. cbn in IH.
  repeat case_match; lia.
Qed.

Lemma counts_text results : ∃ t, enc_struct (ScanCounts_parts (scanCounts results)) = Some t ∧ ctext t.
Proof.
  pose proof (counts_range results {| Count_OK := 0; Count_Warn := 0; Count_Critical := 0;
    Count_Skipped := 0; Count_Error := 0 |}) as Hr. cbn zeta in Hr. fold (scanCounts results) in Hr.
  cbn [Count_OK Count_Warn Count_Critical Count_Skipped Count_Error] in Hr.
  struct_text (ScanCounts_parts (scanCounts results)) t Ht Hc. by exists t.
Qed.

Lemma completed_event : wf (Metadata snapshot) →
  ∃ e, scanCompletedEvent snapshot digest corr = Ok e ∧ event_ok e ∧
    bridge_event snapshot (deterministicEventID digest ["scan.completed"]) "scan.completed" corr "" e.
Proof.
  intros Hm. destruct metadata_ascii as (Hpl & _ & Hsc).
  destruct (counts_text (Results snapshot)) as (tc & Htc & Hcc).
  struct_text (ScanCompletedPayload_parts (Metadata snapshot) (scanCounts (Results snapshot))) t Ht Hct.
  { by rewrite Htc. }
  apply (bridge_built _ _ _ _ _ _ t); try done; [by apply ascii_utf8; repeat constructor|labels_wf|].
  intros e He _. by apply (payload_ok_type e _ He).
Qed.
End snapshot.
End events.
