(* ===== verification/IngestFacts.v ===== *)
(** * Facts about ingestion

    The search of the journal, what an ingestion records, that it happens
    once, and what it does to the findings; proved against [StoreLaws]. *)

From S2P Require Import Prelude GoString Calendar GoTime Json JsonCompact Model ModelJson.
From S2P Require Import Journal JournalFindings JournalOrder GoCrypto Scan ScanFacts Ingest BridgeEvents.
#[local] Open Scope Z_scope.

(** ** Sorted logs *)

Definition seq_lt (a b : JRecord) : Prop := Sequence a < Sequence b.

Definition after_seq (q : Z) (l : list JRecord) : list JRecord :=
  filter (λ r, (q <? Sequence r) = true) l.

Lemma after_seq_all q l : Forall (λ r, q < Sequence r) l → after_seq q l = l.
Proof.
  intros H. apply filter_all. eapply Forall_impl; [exact H|]. cbn. intros r Hr.
  by apply Z.ltb_lt.
Qed.

Lemma after_seq_after q1 q2 l : q1 ≤ q2 → after_seq q2 (after_seq q1 l) = after_seq q2 l.
Proof.
  intros H. unfold after_seq. apply list_filter_filter_l.
  intros r. rewrite !Z.ltb_lt. lia.
Qed.

Lemma after_seq_app q l1 l2 :
  Forall (λ r, Sequence r ≤ q) l1 → Forall (λ r, q < Sequence r) l2 → after_seq q (l1 ++ l2) = l2.
Proof.
  intros H1 H2. unfold after_seq. rewrite filter_app, filter_none; [by apply after_seq_all|].
  eapply Forall_impl; [exact H1|]. cbn. intros r Hr. rewrite Z.ltb_lt. lia.
Qed.

Definition found (id : string) (l : list JRecord) : option JRecord :=
  snd <$> list_find (λ r, record_id r = id) l.

Lemma found_app_l id l1 l2 r : found id l1 = Some r → found id (l1 ++ l2) = Some r.
Proof.
  unfold found. destruct (list_find _ l1) as [[i x]|] eqn:E; [|done].
  intros [= <-]. by erewrite list_find_app_l by exact E.
Qed.

Lemma found_app_r id l1 l2 : found id l1 = None → found id (l1 ++ l2) = found id l2.
Proof.
  unfold found. destruct (list_find _ l1) as [[i x]|] eqn:E; [done|]. intros _.
  rewrite list_find_app_r by done. by destruct (list_find _ l2) as [[]|].
Qed.

Lemma found_None id l : found id l = None ↔ id ∉ record_id <$> l.
Proof.
  unfold found. rewrite fmap_None, list_find_None, Forall_forall. split.
  - intros H (r & -> & Hr)%list_elem_of_fmap. by apply (H r).
  - intros H r Hr He. apply H. rewrite <-He. by apply list_elem_of_fmap_2.
Qed.

Lemma found_Some id l r : found id l = Some r → r ∈ l ∧ record_id r = id.
Proof.
  unfold found. intros ([i x] & H & ->)%fmap_Some. apply list_find_Some in H as (H & He & _).
  split; [by eapply list_elem_of_lookup_2|done].
Qed.

Lemma found_elem id l r :
  NoDup (record_id <$> l) → r ∈ l → record_id r = id → found id l = Some r.
Proof.
  intros Hd Hr He. destruct (found id l) as [r'|] eqn:E.
  - apply found_Some in E as [Hr' He']. f_equal.
    apply list_elem_of_lookup in Hr as [i Hi], Hr' as [j Hj].
    assert (i = j) as ->; [|congruence].
    apply (NoDup_lookup _ _ _ id Hd); rewrite list_lookup_fmap; [rewrite Hi|rewrite Hj]; cbn; congruence.
  - apply found_None in E. destruct E. rewrite <-He. by apply list_elem_of_fmap_2.
Qed.

Lemma scan_page_found id q l :
  scan_page id q l =
    match found id l with Some r => inl r | None => inr (default q (Sequence <$> last l)) end.
Proof.
  unfold found. revert q. induction l as [|r l IH]; intros q; [done|]. cbn [scan_page].
  cbn [list_find]. destruct (String.eqb_spec (Event_ID (REvent r)) id) as [He|Hne].
  - by rewrite decide_True.
  - rewrite decide_False, IH by done. destruct (list_find _ l) as [[i x]|] eqn:E; [done|].
    rewrite last_cons. by destruct (last l).
Qed.

Lemma record_in_after r q l : r ∈ l → q < Sequence r → r ∈ after_seq q l.
Proof. intros Hr Hq. apply list_elem_of_filter. by rewrite Z.ltb_lt. Qed.

(** ** The search *)

Section facts.
Context {S : Type} `{HI : IngestStore S, !StoreLaws S} `{HH : Hash, !HashLaws}.

Lemma after_page l q k :
  StronglySorted seq_lt l → let page := take k (after_seq q l) in
  page ≠ [] → after_seq (default q (Sequence <$> last page)) l = drop k (after_seq q l).
Proof.
  intros Hs page Hne. destruct (last page) as [x|] eqn:Hl; [|by apply last_None in Hl].
  cbn. apply last_Some in Hl as [front Hp].
  assert (StronglySorted seq_lt (after_seq q l)) as Hs' by (by apply StronglySorted_filter).
  assert (x ∈ after_seq q l) as Hx.
  { rewrite <-(take_drop k). fold page. rewrite Hp. set_solver. }
  apply list_elem_of_filter in Hx as [Hqx%Z.ltb_lt _].
  rewrite <-(after_seq_after q) by lia. rewrite <-(take_drop k (after_seq q l)) at 1.
  rewrite <-(take_drop k (after_seq q l)) in Hs'. fold page in Hs' |- *. rewrite Hp in Hs' |- *.
  apply after_seq_app.
  - apply Forall_app. split; [|by repeat constructor].
    apply StronglySorted_app_1_l in Hs'. apply Forall_forall. intros y Hy.
    pose proof (StronglySorted_app_1_elem_of _ _ _ y x Hs' Hy ltac:(set_solver)).
    unfold seq_lt in *. lia.
  - apply Forall_forall. intros y Hy.
    by apply (StronglySorted_app_1_elem_of _ _ _ x y Hs'); [set_solver|].
Qed.

(** The full or partly filled pages of a log of [n] records. *)
Definition pages (n : nat) : Z := (Z.of_nat n + 999) / 1000.

Lemma event_search_found s id fuel q :
  store_ok s → 0 ≤ q → pages (length (after_seq q (store_log s))) < Z.of_nat fuel →
  event_search fuel s id q = Ok (found id (after_seq q (store_log s))).
Proof.
  intros Hs. unfold pages. revert q. induction fuel as [|fuel IH]; intros q Hq Hf; [zdiv|].
  cbn [event_search]. rewrite law_read by (done || lia). cbn [map_err mbind result_bind].
  change (Z.to_nat 1000) with 1000%nat. fold (after_seq q (store_log s)).
  set (rest := after_seq q (store_log s)) in *.
  destruct (law_sequences s Hs) as [Hsort Hpos].
  pose proof (after_page (store_log s) q 1000 Hsort) as Hnext. cbv zeta in Hnext. fold rest in Hnext.
  destruct (take 1000 rest) as [|r page] eqn:Hp.
  { destruct rest; done. }
  rewrite scan_page_found, <-Hp.
  replace (found id rest) with (found id (take 1000 rest ++ drop 1000 rest)) by (by rewrite take_drop).
  destruct (found id (take 1000 rest)) as [r'|] eqn:Hfd; [by rewrite (found_app_l _ _ _ _ Hfd)|].
  rewrite (found_app_r _ _ _ Hfd). rewrite <-Hp in Hnext. rewrite <-Hnext by (by rewrite Hp).
  apply IH.
  - destruct (last (take 1000 rest)) as [x|] eqn:Hl; [|done]. cbn.
    assert (x ∈ rest) as Hx.
    { apply last_Some in Hl as [front Hl]. rewrite <-(take_drop 1000 rest), Hl. set_solver. }
    apply list_elem_of_filter in Hx as [?%Z.ltb_lt _]. lia.
  - rewrite Hnext by (by rewrite Hp). rewrite length_drop.
    assert (0 < length rest)%nat by (destruct rest; [done|cbn; lia]).
    zdiv.
Qed.

Lemma eventByID_pages s id fuel :
  store_ok s → pages (length (store_log s)) < Z.of_nat fuel →
  eventByID fuel s id = Ok (found id (store_log s)).
Proof.
  intros Hs Hf. destruct (law_sequences s Hs) as [_ Hpos].
  unfold eventByID. rewrite event_search_found; [by rewrite after_seq_all|done|lia|].
  by rewrite after_seq_all.
Qed.

Lemma eventByID_found s id fuel :
  store_ok s → (length (store_log s) < fuel)%nat →
  eventByID fuel s id = Ok (found id (store_log s)).
Proof. intros Hs Hf. apply eventByID_pages; [done|]. unfold pages. zdiv. Qed.

(** The paged search for an event terminates: on a log of [n] records it
    makes at most one read per page of a thousand and one more, never fails,
    and returns the record with the given event id exactly when the log has
    one. *)
Theorem eventByID_terminates s id fuel :
  store_ok s → pages (length (store_log s)) < Z.of_nat fuel →
  ∃ r, eventByID fuel s id = Ok r ∧
    (∀ x, r = Some x ↔ x ∈ store_log s ∧ record_id x = id) ∧
    (r = None ↔ id ∉ record_id <$> store_log s).
Proof.
  intros Hs Hf. exists (found id (store_log s)). split; [by apply eventByID_pages|].
  split; [|apply found_None]. intros x. split; [apply found_Some|].
  intros [Hx He]. by apply found_elem; [apply law_ids| |].
Qed.

(** ** One append *)

Definition finding_state (s : S) (id : string) : option FindingState :=
  match store_CurrentFinding s id with Ok g => Some (State g) | Err _ => None end.

(** The log of [s'] is the log of [s] and records whose events satisfy [P]. *)
Definition grows (P : Event → Prop) (s s' : S) : Prop :=
  ∃ new, store_log s' = store_log s ++ new ∧ Forall (λ r, P (REvent r)) new.

Definition recorded (s : S) (e : Event) : Prop := ∃ r, r ∈ store_log s ∧ REvent r = e.

Lemma grows_refl P s : grows P s s.
Proof. exists []. by rewrite app_nil_r. Qed.

Lemma grows_trans P s1 s2 s3 : grows P s1 s2 → grows P s2 s3 → grows P s1 s3.
Proof.
  intros (n1 & E1 & H1) (n2 & E2 & H2). exists (n1 ++ n2).
  rewrite E2, E1, app_assoc. split; [done|by apply Forall_app].
Qed.

Lemma grows_mono (P Q : Event → Prop) s s' : (∀ e, P e → Q e) → grows P s s' → grows Q s s'.
Proof.
  intros HPQ (n & E & Hn). exists n. split; [done|]. eapply Forall_impl; [exact Hn|]. auto.
Qed.

Lemma grows_recorded P s s' e : grows P s s' → recorded s e → recorded s' e.
Proof. intros (n & E & _) (r & Hr & He). exists r. rewrite E. split; [set_solver|done]. Qed.

Lemma grows_inv P s s' e : grows P s s' → recorded s' e → recorded s e ∨ P e.
Proof.
  intros (n & E & Hn) (r & Hr & <-). rewrite E in Hr. apply elem_of_app in Hr as [Hr|Hr].
  - left. by exists r.
  - right. rewrite Forall_forall in Hn. auto.
Qed.

Lemma append_ok_inv w e s s' : append w e s = (s', Ok tt) → ∃ r, store_Append s e = (s', Ok r).
Proof.
  unfold append. intros Ha. apply eff_bind_ok_inv in Ha as (s1 & r & Ha & [= ->]).
  apply wrap_err_ok_inv in Ha. by exists r.
Qed.

Lemma append_step w e s s' :
  store_ok s → event_ok e → append w e s = (s', Ok tt) →
  store_ok s' ∧ recorded s' e ∧ grows (λ x, x = e) s s' ∧
  (∀ id, IsFindingLifecycle e = false ∨ id ≠ FindingID e →
     store_CurrentFinding s' id = store_CurrentFinding s id) ∧
  (IsFindingLifecycle e = true → ¬ recorded s e →
     ∃ f, store_CurrentFinding s' (FindingID e) = Ok f ∧
       lifecycle_step (finding_state s (FindingID e)) (Event_Type e) (State f)).
Proof.
  intros Hs He (r & Ha)%append_ok_inv.
  destruct (law_accepted s e s' r Hs He Ha) as (Hs' & Hr & Hor). split_and!; [done| | | |].
  - exists r. split; [|done]. destruct Hor as [[Hin ->]|[_ ->]]; [done|set_solver].
  - destruct Hor as [[_ ->]|[_ E]]; [apply grows_refl|]. exists [r]. split; [done|by repeat constructor].
  - intros id. by apply (law_other s e s' r).
  - intros Hl Hn. apply (law_moved s e s' r); try done.
    destruct Hor as [[Hin _]|[Hid _]]; [|done]. destruct Hn. by exists r.
Qed.

(** ** One result *)

Section scan.
Context (snapshot : ScanSnapshot) (digest : string).
Context (Hok : snapshot_ok snapshot) (Henc : encodable snapshot) (Hdig : is_ascii digest = true).
#[local] Abbreviation corr := (corr digest).

Definition failing (r : CheckResult) : bool :=
  one_of (Status r) [CheckStatusWarn; CheckStatusCritical; CheckStatusError].

(** The lifecycle events of a result, and all its events. *)
Definition finding_event (r : CheckResult) (e : Event) : Prop :=
  findingObservedEvent snapshot r digest corr = Ok e ∨
  findingResolvedEvent snapshot r digest corr = Ok e.
Definition result_event (r : CheckResult) (e : Event) : Prop :=
  checkResultEvent snapshot r digest corr = Ok e ∨ finding_event r e.

(** What ingesting one result leaves of its finding. *)
Definition outcome (r : CheckResult) (s s' : S) : Prop :=
  let id := checkFindingID r in
  if failing r then ∃ f, store_CurrentFinding s' id = Ok f ∧ State f ≠ FindingResolved
  else if String.eqb (Status r) CheckStatusOK then
    match store_CurrentFinding s' id with
    | Ok f => State f = FindingResolved
    | Err e => errors_is e "finding not found" = true ∧ store_CurrentFinding s id = Err e
    end
  else store_CurrentFinding s' id = store_CurrentFinding s id.

Lemma observed_not_resolved cur st : lifecycle_step cur EventFindingObserved st → st ≠ FindingResolved.
Proof. by inversion 1. Qed.

Lemma resolved_resolved cur st : lifecycle_step cur EventFindingResolved st → st = FindingResolved.
Proof. by inversion 1. Qed.

(** Appending the check event. *)
Lemma check_append w r e s s1 :
  is_result r → store_ok s → checkResultEvent snapshot r digest corr = Ok e →
  append w e s = (s1, Ok tt) →
  store_ok s1 ∧ recorded s1 e ∧ grows (result_event r) s s1 ∧
  (∀ id, store_CurrentFinding s1 id = store_CurrentFinding s id) ∧
  (∀ x, finding_event r x → ¬ recorded s x → ¬ recorded s1 x).
Proof.
  intros Hr Hs He Ha. destruct (check_event snapshot digest Hok Henc Hdig r Hr) as (ec & Hec & Hokc & Hbc).
  rewrite He in Hec. injection Hec as <-. pose proof (be_type _ _ _ _ _ _ Hbc) as Ht.
  destruct (append_step _ _ _ _ Hs Hokc Ha) as (Hs1 & Hrec & Hg & Hother & _).
  split_and!; [done|done| | |].
  - eapply grows_mono; [|exact Hg]. intros x ->. by left.
  - intros id. apply Hother. left. unfold IsFindingLifecycle. by rewrite Ht.
  - intros x Hx Hn Hr1. destruct (grows_inv _ _ _ _ Hg Hr1) as [?| ->]; [done|].
    destruct (observed_event snapshot digest Hok Henc Hdig r Hr) as (eo & Heo & _ & Hbo).
    destruct (resolved_event snapshot digest Hok Henc Hdig r Hr) as (er & Her & _ & Hbr).
    destruct Hx as [Hx|Hx]; [rewrite Heo in Hx|rewrite Her in Hx]; injection Hx as ->.
    + by rewrite (be_type _ _ _ _ _ _ Hbo) in Ht.
    + by rewrite (be_type _ _ _ _ _ _ Hbr) in Ht.
Qed.

(** Appending a lifecycle event of a result. *)
Lemma finding_append w id ty r e s s1 :
  bridge_event snapshot id ty corr (checkFindingID r) e → event_ok e → finding_event r e →
  one_of ty [EventFindingObserved; EventFindingResolved] = true →
  store_ok s → append w e s = (s1, Ok tt) →
  store_ok s1 ∧ recorded s1 e ∧ grows (result_event r) s s1 ∧
  (∀ id, id ≠ checkFindingID r → store_CurrentFinding s1 id = store_CurrentFinding s id) ∧
  (¬ recorded s e → ∃ f cur, store_CurrentFinding s1 (checkFindingID r) = Ok f ∧
     lifecycle_step cur ty (State f)).
Proof.
  intros Hb He Hfe Hty Hs Ha. pose proof (be_type _ _ _ _ _ _ Hb) as Ht.
  destruct (append_step _ _ _ _ Hs He Ha) as (Hs1 & Hrec & Hg & Hother & Hmoved).
  rewrite (be_finding _ _ _ _ _ _ Hb), Ht in Hmoved. rewrite (be_finding _ _ _ _ _ _ Hb) in Hother.
  split_and!; [done|done| |by intros x Hx; apply Hother; right|].
  - eapply grows_mono; [|exact Hg]. intros x ->. by right.
  - intros Hn. destruct Hmoved as (f & Hf & Hstep); [|done|by eauto].
    unfold IsFindingLifecycle. rewrite Ht. apply one_of_elem in Hty.
    rewrite !elem_of_cons in Hty. by destruct Hty as [->|[->|[]%not_elem_of_nil]].
Qed.

Lemma ingest_result_spec r s s' :
  is_result r → store_ok s → ingest_result snapshot digest corr r s = (s', Ok tt) →
  store_ok s' ∧ grows (result_event r) s s' ∧
  (∃ e, checkResultEvent snapshot r digest corr = Ok e ∧ recorded s' e) ∧
  (failing r = true → ∃ e, findingObservedEvent snapshot r digest corr = Ok e ∧ recorded s' e) ∧
  (∀ id, id ≠ checkFindingID r → store_CurrentFinding s' id = store_CurrentFinding s id) ∧
  ((∀ e, finding_event r e → ¬ recorded s e) → outcome r s s').
Proof.
  intros Hr Hs Hi. unfold ingest_result in Hi.
  apply eff_bind_ok_inv in Hi as (s0 & ec & [-> Hec]%pure_ok_inv & Hi).
  apply eff_bind_ok_inv in Hi as (s1 & [] & Hac & Hi).
  destruct (check_append _ _ _ _ _ Hr Hs Hec Hac) as (Hs1 & Hrec & Hg1 & Hsame & Hfresh).
  unfold outcome. fold (failing r) in Hi. destruct (failing r) eqn:Hf.
  { destruct (observed_event snapshot digest Hok Henc Hdig r Hr) as (eo & Heo & Hoko & Hbo).
    apply eff_bind_ok_inv in Hi as (s2 & ? & [-> E]%pure_ok_inv & Hi). rewrite Heo in E.
    injection E as <-. assert (finding_event r eo) as Hfe by (by left).
    destruct (finding_append _ _ _ _ _ _ _ Hbo Hoko Hfe eq_refl Hs1 Hi) as (? & ? & Hg2 & Hother & Hmoved).
    split_and!; [done|by eapply grows_trans|exists ec; split; [done|by eapply grows_recorded]|by eauto| |].
    - intros id Hne. by rewrite Hother, Hsame.
    - intros Hn. destruct Hmoved as (f & cur & Hfd & Hstep); [by apply Hfresh, Hn|].
      exists f. split; [done|]. by eapply observed_not_resolved. }
  destruct (String.eqb (Status r) CheckStatusOK).
  2:{ injection Hi as <-. split_and!; [done|done|by exists ec|done|by intros; apply Hsame|].
      intros _. apply Hsame. }
  destruct (store_CurrentFinding s1 (checkFindingID r)) as [g|err] eqn:Ec.
  2:{ destruct (errors_is err _) eqn:He; [|done]. injection Hi as <-.
      split_and!; [done|done|by exists ec|done|by intros; apply Hsame|].
      intros _. rewrite Ec. by rewrite <-Hsame. }
  destruct (String.eqb_spec (State g) FindingResolved) as [Hg'|Hg'].
  { injection Hi as <-. split_and!; [done|done|by exists ec|done|by intros; apply Hsame|].
    intros _. by rewrite Ec. }
  destruct (resolved_event snapshot digest Hok Henc Hdig r Hr) as (er & Her & Hokr & Hbr).
  apply eff_bind_ok_inv in Hi as (s2 & ? & [-> E]%pure_ok_inv & Hi). rewrite Her in E.
  injection E as <-. assert (finding_event r er) as Hfe by (by right).
  destruct (finding_append _ _ _ _ _ _ _ Hbr Hokr Hfe eq_refl Hs1 Hi) as (? & ? & Hg2 & Hother & Hmoved).
  split_and!; [done|by eapply grows_trans|exists ec; split; [done|by eapply grows_recorded]|done| |].
  - intros id Hne. by rewrite Hother, Hsame.
  - intros Hn. destruct Hmoved as (f & cur & Hfd & Hstep); [by apply Hfresh, Hn|].
    rewrite Hfd. by eapply resolved_resolved.
Qed.

(** ** All the results *)

Lemma checkFindingID_inj r1 r2 :
  is_result r1 → is_result r2 → checkFindingID r1 = checkFindingID r2 → result_key r1 = result_key r2.
Proof.
  intros [H1 _] [H2 _] He.
  apply result_fields in H1 as (Hc1 & Hn1 & _), H2 as (Hc2 & Hn2 & _).
  assert (∀ v, validIdentifier v = true → free_of "/" v) as Hfree.
  { intros v Hv. unfold free_of. rewrite <-(is_ascii_runes v) by (by apply validIdentifier_ascii).
    unfold validIdentifier in Hv. case_in Hv; [done|]. intros Hin.
    apply (proj1 (forallb_forall _ _)) with (x := 47) in Hv; [done|]. by apply list_elem_of_In. }
  unfold checkFindingID in He.
  rewrite !app_str_cons, !app_str_nil_l in He. injection He as He.
  apply sep_inj in He as [E1 E2]; [|by apply Hfree..]. unfold result_key. by rewrite E1, E2.
Qed.

(** A lifecycle event of one result is an event of no result with another
    finding. *)
Lemma events_apart r1 r2 e :
  is_result r1 → is_result r2 → result_event r1 e → finding_event r2 e →
  checkFindingID r1 = checkFindingID r2.
Proof.
  intros Hr1 Hr2 H1 H2.
  assert (∀ r, is_result r → finding_event r e → FindingID e = checkFindingID r ∧
    Event_Type e ≠ "check.result") as Hfe.
  { intros r Hr [He|He].
    - destruct (observed_event snapshot digest Hok Henc Hdig r Hr) as (x & Hx & _ & Hb).
      rewrite He in Hx. injection Hx as <-. by rewrite (be_finding _ _ _ _ _ _ Hb), (be_type _ _ _ _ _ _ Hb).
    - destruct (resolved_event snapshot digest Hok Henc Hdig r Hr) as (x & Hx & _ & Hb).
      rewrite He in Hx. injection Hx as <-. by rewrite (be_finding _ _ _ _ _ _ Hb), (be_type _ _ _ _ _ _ Hb). }
  destruct (Hfe r2 Hr2 H2) as [E2 Ht]. destruct H1 as [H1|H1].
  - destruct (check_event snapshot digest Hok Henc Hdig r1 Hr1) as (x & Hx & _ & Hb).
    rewrite H1 in Hx. injection Hx as <-. by rewrite (be_type _ _ _ _ _ _ Hb) in Ht.
  - destruct (Hfe r1 Hr1 H1) as [E1 _]. congruence.
Qed.

Lemma finding_event_correlation r e :
  is_result r → finding_event r e → CorrelationID e = corr.
Proof.
  intros Hr [He|He].
  - destruct (observed_event snapshot digest Hok Henc Hdig r Hr) as (x & Hx & _ & Hb).
    rewrite He in Hx. injection Hx as <-. apply Hb.
  - destruct (resolved_event snapshot digest Hok Henc Hdig r Hr) as (x & Hx & _ & Hb).
    rewrite He in Hx. injection Hx as <-. apply Hb.
Qed.

Lemma ingest_results_spec rs s s' :
  Forall is_result rs → NoDup (result_key <$> rs) → store_ok s →
  ingest_results snapshot digest corr rs s = (s', Ok tt) →
  store_ok s' ∧ grows (λ e, ∃ r, r ∈ rs ∧ result_event r e) s s' ∧
  (∀ r, r ∈ rs → (∃ e, checkResultEvent snapshot r digest corr = Ok e ∧ recorded s' e) ∧
    (failing r = true → ∃ e, findingObservedEvent snapshot r digest corr = Ok e ∧ recorded s' e)) ∧
  (∀ id, (∀ r, r ∈ rs → id ≠ checkFindingID r) →
     store_CurrentFinding s' id = store_CurrentFinding s id) ∧
  ((∀ r e, r ∈ rs → finding_event r e → ¬ recorded s e) → ∀ r, r ∈ rs → outcome r s s').
Proof.
  intros Hrs. revert s. induction Hrs as [|r rs Hr Hrs IH]; intros s Hd Hs Hi.
  { injection Hi as <-. split_and!; try done; try apply grows_refl; set_solver. }
  cbn [ingest_results] in Hi. apply eff_bind_ok_inv in Hi as (s1 & [] & H1 & H2).
  rewrite fmap_cons in Hd. apply NoDup_cons in Hd as [Hn Hd].
  destruct (ingest_result_spec r s s1 Hr Hs H1) as (Hs1 & Hg1 & Hc1 & Ho1 & Hf1 & Hout1).
  destruct (IH s1 Hd Hs1 H2) as (Hs2 & Hg2 & Hc2 & Hf2 & Hout2).
  assert (∀ r', r' ∈ rs → checkFindingID r ≠ checkFindingID r') as Hne.
  { intros r' Hr' He. apply Hn. rewrite Forall_forall in Hrs.
    rewrite (checkFindingID_inj r r' Hr (Hrs _ Hr') He). by apply list_elem_of_fmap_2. }
  split_and!; [done| | | |].
  - eapply grows_trans; [eapply grows_mono; [|exact Hg1]|eapply grows_mono; [|exact Hg2]].
    + intros e He. exists r. split; [by left|done].
    + intros e (r' & Hr' & He). exists r'. split; [by right|done].
  - intros r' [->|Hr']%elem_of_cons; [|by apply Hc2]. split.
    + destruct Hc1 as (e & ? & ?). exists e. split; [done|by eapply grows_recorded].
    + intros Hf. destruct (Ho1 Hf) as (e & ? & ?). exists e. split; [done|by eapply grows_recorded].
  - intros id Hid. rewrite Hf2, Hf1; [done|apply Hid; by left|]. intros r' Hr'. apply Hid. by right.
  - intros Hfresh r' [->|Hr']%elem_of_cons.
    + assert (outcome r s s1) as Hout by (apply Hout1; intros e; apply Hfresh; by left).
      unfold outcome in *. rewrite Hf2 by done. done.
    + assert (outcome r' s1 s') as Hout.
      { apply Hout2; [|done]. intros r2 e Hr2 He Hrec.
        destruct (grows_inv _ _ _ _ Hg1 Hrec) as [Ho|Hx]; [by eapply (Hfresh r2); [right|..]|].
        apply (Hne r2 Hr2). rewrite Forall_forall in Hrs. apply (events_apart r r2 e); auto. }
      unfold outcome in *. by rewrite Hf1 in Hout by (intros He; by apply (Hne r')).
Qed.
End scan.

(** ** The whole ingestion *)

Definition ingestible (snapshot : ScanSnapshot) : Prop :=
  snapshot_ok snapshot ∧ encodable snapshot ∧ wf (Metadata snapshot).

Lemma digest_of snapshot : ingestible snapshot →
  ∃ digest, SnapshotDigest snapshot = Ok digest ∧ is_ascii digest = true.
Proof.
  intros (Hok & Henc & _). destruct (SnapshotDigest_text snapshot Hok Henc) as (t & _ & -> & _).
  eexists. split; [done|]. apply digest_ascii.
Qed.

Definition completed_id (digest : string) : string :=
  deterministicEventID digest ["scan.completed"].

(** What a successful ingestion did: nothing, because the completed event was
    there, or all the results and then the completed event. *)
Lemma IngestScan_inv fuel snapshot s s' env digest completed :
  ingestible snapshot → store_ok s → (length (store_log s) < fuel)%nat →
  SnapshotDigest snapshot = Ok digest → scanCompletedEvent snapshot digest (corr digest) = Ok completed →
  Event_ID completed = completed_id digest →
  IngestScan fuel snapshot s = (s', Ok env) →
  (s' = s ∧ env = ingest_envelope snapshot digest true ∧
     ∃ e, recorded s e ∧ Event_ID e = completed_id digest ∧ Marshal e = Marshal completed) ∨
  (env = ingest_envelope snapshot digest false ∧ ∃ s1,
     ingest_results snapshot digest (corr digest) (sortResults (Results snapshot)) s = (s1, Ok tt) ∧
     append "append completed scan: %w" completed s1 = (s', Ok tt)).
Proof.
  intros (Hok & Henc & Hm) Hs Hf Hd Hc Hid Hi. unfold IngestScan in Hi.
  apply eff_bind_ok_inv in Hi as (? & [] & [-> _]%pure_ok_inv & Hi).
  apply eff_bind_ok_inv in Hi as (? & d & [-> E]%pure_ok_inv & Hi).
  rewrite Hd in E. injection E as <-. cbn zeta in Hi. fold (corr digest) in Hi.
  apply eff_bind_ok_inv in Hi as (? & c & [-> E]%pure_ok_inv & Hi).
  rewrite Hc in E. injection E as <-.
  apply eff_bind_ok_inv in Hi as (? & o & [= <- E] & Hi).
  rewrite Hid, eventByID_found in E by done. injection E as <-.
  destruct (found _ _) as [r|] eqn:Ef.
  - left. apply found_Some in Ef as [Hr Hrid].
    destruct (Marshal (REvent r)) as [t1|] eqn:E1, (Marshal completed) as [t2|] eqn:E2; try done.
    destruct (String.eqb_spec t1 t2) as [->|]; [|done]. injection Hi as <- <-.
    split_and!; [done..|]. exists (REvent r). split_and!; [by exists r|done|congruence].
  - right. apply eff_bind_ok_inv in Hi as (s1 & [] & H1 & Hi).
    apply eff_bind_ok_inv in Hi as (s2 & [] & H2 & Hi). injection Hi as <- <-.
    split; [done|]. by exists s1.
Qed.

Lemma sorted_results snapshot : ingestible snapshot →
  let rs := sortResults (Results snapshot) in
  Forall is_result rs ∧ NoDup (result_key <$> rs) ∧ ∀ r, r ∈ rs ↔ r ∈ Results snapshot.
Proof.
  intros (Hok & Henc & _) rs. assert (rs ≡ₚ Results snapshot) as HP.
  { unfold rs. rewrite sortResults_sort_by. apply sort_by_perm. }
  split_and!.
  - apply Forall_forall. intros r Hr. rewrite HP in Hr. by apply (result_in snapshot).
  - rewrite HP. apply Hok.
  - intros r. by rewrite HP.
Qed.

(** The same submission: the results may come in another order. *)
Definition resubmission (s1 s2 : ScanSnapshot) : Prop :=
  Snap_SchemaVersion s1 = Snap_SchemaVersion s2 ∧ Metadata s1 = Metadata s2 ∧
  Results s1 ≡ₚ Results s2.

Lemma resubmission_same s1 s2 : resubmission s1 s2 → same_scan s1 s2.
Proof. intros (H1 & H2 & H3). split_and!; [done|by rewrite H2|done]. Qed.

Lemma scanCounts_perm l1 l2 : l1 ≡ₚ l2 → scanCounts l1 = scanCounts l2.
Proof.
  unfold scanCounts. generalize {| Count_OK := 0; Count_Warn := 0; Count_Critical := 0;
    Count_Skipped := 0; Count_Error := 0 |} as c.
  intros c HP. revert c. induction HP as [|r l1 l2 _ IH|r1 r2 l|l1 l2 l3 _ IH1 _ IH2]; intros c;
    cbn [foldl]; [done|apply IH| |by rewrite IH1].
  f_equal. unfold count_one. cbn. f_equal; lia.
Qed.

Lemma completed_same s1 s2 digest c : resubmission s1 s2 →
  scanCompletedEvent s1 digest c = scanCompletedEvent s2 digest c.
Proof.
  intros (_ & Hm & HP). unfold scanCompletedEvent, bridgeEvent.
  by rewrite Hm, (scanCounts_perm _ _ HP).
Qed.

Lemma resubmission_ok s1 s2 : resubmission s1 s2 → ingestible s1 → ingestible s2.
Proof.
  intros HR (H1 & (H2 & H3) & H4). pose proof (resubmission_same _ _ HR) as HS.
  destruct HR as (_ & Hm & HP). split; [by apply (snapshot_ok_same s1 s2 HS)|].
  unfold encodable. by rewrite <-Hm, <-HP.
Qed.

Lemma IngestScan_store_ok fuel snapshot s s' env :
  ingestible snapshot → store_ok s → (length (store_log s) < fuel)%nat →
  IngestScan fuel snapshot s = (s', Ok env) → store_ok s'.
Proof.
  intros Hin Hs Hf Hi. destruct (digest_of snapshot Hin) as (digest & Hd & Hdig).
  pose proof Hin as (Hok & Henc & Hm).
  destruct (completed_event snapshot digest Hok Henc Hdig Hm) as (c & Hc & Hokc & Hb).
  destruct (IngestScan_inv _ _ _ _ _ _ _ Hin Hs Hf Hd Hc (be_id _ _ _ _ _ _ Hb) Hi)
    as [(-> & _)|(_ & sm & Hr & Ha)]; [done|].
  destruct (sorted_results snapshot Hin) as (Hrs & Hnd & _).
  destruct (ingest_results_spec snapshot digest Hok Henc Hdig _ _ _ Hrs Hnd Hs Hr) as (Hsm & _).
  by destruct (append_step _ _ _ _ Hsm Hokc Ha).
Qed.

(** C17. A scan is ingested once: after a successful ingestion, the same scan
    submitted again, its results in any order and the store grown meanwhile,
    succeeds as already ingested, with the same ids and count, and leaves the
    store as it is. *)
Theorem IngestScan_once fuel snapshot s s1 env s2 fuel2 snapshot2 :
  ingestible snapshot → store_ok s → (length (store_log s) < fuel)%nat →
  IngestScan fuel snapshot s = (s1, Ok env) →
  store_ok s2 → (∀ e, recorded s1 e → recorded s2 e) → (length (store_log s2) < fuel2)%nat →
  resubmission snapshot snapshot2 →
  IngestScan fuel2 snapshot2 s2 = (s2, Ok {|
    Env_Schema := Env_Schema env; Env_SchemaVersion := Env_SchemaVersion env;
    SnapshotID := SnapshotID env; Env_CorrelationID := Env_CorrelationID env;
    Env_Results := Env_Results env; AlreadyIngested := true |}).
Proof.
  intros Hin Hs Hf Hi Hs2 Hrec Hf2 HR. destruct (digest_of snapshot Hin) as (digest & Hd & Hdig).
  pose proof Hin as (Hok & Henc & Hm). pose proof (resubmission_ok _ _ HR Hin) as (Hok2 & _).
  destruct (completed_event snapshot digest Hok Henc Hdig Hm) as (c & Hc & Hokc & Hb).
  pose proof (be_id _ _ _ _ _ _ Hb) as Hid.
  assert (∃ e, recorded s1 e ∧ Event_ID e = completed_id digest ∧ Marshal e = Marshal c)
    as (e & He & Heid & Hem).
  { destruct (IngestScan_inv _ _ _ _ _ _ _ Hin Hs Hf Hd Hc Hid Hi) as [(-> & _ & H0)|(_ & sm & Hr & Ha)];
      [done|]. destruct (sorted_results snapshot Hin) as (Hrs & Hnd & _).
    destruct (ingest_results_spec snapshot digest Hok Henc Hdig _ _ _ Hrs Hnd Hs Hr) as (Hsm & _).
    destruct (append_step _ _ _ _ Hsm Hokc Ha) as (_ & Hcr & _). by exists c. }
  assert (env = ingest_envelope snapshot digest (AlreadyIngested env)) as ->.
  { by destruct (IngestScan_inv _ _ _ _ _ _ _ Hin Hs Hf Hd Hc Hid Hi) as [(_ & -> & _)|(-> & _)]. }
  unfold IngestScan. rewrite (proj2 (snapshot_valid _) Hok2).
  rewrite <-(SnapshotDigest_same _ _ Hok (resubmission_same _ _ HR)), Hd.
  rewrite !pure_bind. fold (corr digest).
  rewrite <-(completed_same _ _ digest (corr digest) HR), Hc, pure_bind.
  destruct (Hrec e He) as (r & Hr & Hre).
  rewrite (query_bind _ _ _ (Some r)); cycle 1.
  { rewrite Hid, eventByID_found by done. f_equal.
    apply found_elem; [by apply law_ids|done|]. unfold record_id. by rewrite Hre. }
  destruct (Marshal_Unmarshal c (proj1 Hokc)) as (t & Ht & _).
  rewrite Hre, Hem, Ht, String.eqb_refl. destruct HR as (_ & _ & HP).
  unfold ingest_envelope. by rewrite HP.
Qed.

(** A first successful ingestion records, after what the log held, the
    check event of every result, the observation of every warn, critical or
    error result, and the completed event, and no event that is not one of
    these or a resolution of one of its results. *)
Theorem IngestScan_records fuel snapshot s s' env :
  ingestible snapshot → store_ok s → (length (store_log s) < fuel)%nat →
  IngestScan fuel snapshot s = (s', Ok env) → AlreadyIngested env = false →
  ∃ digest completed, SnapshotDigest snapshot = Ok digest ∧
    scanCompletedEvent snapshot digest ("scan:" +:+ digest) = Ok completed ∧
    store_ok s' ∧ recorded s' completed ∧
    grows (λ e, e = completed ∨ ∃ r, r ∈ Results snapshot ∧ result_event snapshot digest r e) s s' ∧
    ∀ r, r ∈ Results snapshot →
      (∃ e, checkResultEvent snapshot r digest ("scan:" +:+ digest) = Ok e ∧ recorded s' e) ∧
      (Status r ∈ [CheckStatusWarn; CheckStatusCritical; CheckStatusError] →
       ∃ e, findingObservedEvent snapshot r digest ("scan:" +:+ digest) = Ok e ∧ recorded s' e).
Proof.
  intros Hin Hs Hf Hi Hal. destruct (digest_of snapshot Hin) as (digest & Hd & Hdig).
  pose proof Hin as (Hok & Henc & Hm).
  destruct (completed_event snapshot digest Hok Henc Hdig Hm) as (c & Hc & Hokc & Hb).
  destruct (IngestScan_inv _ _ _ _ _ _ _ Hin Hs Hf Hd Hc (be_id _ _ _ _ _ _ Hb) Hi)
    as [(_ & -> & _)|(_ & sm & Hr & Ha)]; [done|].
  destruct (sorted_results snapshot Hin) as (Hrs & Hnd & Hel).
  destruct (ingest_results_spec snapshot digest Hok Henc Hdig _ _ _ Hrs Hnd Hs Hr) as (Hsm & Hg & He & _).
  destruct (append_step _ _ _ _ Hsm Hokc Ha) as (Hs' & Hcr & Hg' & _).
  exists digest, c. split_and!; [done..| |].
  - eapply grows_trans; [eapply grows_mono; [|exact Hg]|eapply grows_mono; [|exact Hg']].
    + intros e (r & Hr' & He'). right. exists r. by rewrite <-Hel.
    + intros e ->. by left.
  - intros r Hr'. apply Hel in Hr'. destruct (He r Hr') as ((e & He1 & He2) & Ho). split.
    + exists e. split; [done|by eapply grows_recorded].
    + intros Hst. destruct Ho as (e' & He1' & He2'); [by apply one_of_elem|].
      exists e'. split; [done|by eapply grows_recorded].
Qed.

(** C34. What the first ingestion of a scan does to the findings: a warn,
    critical or error result leaves its finding known and not resolved, an ok
    result leaves it resolved or still unknown, a skipped one leaves it as it
    was, and no other finding changes. *)
Theorem IngestScan_findings fuel snapshot s s' env digest :
  ingestible snapshot → store_ok s → (length (store_log s) < fuel)%nat →
  IngestScan fuel snapshot s = (s', Ok env) → AlreadyIngested env = false →
  SnapshotDigest snapshot = Ok digest →
  (∀ e, recorded s e → CorrelationID e ≠ "scan:" +:+ digest) →
  (∀ r, r ∈ Results snapshot →
     let id := checkFindingID r in
     (Status r ∈ [CheckStatusWarn; CheckStatusCritical; CheckStatusError] →
        ∃ f, store_CurrentFinding s' id = Ok f ∧ State f ≠ FindingResolved) ∧
     (Status r = CheckStatusOK →
        match store_CurrentFinding s' id with
        | Ok f => State f = FindingResolved
        | Err e => errors_is e "finding not found" = true ∧ store_CurrentFinding s id = Err e
        end) ∧
     (Status r = CheckStatusSkip → store_CurrentFinding s' id = store_CurrentFinding s id)) ∧
  (∀ id, (∀ r, r ∈ Results snapshot → id ≠ checkFindingID r) →
     store_CurrentFinding s' id = store_CurrentFinding s id).
Proof.
  intros Hin Hs Hf Hi Hal Hd Hfresh. pose proof Hin as (Hok & Henc & Hm).
  destruct (digest_of snapshot Hin) as (d & Hd' & Hdig). rewrite Hd in Hd'. injection Hd' as <-.
  destruct (completed_event snapshot digest Hok Henc Hdig Hm) as (c & Hc & Hokc & Hb).
  destruct (IngestScan_inv _ _ _ _ _ _ _ Hin Hs Hf Hd Hc (be_id _ _ _ _ _ _ Hb) Hi)
    as [(_ & -> & _)|(_ & sm & Hr & Ha)]; [done|].
  destruct (sorted_results snapshot Hin) as (Hrs & Hnd & Hel).
  destruct (ingest_results_spec snapshot digest Hok Henc Hdig _ _ _ Hrs Hnd Hs Hr)
    as (Hsm & _ & _ & Hother & Hout).
  destruct (append_step _ _ _ _ Hsm Hokc Ha) as (_ & _ & _ & Hsame & _).
  assert (∀ id, store_CurrentFinding s' id = store_CurrentFinding sm id) as Hlast.
  { intros id. apply Hsame. left. unfold IsFindingLifecycle. by rewrite (be_type _ _ _ _ _ _ Hb). }
  split.
  - intros r Hr' id. rewrite Hlast. apply Hel in Hr'.
    assert (outcome r s sm) as Ho.
    { apply Hout; [|done]. intros r2 e Hr2 He Hrec. apply (Hfresh e Hrec). rewrite Forall_forall in Hrs.
      apply (finding_event_correlation snapshot digest Hok Henc Hdig r2); auto. }
    unfold outcome, failing in Ho. fold id in Ho. split_and!.
    + intros Hst. by rewrite (proj2 (one_of_elem _ _) Hst) in Ho.
    + intros Hst. by rewrite Hst in Ho.
    + intros Hst. by rewrite Hst in Ho.
  - intros id Hid. rewrite Hlast. apply Hother. intros r Hr'. apply Hid. by apply Hel.
Qed.
End facts.

(** ** The queries *)

Section queries.
Context {S : Type} `{HI : IngestStore S, !StoreLaws S}.

Lemma limit_ok limit : 1 ≤ limit ≤ 1000 ↔ ValidateQueryLimit limit = Ok tt.
Proof.
  unfold ValidateQueryLimit, MaxQueryLimit.
  destruct ((limit <? 1) || (1000 <? limit)) eqn:E; cbn [fail_if]; split; intros; try done; lia.
Qed.

(** [History] answers a limit from 1 to 1000 with the first events of the
    log, that many or all of them, in order and counted; another limit is
    refused. *)
Theorem History_spec s limit :
  store_ok s →
  if decide (1 ≤ limit ≤ 1000) then
    History s limit = Ok {|
      His_Schema := HistorySchema; His_SchemaVersion := HistorySchemaVersion; His_Limit := limit;
      His_Count := Z.min limit (Z.of_nat (length (store_log s)));
      His_Events := take (Z.to_nat limit) (store_log s) |}
  else is_ok (History s limit) = false.
Proof.
  intros Hs. unfold History. case_decide as Hl.
  - rewrite (proj1 (limit_ok limit) Hl), bind_ok, law_read by (done || lia). rewrite filter_all.
    + cbn [map_err mbind result_bind]. rewrite length_take. do 2 f_equal. lia.
    + destruct (law_sequences s Hs) as [_ Hp]. eapply Forall_impl; [exact Hp|].
      intros r Hr. cbn in *. by apply Z.ltb_lt.
  - destruct (ValidateQueryLimit limit) as [[]|] eqn:E; [|done]. by apply limit_ok in E.
Qed.

(** [Findings] answers a limit from 1 to 1000 with the leading current
    findings in the order of [SortFindings]: most severe first, then latest,
    then by id; all the current findings stand in that order, each once, and
    another limit is refused. *)
Theorem Findings_spec s limit :
  store_ok s →
  if decide (1 ≤ limit ≤ 1000) then
    ∃ all, NoDup (Finding_ID <$> all) ∧
      (∀ f, f ∈ all ↔ store_CurrentFinding s (Finding_ID f) = Ok f) ∧
      StronglySorted (λ a b, finding_less b a = false) all ∧
      Findings s limit = Ok {|
        Fnd_Schema := FindingsSchema; Fnd_SchemaVersion := FindingsSchemaVersion;
        Fnd_Limit := limit; Fnd_Count := Z.min limit (Z.of_nat (length all));
        Fnd_Findings := take (Z.to_nat limit) all |}
  else is_ok (Findings s limit) = false.
Proof.
  intros Hs. unfold Findings. case_decide as Hl.
  - rewrite (proj1 (limit_ok limit) Hl), bind_ok.
    destruct (law_list s Hs) as (fs & -> & Hn & Hv & Hin). cbn [map_err mbind result_bind].
    destruct (SortFindings_sorted fs) as (HP & Hsort & _); [by apply Forall_forall|done|].
    exists (SortFindings fs). split_and!; [by rewrite HP|intros f; by rewrite HP, Hin|done|].
    destruct (Z.ltb_spec limit (Z.of_nat (length (SortFindings fs)))) as [Hlt|Hge].
    + rewrite length_take. do 2 f_equal. lia.
    + rewrite take_ge by lia. do 2 f_equal. lia.
  - destruct (ValidateQueryLimit limit) as [[]|] eqn:E; [|done]. by apply limit_ok in E.
Qed.
End queries.
