(* ===== verification/BridgeDemo.v ===== *)
(** * A concrete scan

    A scan in the tab-separated format, parsed, digested with SHA-256 and
    ingested into an empty journal: the witnesses of the bridge's theorems. *)

From S2P Require Import Prelude GoString Calendar GoTime Json JsonCompact Model ModelJson.
From S2P Require Import Journal JournalFindings GoCrypto GoLib Scan ScanFacts Ingest BridgeEvents.
From S2P Require Import ScanText IngestFacts.
#[local] Open Scope Z_scope.

Definition newline : ascii := "010".
Definition row (l : list string) : string :=
  String.concat (String tab "") l +:+ String newline "".

Definition demo_text : string :=
  row ["schema"; "1"] +:+ row ["meta"; "timestamp"; "2026-01-02T03:04:05Z"] +:+
  row ["meta"; "version"; "1.2.3"] +:+ row ["meta"; "platform"; "macos"] +:+
  row ["meta"; "source"; "cli"] +:+ row ["meta"; "exit"; "2"] +:+ row ["meta"; "fda"; "true"] +:+
  row ["result"; "network"; "firewall"; "critical"; "critical"; "Firewall is off"; "Turn it on"; ""] +:+
  row ["detail"; "anything"] +:+
  row ["result"; "disk"; "filevault"; "ok"; "info"; "On"; ""; ""] +:+
  row ["result"; "disk"; "backup"; "skip"; "info"; "Not run"; ""; "guides/backup.md"].

(** 2026-01-02T03:04:05Z *)
Definition demo_time : Time := mkTime 63902919845000000000 0.

Definition demo_metadata : ScanMetadata := {|
  Timestamp := demo_time; Meta_UpdatedAt := demo_time; Version := "1.2.3"; Platform := "macos";
  Source := "cli"; Scope := ScanScopeFull; Exit := 2; FDA := true; PublicIP := "" |}.

Definition demo_row (category name status severity summary remediation guide : string) : CheckResult :=
  {| Res_Category := category; Name := name; Status := status; Res_Severity := severity;
     Res_Summary := summary; Res_Remediation := remediation; Guide := guide |}.
Definition firewall := demo_row "network" "firewall" "critical" "critical" "Firewall is off" "Turn it on" "".
Definition filevault := demo_row "disk" "filevault" "ok" "info" "On" "" "".
Definition backup := demo_row "disk" "backup" "skip" "info" "Not run" "" "guides/backup.md".

Definition demo_scan : ScanSnapshot := {|
  Snap_SchemaVersion := 1; Metadata := demo_metadata; Results := [firewall; filevault; backup] |}.
Definition demo_reordered : ScanSnapshot := {|
  Snap_SchemaVersion := 1; Metadata := demo_metadata; Results := [backup; filevault; firewall] |}.

Example ParseScan_demo : ParseScan (Some (Ok demo_text)) = Ok demo_scan.
Proof. vm_compute. reflexivity. Qed.

Lemma utf8_forallb l : forallb valid_utf8 l = true → utf8 l.
Proof.
  intros H. apply Forall_forall. intros x Hx.
  apply (proj1 (forallb_forall _ _) H), list_elem_of_In, Hx.
Qed.

Lemma demo_rows_ingestible rs :
  ScanSnapshot_Validate {| Snap_SchemaVersion := 1; Metadata := demo_metadata; Results := rs |} = Ok tt →
  Forall wf rs → ingestible {| Snap_SchemaVersion := 1; Metadata := demo_metadata; Results := rs |}.
Proof.
  intros Hv Hrs. assert (wf demo_metadata) as Hm.
  { split; [vm_compute; reflexivity|]. split; [vm_compute; reflexivity|].
    split; [cbn; unfold max_int64; lia|]. apply utf8_forallb. vm_compute. reflexivity. }
  split; [by apply snapshot_valid|]. split; [by split|exact Hm].
Qed.

Lemma demo_ingestible : ingestible demo_scan.
Proof. apply demo_rows_ingestible; [vm_compute; reflexivity|repeat constructor]. Qed.

Lemma demo_resubmission : resubmission demo_scan demo_reordered.
Proof.
  split; [reflexivity|]. split; [reflexivity|].
  change ([firewall; filevault; backup] ≡ₚ [backup; filevault; firewall]).
  rewrite <-(reverse_Permutation [firewall; filevault; backup]). reflexivity.
Qed.

Definition demo_digest : string :=
  "80f44cabf96720f52e431460f0bc2fd6b9017666239cf2502c705d63b8e8a82e".

Example SnapshotDigest_demo : SnapshotDigest demo_scan = Ok demo_digest.
Proof. vm_compute. reflexivity. Qed.

Definition demo_store : Store := (IngestScan 10 demo_scan empty_store).1.

Definition demo_envelope : IngestEnvelope := ingest_envelope demo_scan demo_digest false.

Lemma demo_ingested : IngestScan 10 demo_scan empty_store = (demo_store, Ok demo_envelope).
Proof.
  assert ((IngestScan 10 demo_scan empty_store).2 = Ok demo_envelope) as H
    by (vm_compute; reflexivity).
  unfold demo_store. destruct (IngestScan 10 demo_scan empty_store) as [s r].
  cbn [fst snd] in *. by rewrite H.
Qed.

Lemma demo_fuel : (length (store_log empty_store) < 10)%nat.
Proof. cbn. lia. Qed.

Lemma demo_store_ok : store_ok demo_store.
Proof.
  exact (IngestScan_store_ok 10 demo_scan empty_store demo_store demo_envelope
    demo_ingestible journal_ok_empty demo_fuel demo_ingested).
Qed.

Lemma demo_store_fuel : (length (store_log demo_store) < 10)%nat.
Proof. apply Nat.ltb_lt. vm_compute. reflexivity. Qed.

(** A scan without the last result is another scan. *)
Definition demo_shorter : ScanSnapshot := {|
  Snap_SchemaVersion := 1; Metadata := demo_metadata; Results := [firewall; filevault] |}.

Lemma reordered_ingestible : ingestible demo_reordered.
Proof. apply demo_rows_ingestible; [vm_compute; reflexivity|repeat constructor]. Qed.
Lemma shorter_ingestible : ingestible demo_shorter.
Proof. apply demo_rows_ingestible; [vm_compute; reflexivity|repeat constructor]. Qed.

Lemma shorter_differs : ¬ same_scan demo_scan demo_shorter.
Proof. intros (_ & _ & Hp). by apply Permutation_length in Hp. Qed.

Lemma SnapshotDigest_identity_witness :
  (∃ t1 t2, SnapshotDigest demo_scan = Ok (hex_encode (Sum256 t1)) ∧
    SnapshotDigest demo_reordered = Ok (hex_encode (Sum256 t2)) ∧ t1 = t2) ∧
  (∃ t1 t2, SnapshotDigest demo_scan = Ok (hex_encode (Sum256 t1)) ∧
    SnapshotDigest demo_shorter = Ok (hex_encode (Sum256 t2)) ∧ t1 ≠ t2).
Proof.
  destruct (SnapshotDigest_identity demo_scan demo_reordered (proj1 demo_ingestible) (proj1 (proj2 demo_ingestible))
    (proj1 reordered_ingestible) (proj1 (proj2 reordered_ingestible))) as (t1 & t2 & H1 & H2 & Hsame).
  destruct (SnapshotDigest_identity demo_scan demo_shorter (proj1 demo_ingestible) (proj1 (proj2 demo_ingestible))
    (proj1 shorter_ingestible) (proj1 (proj2 shorter_ingestible))) as (u1 & u2 & K1 & K2 & Hother).
  split.
  - exists t1, t2. split; [exact H1|]. split; [exact H2|].
    apply Hsame. apply resubmission_same. exact demo_resubmission.
  - exists u1, u2. split; [exact K1|]. split; [exact K2|]. intros E. apply shorter_differs. by apply Hother.
Defined.

Lemma IngestScan_once_witness :
  IngestScan 10 demo_reordered demo_store = (demo_store, Ok {|
    Env_Schema := Env_Schema demo_envelope; Env_SchemaVersion := Env_SchemaVersion demo_envelope;
    SnapshotID := SnapshotID demo_envelope; Env_CorrelationID := Env_CorrelationID demo_envelope;
    Env_Results := Env_Results demo_envelope; AlreadyIngested := true |}).
Proof.
  apply (IngestScan_once 10 demo_scan empty_store demo_store demo_envelope demo_store 10).
  - exact demo_ingestible.
  - exact journal_ok_empty.
  - exact demo_fuel.
  - exact demo_ingested.
  - exact demo_store_ok.
  - intros e He. exact He.
  - exact demo_store_fuel.
  - exact demo_resubmission.
Defined.

Lemma IngestScan_records_witness :
  ∃ digest completed, SnapshotDigest demo_scan = Ok digest ∧
    scanCompletedEvent demo_scan digest ("scan:" +:+ digest) = Ok completed ∧
    store_ok demo_store ∧ recorded demo_store completed ∧
    grows (λ e, e = completed ∨ ∃ r, r ∈ Results demo_scan ∧ result_event demo_scan digest r e)
      empty_store demo_store ∧
    ∀ r, r ∈ Results demo_scan →
      (∃ e, checkResultEvent demo_scan r digest ("scan:" +:+ digest) = Ok e ∧ recorded demo_store e) ∧
      (Status r ∈ [CheckStatusWarn; CheckStatusCritical; CheckStatusError] →
       ∃ e, findingObservedEvent demo_scan r digest ("scan:" +:+ digest) = Ok e ∧
         recorded demo_store e).
Proof.
  apply (IngestScan_records 10 demo_scan empty_store demo_store demo_envelope).
  - exact demo_ingestible.
  - exact journal_ok_empty.
  - exact demo_fuel.
  - exact demo_ingested.
  - reflexivity.
Defined.

Lemma IngestScan_findings_witness :
  (∃ f, CurrentFinding demo_store "check:network/firewall" = Ok f ∧ State f ≠ FindingResolved) ∧
  CurrentFinding demo_store "check:disk/backup" = CurrentFinding empty_store "check:disk/backup".
Proof.
  destruct (IngestScan_findings 10 demo_scan empty_store demo_store demo_envelope demo_digest)
    as [H1 _].
  - exact demo_ingestible.
  - exact journal_ok_empty.
  - exact demo_fuel.
  - exact demo_ingested.
  - reflexivity.
  - exact SnapshotDigest_demo.
  - intros e (r & Hr & _). by apply not_elem_of_nil in Hr.
  - split.
    + destruct (H1 firewall ltac:(by left)) as [Hf _]. apply Hf. apply one_of_elem. reflexivity.
    + destruct (H1 backup ltac:(by right; right; left)) as (_ & _ & Hb). by apply Hb.
Defined.

Lemma History_spec_witness :
  History demo_store 2 = Ok {|
    His_Schema := HistorySchema; His_SchemaVersion := HistorySchemaVersion; His_Limit := 2;
    His_Count := Z.min 2 (Z.of_nat (length (store_log demo_store)));
    His_Events := take 2 (store_log demo_store) |} ∧ is_ok (History demo_store 1001) = false.
Proof. split; [exact (History_spec demo_store 2 demo_store_ok)|exact (History_spec demo_store 1001 demo_store_ok)]. Defined.

Lemma Findings_spec_witness :
  ∃ all, NoDup (Finding_ID <$> all) ∧
    (∀ f, f ∈ all ↔ store_CurrentFinding demo_store (Finding_ID f) = Ok f) ∧
    StronglySorted (λ a b, finding_less b a = false) all ∧
    Findings demo_store 1 = Ok {|
      Fnd_Schema := FindingsSchema; Fnd_SchemaVersion := FindingsSchemaVersion;
      Fnd_Limit := 1; Fnd_Count := Z.min 1 (Z.of_nat (length all));
      Fnd_Findings := take 1 all |}.
Proof. exact (Findings_spec demo_store 1 demo_store_ok). Defined.

Lemma ParseScan_print_witness : ParseScan (Some (Ok (print_scan demo_scan))) = Ok demo_scan.
Proof.
  apply (ParseScan_print demo_scan).
  - vm_compute. reflexivity.
  - split; [reflexivity|]. split; [reflexivity|]. split; [vm_compute; reflexivity|].
    split; vm_compute; reflexivity.
  - repeat first [apply Forall_nil_2 | apply Forall_cons_2]; vm_compute; reflexivity.
  - apply Z.leb_le. vm_compute. reflexivity.
Defined.

(** A log of five records is searched in two reads. *)
Lemma eventByID_terminates_witness :
  ∃ r, eventByID 2 demo_store "absent" = Ok r ∧
    (∀ x, r = Some x ↔ x ∈ store_log demo_store ∧ record_id x = "absent") ∧
    (r = None ↔ "absent" ∉ record_id <$> store_log demo_store).
Proof.
  apply (eventByID_terminates demo_store "absent" 2 demo_store_ok).
  apply Z.ltb_lt. vm_compute. reflexivity.
Defined.
