(* ===== verification/Base64.v ===== *)
(** * encoding/base64

    [EncodeToString] of [RawURLEncoding], [RawStdEncoding] and [StdEncoding] and
    [DecodeString] of the latter two, of the Go standard library, on byte lists. *)

From S2P Require Import Prelude GoString Calendar GoCrypto.
#[local] Open Scope Z_scope.

(** The 64 characters: letters and digits, then the two of the variant. *)
Definition enc_char (c62 c63 v : Z) : ascii :=
  chr (if v <? 26 then 65 + v else if v <? 52 then 71 + v else if v <? 62 then v - 4
       else if v =? 62 then c62 else c63).

Definition dec_char (c62 c63 : Z) (c : ascii) : option Z :=
  let b := byte c in
  if between 65 90 b then Some (b - 65) else if between 97 122 b then Some (b - 71)
  else if between 48 57 b then Some (b + 4) else if b =? c62 then Some 62
  else if b =? c63 then Some 63 else None.

Fixpoint sextets (l : list Z) : list Z :=
  match l with
  | a :: b :: c :: l' =>
      a / 4 :: (a mod 4) * 16 + b / 16 :: (b mod 16) * 4 + c / 64 :: c mod 64 :: sextets l'
  | [a; b] => [a / 4; (a mod 4) * 16 + b / 16; (b mod 16) * 4]
  | [a] => [a / 4; (a mod 4) * 16]
  | [] => []
  end.

(** A lone sextet is corrupt input; the unused bits at the end are ignored. *)
Fixpoint octets (l : list Z) : option (list Z) :=
  match l with
  | p :: q :: r :: s :: l' =>
      rest ← octets l';
      Some (p * 4 + q / 16 :: (q mod 16) * 16 + r / 4 :: (r mod 4) * 64 + s :: rest)
  | [p; q; r] => Some [p * 4 + q / 16; (q mod 16) * 16 + r / 4]
  | [p; q] => Some [p * 4 + q / 16]
  | [_] => None
  | [] => Some []
  end.


Definition encode (c62 c63 : Z) (l : list Z) : string := of_chars (enc_char c62 c63 <$> sextets l).

(** Line feeds and carriage returns are skipped. *)
Definition decode (c62 c63 : Z) (s : string) : option (list Z) :=
  vs ← mapM (dec_char c62 c63)
         (filter (λ c, negb ((byte c =? 10) || (byte c =? 13)) = true) (chars s));
  octets vs.

Definition raw_url_encode : list Z → string := encode 45 95.
Definition raw_std_encode : list Z → string := encode 43 47.
Definition raw_std_decode : string → option (list Z) := decode 43 47.

(** [StdEncoding]: the last group is padded to four characters. *)
Definition padding (n : nat) : string :=
  match (n mod 3)%nat with 1%nat => "==" | 2%nat => "=" | _ => "" end.

Definition std_encode (l : list Z) : string := raw_std_encode l +:+ padding (length l).

(** The characters before at most two equals signs at the end. *)
Definition unpad (cs : list ascii) : list ascii :=
  match reverse cs with
  | "="%char :: "="%char :: rest => reverse rest
  | "="%char :: rest => reverse rest
  | _ => cs
  end.

Definition std_decode (s : string) : option (list Z) :=
  let cs := filter (λ c, negb ((byte c =? 10) || (byte c =? 13)) = true) (chars s) in
  if negb (length cs mod 4 =? 0)%nat then None
  else vs ← mapM (dec_char 43 47) (unpad cs); octets vs.

Example std_example : std_encode [251; 255; 254; 1] = "+//+AQ==".
Proof. vm_compute. reflexivity. Qed.
Example std_decode_example :
  std_decode <$> ["+//+AQ=="; "+//+AQ="; "+//+A==="; "AA=A"; "QUI="; ""] =
    [Some [251; 255; 254; 1]; None; None; None; Some [65; 66]; Some []].
Proof. vm_compute. reflexivity. Qed.

Example encode_example : raw_std_encode [0; 16; 131; 16; 81; 135; 32; 146; 139; 48; 211; 143]
  = "ABCDEFGHIJKLMNOP".
Proof. vm_compute. reflexivity. Qed.
Example encode_example_tail : raw_url_encode [251; 255; 254; 1] = "-__-AQ".
Proof. vm_compute. reflexivity. Qed.

(** ** Properties *)

Lemma sextet_forall (P : Z → bool) v :
  forallb P (Z.of_nat <$> seq 0 64) = true → 0 ≤ v < 64 → P v = true.
Proof.
  intros H Hv. apply (proj1 (forallb_forall _ _) H), list_elem_of_In, list_elem_of_fmap.
  exists (Z.to_nat v). split; [lia|]. apply elem_of_seq. lia.
Qed.

(** Induction along the groups of three. *)
Lemma group_ind (P : list Z → Prop) :
  P [] → (∀ a, P [a]) → (∀ a b, P [a; b]) →
  (∀ a b c l, P l → P (a :: b :: c :: l)) → ∀ l, P l.
Proof.
  intros H0 H1 H2 H3 l. assert (P l ∧ (∀ a, P (a :: l)) ∧ (∀ a b, P (a :: b :: l))) as [? _]; [|done].
  induction l as [|x l (IH1 & IH2 & IH3)]; [done|]. split_and!; eauto.
Qed.

Lemma sextets_range l : is_bytes l → Forall (λ v, 0 ≤ v < 64) (sextets l).
Proof.
  unfold is_bytes. induction l as [|a|a b|a b c l IH] using group_ind; cbn;
    rewrite ?Forall_cons; intros; destruct_and?; split_and?; try zdiv; auto.
Qed.

Lemma octets_sextets l : is_bytes l → octets (sextets l) = Some l.
Proof.
  unfold is_bytes. induction l as [|a|a b|a b c l IH] using group_ind; cbn;
    rewrite ?Forall_cons; intros; destruct_and?; [done|..].
  - repeat f_equal. zdiv.
  - repeat f_equal; zdiv.
  - rewrite IH by done. cbn. repeat f_equal; zdiv.
Qed.

Lemma length_sextets l : Z.of_nat (length (sextets l)) = (8 * Z.of_nat (length l) + 5) / 6.
Proof.
  induction l as [|a|a b|a b c l IH] using group_ind; try done. cbn [sextets length].
  rewrite !Nat2Z.inj_succ, IH. zdiv.
Qed.

Lemma slen_encode x y l : slen (encode x y l) = (8 * Z.of_nat (length l) + 5) / 6.
Proof.
  rewrite <-length_sextets. unfold encode, slen. f_equal.
  induction (sextets l) as [|v vs IH]; [done|]. cbn. f_equal. exact IH.
Qed.

Lemma raw_std_decode_encode l : is_bytes l → raw_std_decode (raw_std_encode l) = Some l.
Proof.
  intros H. unfold raw_std_decode, decode, raw_std_encode, encode. rewrite chars_of.
  pose proof (sextets_range l H) as Hr. rewrite filter_all.
  - assert (mapM (dec_char 43 47) (enc_char 43 47 <$> sextets l) = Some (sextets l)) as ->;
      [|by apply octets_sextets].
    apply mapM_Some. induction Hr as [|v vs Hv _ IH]; [constructor|]. constructor; [|done].
    apply (sextet_forall (λ v, bool_decide (dec_char 43 47 (enc_char 43 47 v) = Some v)) v) in Hv;
      [by bool_prop|by vm_compute].
  - apply Forall_fmap. eapply Forall_impl; [exact Hr|]. intros v Hv.
    by apply (sextet_forall (λ v, negb ((byte (enc_char 43 47 v) =? 10) || (byte (enc_char 43 47 v) =? 13)))) in Hv;
      [|vm_compute].
Qed.

Lemma encode_inj l1 l2 : is_bytes l1 → is_bytes l2 →
  raw_url_encode l1 = raw_url_encode l2 → l1 = l2.
Proof.
  intros H1 H2. unfold raw_url_encode, encode. intros H.
  apply (f_equal chars) in H. rewrite !chars_of in H.
  pose proof (octets_sextets l1 H1) as E1. pose proof (octets_sextets l2 H2) as E2.
  pose proof (sextets_range l1 H1) as R1. pose proof (sextets_range l2 H2) as R2.
  assert (sextets l1 = sextets l2) as E; [|rewrite E in E1; congruence].
  clear -H R1 R2. revert H R2. generalize (sextets l2).
  induction R1 as [|v vs Hv _ IH]; intros [|w ws]; cbn; try done.
  intros [= Hc H] [Hw R2]%Forall_cons. f_equal; [|by apply IH].
  assert (dec_char 45 95 (enc_char 45 95 v) = dec_char 45 95 (enc_char 45 95 w)) as E by (by rewrite Hc).
  apply (sextet_forall (λ v, bool_decide (dec_char 45 95 (enc_char 45 95 v) = Some v))) in Hv, Hw;
    [bool_prop; congruence|by vm_compute..].
Qed.

(** The URL alphabet is made of identifier characters. *)
Lemma url_ident l : is_bytes l → forallb ident_rune (bytes (raw_url_encode l)) = true.
Proof.
  intros H. unfold raw_url_encode, encode.
  induction (sextets_range l H) as [|v vs Hv _ IH]; [done|].
  change (ident_rune (byte (enc_char 45 95 v)) && forallb ident_rune
    (bytes (of_chars (enc_char 45 95 <$> vs))) = true). rewrite IH, andb_true_r.
  by apply (sextet_forall (λ v, ident_rune (byte (enc_char 45 95 v)))) in Hv; [|vm_compute].
Qed.

Lemma url_all_runes l : is_bytes l → all_runes ident_rune (raw_url_encode l) = true.
Proof.
  intros H. unfold all_runes. rewrite is_ascii_runes; [by apply url_ident|].
  unfold is_ascii. apply forallb_forall. intros b Hb.
  apply (proj1 (forallb_forall _ _) (url_ident l H)) in Hb.
  apply ident_rune_ascii in Hb. by apply Z.ltb_lt.
Qed.

(** *** Padded text *)

Definition not_padding (c : ascii) : Prop := c ≠ "="%char ∧ negb ((byte c =? 10) || (byte c =? 13)) = true.

Lemma enc_char_plain v : 0 ≤ v < 64 → not_padding (enc_char 43 47 v).
Proof.
  intros Hv. apply (sextet_forall (λ v, bool_decide (not_padding (enc_char 43 47 v)))) in Hv.
  - by apply bool_decide_eq_true in Hv.
  - vm_compute. reflexivity.
Qed.

Lemma unpad_app cs k :
  (k ≤ 2)%nat → Forall not_padding cs → unpad (cs ++ replicate k "="%char) = cs.
Proof.
  intros Hk Hcs. unfold unpad. rewrite reverse_app, reverse_replicate.
  assert (Forall not_padding (reverse cs)) as Hr by by apply Forall_reverse.
  destruct k as [|[|[|k]]]; [| | |lia]; cbn [replicate app].
  - rewrite app_nil_r. destruct (reverse cs) as [|c rs]; [done|].
    apply Forall_cons in Hr as [[Hc _] _]. by destruct c as [[] [] [] [] [] [] [] []].
  - destruct (reverse cs) as [|c rs] eqn:E.
    + by rewrite <-(reverse_involutive cs), E.
    + apply Forall_cons in Hr as [[Hc _] _]. rewrite <-(reverse_involutive cs), E.
      by destruct c as [[] [] [] [] [] [] [] []].
  - apply reverse_involutive.
Qed.

Lemma length_padded l : ((length (sextets l) + String.length (padding (length l))) mod 4 = 0)%nat.
Proof.
  induction l as [|a|a b|a b c l IH] using group_ind; [done..|].
  cbn [sextets length]. assert (padding (S (S (S (length l)))) = padding (length l)) as ->.
  { unfold padding. by replace (S (S (S (length l))) mod 3)%nat with (length l mod 3)%nat
      by (change (S (S (S (length l)))) with (3 + length l)%nat; rewrite <-Nat.Div0.add_mod_idemp_l; done). }
  change (S (S (S (S (length (sextets l)))))) with (4 + length (sextets l))%nat.
  rewrite <-Nat.add_assoc, <-Nat.Div0.add_mod_idemp_l. exact IH.
Qed.

Lemma padding_chars n : ∃ k, (k ≤ 2)%nat ∧ chars (padding n) = replicate k "="%char ∧ String.length (padding n) = k.
Proof.
  unfold padding. destruct (n mod 3)%nat as [|[|[|]]]; [exists 0%nat|exists 2%nat|exists 1%nat|exists 0%nat];
    (split_and!; [lia|done|done]).
Qed.

Lemma std_decode_encode l : is_bytes l → std_decode (std_encode l) = Some l.
Proof.
  intros H. unfold std_decode, std_encode, raw_std_encode, encode.
  rewrite chars_app, chars_of. pose proof (length_padded l) as Hlen.
  destruct (padding_chars (length l)) as (k & Hk & -> & Hkl). rewrite Hkl in Hlen.
  pose proof (sextets_range l H) as Hr.
  assert (Forall not_padding (enc_char 43 47 <$> sextets l)) as Hcs.
  { apply Forall_fmap. eapply Forall_impl; [exact Hr|]. intros v. apply enc_char_plain. }
  cbv zeta. rewrite filter_all.
  - rewrite length_app, length_fmap, length_replicate, Hlen. cbn [Nat.eqb negb].
    rewrite unpad_app by done.
    assert (mapM (dec_char 43 47) (enc_char 43 47 <$> sextets l) = Some (sextets l)) as ->;
      [|by apply octets_sextets].
    apply mapM_Some. clear -Hr. induction Hr as [|v vs Hv _ IH]; [constructor|]. constructor; [|done].
    apply (sextet_forall (λ v, bool_decide (dec_char 43 47 (enc_char 43 47 v) = Some v)) v) in Hv;
      [by bool_prop|by vm_compute].
  - apply Forall_app. split; [by eapply Forall_impl; [exact Hcs|]; intros c []|].
    by apply Forall_replicate.
Qed.

Lemma encode_ascii l : is_bytes l → is_ascii (raw_std_encode l) = true.
Proof.
  intros H. unfold raw_std_encode, encode, is_ascii.
  induction (sextets_range l H) as [|v vs Hv _ IH]; [done|].
  change (ascii_byte (byte (enc_char 43 47 v)) &&
    forallb ascii_byte (bytes (of_chars (enc_char 43 47 <$> vs))) = true).
  rewrite IH, andb_true_r.
  by apply (sextet_forall (λ v, ascii_byte (byte (enc_char 43 47 v)))) in Hv; [|vm_compute].
Qed.

Lemma std_encode_ascii l : is_bytes l → is_ascii (std_encode l) = true.
Proof.
  intros H. unfold std_encode. rewrite is_ascii_app, encode_ascii by done.
  unfold padding. by destruct (length l mod 3)%nat as [|[|[|]]].
Qed.
