(* ===== verification/DemoCrypto.v ===== *)
(** * A hash and signatures for the worked runs

    Instances of [Hash] and [Ed25519], with their laws, that evaluate fast. *)

From S2P Require Import Prelude GoString GoCrypto.
#[local] Open Scope Z_scope.

(** ** A cheap hash for the worked runs

    An instance of [Hash] with its laws that evaluates faster than SHA-256: a
    polynomial checksum in eight bytes, padded to 32.  The worked runs of the
    controller and of the endpoint use it, since their theorems hold for every
    hash with [HashLaws]. *)

Definition checksum_value (t : string) : Z :=
  foldl (λ h c, (h * 257 + c + 1) mod 2305843009213693951) 7 (bytes t).

Definition checksum (t : string) : list Z :=
  let h := checksum_value t in
  ((λ k, h / 256 ^ k mod 256) <$> [0; 1; 2; 3; 4; 5; 6; 7]) ++ replicate 24 0.

Definition checksum_hash : Hash := checksum.

Lemma checksum_laws : @HashLaws checksum_hash.
Proof.
  constructor; [done|]. intros t. apply Forall_app. split.
  - apply Forall_fmap, Forall_true. intros k. cbn. pose proof (Z.mod_pos_bound (checksum_value t / 256 ^ k) 256). lia.
  - apply Forall_replicate. lia.
Qed.

(** ** Signatures for the worked runs

    A toy instance of [Ed25519] built on a hash, which satisfies its laws and
    evaluates: the signature is the hash of the message followed by the public
    key. *)

#[local] Existing Instances checksum_hash checksum_laws.

Definition toy_public (seed : list Z) : list Z := firstn 32 (seed ++ replicate 32 0).

Definition toy_bytes (l : list Z) : list Z := (λ b, b mod 256) <$> l.

Definition toy_sign (key : list Z) (m : string) : list Z := Sum256 m ++ toy_bytes (toy_public key).

#[local] Instance toy : Ed25519 := {
  ed_public seed := toy_bytes (toy_public seed);
  ed_sign := toy_sign;
  ed_verify public m signature := bool_decide (signature = Sum256 m ++ public);
}.

Lemma toy_length l : length (toy_bytes (toy_public l)) = 32%nat.
Proof.
  unfold toy_bytes, toy_public.
  rewrite length_fmap, length_firstn, length_app, length_replicate. lia.
Qed.

Lemma toy_is_bytes l : is_bytes (toy_bytes l).
Proof.
  apply Forall_fmap, Forall_true. intros x. cbn. pose proof (Z.mod_pos_bound x 256). lia.
Qed.

#[local] Instance toy_laws : Ed25519Laws.
Proof.
  constructor.
  - apply toy_length.
  - intros. apply toy_is_bytes.
  - intros key m. change (length (Sum256 m ++ toy_bytes (toy_public key)) = 64%nat).
    rewrite length_app, toy_length. by rewrite Sum256_length.
  - intros key m. apply Forall_app.
    split; [apply Sum256_bytes|apply toy_is_bytes].
  - intros seed m Hl _. cbn. apply bool_decide_eq_true. unfold toy_sign. do 2 f_equal.
    unfold ed_private, toy_public. cbn. rewrite <-Hl.
    rewrite (take_app_le seed) by lia.
    rewrite <-app_assoc, (take_app_le seed) by lia. done.
Qed.
