(* ===== verification/ControllerTypes.v ===== *)
(** * Package controller: the data contracts

    [internal/controller/types.go]: roles, device metadata, the policy
    document and the redacted report with their validation.  Unsigned
    machine integers are [Z]; [Policy_typed] and [Report_typed] say that the
    fields of a document lie in the range of their Go type. *)

From S2P Require Import Prelude GoString GoTime Json JsonCompact Model ModelJson Profile.
#[local] Open Scope Z_scope.

Definition PolicySchema := "io.oh-my-safety/organization-policy".
Definition PolicySchemaVersion : Z := 1.
Definition ReportSchema := "io.oh-my-safety/redacted-report".
Definition ReportSchemaVersion : Z := 1.
Definition SignedPolicySchema := "io.oh-my-safety/signed-policy".
Definition SignedPolicyVersion : Z := 1.
Definition AdminConfigSchema := "io.oh-my-safety/controller-admins".
Definition AdminConfigVersion : Z := 1.
Definition maxPolicyChecks : Z := 512.
Definition maxReportFindings : Z := 2000.
Definition maxIdentifierLength : Z := 128.
Definition maxInventoryValueSize : Z := 256.

Definition ErrNotFound : error := Sentinel "controller record not found".
Definition ErrConflict : error := Sentinel "controller record conflict".
Definition ErrUnauthenticated : error := Sentinel "authentication failed".
Definition ErrInvalidInput : error := Sentinel "invalid controller input".

(** [fmt.Errorf("%w: ...", ErrInvalidInput)] *)
Definition invalid (format : string) : error := Wrapf format ErrInvalidInput [].

(** ** Roles *)

Abbreviation Role := string (only parsing).
Definition RoleAdmin : Role := "admin".
Definition RoleOperator : Role := "operator".
Definition RoleViewer : Role := "viewer".

Definition Role_Valid (role : Role) : bool := one_of role [RoleAdmin; RoleOperator; RoleViewer].

(** The map literal of [Allows]; a missing key reads as zero. *)
Definition role_rank (role : Role) : Z :=
  if String.eqb role RoleViewer then 1
  else if String.eqb role RoleOperator then 2
  else if String.eqb role RoleAdmin then 3 else 0.

Definition Role_Allows (role required : Role) : bool :=
  Role_Valid role && Role_Valid required && (role_rank required <=? role_rank role).

Record Principal := { Principal_ID : string; Principal_Role : Role; tokenHash : list Z }.

#[export] Instance principal_eq_dec : EqDecision Principal.
Proof. solve_decision. Defined.

(** ** Identifiers and labels *)

Definition validIdentifier (value : string) : bool :=
  identifier_syntax maxIdentifierLength value.

Definition validGroup (value : string) : bool := validIdentifier value.

Definition validLabel (value : string) (maximum : Z) : bool :=
  let value := trim_space value in
  if String.eqb value "" || (maximum <? slen value) then false
  else all_runes (λ c, negb (is_control c)) value.

(** ** Devices *)

Record DeviceMetadata := {
  Meta_Name : string;
  Meta_Platform : string;
  Meta_OSVersion : string;
  Meta_AgentVersion : string;
}.

Definition DeviceMetadata_Validate (metadata : DeviceMetadata) : result unit :=
  first_error [
    (negb (validLabel (Meta_Name metadata) maxInventoryValueSize),
      invalid "%w: invalid device name");
    (negb (validLabel (Meta_Platform metadata) 64), invalid "%w: invalid platform");
    (negb (validLabel (Meta_OSVersion metadata) maxInventoryValueSize),
      invalid "%w: invalid OS version");
    (negb (validLabel (Meta_AgentVersion metadata) maxInventoryValueSize),
      invalid "%w: invalid agent version")].

Record Device := {
  Device_ID : string;
  Device_Name : string;
  Device_Platform : string;
  OSVersion : string;
  AgentVersion : string;
  Group : string;
  EnrolledAt : Time;
  LastSeenAt : option Time;
  CredentialRotatedAt : Time;
  RevokedAt : option Time;
}.

Record EnrollmentGrant := { DeviceID : string; DeviceCredential : string }.

(** ** Policies *)

Abbreviation RemediationMode := string (only parsing).
Definition RemediationObserve : RemediationMode := "observe".
Definition RemediationPrompt : RemediationMode := "prompt".
Definition RemediationSafeAuto : RemediationMode := "safe-automatic".

Definition RemediationMode_Valid (mode : RemediationMode) : bool :=
  one_of mode [RemediationObserve; RemediationPrompt; RemediationSafeAuto].

Record PolicyCheck := { Check_ID : string; Check_Enabled : bool }.

Record CadencePolicy := { ScanIntervalSeconds : Z; JitterSeconds : Z }.

Record ReportingPolicy := { Rep_Enabled : bool; SyncIntervalSeconds : Z }.

Record PolicyDocument := {
  Policy_Schema : string;
  Policy_SchemaVersion : Z;
  Policy_ID : string;
  Revision : Z;
  Checks : list PolicyCheck;
  Policy_Profile : string;
  Cadence : CadencePolicy;
  Reporting : ReportingPolicy;
  Policy_Remediation : RemediationMode;
}.

#[export] Instance check_eq_dec : EqDecision PolicyCheck.
Proof. solve_decision. Defined.
#[export] Instance cadence_eq_dec : EqDecision CadencePolicy.
Proof. solve_decision. Defined.
#[export] Instance reporting_eq_dec : EqDecision ReportingPolicy.
Proof. solve_decision. Defined.
#[export] Instance policy_eq_dec : EqDecision PolicyDocument.
Proof. solve_decision. Defined.
#[export] Instance device_eq_dec : EqDecision Device.
Proof. solve_decision. Defined.

Definition month_seconds : Z := 31 * 24 * 60 * 60.

(** The loop of [PolicyDocument.Validate] over the checks. *)
Fixpoint validate_checks (seen : gset string) (checks : list PolicyCheck) : result unit :=
  match checks with
  | [] => Ok tt
  | check :: checks' =>
      if negb (validIdentifier (Check_ID check)) then Err (invalid "%w: invalid check id")
      else if bool_decide (Check_ID check ∈ seen) then Err (invalid "%w: duplicate check id")
      else validate_checks ({[Check_ID check]} ∪ seen) checks'
  end.

Definition PolicyDocument_Validate (document : PolicyDocument) : result unit :=
  let interval := ScanIntervalSeconds (Cadence document) in
  let count := Z.of_nat (length (Checks document)) in
  let reporting := Rep_Enabled (Reporting document) in
  let sync := SyncIntervalSeconds (Reporting document) in
  _ ← first_error [
    (negb (String.eqb (Policy_Schema document) PolicySchema),
      invalid "%w: unsupported policy schema");
    (negb (Policy_SchemaVersion document =? PolicySchemaVersion),
      invalid "%w: unsupported policy schema version");
    (negb (validIdentifier (Policy_ID document)), invalid "%w: invalid policy id");
    (Revision document =? 0, invalid "%w: policy revision must be positive");
    ((count =? 0) || (maxPolicyChecks <? count), invalid "%w: invalid policy check count");
    ((interval <? 60) || (month_seconds <? interval), invalid "%w: invalid scan interval");
    (interval <=? JitterSeconds (Cadence document), invalid "%w: invalid cadence jitter");
    (reporting && ((sync <? 60) || (month_seconds <? sync)),
      invalid "%w: invalid reporting interval");
    (negb reporting && negb (sync =? 0),
      invalid "%w: disabled reporting must have a zero interval");
    (negb (RemediationMode_Valid (Policy_Remediation document)),
      invalid "%w: invalid remediation mode")];
  _ ← map_err (λ _, invalid "%w: invalid profile") (Resolve (Policy_Profile document) []);
  validate_checks ∅ (Checks document).

(** What the Go types of the fields guarantee. *)
Definition Policy_typed (document : PolicyDocument) : Prop :=
  uint64 (Revision document) ∧ uint32 (ScanIntervalSeconds (Cadence document)) ∧
  uint32 (JitterSeconds (Cadence document)) ∧
  uint32 (SyncIntervalSeconds (Reporting document)).

Record SignedPolicy := {
  Signed_Schema : string;
  Signed_SchemaVersion : Z;
  Document : PolicyDocument;
  Algorithm : string;
  SigningPublicKey : string;
  Signature : string;
}.

(** ** Reports *)

Record RedactedFinding := {
  Red_DetectorID : string;
  Red_Category : string;
  Red_Severity : Severity;
  Red_State : FindingState;
  Red_FirstSeen : Time;
  Red_LastSeen : Time;
  Red_Occurrences : Z;
}.

#[export] Instance redacted_eq_dec : EqDecision RedactedFinding.
Proof. solve_decision. Defined.

Definition RedactedFinding_validate (finding : RedactedFinding) (reportedAt : Time)
    : result unit :=
  first_error [
    (negb (validIdentifier (Red_DetectorID finding)), invalid "%w: invalid detector id");
    (negb (validIdentifier (Red_Category finding)), invalid "%w: invalid category");
    (negb (Severity_Valid (Red_Severity finding)), invalid "%w: invalid severity");
    (negb (FindingState_Valid (Red_State finding)), invalid "%w: invalid finding state");
    (is_zero (Red_FirstSeen finding) || is_zero (Red_LastSeen finding),
      invalid "%w: finding timestamps are required");
    (before (Red_LastSeen finding) (Red_FirstSeen finding),
      invalid "%w: last_seen precedes first_seen");
    (after (Red_LastSeen finding) (add reportedAt (5 * minute)),
      invalid "%w: last_seen is after reported_at");
    (Red_Occurrences finding =? 0, invalid "%w: occurrences must be positive")].

Record ReportSync := {
  Report_Schema : string;
  Report_SchemaVersion : Z;
  ReportedAt : Time;
  Report_Findings : list RedactedFinding;
}.

(** The key of a finding, detector NUL category. *)
Definition finding_key (finding : RedactedFinding) : string :=
  Red_DetectorID finding +:+ String "000" (Red_Category finding).

(** The loop of [ReportSync.Validate] over the findings. *)
Fixpoint validate_findings (reportedAt : Time) (seen : gset string)
    (findings : list RedactedFinding) : result unit :=
  match findings with
  | [] => Ok tt
  | finding :: findings' =>
      _ ← RedactedFinding_validate finding reportedAt;
      if bool_decide (finding_key finding ∈ seen)
      then Err (invalid "%w: duplicate redacted finding")
      else validate_findings reportedAt ({[finding_key finding]} ∪ seen) findings'
  end.

Definition ReportSync_Validate (report : ReportSync) (now : Time) : result unit :=
  _ ← first_error [
    (negb (String.eqb (Report_Schema report) ReportSchema),
      invalid "%w: unsupported report schema");
    (negb (Report_SchemaVersion report =? ReportSchemaVersion),
      invalid "%w: unsupported report schema version");
    (is_zero (ReportedAt report), invalid "%w: reported_at is required");
    (after (ReportedAt report) (add now (5 * minute)),
      invalid "%w: reported_at is in the future");
    (maxReportFindings <? Z.of_nat (length (Report_Findings report)),
      invalid "%w: too many findings")];
  validate_findings (ReportedAt report) ∅ (Report_Findings report).

Definition Report_typed (report : ReportSync) : Prop :=
  Forall (λ f, uint64 (Red_Occurrences f)) (Report_Findings report).

Record StoredFinding := {
  Stored_DeviceID : string;
  Stored_ReportedAt : Time;
  Stored_Finding : RedactedFinding;
}.

#[export] Instance stored_eq_dec : EqDecision StoredFinding.
Proof. solve_decision. Defined.

Record AuditEntry := {
  Audit_Sequence : Z;
  ActorID : string;
  Action : string;
  TargetType : string;
  TargetID : string;
  CreatedAt : Time;
}.

#[export] Instance audit_eq_dec : EqDecision AuditEntry.
Proof. solve_decision. Defined.

(** ** Properties *)

Lemma validIdentifier_inv value :
  validIdentifier value = true →
  value ≠ "" ∧ slen value ≤ 128 ∧ all_runes ident_rune value = true ∧ is_ascii value = true.
Proof. apply identifier_syntax_inv. Qed.

Lemma validIdentifier_utf8 value : validIdentifier value = true → valid_utf8 value = true.
Proof. intros (_ & _ & _ & H)%validIdentifier_inv. by apply is_ascii_valid. Qed.

(** Identifiers hold no NUL, so the key of a finding names its detector and
    its category. *)
Lemma validIdentifier_free value : validIdentifier value = true → free_of "000" value.
Proof.
  intros (_ & _ & H & Ha)%validIdentifier_inv. unfold all_runes in H.
  rewrite is_ascii_runes in H by done. intros Hin. apply list_elem_of_In in Hin.
  by apply (proj1 (forallb_forall _ _) H) in Hin.
Qed.

Lemma finding_key_inj f g :
  validIdentifier (Red_DetectorID f) = true → validIdentifier (Red_DetectorID g) = true →
  finding_key f = finding_key g →
  Red_DetectorID f = Red_DetectorID g ∧ Red_Category f = Red_Category g.
Proof.
  unfold finding_key. intros Hf%validIdentifier_free Hg%validIdentifier_free H.
  by apply sep_inj in H.
Qed.

Lemma first_error_invalid l e :
  Forall (λ ce, errors_is ce.2 "invalid controller input" = true) l →
  first_error l = Err e → errors_is e "invalid controller input" = true.
Proof.
  induction 1 as [|[c e'] l Hc _ IH]; cbn; [done|]. destruct c; [by intros [= <-]|done].
Qed.

(** *** Roles *)

(** The roles form a chain: a role allows exactly the roles at or below
    its own, so [Allows] is a partial order on the valid roles with the viewer
    at the bottom and the admin at the top, and anything else is refused on
    both sides. *)
Theorem Role_Allows_order :
  (∀ r, Role_Allows r r = Role_Valid r) ∧
  (∀ r s t, Role_Allows r s = true → Role_Allows s t = true → Role_Allows r t = true) ∧
  (∀ r s, Role_Allows r s = true → Role_Allows s r = true → r = s) ∧
  (∀ r, Role_Allows RoleAdmin r = Role_Valid r ∧ Role_Allows r RoleViewer = Role_Valid r) ∧
  (∀ r, Role_Allows r RoleAdmin = String.eqb r RoleAdmin).
Proof.
  assert (∀ r, Role_Valid r = true → r = RoleAdmin ∨ r = RoleOperator ∨ r = RoleViewer) as HV.
  { intros r H%one_of_elem. set_solver. }
  split_and!.
  - intros r. unfold Role_Allows. rewrite Z.leb_refl. by destruct (Role_Valid r).
  - intros r s t. unfold Role_Allows. intros H1 H2. bool_prop.
    rewrite !andb_true_iff, Z.leb_le. split_and!; [done..|lia].
  - intros r s. unfold Role_Allows. intros H1 H2. bool_prop.
    destruct (HV r) as [->|[->| ->]]; [done|..];
      destruct (HV s) as [->|[->| ->]]; try done.
  - intros r. destruct (Role_Valid r) eqn:E.
    + by destruct (HV r E) as [->|[->| ->]].
    + unfold Role_Allows. by rewrite E, andb_false_r.
  - intros r. destruct (String.eqb_spec r RoleAdmin) as [->|Hne]; [done|].
    destruct (Role_Allows r RoleAdmin) eqn:E; [|done].
    unfold Role_Allows in E. bool_prop. destruct (HV r) as [->|[->| ->]]; done.
Qed.

(** *** Policies *)

Lemma validate_checks_ok checks seen :
  validate_checks seen checks = Ok tt ↔
  Forall (λ c, validIdentifier (Check_ID c) = true) checks ∧ NoDup (Check_ID <$> checks) ∧
  Forall (λ c, Check_ID c ∉ seen) checks.
Proof.
  revert seen. induction checks as [|c checks IH]; intros seen; cbn.
  { split; [|done]. intros _. split_and!; constructor. }
  rewrite !Forall_cons, NoDup_cons.
  destruct (validIdentifier (Check_ID c)); cbn [negb]; [|naive_solver].
  case_bool_decide as Hs; [naive_solver|]. rewrite IH, !Forall_forall, list_elem_of_fmap. split.
  - intros (Hv & Hd & Hn). split_and!; try done.
    + intros (x & Hx & Hin). apply Hn in Hin. set_solver.
    + intros x Hin. apply Hn in Hin. set_solver.
  - intros ([_ Hv] & [Hc Hd] & _ & Hn). split_and!; try done.
    intros x Hin. pose proof (Hn x Hin). assert (Check_ID c ≠ Check_ID x) by naive_solver. set_solver.
Qed.

(** The conditions a policy document has to meet. *)
Definition policy_ok (document : PolicyDocument) : Prop :=
  let interval := ScanIntervalSeconds (Cadence document) in
  let sync := SyncIntervalSeconds (Reporting document) in
  Policy_Schema document = PolicySchema ∧ Policy_SchemaVersion document = PolicySchemaVersion ∧
  validIdentifier (Policy_ID document) = true ∧ Revision document ≠ 0 ∧
  1 ≤ Z.of_nat (length (Checks document)) ≤ 512 ∧ 60 ≤ interval ≤ 2678400 ∧
  JitterSeconds (Cadence document) < interval ∧
  (if Rep_Enabled (Reporting document) then 60 ≤ sync ≤ 2678400 else sync = 0) ∧
  Policy_Remediation document ∈ [RemediationObserve; RemediationPrompt; RemediationSafeAuto] ∧
  Policy_Profile document ∈ Presets ∧
  Forall (λ c, validIdentifier (Check_ID c) = true) (Checks document) ∧
  NoDup (Check_ID <$> Checks document).

Lemma policy_valid document :
  PolicyDocument_Validate document = Ok tt ↔ policy_ok document.
Proof.
  unfold PolicyDocument_Validate, policy_ok, maxPolicyChecks, month_seconds. split.
  - intros H. ok_inv. match goal with H : first_error _ = _ |- _ => valid_inv H end.
    match goal with H : validate_checks _ _ = _ |- _ => apply validate_checks_ok in H as (? & ? & _) end.
    match goal with H : Resolve _ _ = _ |- _ => rename H into HR end.
    bool_prop. split_and!; try done; try lia.
    + destruct (Rep_Enabled _); cbn in *; bool_prop; lia.
    + by apply one_of_elem.
    + apply Presets_resolve. by rewrite HR.
  - intros (H1 & H2 & H3 & H4 & H5 & H6 & H7 & H8 & H9 & H10 & H11 & H12).
    rewrite first_error_ok.
    + cbn. apply Presets_resolve in H10. destruct (Resolve _ _); [|done]. cbn.
      apply validate_checks_ok. split_and!; [done..|]. apply Forall_forall. set_solver.
    + rewrite H1, H2, H3. unfold RemediationMode_Valid. apply one_of_elem in H9. rewrite H9.
      repeat constructor; cbn [fst negb andb orb]; rewrite ?orb_false_iff, ?Z.eqb_neq, ?Z.ltb_ge, ?Z.leb_gt; try done; try lia.
      * destruct (Rep_Enabled _); cbn; [|done]. apply orb_false_iff. lia.
      * destruct (Rep_Enabled _); cbn; [done|]. apply negb_false_iff. lia.
Qed.

(** [PolicyDocument.Validate] accepts exactly the documents of the
    closed contract: the schema and its version, an identifier, a positive
    revision, 1 to 512 checks with distinct identifiers, a scan interval of a
    minute to 31 days above the jitter, a reporting interval that is in that
    range when reporting is enabled and zero when it is not, a known
    remediation mode and a known profile.  Every refusal is [ErrInvalidInput]. *)
Theorem PolicyDocument_Validate_spec document :
  (PolicyDocument_Validate document = Ok tt ↔ policy_ok document) ∧
  (∀ e, PolicyDocument_Validate document = Err e → errors_is e "invalid controller input" = true).
Proof.
  split; [apply policy_valid|]. intros e.
  unfold PolicyDocument_Validate. intros [H|([] & _ & [H|([] & _ & H)]%bind_err_inv)]%bind_err_inv.
  - eapply first_error_invalid; [|exact H]. by repeat constructor.
  - destruct (Resolve _ _); [done|]. by injection H as <-.
  - generalize dependent H. generalize (∅ : gset string).
    induction (Checks document) as [|c l IH]; intros seen; cbn; [done|].
    repeat case_match; [by intros [= <-]|by intros [= <-]|apply IH].
Qed.

(** *** Reports *)

Lemma validate_findings_ok reportedAt findings seen :
  validate_findings reportedAt seen findings = Ok tt ↔
  Forall (λ f, RedactedFinding_validate f reportedAt = Ok tt) findings ∧
  NoDup (finding_key <$> findings) ∧ Forall (λ f, finding_key f ∉ seen) findings.
Proof.
  revert seen. induction findings as [|f findings IH]; intros seen; cbn -[RedactedFinding_validate].
  { split; [|done]. intros _. split_and!; constructor. }
  rewrite !Forall_cons, NoDup_cons.
  destruct (RedactedFinding_validate f reportedAt) as [[]|]; cbn [mbind result_bind]; [|naive_solver].
  case_bool_decide as Hs; [naive_solver|]. rewrite IH, !Forall_forall, list_elem_of_fmap. split.
  - intros (Hv & Hd & Hn). split_and!; try done.
    + intros (x & Hx & Hin). apply Hn in Hin. set_solver.
    + intros x Hin. apply Hn in Hin. set_solver.
  - intros ([_ Hv] & [Hc Hd] & _ & Hn). split_and!; try done.
    intros x Hin. pose proof (Hn x Hin). assert (finding_key f ≠ finding_key x) by naive_solver. set_solver.
Qed.

Definition redacted_ok (reportedAt : Time) (f : RedactedFinding) : Prop :=
  validIdentifier (Red_DetectorID f) = true ∧ validIdentifier (Red_Category f) = true ∧
  Severity_Valid (Red_Severity f) = true ∧ FindingState_Valid (Red_State f) = true ∧
  is_zero (Red_FirstSeen f) = false ∧ is_zero (Red_LastSeen f) = false ∧
  ns (Red_FirstSeen f) ≤ ns (Red_LastSeen f) ≤ ns reportedAt + 5 * minute ∧
  Red_Occurrences f ≠ 0.

Lemma redacted_valid f reportedAt :
  RedactedFinding_validate f reportedAt = Ok tt ↔ redacted_ok reportedAt f.
Proof.
  unfold RedactedFinding_validate, redacted_ok, before, after, add. cbn [ns]. split.
  - intros H. valid_inv H. bool_prop. split_and!; try done; lia.
  - intros (H1 & H2 & H3 & H4 & H5 & H6 & [H7 H8] & H9). apply first_error_ok.
    rewrite H1, H2, H3, H4, H5, H6.
    repeat constructor; cbn [fst]; try done; rewrite ?Z.ltb_ge, ?Z.eqb_neq; lia.
Qed.

Definition report_ok (now : Time) (report : ReportSync) : Prop :=
  Report_Schema report = ReportSchema ∧ Report_SchemaVersion report = ReportSchemaVersion ∧
  is_zero (ReportedAt report) = false ∧ ns (ReportedAt report) ≤ ns now + 5 * minute ∧
  Z.of_nat (length (Report_Findings report)) ≤ 2000 ∧
  Forall (redacted_ok (ReportedAt report)) (Report_Findings report) ∧
  NoDup ((λ f, (Red_DetectorID f, Red_Category f)) <$> Report_Findings report).

Lemma finding_keys_nodup findings :
  Forall (λ f, validIdentifier (Red_DetectorID f) = true) findings →
  NoDup (finding_key <$> findings) ↔
  NoDup ((λ f, (Red_DetectorID f, Red_Category f)) <$> findings).
Proof.
  induction 1 as [|f l Hf Hl IH]; cbn; [split; intros; constructor|]. rewrite !NoDup_cons, IH, !list_elem_of_fmap.
  rewrite Forall_forall in Hl. assert (
    (∃ y, finding_key f = finding_key y ∧ y ∈ l) ↔
    (∃ y, (Red_DetectorID f, Red_Category f) = (Red_DetectorID y, Red_Category y) ∧ y ∈ l)) as ->; [|done].
  split; intros (y & Hy & Hin); exists y; split; try done.
  - apply finding_key_inj in Hy as [-> ->]; [done|done|by apply Hl].
  - unfold finding_key. by injection Hy as -> ->.
Qed.

Lemma report_valid report now : ReportSync_Validate report now = Ok tt ↔ report_ok now report.
Proof.
  unfold ReportSync_Validate, report_ok, after, add, maxReportFindings. cbn [ns].
  assert (∀ l, Forall (λ f, RedactedFinding_validate f (ReportedAt report) = Ok tt) l ↔
            Forall (redacted_ok (ReportedAt report)) l) as HF.
  { intros l. rewrite !Forall_forall. split; intros H x Hx; apply redacted_valid; auto. }
  assert (∀ l, Forall (redacted_ok (ReportedAt report)) l →
            Forall (λ f, validIdentifier (Red_DetectorID f) = true) l) as Hid.
  { intros l H. eapply Forall_impl; [exact H|]. by intros x (? & _). }
  split.
  - intros H. ok_inv. match goal with H : first_error _ = _ |- _ => valid_inv H end.
    match goal with H : validate_findings _ _ _ = _ |- _ =>
      apply validate_findings_ok in H as (HV & HD & _) end.
    apply HF in HV.
    bool_prop. split_and!; try done; try lia. by apply finding_keys_nodup; [apply Hid|].
  - intros (H1 & H2 & H3 & H4 & H5 & H6 & H7). rewrite first_error_ok.
    + cbn. apply validate_findings_ok. split_and!; [by apply HF| |apply Forall_forall; set_solver].
      by apply finding_keys_nodup; [apply Hid|].
    + rewrite H1, H2, H3. repeat constructor; cbn [fst]; try done; lia.
Qed.

(** [ReportSync.Validate] accepts exactly the reports of the closed
    contract: the schema and its version, a reported time that is set and at
    most five minutes ahead of the clock, at most 2000 findings with distinct
    (detector, category), each with identifiers, a known severity and state, a
    positive count, and times with first <= last <= reported + 5 minutes. *)
Theorem ReportSync_Validate_spec report now :
  ReportSync_Validate report now = Ok tt ↔ report_ok now report.
Proof. apply report_valid. Qed.

(** *** Labels *)

(** [n] spaces before a text. *)
Definition padded (n : nat) (s : string) : string := Nat.iter n (String " ") s.

Lemma trim_padded n s : trim_space (padded n s) = trim_space s.
Proof.
  unfold trim_space. f_equal. f_equal. f_equal.
  induction n as [|n IH]; [done|]. cbn [padded Nat.iter nat_rect].
  change (trim_left (String " " (padded n s)) = trim_left s). rewrite <-IH.
  destruct (padded n s) as [|a [|b r]]; done.
Qed.

Lemma slen_padded n s : slen (padded n s) = Z.of_nat n + slen s.
Proof.
  induction n as [|n IH]; [done|]. cbn [padded Nat.iter nat_rect].
  change (slen (String " " (padded n s)) = Z.of_nat (S n) + slen s). unfold slen in *. cbn. lia.
Qed.

(** Device labels are checked after trimming but kept as they were sent:
    [DeviceMetadata.Validate] accepts names of any length whatever, far beyond
    the 256 bytes it means to allow, and names that end in a line feed. *)
Theorem DeviceMetadata_untrimmed n :
  (∃ md, DeviceMetadata_Validate md = Ok tt ∧ n < slen (Meta_Name md)) ∧
  (∃ md, DeviceMetadata_Validate md = Ok tt ∧ all_runes (λ c, negb (is_control c)) (Meta_Name md) = false).
Proof.
  split.
  - exists {| Meta_Name := padded (Z.to_nat n) "laptop"; Meta_Platform := "linux";
              Meta_OSVersion := "1"; Meta_AgentVersion := "1" |}. split.
    + unfold DeviceMetadata_Validate, validLabel at 1. cbn [Meta_Name Meta_Platform Meta_OSVersion Meta_AgentVersion].
      rewrite trim_padded. by vm_compute.
    + cbn [Meta_Name]. rewrite slen_padded. unfold slen. cbn. lia.
  - exists {| Meta_Name := String "l" (String "010" ""); Meta_Platform := "linux";
              Meta_OSVersion := "1"; Meta_AgentVersion := "1" |}. by vm_compute.
Qed.

(** ** Package controller: JSON of the policy documents

    The struct tags of [PolicyDocument], its parts and [SignedPolicy], and
    their round trip.  A validated document is always well formed: its strings
    are ASCII and its numbers small, so marshalling it cannot fail. *)

Definition Check_parts (c : PolicyCheck) : list part :=
  [("id", f_str (Check_ID c)); ("enabled", f_bool (Check_Enabled c))].

#[export] Instance Check_codec : Codec PolicyCheck := {
  enc c := enc_struct (Check_parts c);
  dec := dec_struct {| Check_ID := ""; Check_Enabled := false |} (λ ms,
    id ← get_string ms "id"; en ← get_bool ms "enabled";
    Some {| Check_ID := id; Check_Enabled := en |});
  wf c := utf8 [Check_ID c];
}.

#[export] Instance Check_laws : CodecLaws PolicyCheck.
Proof.
  constructor. intros c H. cbn [wf enc dec Check_codec] in *. wf_split.
  struct_laws (Check_parts c). by destruct c.
Qed.

Definition Cadence_parts (c : CadencePolicy) : list part :=
  [("scan_interval_seconds", f_int (ScanIntervalSeconds c));
   ("jitter_seconds", f_int (JitterSeconds c))].

#[export] Instance Cadence_codec : Codec CadencePolicy := {
  enc c := enc_struct (Cadence_parts c);
  dec := dec_struct {| ScanIntervalSeconds := 0; JitterSeconds := 0 |} (λ ms,
    sc ← get_uint32 ms "scan_interval_seconds"; ji ← get_uint32 ms "jitter_seconds";
    Some {| ScanIntervalSeconds := sc; JitterSeconds := ji |});
  wf c := uint32 (ScanIntervalSeconds c) ∧ uint32 (JitterSeconds c);
}.

#[export] Instance Cadence_laws : CodecLaws CadencePolicy.
Proof.
  constructor. intros c H. cbn [wf enc dec Cadence_codec] in *. unfold uint32 in H. wf_split.
  struct_laws (Cadence_parts c). by destruct c.
Qed.

Definition Reporting_parts (r : ReportingPolicy) : list part :=
  [("enabled", f_bool (Rep_Enabled r)); ("sync_interval_seconds", f_int (SyncIntervalSeconds r))].

#[export] Instance Reporting_codec : Codec ReportingPolicy := {
  enc r := enc_struct (Reporting_parts r);
  dec := dec_struct {| Rep_Enabled := false; SyncIntervalSeconds := 0 |} (λ ms,
    en ← get_bool ms "enabled"; sy ← get_uint32 ms "sync_interval_seconds";
    Some {| Rep_Enabled := en; SyncIntervalSeconds := sy |});
  wf r := uint32 (SyncIntervalSeconds r);
}.

#[export] Instance Reporting_laws : CodecLaws ReportingPolicy.
Proof.
  constructor. intros r H. cbn [wf enc dec Reporting_codec] in *. unfold uint32 in H. wf_split.
  struct_laws (Reporting_parts r). by destruct r.
Qed.

Definition Policy_parts (d : PolicyDocument) : list part :=
  [("schema", f_str (Policy_Schema d)); ("schema_version", f_int (Policy_SchemaVersion d));
   ("id", f_str (Policy_ID d)); ("revision", f_int (Revision d)); ("checks", f_list (Checks d));
   ("profile", f_str (Policy_Profile d)); ("cadence", f_req (Cadence d));
   ("reporting", f_req (Reporting d)); ("remediation", f_str (Policy_Remediation d))].

Definition zero_policy : PolicyDocument := {|
  Policy_Schema := ""; Policy_SchemaVersion := 0; Policy_ID := ""; Revision := 0; Checks := [];
  Policy_Profile := ""; Cadence := {| ScanIntervalSeconds := 0; JitterSeconds := 0 |};
  Reporting := {| Rep_Enabled := false; SyncIntervalSeconds := 0 |}; Policy_Remediation := "" |}.

#[export] Instance Policy_codec : Codec PolicyDocument := {
  enc d := enc_struct (Policy_parts d);
  dec := dec_struct zero_policy (λ ms,
    sc ← get_string ms "schema"; sv ← get_int ms "schema_version"; id ← get_string ms "id";
    rv ← get_uint ms "revision"; ch ← get_list dec ms "checks"; pr ← get_string ms "profile";
    ca ← get (Cadence zero_policy) dec ms "cadence";
    rp ← get (Reporting zero_policy) dec ms "reporting"; rm ← get_string ms "remediation";
    Some {| Policy_Schema := sc; Policy_SchemaVersion := sv; Policy_ID := id; Revision := rv;
            Checks := ch; Policy_Profile := pr; Cadence := ca; Reporting := rp;
            Policy_Remediation := rm |});
  wf d :=
    utf8 [Policy_Schema d; Policy_ID d; Policy_Profile d; Policy_Remediation d] ∧
    0 ≤ Policy_SchemaVersion d ≤ max_int64 ∧ 0 ≤ Revision d ≤ max_uint64 ∧
    Forall wf (Checks d) ∧ wf (Cadence d) ∧ wf (Reporting d);
}.

#[export] Instance Policy_laws : CodecLaws PolicyDocument.
Proof.
  constructor. intros d H. cbn [wf enc dec Policy_codec] in *. wf_split.
  struct_laws (Policy_parts d). by destruct d.
Qed.

Definition Signed_parts (p : SignedPolicy) : list part :=
  [("schema", f_str (Signed_Schema p)); ("schema_version", f_int (Signed_SchemaVersion p));
   ("document", f_req (Document p)); ("algorithm", f_str (Algorithm p));
   ("signing_public_key", f_str (SigningPublicKey p)); ("signature", f_str (Signature p))].

#[export] Instance Signed_codec : Codec SignedPolicy := {
  enc p := enc_struct (Signed_parts p);
  dec := dec_struct {| Signed_Schema := ""; Signed_SchemaVersion := 0; Document := zero_policy;
                       Algorithm := ""; SigningPublicKey := ""; Signature := "" |} (λ ms,
    sc ← get_string ms "schema"; sv ← get_int ms "schema_version";
    d ← get zero_policy dec ms "document"; al ← get_string ms "algorithm";
    pk ← get_string ms "signing_public_key"; sg ← get_string ms "signature";
    Some {| Signed_Schema := sc; Signed_SchemaVersion := sv; Document := d; Algorithm := al;
            SigningPublicKey := pk; Signature := sg |});
  wf p :=
    utf8 [Signed_Schema p; Algorithm p; SigningPublicKey p; Signature p] ∧
    0 ≤ Signed_SchemaVersion p ≤ max_int64 ∧ wf (Document p);
}.

#[export] Instance Signed_laws : CodecLaws SignedPolicy.
Proof.
  constructor. intros p H. cbn [wf enc dec Signed_codec] in *. wf_split.
  struct_laws (Signed_parts p). by destruct p.
Qed.

(** ** Valid documents are well formed *)

Lemma one_of_utf8 s l : s ∈ l → forallb valid_utf8 l = true → valid_utf8 s = true.
Proof.
  intros Hs Hl. by apply (proj1 (forallb_forall _ _) Hl), list_elem_of_In.
Qed.

Lemma policy_wf d : policy_ok d → Policy_typed d → wf d.
Proof.
  intros (H1 & H2 & H3 & H4 & H5 & H6 & H7 & H8 & H9 & H10 & H11 & H12) (T1 & T2 & T3 & T4).
  cbn [wf Policy_codec]. split_and!.
  - unfold utf8. rewrite H1. repeat constructor.
    + by apply validIdentifier_utf8.
    + eapply one_of_utf8; [exact H10|]. by vm_compute.
    + eapply one_of_utf8; [exact H9|]. by vm_compute.
  - rewrite H2. done.
  - rewrite H2. done.
  - apply T1.
  - apply T1.
  - eapply Forall_impl; [exact H11|]. intros c Hc. constructor; [by apply validIdentifier_utf8|constructor].
  - done.
  - done.
Qed.

(** A document that [Validate] accepts is always marshalled, and the text
    unmarshals to the same document, whatever its checks and limits are. *)
Theorem Policy_roundtrip d :
  Policy_typed d → PolicyDocument_Validate d = Ok tt →
  ∃ t, Marshal d = Some t ∧ Unmarshal t = Some d.
Proof. intros HT HV%policy_valid. by apply Marshal_Unmarshal, policy_wf. Qed.
