(* ===== verification/ControllerHttp.v ===== *)
(** * Package controller: request and response documents

    The JSON of [internal/controller/server.go] and of the types it reads and
    writes: bodies of requests with the fields strict decoding admits
    ([Shaped]), and the texts of the responses.  What [dec] yields lies in the
    range of the Go types. *)

From S2P Require Import Prelude GoString GoTime Json JsonCompact Model ModelJson StrictJson Profile.
From S2P Require Import ControllerTypes.
#[local] Open Scope Z_scope.

(** ** Bodies of requests *)

Definition Metadata_parts (m : DeviceMetadata) : list part :=
  [("name", f_str (Meta_Name m)); ("platform", f_str (Meta_Platform m));
   ("os_version", f_str (Meta_OSVersion m)); ("agent_version", f_str (Meta_AgentVersion m))].

Definition zero_metadata : DeviceMetadata :=
  {| Meta_Name := ""; Meta_Platform := ""; Meta_OSVersion := ""; Meta_AgentVersion := "" |}.

#[export] Instance Metadata_codec : Codec DeviceMetadata := {
  enc m := enc_struct (Metadata_parts m);
  dec := dec_struct zero_metadata (λ ms,
    na ← get_string ms "name"; pl ← get_string ms "platform"; os ← get_string ms "os_version";
    av ← get_string ms "agent_version";
    Some {| Meta_Name := na; Meta_Platform := pl; Meta_OSVersion := os; Meta_AgentVersion := av |});
  wf m := utf8 [Meta_Name m; Meta_Platform m; Meta_OSVersion m; Meta_AgentVersion m];
}.

#[export] Instance Metadata_shape : Shaped DeviceMetadata :=
  Fields [("name", Leaf); ("platform", Leaf); ("os_version", Leaf); ("agent_version", Leaf)].

#[export] Instance Metadata_laws : CodecLaws DeviceMetadata.
Proof.
  constructor. intros m H. cbn [wf enc dec Metadata_codec] in *. wf_split.
  struct_laws (Metadata_parts m). by destruct m.
Qed.

Record enrollmentRequest := { EnrollmentToken : string; Request_Device : DeviceMetadata }.

Definition enrollment_parts (r : enrollmentRequest) : list part :=
  [("enrollment_token", f_str (EnrollmentToken r)); ("device", f_req (Request_Device r))].

#[export] Instance enrollment_codec : Codec enrollmentRequest := {
  enc r := enc_struct (enrollment_parts r);
  dec := dec_struct {| EnrollmentToken := ""; Request_Device := zero_metadata |} (λ ms,
    tk ← get_string ms "enrollment_token"; dv ← get zero_metadata dec ms "device";
    Some {| EnrollmentToken := tk; Request_Device := dv |});
  wf r := utf8 [EnrollmentToken r] ∧ wf (Request_Device r);
}.

#[export] Instance enrollment_shape : Shaped enrollmentRequest :=
  Fields [("enrollment_token", Leaf); ("device", Metadata_shape)].

#[export] Instance enrollment_laws : CodecLaws enrollmentRequest.
Proof.
  constructor. intros r H. cbn [wf enc dec enrollment_codec] in *.
  destruct H as [H Hd]. wf_split. struct_laws (enrollment_parts r). by destruct r.
Qed.

Definition Redacted_parts (f : RedactedFinding) : list part :=
  [("detector_id", f_str (Red_DetectorID f)); ("category", f_str (Red_Category f));
   ("severity", f_str (Red_Severity f)); ("state", f_str (Red_State f));
   ("first_seen", f_req (Red_FirstSeen f)); ("last_seen", f_req (Red_LastSeen f));
   ("occurrences", f_int (Red_Occurrences f))].

Definition zero_redacted : RedactedFinding := {|
  Red_DetectorID := ""; Red_Category := ""; Red_Severity := ""; Red_State := "";
  Red_FirstSeen := zero_time; Red_LastSeen := zero_time; Red_Occurrences := 0 |}.

#[export] Instance Redacted_codec : Codec RedactedFinding := {
  enc f := enc_struct (Redacted_parts f);
  dec := dec_struct zero_redacted (λ ms,
    di ← get_string ms "detector_id"; ca ← get_string ms "category";
    sv ← get_string ms "severity"; st ← get_string ms "state";
    fs ← get zero_time dec ms "first_seen"; ls ← get zero_time dec ms "last_seen";
    oc ← get_uint ms "occurrences";
    Some {| Red_DetectorID := di; Red_Category := ca; Red_Severity := sv; Red_State := st;
            Red_FirstSeen := fs; Red_LastSeen := ls; Red_Occurrences := oc |});
  wf f := utf8 [Red_DetectorID f; Red_Category f; Red_Severity f; Red_State f] ∧
    wf (Red_FirstSeen f) ∧ wf (Red_LastSeen f) ∧ 0 ≤ Red_Occurrences f ≤ max_uint64;
}.

#[export] Instance Redacted_shape : Shaped RedactedFinding :=
  Fields [("detector_id", Leaf); ("category", Leaf); ("severity", Leaf); ("state", Leaf);
          ("first_seen", Leaf); ("last_seen", Leaf); ("occurrences", Leaf)].

#[export] Instance Redacted_laws : CodecLaws RedactedFinding.
Proof.
  constructor. intros f H. cbn [enc dec Redacted_codec] in *.
  destruct H as (H & Hf & Hl & Ho). wf_split. struct_laws (Redacted_parts f). by destruct f.
Qed.

Definition Report_parts (r : ReportSync) : list part :=
  [("schema", f_str (Report_Schema r)); ("schema_version", f_int (Report_SchemaVersion r));
   ("reported_at", f_req (ReportedAt r)); ("findings", f_list (Report_Findings r))].

Definition zero_report : ReportSync := {|
  Report_Schema := ""; Report_SchemaVersion := 0; ReportedAt := zero_time; Report_Findings := [] |}.

#[export] Instance Report_codec : Codec ReportSync := {
  enc r := enc_struct (Report_parts r);
  dec := dec_struct zero_report (λ ms,
    sc ← get_string ms "schema"; sv ← get_int ms "schema_version";
    at_ ← get zero_time dec ms "reported_at"; fs ← get_list dec ms "findings";
    Some {| Report_Schema := sc; Report_SchemaVersion := sv; ReportedAt := at_;
            Report_Findings := fs |});
  wf r := utf8 [Report_Schema r] ∧ 0 ≤ Report_SchemaVersion r ≤ max_int64 ∧
    wf (ReportedAt r) ∧ Forall wf (Report_Findings r);
}.

#[export] Instance Report_shape : Shaped ReportSync :=
  Fields [("schema", Leaf); ("schema_version", Leaf); ("reported_at", Leaf);
          ("findings", Items Redacted_shape)].

#[export] Instance Report_laws : CodecLaws ReportSync.
Proof.
  constructor. intros r H. cbn [enc dec Report_codec] in *.
  destruct H as (H & Hv & Ha & Hf). wf_split. struct_laws (Report_parts r). by destruct r.
Qed.

#[export] Instance Check_shape : Shaped PolicyCheck := Fields [("id", Leaf); ("enabled", Leaf)].
#[export] Instance Cadence_shape : Shaped CadencePolicy :=
  Fields [("scan_interval_seconds", Leaf); ("jitter_seconds", Leaf)].
#[export] Instance Reporting_shape : Shaped ReportingPolicy :=
  Fields [("enabled", Leaf); ("sync_interval_seconds", Leaf)].

#[export] Instance Policy_shape : Shaped PolicyDocument :=
  Fields [("schema", Leaf); ("schema_version", Leaf); ("id", Leaf); ("revision", Leaf);
    ("checks", Items Check_shape); ("profile", Leaf); ("cadence", Cadence_shape);
    ("reporting", Reporting_shape); ("remediation", Leaf)].

#[export] Instance Signed_shape : Shaped SignedPolicy :=
  Fields [("schema", Leaf); ("schema_version", Leaf); ("document", Policy_shape);
    ("algorithm", Leaf); ("signing_public_key", Leaf); ("signature", Leaf)].

Record createEnrollmentTokenRequest := { Token_Group : string; TTLSeconds : Z }.

#[export] Instance token_request_codec : Codec createEnrollmentTokenRequest := {
  enc r := enc_struct [("group", f_str (Token_Group r)); ("ttl_seconds", f_int (TTLSeconds r))];
  dec := dec_struct {| Token_Group := ""; TTLSeconds := 0 |} (λ ms,
    gr ← get_string ms "group"; tt_ ← get_uint32 ms "ttl_seconds";
    Some {| Token_Group := gr; TTLSeconds := tt_ |});
  wf r := utf8 [Token_Group r] ∧ uint32 (TTLSeconds r);
}.
#[export] Instance token_request_shape : Shaped createEnrollmentTokenRequest :=
  Fields [("group", Leaf); ("ttl_seconds", Leaf)].

Record groupRequest := { Req_Group : string }.

#[export] Instance group_request_codec : Codec groupRequest := {
  enc r := enc_struct [("group", f_str (Req_Group r))];
  dec := dec_struct {| Req_Group := "" |} (λ ms,
    gr ← get_string ms "group"; Some {| Req_Group := gr |});
  wf r := utf8 [Req_Group r];
}.
#[export] Instance group_request_shape : Shaped groupRequest := Fields [("group", Leaf)].

Record policyAssignmentRequest := { Req_PolicyID : string }.

#[export] Instance assignment_request_codec : Codec policyAssignmentRequest := {
  enc r := enc_struct [("policy_id", f_str (Req_PolicyID r))];
  dec := dec_struct {| Req_PolicyID := "" |} (λ ms,
    id ← get_string ms "policy_id"; Some {| Req_PolicyID := id |});
  wf r := utf8 [Req_PolicyID r];
}.
#[export] Instance assignment_request_shape : Shaped policyAssignmentRequest :=
  Fields [("policy_id", Leaf)].

(** ** Responses *)

(** [map[string]string] and the like: the members in the order of their keys. *)
Definition f_ptr_omit {A} `{Codec A} (o : option A) : option (option string) :=
  match o with None => Some None | Some x => Some <$> enc x end.

(** A slice that is nil when it is empty. *)
Definition f_nil_list {A} (text : A → option string) (l : list A) : option (option string) :=
  match l with [] => Some (Some "null") | _ => ts ← mapM text l; Some (Some (array_text ts)) end.

Definition Device_text (d : Device) : option string :=
  enc_struct
    [("id", f_str (Device_ID d)); ("name", f_str (Device_Name d));
     ("platform", f_str (Device_Platform d)); ("os_version", f_str (OSVersion d));
     ("agent_version", f_str (AgentVersion d)); ("group", f_str (Group d));
     ("enrolled_at", f_req (EnrolledAt d)); ("last_seen_at", f_ptr_omit (LastSeenAt d));
     ("credential_rotated_at", f_req (CredentialRotatedAt d));
     ("revoked_at", f_ptr_omit (RevokedAt d))].

Definition Stored_text (f : StoredFinding) : option string :=
  enc_struct
    ([("device_id", f_str (Stored_DeviceID f)); ("reported_at", f_req (Stored_ReportedAt f))]
     ++ Redacted_parts (Stored_Finding f)).

Definition Audit_text (e : AuditEntry) : option string :=
  enc_struct
    [("sequence", f_int (Audit_Sequence e)); ("actor_id", f_str (ActorID e));
     ("action", f_str (Action e)); ("target_type", f_str (TargetType e));
     ("target_id", f_str (TargetID e)); ("created_at", f_req (CreatedAt e))].

Definition Grant_parts (g : EnrollmentGrant) : list part :=
  [("device_id", f_str (DeviceID g)); ("device_credential", f_str (DeviceCredential g))].

#[export] Instance Grant_codec : Codec EnrollmentGrant := {
  enc g := enc_struct (Grant_parts g);
  dec := dec_struct {| DeviceID := ""; DeviceCredential := "" |} (λ ms,
    id ← get_string ms "device_id"; cr ← get_string ms "device_credential";
    Some {| DeviceID := id; DeviceCredential := cr |});
  wf g := utf8 [DeviceID g; DeviceCredential g];
}.
#[export] Instance Grant_shape : Shaped EnrollmentGrant :=
  Fields [("device_id", Leaf); ("device_credential", Leaf)].

#[export] Instance Grant_laws : CodecLaws EnrollmentGrant.
Proof.
  constructor. intros g H. cbn [wf enc dec Grant_codec] in *. wf_split.
  struct_laws (Grant_parts g). by destruct g.
Qed.

(** ** Strict decoding of what is written *)

#[export] Instance Metadata_shaped : ShapedLaws DeviceMetadata.
Proof.
  constructor. intros m t H He. cbn [wf enc Metadata_codec] in *. wf_split.
  apply (known_struct _ (Metadata_parts m)); [vm_compute; reflexivity|known_fields|exact He|known_fields].
Qed.

#[export] Instance enrollment_shaped : ShapedLaws enrollmentRequest.
Proof.
  constructor. intros m t [H Hd] He. cbn [enc enrollment_codec] in *. wf_split.
  apply (known_struct _ (enrollment_parts m)); [vm_compute; reflexivity|known_fields|exact He|known_fields].
  eexists; split; [elem_here|]. intros v. unfold f_req.
  destruct (enc (Request_Device m)) as [tx|] eqn:E; [|done]. intros [= <-]. by eapply enc_known.
Qed.

#[export] Instance Redacted_shaped : ShapedLaws RedactedFinding.
Proof.
  constructor. intros f t (H & Hf & Hl & Ho) He. cbn [enc Redacted_codec] in *. wf_split.
  apply (known_struct _ (Redacted_parts f)); [vm_compute; reflexivity|known_fields|exact He|known_fields].
Qed.

#[export] Instance Report_shaped : ShapedLaws ReportSync.
Proof.
  constructor. intros r t (H & Hv & Ha & Hf) He. cbn [enc Report_codec] in *. wf_split.
  apply (known_struct _ (Report_parts r)); [vm_compute; reflexivity|known_fields|exact He|known_fields].
  eexists; split; [elem_here|]. intros v. by apply known_list.
Qed.

#[export] Instance Grant_shaped : ShapedLaws EnrollmentGrant.
Proof.
  constructor. intros g t H He. cbn [wf enc Grant_codec] in *. wf_split.
  apply (known_struct _ (Grant_parts g)); [vm_compute; reflexivity|known_fields|exact He|known_fields].
Qed.

#[export] Instance Check_shaped : ShapedLaws PolicyCheck.
Proof.
  constructor. intros c t H He. cbn [wf enc Check_codec] in *. wf_split.
  apply (known_struct _ (Check_parts c)); [vm_compute; reflexivity|known_fields|exact He|known_fields].
Qed.

#[export] Instance Cadence_shaped : ShapedLaws CadencePolicy.
Proof.
  constructor. intros c t H He. cbn [wf enc Cadence_codec] in *. unfold uint32 in H. wf_split.
  apply (known_struct _ (Cadence_parts c)); [vm_compute; reflexivity|known_fields|exact He|known_fields].
Qed.

#[export] Instance Reporting_shaped : ShapedLaws ReportingPolicy.
Proof.
  constructor. intros r t H He. cbn [wf enc Reporting_codec] in *. unfold uint32 in H. wf_split.
  apply (known_struct _ (Reporting_parts r)); [vm_compute; reflexivity|known_fields|exact He|known_fields].
Qed.

#[export] Instance Policy_shaped : ShapedLaws PolicyDocument.
Proof.
  constructor. intros d t H He. cbn [wf enc Policy_codec] in *.
  destruct H as (H & Hv & Hr & Hc & Hca & Hre). wf_split.
  apply (known_struct _ (Policy_parts d)); [vm_compute; reflexivity|known_fields|exact He|known_fields].
  all: eexists; split; [elem_here|]; intros v; first [by apply known_list | by apply known_req].
Qed.

#[export] Instance Signed_shaped : ShapedLaws SignedPolicy.
Proof.
  constructor. intros p t H He. cbn [wf enc Signed_codec] in *.
  destruct H as (H & Hv & Hd). wf_split.
  apply (known_struct _ (Signed_parts p)); [vm_compute; reflexivity|known_fields|exact He|known_fields].
  eexists; split; [elem_here|]. intros v. by apply known_req.
Qed.

(** ** Decoded values lie in the range of their types *)

Lemma uint32_0 : uint32 0.
Proof. unfold uint32. lia. Qed.
Lemma uint64_0 : uint64 0.
Proof. unfold uint64, max_uint64. lia. Qed.
#[local] Hint Resolve uint32_0 uint64_0 : core.

Definition cadence_typed (c : CadencePolicy) : Prop :=
  uint32 (ScanIntervalSeconds c) ∧ uint32 (JitterSeconds c).
Definition reporting_typed (r : ReportingPolicy) : Prop := uint32 (SyncIntervalSeconds r).

Lemma dec_cadence_typed t (c : CadencePolicy) : dec t = Some c → cadence_typed c.
Proof.
  apply dec_struct_inv; [done|]. intros ms y H. dec_inv. injection H as <-.
  split; by eapply get_uint32_range.
Qed.

Lemma dec_reporting_typed t (r : ReportingPolicy) : dec t = Some r → reporting_typed r.
Proof.
  apply dec_struct_inv; [apply uint32_0|]. intros ms y H. dec_inv. injection H as <-.
  by eapply get_uint32_range.
Qed.

Lemma dec_policy_typed t (d : PolicyDocument) : dec t = Some d → Policy_typed d.
Proof.
  apply dec_struct_inv; [by split_and!|]. intros ms y H. dec_inv. injection H as <-.
  apply (get_inv _ _ _ _ _ cadence_typed) in E5 as [? ?]; [|done|apply dec_cadence_typed].
  apply (get_inv _ _ _ _ _ reporting_typed) in E6; [|apply uint32_0|apply dec_reporting_typed].
  split_and!; [by eapply get_uint_range|done..].
Qed.

Lemma dec_redacted_typed t (f : RedactedFinding) : dec t = Some f → uint64 (Red_Occurrences f).
Proof.
  apply (dec_struct_inv _ _ _ _ (λ f, uint64 (Red_Occurrences f))); [done|]. intros ms y H. dec_inv. injection H as <-.
  by eapply get_uint_range.
Qed.

Lemma dec_report_typed t (r : ReportSync) : dec t = Some r → Report_typed r.
Proof.
  apply dec_struct_inv; [constructor|]. intros ms y H. dec_inv. injection H as <-.
  unfold Report_typed. cbn [Report_Findings]. revert E2.
  apply (get_inv _ _ _ _ _ (Forall (λ f, uint64 (Red_Occurrences f)))); [constructor|].
  intros t' fs Hf. destruct (read_array t') as [vs|]; [|done]. cbn [mbind option_bind] in Hf.
  apply mapM_Some in Hf. clear -Hf. induction Hf as [|v f vs fs Hv _ IH]; constructor; [|done].
  by apply dec_redacted_typed in Hv.
Qed.

Lemma dec_token_typed t (r : createEnrollmentTokenRequest) : dec t = Some r → uint32 (TTLSeconds r).
Proof.
  apply (dec_struct_inv _ _ _ _ (λ r, uint32 (TTLSeconds r))); [done|]. intros ms y H. dec_inv. injection H as <-.
  by eapply get_uint32_range.
Qed.
