(* ===== verification/ControllerStore.v ===== *)
(** * Package controller: the store

    [internal/controller/store.go].  The database is a value: each table is a
    map from its primary key to the other columns, and [admin_audit], which is
    append-only by its triggers, is the list of its rows with the counter
    behind AUTOINCREMENT.  A statement is its relational meaning: the rows it
    writes, the number of rows it affected, or the constraint it violated,
    with the text SQLite gives that violation.  A transaction works on a copy,
    which becomes the state when it commits and is dropped on an error.  The
    bytes of [crypto/rand] are arguments ([None] is a failed read); failures
    of the engine itself (disk, locking, cancelled contexts) are not modelled. *)

From S2P Require Import Prelude GoString Calendar GoTime Json Model ModelJson Profile GoCrypto Base64.
From S2P Require Import ControllerTypes.
#[local] Open Scope Z_scope.

Definition controllerSchemaVersion : Z := 1.
Definition maxBearerTokenBytes : Z := 4096.

(** ** The tables *)

Record TokenRow := {
  tk_group_name : string;
  tk_expires_at : string;
  tk_created_at : string;
  tk_created_by : string;
  tk_used_at : option string;
  tk_used_by_device_id : option string;
}.

Record DeviceRow := {
  dv_credential_hash : list Z;
  dv_name : string;
  dv_platform : string;
  dv_os_version : string;
  dv_agent_version : string;
  dv_group_name : string;
  dv_enrolled_at : string;
  dv_last_seen_at : option string;
  dv_credential_rotated_at : string;
  dv_revoked_at : option string;
}.

Record PolicyRow := {
  pl_revision : Z;
  pl_document : string;
  pl_created_at : string;
  pl_updated_at : string;
  pl_created_by : string;
  pl_updated_by : string;
}.

Record AssignmentRow := { ga_policy_id : string; ga_updated_at : string; ga_updated_by : string }.

Record FindingRow := {
  fi_severity : string;
  fi_state : string;
  fi_first_seen : string;
  fi_last_seen : string;
  fi_occurrences : Z;
  fi_reported_at : string;
}.

Record AuditRow := {
  au_sequence : Z;
  au_actor_id : string;
  au_action : string;
  au_target_type : string;
  au_target_id : string;
  au_created_at : string;
}.

(** (device_id, detector_id, category) *)
Abbreviation FindingKey := (string * string * string)%type.

Record Store := {
  enrollment_tokens : gmap (list Z) TokenRow;
  devices : gmap string DeviceRow;
  policies : gmap string PolicyRow;
  group_policy_assignments : gmap string AssignmentRow;
  findings : gmap FindingKey FindingRow;
  admin_audit : list AuditRow;
  audit_autoincrement : Z;
  user_version : Z;
  schema_migrations : gmap Z string;
}.

(** A new database file, before [migrate]. *)
Definition empty_store : Store := {|
  enrollment_tokens := ∅; devices := ∅; policies := ∅; group_policy_assignments := ∅;
  findings := ∅; admin_audit := []; audit_autoincrement := 0; user_version := 0;
  schema_migrations := ∅ |}.

Definition set_tokens (t : gmap (list Z) TokenRow) (s : Store) : Store := {|
  enrollment_tokens := t; devices := devices s; policies := policies s;
  group_policy_assignments := group_policy_assignments s; findings := findings s;
  admin_audit := admin_audit s; audit_autoincrement := audit_autoincrement s;
  user_version := user_version s; schema_migrations := schema_migrations s |}.

Definition set_devices (d : gmap string DeviceRow) (s : Store) : Store := {|
  enrollment_tokens := enrollment_tokens s; devices := d; policies := policies s;
  group_policy_assignments := group_policy_assignments s; findings := findings s;
  admin_audit := admin_audit s; audit_autoincrement := audit_autoincrement s;
  user_version := user_version s; schema_migrations := schema_migrations s |}.

Definition set_policies (p : gmap string PolicyRow) (s : Store) : Store := {|
  enrollment_tokens := enrollment_tokens s; devices := devices s; policies := p;
  group_policy_assignments := group_policy_assignments s; findings := findings s;
  admin_audit := admin_audit s; audit_autoincrement := audit_autoincrement s;
  user_version := user_version s; schema_migrations := schema_migrations s |}.

Definition set_assignments (a : gmap string AssignmentRow) (s : Store) : Store := {|
  enrollment_tokens := enrollment_tokens s; devices := devices s; policies := policies s;
  group_policy_assignments := a; findings := findings s;
  admin_audit := admin_audit s; audit_autoincrement := audit_autoincrement s;
  user_version := user_version s; schema_migrations := schema_migrations s |}.

Definition set_findings (f : gmap FindingKey FindingRow) (s : Store) : Store := {|
  enrollment_tokens := enrollment_tokens s; devices := devices s; policies := policies s;
  group_policy_assignments := group_policy_assignments s; findings := f;
  admin_audit := admin_audit s; audit_autoincrement := audit_autoincrement s;
  user_version := user_version s; schema_migrations := schema_migrations s |}.

(** ** Statements *)

(** [defer transaction.Rollback()] around the statements up to [Commit]. *)
Definition transaction {A} (m : eff Store A) : eff Store A := λ s,
  match m s with
  | (s', Ok a) => (s', Ok a)
  | (_, Err e) => (s, Err e)
  end.

Definition guard_ (c : bool) (e : error) : eff Store unit := pure_ (fail_if c e).

Definition unique_failed (column : string) : error :=
  ErrorsNew ("constraint failed: UNIQUE constraint failed: " +:+ column +:+ " (1555)").
Definition check_failed (check : string) : error :=
  ErrorsNew ("constraint failed: CHECK constraint failed: " +:+ check +:+ " (275)").
Definition foreign_key_failed : error :=
  ErrorsNew "constraint failed: FOREIGN KEY constraint failed (787)".

(** [err.Error()] of an engine error. *)
Fixpoint Error_text (e : error) : string :=
  match e with
  | ErrorsNew msg => msg
  | Sentinel msg => msg
  | Errorf format _ => format
  | Wrapf format _ _ => format
  | Join l r => Error_text l +:+ String "010" (Error_text r)
  end.

Definition isUniqueConstraint (err : error) : bool :=
  let lower := to_lower (Error_text err) in
  contains lower "unique constraint" || contains lower "primary key".

(** [strings.Contains(strings.ToLower(err.Error()), "foreign key")] *)
Definition isForeignKey (err : error) : bool :=
  contains (to_lower (Error_text err)) "foreign key".

(** database/sql refuses a uint64 argument with the high bit set. *)
Definition uint64_argument (z : Z) : result Z :=
  if max_int64 <? z
  then Err (ErrorsNew "sql: converting argument: uint64 values with high bit set are not supported")
  else Ok z.

Definition requireAffected (affected : Z) : result unit :=
  if negb (affected =? 1) then Err ErrNotFound else Ok tt.

(** UPDATE devices SET ... WHERE id = ? AND ...: the number of rows affected. *)
Definition update_device (id : string) (cond : DeviceRow → bool) (set : DeviceRow → DeviceRow)
    : eff Store Z := λ s,
  match devices s !! id with
  | Some row => if cond row then (set_devices (<[id := set row]> (devices s)) s, Ok 1) else (s, Ok 0)
  | None => (s, Ok 0)
  end.

(** revoked_at IS NULL *)
Definition not_revoked (row : DeviceRow) : bool :=
  match dv_revoked_at row with None => true | Some _ => false end.

Definition timeText (value : Time) : string := fixed_text value.

Definition parseTime (value : string) : result Time :=
  match parse_rfc3339 false value with
  | Some parsed => Ok parsed
  | None => Err (Wrapf "parse stored timestamp: %w" (ErrorsNew "parsing time") [])
  end.

(** A nullable timestamp column. *)
Definition parseNullTime (value : option string) : result (option Time) :=
  match value with
  | Some v => t ← parseTime v; Ok (Some t)
  | None => Ok None
  end.

Definition boundedLimit (value fallback maximum : Z) : Z :=
  if value <=? 0 then fallback else if maximum <? value then maximum else value.

Definition insert_audit (row : AuditRow) (s : Store) : Store := {|
  enrollment_tokens := enrollment_tokens s; devices := devices s; policies := policies s;
  group_policy_assignments := group_policy_assignments s; findings := findings s;
  admin_audit := admin_audit s ++ [row]; audit_autoincrement := au_sequence row;
  user_version := user_version s; schema_migrations := schema_migrations s |}.

Definition appendAudit (actorID action targetType targetID : string) (now : Time)
    : eff Store unit := λ s,
  if max_int64 <=? audit_autoincrement s then
    (s, Err (Wrapf "append admin audit: %w" (ErrorsNew "database or disk is full") []))
  else
    (insert_audit {| au_sequence := audit_autoincrement s + 1; au_actor_id := actorID;
                     au_action := action; au_target_type := targetType;
                     au_target_id := targetID; au_created_at := timeText (utc now) |} s, Ok tt).

(** ** Migration *)

(** [migrate]: the tables exist afterwards (here they always do); a newer
    version is refused, an older one is recorded and raised. *)
Definition migrate (now : Time) : eff Store unit :=
  transaction (λ s,
    if controllerSchemaVersion <? user_version s then
      (s, Err (Errorf "controller schema version %d is newer than supported version %d"
                 [FInt (user_version s); FInt controllerSchemaVersion]))
    else if user_version s <? 1 then
      match schema_migrations s !! 1 with
      | Some _ =>
          (s, Err (Wrapf "record controller schema migration 1: %w"
                     (unique_failed "schema_migrations.version") []))
      | None =>
          ({| enrollment_tokens := enrollment_tokens s; devices := devices s;
              policies := policies s; group_policy_assignments := group_policy_assignments s;
              findings := findings s; admin_audit := admin_audit s;
              audit_autoincrement := audit_autoincrement s; user_version := 1;
              schema_migrations := <[1 := rfc3339nano (utc now)]> (schema_migrations s) |}, Ok tt)
      end
    else (s, Ok tt)).

(** ** Credentials and identifiers *)

Section store.
Context `{HH : Hash}.

Definition newCredential (random : option (list Z)) : result (string * list Z) :=
  match random with
  | None => Err (Wrapf "generate credential: %w" (ErrorsNew "rand") [])
  | Some randomBytes =>
      let token := raw_url_encode randomBytes in Ok (token, Sum256 token)
  end.

Definition newRandomIdentifier (random : option (list Z)) : result string :=
  match random with
  | None => Err (Wrapf "generate identifier: %w" (ErrorsNew "rand") [])
  | Some randomBytes => Ok (raw_url_encode randomBytes)
  end.

(** ** Enrollment *)

Definition insert_token (hash : list Z) (row : TokenRow) : eff Store unit := λ s,
  if negb (Z.of_nat (length hash) =? 32) then (s, Err (check_failed "length(token_hash) = 32"))
  else match enrollment_tokens s !! hash with
  | Some _ => (s, Err (unique_failed "enrollment_tokens.token_hash"))
  | None => (set_tokens (<[hash := row]> (enrollment_tokens s)) s, Ok tt)
  end.

Definition CreateEnrollmentToken (random : option (list Z)) (actorID group : string) (ttl : Z)
    (now : Time) : eff Store (string * Time) :=
  _ ← guard_ (negb (validIdentifier actorID) || negb (validGroup group)) ErrInvalidInput;
  _ ← guard_ ((ttl <? minute) || (7 * 24 * hour <? ttl))
        (invalid "%w: enrollment TTL must be between one minute and seven days");
  '(token, tokenHash) ← pure_ (newCredential random);
  let now := utc now in
  let expiresAt := add now ttl in
  _ ← transaction (
    _ ← wrap_err (λ e, Wrapf "store enrollment token: %w" e [])
          (insert_token tokenHash {|
             tk_group_name := group; tk_expires_at := timeText expiresAt;
             tk_created_at := timeText now; tk_created_by := actorID;
             tk_used_at := None; tk_used_by_device_id := None |});
    appendAudit actorID "enrollment_token.create" "group" group now);
  mret (token, expiresAt).

(** used_at IS NULL AND expires_at > ? *)
Definition token_usable (now : string) (row : TokenRow) : bool :=
  match tk_used_at row with Some _ => false | None => str_ltb now (tk_expires_at row) end.

(** UPDATE enrollment_tokens ... RETURNING group_name; no row is
    [sql.ErrNoRows]. *)
Definition consume_token (hash : list Z) (deviceID now : string) : eff Store string := λ s,
  match enrollment_tokens s !! hash with
  | Some row =>
      if token_usable now row then
        (set_tokens (<[hash := {|
           tk_group_name := tk_group_name row; tk_expires_at := tk_expires_at row;
           tk_created_at := tk_created_at row; tk_created_by := tk_created_by row;
           tk_used_at := Some now; tk_used_by_device_id := Some deviceID |}]>
           (enrollment_tokens s)) s, Ok (tk_group_name row))
      else (s, Err ErrUnauthenticated)
  | None => (s, Err ErrUnauthenticated)
  end.

Definition insert_device (id : string) (row : DeviceRow) : eff Store unit := λ s,
  if negb (Z.of_nat (length (dv_credential_hash row)) =? 32)
  then (s, Err (check_failed "length(credential_hash) = 32"))
  else match devices s !! id with
  | Some _ => (s, Err (unique_failed "devices.id"))
  | None => (set_devices (<[id := row]> (devices s)) s, Ok tt)
  end.

Definition Enroll (randomID randomCredential : option (list Z)) (token : string)
    (metadata : DeviceMetadata) (now : Time) : eff Store (EnrollmentGrant * Device) :=
  _ ← pure_ (DeviceMetadata_Validate metadata);
  _ ← guard_ (String.eqb token "" || (maxBearerTokenBytes <? slen token)) ErrUnauthenticated;
  let tokenHash := Sum256 token in
  deviceID ← pure_ (newRandomIdentifier randomID);
  '(credential, credentialHash) ← pure_ (newCredential randomCredential);
  let now := utc now in
  group ← transaction (
    group ← consume_token tokenHash deviceID (timeText now);
    _ ← wrap_err (λ e, Wrapf "store enrolled device: %w" e [])
          (insert_device deviceID {|
             dv_credential_hash := credentialHash; dv_name := Meta_Name metadata;
             dv_platform := Meta_Platform metadata; dv_os_version := Meta_OSVersion metadata;
             dv_agent_version := Meta_AgentVersion metadata; dv_group_name := group;
             dv_enrolled_at := timeText now; dv_last_seen_at := None;
             dv_credential_rotated_at := timeText now; dv_revoked_at := None |});
    mret group);
  mret ({| DeviceID := deviceID; DeviceCredential := credential |},
        {| Device_ID := deviceID; Device_Name := Meta_Name metadata;
           Device_Platform := Meta_Platform metadata; OSVersion := Meta_OSVersion metadata;
           AgentVersion := Meta_AgentVersion metadata; Group := group; EnrolledAt := now;
           LastSeenAt := None; CredentialRotatedAt := now; RevokedAt := None |}).

(** ** Devices *)

(** [subtle.ConstantTimeCompare]: equal contents of equal length. *)
Definition ConstantTimeCompare (x y : list Z) : bool := bool_decide (x = y).

Definition AuthenticateDevice (deviceID credential : string) (s : Store) : result Device :=
  let credential := if maxBearerTokenBytes <? slen credential then "" else credential in
  let candidateHash := Sum256 credential in
  match devices s !! deviceID with
  | None => Err ErrUnauthenticated
  | Some row =>
      let equal := ConstantTimeCompare candidateHash (dv_credential_hash row) in
      let active := not_revoked row in
      if negb (equal && active) then Err ErrUnauthenticated else
      enrolledAt ← parseTime (dv_enrolled_at row);
      rotatedAt ← parseTime (dv_credential_rotated_at row);
      lastSeen ← parseNullTime (dv_last_seen_at row);
      Ok {| Device_ID := deviceID; Device_Name := dv_name row;
            Device_Platform := dv_platform row; OSVersion := dv_os_version row;
            AgentVersion := dv_agent_version row; Group := dv_group_name row;
            EnrolledAt := enrolledAt; LastSeenAt := lastSeen;
            CredentialRotatedAt := rotatedAt; RevokedAt := None |}
  end.

Definition set_heartbeat (metadata : DeviceMetadata) (seen : string) (row : DeviceRow) : DeviceRow := {|
  dv_credential_hash := dv_credential_hash row; dv_name := Meta_Name metadata;
  dv_platform := Meta_Platform metadata; dv_os_version := Meta_OSVersion metadata;
  dv_agent_version := Meta_AgentVersion metadata; dv_group_name := dv_group_name row;
  dv_enrolled_at := dv_enrolled_at row; dv_last_seen_at := Some seen;
  dv_credential_rotated_at := dv_credential_rotated_at row; dv_revoked_at := dv_revoked_at row |}.

Definition Heartbeat (deviceID : string) (metadata : DeviceMetadata) (now : Time)
    : eff Store unit :=
  _ ← pure_ (DeviceMetadata_Validate metadata);
  affected ← update_device deviceID not_revoked (set_heartbeat metadata (timeText (utc now)));
  pure_ (requireAffected affected).

Definition set_credential (hash : list Z) (rotated : string) (row : DeviceRow) : DeviceRow := {|
  dv_credential_hash := hash; dv_name := dv_name row; dv_platform := dv_platform row;
  dv_os_version := dv_os_version row; dv_agent_version := dv_agent_version row;
  dv_group_name := dv_group_name row; dv_enrolled_at := dv_enrolled_at row;
  dv_last_seen_at := dv_last_seen_at row; dv_credential_rotated_at := rotated;
  dv_revoked_at := dv_revoked_at row |}.

(** The CHECK on the hash holds for every SHA-256 sum. *)
Definition RotateDeviceCredential (random : option (list Z)) (deviceID : string) (now : Time)
    : eff Store string :=
  '(credential, credentialHash) ← pure_ (newCredential random);
  affected ← update_device deviceID not_revoked
               (set_credential credentialHash (timeText (utc now)));
  _ ← pure_ (requireAffected affected);
  mret credential.

Definition set_revoked (revoked : string) (row : DeviceRow) : DeviceRow := {|
  dv_credential_hash := dv_credential_hash row; dv_name := dv_name row;
  dv_platform := dv_platform row; dv_os_version := dv_os_version row;
  dv_agent_version := dv_agent_version row; dv_group_name := dv_group_name row;
  dv_enrolled_at := dv_enrolled_at row; dv_last_seen_at := dv_last_seen_at row;
  dv_credential_rotated_at := dv_credential_rotated_at row; dv_revoked_at := Some revoked |}.

Definition RevokeDevice (actorID deviceID : string) (now : Time) : eff Store unit :=
  _ ← guard_ (negb (validIdentifier actorID) || negb (validIdentifier deviceID)) ErrInvalidInput;
  transaction (
    affected ← update_device deviceID not_revoked (set_revoked (timeText (utc now)));
    _ ← pure_ (requireAffected affected);
    appendAudit actorID "device.revoke" "device" deviceID now).

Definition set_group (group : string) (row : DeviceRow) : DeviceRow := {|
  dv_credential_hash := dv_credential_hash row; dv_name := dv_name row;
  dv_platform := dv_platform row; dv_os_version := dv_os_version row;
  dv_agent_version := dv_agent_version row; dv_group_name := group;
  dv_enrolled_at := dv_enrolled_at row; dv_last_seen_at := dv_last_seen_at row;
  dv_credential_rotated_at := dv_credential_rotated_at row; dv_revoked_at := dv_revoked_at row |}.

Definition AssignDeviceGroup (actorID deviceID group : string) (now : Time) : eff Store unit :=
  _ ← guard_ (negb (validIdentifier actorID) || negb (validIdentifier deviceID)
              || negb (validGroup group)) ErrInvalidInput;
  transaction (
    affected ← update_device deviceID (λ _, true) (set_group group);
    _ ← pure_ (requireAffected affected);
    appendAudit actorID "device.group.assign" "device" deviceID now).

(** ORDER BY enrolled_at DESC, id *)
Definition device_less : string * DeviceRow → string * DeviceRow → bool :=
  lex_by (λ r, dv_enrolled_at r.2) String.eqb (λ x y, str_ltb y x) (λ a b, str_ltb a.1 b.1).

Definition scan_device (r : string * DeviceRow) : result Device :=
  let '(id, row) := r in
  enrolledAt ← parseTime (dv_enrolled_at row);
  rotatedAt ← parseTime (dv_credential_rotated_at row);
  lastSeen ← parseNullTime (dv_last_seen_at row);
  revoked ← parseNullTime (dv_revoked_at row);
  Ok {| Device_ID := id; Device_Name := dv_name row; Device_Platform := dv_platform row;
        OSVersion := dv_os_version row; AgentVersion := dv_agent_version row;
        Group := dv_group_name row; EnrolledAt := enrolledAt; LastSeenAt := lastSeen;
        CredentialRotatedAt := rotatedAt; RevokedAt := revoked |}.

Definition ListDevices (limit : Z) (s : Store) : result (list Device) :=
  let limit := boundedLimit limit 100 1000 in
  mapM scan_device (take (Z.to_nat limit) (sort_by device_less (map_to_list (devices s)))).

(** ** Policies *)

Definition marshal_policy (format : string) (document : PolicyDocument) : result string :=
  match Marshal document with
  | Some t => Ok t
  | None => Err (Wrapf format (ErrorsNew "json") [])
  end.

Definition insert_policy (id : string) (row : PolicyRow) : eff Store unit := λ s,
  if pl_revision row <=? 0 then (s, Err (check_failed "revision > 0"))
  else match policies s !! id with
  | Some _ => (s, Err (unique_failed "policies.id"))
  | None => (set_policies (<[id := row]> (policies s)) s, Ok tt)
  end.

Definition CreatePolicy (actorID : string) (document : PolicyDocument) (now : Time)
    : eff Store unit :=
  _ ← guard_ (negb (validIdentifier actorID)) ErrInvalidInput;
  _ ← pure_ (PolicyDocument_Validate document);
  _ ← guard_ (negb (Revision document =? 1)) (invalid "%w: a new policy revision must be 1");
  encoded ← pure_ (marshal_policy "encode policy: %w" document);
  let at_ := timeText (utc now) in
  transaction (
    _ ← wrap_err (λ err, if isUniqueConstraint err then ErrConflict
                         else Wrapf "store policy: %w" err [])
          (revision ← pure_ (uint64_argument (Revision document));
           insert_policy (Policy_ID document) {|
             pl_revision := revision; pl_document := encoded; pl_created_at := at_;
             pl_updated_at := at_; pl_created_by := actorID; pl_updated_by := actorID |});
    appendAudit actorID "policy.create" "policy" (Policy_ID document) now).

(** UPDATE policies SET ... WHERE id = ? AND revision = ? *)
Definition update_policy (id : string) (revision : Z) (set : PolicyRow → PolicyRow)
    : eff Store Z := λ s,
  match policies s !! id with
  | Some row =>
      if pl_revision row =? revision
      then if pl_revision (set row) <=? 0 then (s, Err (check_failed "revision > 0"))
           else (set_policies (<[id := set row]> (policies s)) s, Ok 1)
      else (s, Ok 0)
  | None => (s, Ok 0)
  end.

Definition set_document (revision : Z) (encoded updated actorID : string) (row : PolicyRow)
    : PolicyRow := {|
  pl_revision := revision; pl_document := encoded; pl_created_at := pl_created_at row;
  pl_updated_at := updated; pl_created_by := pl_created_by row; pl_updated_by := actorID |}.

Definition UpdatePolicy (actorID : string) (document : PolicyDocument) (now : Time)
    : eff Store unit :=
  _ ← guard_ (negb (validIdentifier actorID)) ErrInvalidInput;
  _ ← pure_ (PolicyDocument_Validate document);
  encoded ← pure_ (marshal_policy "encode policy: %w" document);
  transaction (
    affected ← wrap_err (λ err, Wrapf "update policy: %w" err [])
      (revision ← pure_ (uint64_argument (Revision document));
       previous ← pure_ (uint64_argument (Revision document - 1));
       update_policy (Policy_ID document) previous
         (set_document revision encoded (timeText (utc now)) actorID));
    _ ← pure_ (map_err (λ _, ErrConflict) (requireAffected affected));
    appendAudit actorID "policy.update" "policy" (Policy_ID document) now).

(** Some group is assigned the policy. *)
Definition policy_referenced (id : string) (s : Store) : bool :=
  existsb (λ a, String.eqb (ga_policy_id a.2) id) (map_to_list (group_policy_assignments s)).

(** DELETE FROM policies WHERE id = ?, restricted by the assignments. *)
Definition delete_policy (id : string) : eff Store Z := λ s,
  match policies s !! id with
  | None => (s, Ok 0)
  | Some _ =>
      if policy_referenced id s then (s, Err foreign_key_failed)
      else (set_policies (delete id (policies s)) s, Ok 1)
  end.

Definition DeletePolicy (actorID policyID : string) (now : Time) : eff Store unit :=
  _ ← guard_ (negb (validIdentifier actorID) || negb (validIdentifier policyID)) ErrInvalidInput;
  transaction (
    affected ← wrap_err (λ err, if isForeignKey err then ErrConflict
                                else Wrapf "delete policy: %w" err []) (delete_policy policyID);
    _ ← pure_ (requireAffected affected);
    appendAudit actorID "policy.delete" "policy" policyID now).

Definition decodeStoredPolicy (encoded : string) : result PolicyDocument :=
  match Unmarshal encoded with
  | None => Err (Wrapf "decode stored policy: %w" (ErrorsNew "json") [])
  | Some document =>
      _ ← map_err (λ e, Wrapf "validate stored policy: %w" e []) (PolicyDocument_Validate document);
      Ok document
  end.

Definition GetPolicy (policyID : string) (s : Store) : result PolicyDocument :=
  _ ← fail_if (negb (validIdentifier policyID)) ErrInvalidInput;
  match policies s !! policyID with
  | None => Err ErrNotFound
  | Some row => decodeStoredPolicy (pl_document row)
  end.

(** ORDER BY id *)
Definition policy_less (a b : string * PolicyRow) : bool := str_ltb a.1 b.1.

Definition ListPolicies (limit : Z) (s : Store) : result (list PolicyDocument) :=
  let limit := boundedLimit limit 100 1000 in
  mapM (λ r, decodeStoredPolicy (pl_document r.2))
    (take (Z.to_nat limit) (sort_by policy_less (map_to_list (policies s)))).

(** INSERT ... ON CONFLICT(group_name) DO UPDATE, with the foreign key on
    policies. *)
Definition upsert_assignment (group : string) (row : AssignmentRow) : eff Store unit := λ s,
  match policies s !! ga_policy_id row with
  | None => (s, Err foreign_key_failed)
  | Some _ => (set_assignments (<[group := row]> (group_policy_assignments s)) s, Ok tt)
  end.

Definition AssignGroupPolicy (actorID group policyID : string) (now : Time) : eff Store unit :=
  _ ← guard_ (negb (validIdentifier actorID) || negb (validGroup group)
              || negb (validIdentifier policyID)) ErrInvalidInput;
  transaction (
    _ ← wrap_err (λ err, if isForeignKey err then ErrNotFound
                         else Wrapf "assign group policy: %w" err [])
          (upsert_assignment group {| ga_policy_id := policyID;
             ga_updated_at := timeText (utc now); ga_updated_by := actorID |});
    appendAudit actorID "group.policy.assign" "group" group now).

Definition delete_assignment (group : string) : eff Store Z := λ s,
  match group_policy_assignments s !! group with
  | None => (s, Ok 0)
  | Some _ => (set_assignments (delete group (group_policy_assignments s)) s, Ok 1)
  end.

Definition UnassignGroupPolicy (actorID group : string) (now : Time) : eff Store unit :=
  _ ← guard_ (negb (validIdentifier actorID) || negb (validGroup group)) ErrInvalidInput;
  transaction (
    affected ← delete_assignment group;
    _ ← pure_ (requireAffected affected);
    appendAudit actorID "group.policy.remove" "group" group now).

(** The join of the assignments with the policies. *)
Definition group_document (group : string) (s : Store) : option string :=
  assignment ← group_policy_assignments s !! group;
  policy ← policies s !! ga_policy_id assignment;
  Some (pl_document policy).

(** The join of a device that is not revoked with those of its group. *)
Definition device_document (deviceID : string) (s : Store) : option string :=
  device ← devices s !! deviceID;
  if not_revoked device then group_document (dv_group_name device) s else None.

Definition PolicyForDevice (deviceID : string) (s : Store) : result PolicyDocument :=
  match device_document deviceID s with
  | None => Err ErrNotFound
  | Some encoded => decodeStoredPolicy encoded
  end.

Definition PolicyForGroup (group : string) (s : Store) : result PolicyDocument :=
  _ ← fail_if (negb (validGroup group)) ErrInvalidInput;
  match group_document group s with
  | None => Err ErrNotFound
  | Some encoded => decodeStoredPolicy encoded
  end.

(** ** Reports *)

(** INSERT ... ON CONFLICT(device_id, detector_id, category) DO UPDATE, with
    the foreign key on devices. *)
Definition upsert_finding (key : FindingKey) (row : FindingRow) : eff Store unit := λ s,
  if fi_occurrences row <=? 0 then (s, Err (check_failed "occurrences > 0"))
  else match devices s !! key.1.1 with
  | None => (s, Err foreign_key_failed)
  | Some _ => (set_findings (<[key := row]> (findings s)) s, Ok tt)
  end.

Definition store_finding (deviceID : string) (reportedAt : Time) (finding : RedactedFinding)
    : eff Store unit :=
  wrap_err (λ err, Wrapf "store redacted finding: %w" err [])
    (occurrences ← pure_ (uint64_argument (Red_Occurrences finding));
     upsert_finding (deviceID, Red_DetectorID finding, Red_Category finding) {|
       fi_severity := Red_Severity finding; fi_state := Red_State finding;
       fi_first_seen := timeText (utc (Red_FirstSeen finding));
       fi_last_seen := timeText (utc (Red_LastSeen finding));
       fi_occurrences := occurrences; fi_reported_at := timeText (utc reportedAt) |}).

(** The loop of [SyncReport] over the findings. *)
Fixpoint store_findings (deviceID : string) (reportedAt : Time) (l : list RedactedFinding)
    : eff Store unit :=
  match l with
  | [] => mret tt
  | finding :: l' =>
      _ ← store_finding deviceID reportedAt finding;
      store_findings deviceID reportedAt l'
  end.

Definition set_last_seen (seen : string) (row : DeviceRow) : DeviceRow := {|
  dv_credential_hash := dv_credential_hash row; dv_name := dv_name row;
  dv_platform := dv_platform row; dv_os_version := dv_os_version row;
  dv_agent_version := dv_agent_version row; dv_group_name := dv_group_name row;
  dv_enrolled_at := dv_enrolled_at row; dv_last_seen_at := Some seen;
  dv_credential_rotated_at := dv_credential_rotated_at row; dv_revoked_at := dv_revoked_at row |}.

Definition SyncReport (deviceID : string) (report : ReportSync) (now : Time) : eff Store unit :=
  _ ← pure_ (ReportSync_Validate report (utc now));
  transaction (
    _ ← store_findings deviceID (ReportedAt report) (Report_Findings report);
    affected ← update_device deviceID not_revoked (set_last_seen (timeText (utc now)));
    pure_ (requireAffected affected)).

(** ORDER BY reported_at DESC, device_id, detector_id; the order of two
    categories of one detector is left open by the statement. *)
Definition stored_less : FindingKey * FindingRow → FindingKey * FindingRow → bool :=
  lex_by (λ r, fi_reported_at r.2) String.eqb (λ x y, str_ltb y x)
    (lex_by (λ r, r.1.1.1) String.eqb str_ltb (λ a b, str_ltb a.1.1.2 b.1.1.2)).

Definition scan_finding (r : FindingKey * FindingRow) : result StoredFinding :=
  let '((deviceID, detectorID, category), row) := r in
  firstSeen ← parseTime (fi_first_seen row);
  lastSeen ← parseTime (fi_last_seen row);
  reportedAt ← parseTime (fi_reported_at row);
  Ok {| Stored_DeviceID := deviceID; Stored_ReportedAt := reportedAt;
        Stored_Finding := {|
          Red_DetectorID := detectorID; Red_Category := category;
          Red_Severity := fi_severity row; Red_State := fi_state row;
          Red_FirstSeen := firstSeen; Red_LastSeen := lastSeen;
          Red_Occurrences := fi_occurrences row |} |}.

Definition ListFindings (limit : Z) (s : Store) : result (list StoredFinding) :=
  let limit := boundedLimit limit 500 5000 in
  mapM scan_finding (take (Z.to_nat limit) (sort_by stored_less (map_to_list (findings s)))).

(** ** The audit log *)

Definition scan_audit (row : AuditRow) : result AuditEntry :=
  createdAt ← parseTime (au_created_at row);
  Ok {| Audit_Sequence := au_sequence row; ActorID := au_actor_id row; Action := au_action row;
        TargetType := au_target_type row; TargetID := au_target_id row;
        CreatedAt := createdAt |}.

(** The rows are kept in the order of their sequence. *)
Definition ListAudit (afterSequence limit : Z) (s : Store) : result (list AuditEntry) :=
  _ ← fail_if (afterSequence <? 0) ErrInvalidInput;
  let limit := boundedLimit limit 100 1000 in
  mapM scan_audit (take (Z.to_nat limit)
    (filter (λ r, afterSequence < au_sequence r) (admin_audit s))).
End store.
