(* ===== verification/ControllerAuth.v ===== *)
(** * Package controller: authentication and signed policies

    [internal/controller/auth.go] and [internal/controller/signing.go]: who may
    ask the controller for what, and the policies it signs. *)

From S2P Require Import Prelude GoString Calendar GoTime Json JsonCompact Model ModelJson Profile.
From S2P Require Import GoCrypto Base64 ControllerTypes ControllerStore.
#[local] Open Scope Z_scope.

(** ** Package controller: the administrators

    [internal/controller/auth.go]: the set of principals with the digests of
    their tokens, its validation, and the check of a bearer header.  Reading
    the configuration file is not modelled. *)

Record PrincipalSpec := { Spec_ID : string; Spec_Role : Role; TokenSHA256 : string }.

(** A set of principals is the list of its members. *)
Abbreviation PrincipalSet := (list Principal).

(** [hex.DecodeString] *)
Definition hex_value (c : ascii) : option Z :=
  let b := byte c in
  if between 48 57 b then Some (b - 48) else if between 97 102 b then Some (b - 87)
  else if between 65 70 b then Some (b - 55) else None.

Fixpoint hex_decode (s : string) : option (list Z) :=
  match s with
  | EmptyString => Some []
  | String c (String d s') =>
      h ← hex_value c; l ← hex_value d; rest ← hex_decode s'; Some (h * 16 + l :: rest)
  | String _ EmptyString => None
  end.

Section auth.
Context `{HH : Hash}.

Definition HashToken (token : string) : string := hex_encode (Sum256 token).

(** The loop of [NewPrincipalSet], with the principals built so far. *)
Fixpoint add_principals (ids : gset string) (tokenHashes : gset (list Z)) (hasAdmin : bool)
    (principals : list Principal) (specifications : list PrincipalSpec)
    : result (list Principal * bool) :=
  match specifications with
  | [] => Ok (principals, hasAdmin)
  | specification :: specifications' =>
      if negb (validIdentifier (Spec_ID specification)) then
        Err (ErrorsNew "principal config contains an invalid id")
      else if negb (Role_Valid (Spec_Role specification)) then
        Err (ErrorsNew "principal config contains an invalid role")
      else if bool_decide (Spec_ID specification ∈ ids) then
        Err (ErrorsNew "principal config contains a duplicate id")
      else match hex_decode (TokenSHA256 specification) with
      | None => Err (ErrorsNew "principal config contains an invalid token hash")
      | Some decoded =>
          if negb (Z.of_nat (length decoded) =? 32) then
            Err (ErrorsNew "principal config contains an invalid token hash")
          else if bool_decide (decoded ∈ tokenHashes) then
            Err (ErrorsNew "principal config contains a duplicate token hash")
          else
            add_principals ({[Spec_ID specification]} ∪ ids) ({[decoded]} ∪ tokenHashes)
              (hasAdmin || String.eqb (Spec_Role specification) RoleAdmin)
              (principals ++ [{| Principal_ID := Spec_ID specification;
                                 Principal_Role := Spec_Role specification;
                                 tokenHash := decoded |}])
              specifications'
      end
  end.

Definition NewPrincipalSet (specifications : list PrincipalSpec) : result PrincipalSet :=
  let count := Z.of_nat (length specifications) in
  if (count =? 0) || (1000 <? count) then
    Err (ErrorsNew "principal config must contain between 1 and 1000 principals")
  else
    '(principals, hasAdmin) ← add_principals ∅ ∅ false [] specifications;
    if negb hasAdmin then Err (ErrorsNew "principal config must contain at least one admin")
    else Ok principals.

(** Space, tab, carriage return, line feed. *)
Definition token_separators : list ascii := [" "; "009"; "013"; "010"]%char.

Definition bearer_prefix : string := "Bearer ".

(** The loop over the principals: the last one with the digest wins. *)
Definition select_principal (candidateHash : list Z) (validFormat : bool)
    (principals : list Principal) : option Principal :=
  foldl (λ selected p,
    if ConstantTimeCompare candidateHash (tokenHash p) && validFormat then Some p else selected)
    None principals.

Definition AuthenticateBearer (principals : PrincipalSet) (header : string) : option Principal :=
  let '(candidate, validFormat) :=
    if slen header <=? slen bearer_prefix + maxBearerTokenBytes then
      match strip_prefix bearer_prefix header with
      | Some rest =>
          if slen bearer_prefix <? slen header
          then (rest, negb (contains_any rest token_separators)) else ("", false)
      | None => ("", false)
      end
    else ("", false) in
  select_principal (Sum256 candidate) validFormat principals.
End auth.

(** ** Properties *)

Lemma hex_value_char d : 0 ≤ d < 16 → hex_value (hex_char d) = Some d.
Proof.
  intros H. pose proof (byte_forall
    (λ d, if d <? 16 then bool_decide (hex_value (hex_char d) = Some d) else true) d
    ltac:(by vm_compute) ltac:(lia)) as E. cbn beta in E.
  rewrite (proj2 (Z.ltb_lt _ _)) in E by lia. by bool_prop.
Qed.

Lemma hex_decode_encode l : is_bytes l → hex_decode (hex_encode l) = Some l.
Proof.
  unfold is_bytes. induction 1 as [|b l Hb _ IH]; [done|]. cbn [hex_encode hex_decode].
  rewrite !hex_value_char by (Z.to_euclidean_division_equations; lia). cbn [mbind option_bind].
  rewrite IH. cbn [mbind option_bind]. repeat f_equal. Z.to_euclidean_division_equations. lia.
Qed.

(** A member built from a specification. *)
Definition built (sp : PrincipalSpec) (p : Principal) : Prop :=
  Principal_ID p = Spec_ID sp ∧ Principal_Role p = Spec_Role sp ∧
  hex_decode (TokenSHA256 sp) = Some (tokenHash p) ∧
  validIdentifier (Spec_ID sp) = true ∧ Role_Valid (Spec_Role sp) = true.

Lemma add_principals_ok ids hashes admin acc specs ps admin' :
  add_principals ids hashes admin acc specs = Ok (ps, admin') →
  ∃ new, ps = acc ++ new ∧ Forall2 built specs new ∧
    NoDup (Principal_ID <$> new) ∧ NoDup (tokenHash <$> new) ∧
    Forall (λ p, (Principal_ID p ∉ ids) ∧ (tokenHash p ∉ hashes)) new ∧
    (admin' = true → admin = true ∨ ∃ p, p ∈ new ∧ Principal_Role p = RoleAdmin).
Proof.
  revert ids hashes admin acc. induction specs as [|sp specs IH]; intros ids hashes admin acc.
  { intros [= <- <-]. exists []. rewrite app_nil_r. split_and!; try constructor; done. }
  cbn [add_principals]. destruct (validIdentifier (Spec_ID sp)) eqn:Ei; [|done].
  destruct (Role_Valid (Spec_Role sp)) eqn:Er; [|done]. cbn [negb].
  case_bool_decide as Hid; [done|]. destruct (hex_decode (TokenSHA256 sp)) as [h|] eqn:Eh; [|done].
  destruct (Z.of_nat (length h) =? 32); [|done]. cbn [negb]. case_bool_decide as Hh; [done|].
  intros (new & -> & HF & Hd1 & Hd2 & Hn & Ha)%IH.
  rewrite Forall_forall in Hn. eexists (_ :: new). rewrite <-app_assoc. split; [done|].
  split_and!; cbn [fmap list_fmap].
  - constructor; [|done]. by split_and!.
  - constructor; [|done]. intros (p & Hp & Hin)%list_elem_of_fmap. apply Hn in Hin as [Hin _].
    cbn in Hp. set_solver.
  - constructor; [|done]. intros (p & Hp & Hin)%list_elem_of_fmap. apply Hn in Hin as [_ Hin].
    cbn in Hp. set_solver.
  - constructor; [done|]. apply Forall_forall. intros p Hin%Hn. set_solver.
  - intros [H|(p & Hin & Hp)]%Ha; [|right; exists p; split; [by right|done]].
    apply orb_true_iff in H as [H|H%String.eqb_eq]; [by left|].
    right. eexists. split; [by left|done].
Qed.

Lemma NewPrincipalSet_ok specs ps :
  NewPrincipalSet specs = Ok ps →
  Forall2 built specs ps ∧ NoDup (Principal_ID <$> ps) ∧ NoDup (tokenHash <$> ps) ∧
  (∃ p, p ∈ ps ∧ Principal_Role p = RoleAdmin).
Proof.
  unfold NewPrincipalSet. case_match; [done|]. intros ([l admin] & Hl & HP)%bind_ok_inv.
  destruct admin; [|done]. injection HP as ->.
  apply add_principals_ok in Hl as (new & -> & HF & Hd1 & Hd2 & _ & Ha).
  destruct (Ha eq_refl) as [|Hadm]; [done|]. by split_and!.
Qed.

Lemma select_none h v ps sel :
  Forall (λ p, tokenHash p ≠ h ∨ v = false) ps →
  foldl (λ selected p, if ConstantTimeCompare h (tokenHash p) && v then Some p else selected) sel ps
    = sel.
Proof.
  intros H. revert sel. induction H as [|p ps Hp _ IH]; intros sel; [done|]. cbn [foldl].
  rewrite IH. unfold ConstantTimeCompare. destruct Hp as [Hp|Hp]; [|by rewrite Hp, andb_false_r].
  case_bool_decide; [congruence|done].
Qed.

Lemma select_principal_spec h ps p :
  NoDup (tokenHash <$> ps) →
  select_principal h true ps = Some p ↔ p ∈ ps ∧ tokenHash p = h.
Proof.
  unfold select_principal. intros Hd.
  destruct (decide (h ∈ tokenHash <$> ps)) as [(q & -> & Hq)%list_elem_of_fmap|Hn].
  - apply list_elem_of_split in Hq as (l1 & l2 & ->).
    rewrite fmap_app, fmap_cons in Hd. apply NoDup_app in Hd as (Hd1 & Hd2 & Hd3).
    apply NoDup_cons in Hd3 as [Hd4 Hd5]. rewrite foldl_app. cbn [foldl].
    unfold ConstantTimeCompare at 2. rewrite bool_decide_true by done. cbn [andb].
    rewrite select_none.
    + split; [intros [= ->]; split; [set_solver|done]|]. intros [Hin He]. f_equal.
      apply elem_of_app in Hin as [Hin|[->|Hin]%elem_of_cons]; [|done|].
      * destruct (Hd2 (tokenHash p)); [by apply list_elem_of_fmap_2|rewrite He; by left].
      * destruct Hd4. rewrite <-He. by apply list_elem_of_fmap_2.
    + apply Forall_forall. intros x Hx. left. intros E. apply Hd4. rewrite <-E.
      by apply list_elem_of_fmap_2.
  - rewrite select_none.
    + split; [done|]. intros [Hin <-]. destruct Hn. by apply list_elem_of_fmap_2.
    + apply Forall_forall. intros x Hx. left. intros <-. destruct Hn. by apply list_elem_of_fmap_2.
Qed.

(** A token a bearer header can carry. *)
Definition token_ok (token : string) : Prop :=
  token ≠ "" ∧ slen token ≤ maxBearerTokenBytes ∧ contains_any token token_separators = false.

Section auth_facts.
Context `{HH : Hash, HL : !HashLaws}.

Lemma AuthenticateBearer_ok ps header p :
  NoDup (tokenHash <$> ps) →
  AuthenticateBearer ps header = Some p ↔
  ∃ token, header = bearer_prefix +:+ token ∧ token_ok token ∧ p ∈ ps ∧ tokenHash p = Sum256 token.
Proof.
  intros Hd. unfold AuthenticateBearer, token_ok.
  assert (∀ h, select_principal h false ps = None) as Hnone.
  { intros h. apply select_none, Forall_forall. intros x _. by right. }
  assert (∀ t, slen (bearer_prefix +:+ t) = 7 + slen t) as Hlen.
  { intros t. unfold slen. rewrite length_app_str. simpl. lia. }
  split.
  - destruct (_ <=? _) eqn:Hl; [|by rewrite Hnone].
    destruct (strip_prefix bearer_prefix header) as [rest|] eqn:Hs; [|by rewrite Hnone].
    apply strip_prefix_inv in Hs as ->. destruct (_ <? _) eqn:Hl2; [|by rewrite Hnone].
    destruct (contains_any rest token_separators) eqn:Hc; cbn [negb]; [by rewrite Hnone|].
    intros H%select_principal_spec; [|done]. exists rest. rewrite Hlen in *. bool_prop.
    change (slen bearer_prefix) with 7 in *. split_and!; try done; [|lia|by destruct H..].
    intros ->. done.
  - intros (token & -> & (Hne & Hl & Hc) & Hin & Hh). rewrite Hlen, strip_prefix_app.
    change (slen bearer_prefix) with 7.
    rewrite (proj2 (Z.leb_le _ _)) by lia. rewrite (proj2 (Z.ltb_lt _ _)).
    + rewrite Hc. by apply select_principal_spec.
    + destruct token; [done|]. unfold slen. cbn. lia.
Qed.

(** C32. In a set built by [NewPrincipalSet] the identifiers and the token
    digests are distinct and there is an administrator; a header authenticates
    a principal exactly when it is "Bearer " followed by a non-empty token of at
    most 4096 bytes without separators whose digest is that principal's; so
    the token a specification was made from with [HashToken] authenticates
    exactly the principal specified. *)
Theorem AuthenticateBearer_spec specs ps :
  NewPrincipalSet specs = Ok ps →
  NoDup (Principal_ID <$> ps) ∧ NoDup (tokenHash <$> ps) ∧
  (∃ p, p ∈ ps ∧ Principal_Role p = RoleAdmin) ∧
  (∀ header p, AuthenticateBearer ps header = Some p ↔
     ∃ token, header = bearer_prefix +:+ token ∧ token_ok token ∧ p ∈ ps ∧
       tokenHash p = Sum256 token) ∧
  (∀ sp token, sp ∈ specs → TokenSHA256 sp = HashToken token → token_ok token →
     ∃ p, AuthenticateBearer ps (bearer_prefix +:+ token) = Some p ∧
       Principal_ID p = Spec_ID sp ∧ Principal_Role p = Spec_Role sp).
Proof.
  intros (HF & Hd1 & Hd2 & Ha)%NewPrincipalSet_ok. split_and!; try done.
  - intros header p. by apply AuthenticateBearer_ok.
  - intros sp token Hin Ht Hok. apply list_elem_of_lookup in Hin as [i Hi].
    destruct (Forall2_lookup_l _ _ _ _ _ HF Hi) as (p & Hp & Hid & Hr & Hh & _).
    exists p. split_and!; [|done..]. apply AuthenticateBearer_ok; [done|].
    exists token. split_and!; try apply Hok; [done| |].
    + by apply list_elem_of_lookup_2 in Hp.
    + rewrite Ht in Hh. unfold HashToken in Hh. rewrite hex_decode_encode in Hh by apply Sum256_bytes.
      by injection Hh.
Qed.
End auth_facts.

(** ** Package controller: signed policies

    [Sign] and [VerifySignedPolicy] of [internal/controller/signing.go].
    Creating and reading the key file is not modelled. *)

(** A nil signer is [None]. *)
Record Signer := { privateKey : list Z; publicKey : list Z }.

Section signing.
Context `{ED : Ed25519}.

Definition Sign (signer : option Signer) (document : PolicyDocument) : result SignedPolicy :=
  match signer with
  | None => Err (ErrorsNew "signer is not initialized")
  | Some signer =>
      if negb (Z.of_nat (length (privateKey signer)) =? 64) then
        Err (ErrorsNew "signer is not initialized")
      else
        _ ← PolicyDocument_Validate document;
        match Marshal document with
        | None => Err (Wrapf "encode policy for signing: %w" (ErrorsNew "json") [])
        | Some encoded =>
            let signature := ed_sign (privateKey signer) encoded in
            Ok {| Signed_Schema := SignedPolicySchema; Signed_SchemaVersion := SignedPolicyVersion;
                  Document := document; Algorithm := "Ed25519";
                  SigningPublicKey := raw_std_encode (publicKey signer);
                  Signature := raw_std_encode signature |}
        end
  end.

(** [base64.RawStdEncoding.DecodeString] with the length that is expected. *)
Definition decode_sized (n : Z) (s : string) : option (list Z) :=
  l ← raw_std_decode s; if Z.of_nat (length l) =? n then Some l else None.

Definition VerifySignedPolicy (policy : SignedPolicy) : result unit :=
  if negb (String.eqb (Signed_Schema policy) SignedPolicySchema)
     || negb (Signed_SchemaVersion policy =? SignedPolicyVersion)
     || negb (String.eqb (Algorithm policy) "Ed25519") then
    Err (ErrorsNew "unsupported signed policy envelope")
  else
    _ ← PolicyDocument_Validate (Document policy);
    match decode_sized 32 (SigningPublicKey policy) with
    | None => Err (ErrorsNew "invalid policy signing public key")
    | Some publicKey =>
        match decode_sized 64 (Signature policy) with
        | None => Err (ErrorsNew "invalid policy signature")
        | Some signature =>
            match Marshal (Document policy) with
            | None => Err (Wrapf "encode policy for verification: %w" (ErrorsNew "json") [])
            | Some encoded =>
                if negb (ed_verify publicKey encoded signature)
                then Err (ErrorsNew "policy signature verification failed") else Ok tt
            end
        end
    end.

(** The signer of a seed. *)
Definition signer_of (seed : list Z) : Signer :=
  {| privateKey := ed_private seed; publicKey := ed_public seed |}.

Context `{EL : !Ed25519Laws}.

Lemma decode_sized_encode n l :
  is_bytes l → Z.of_nat (length l) = n → decode_sized n (raw_std_encode l) = Some l.
Proof.
  intros Hb Hn. unfold decode_sized. rewrite raw_std_decode_encode by done.
  cbn [mbind option_bind]. by rewrite (proj2 (Z.eqb_eq _ _)).
Qed.

(** A policy signed by a key pair verifies, also after its envelope has
    travelled as JSON: the text unmarshals to the same envelope, which
    [VerifySignedPolicy] accepts and which holds the document that was signed
    and the signer's public key. *)
Theorem Sign_roundtrip seed document :
  length seed = 32%nat → is_bytes seed → Policy_typed document →
  PolicyDocument_Validate document = Ok tt →
  ∃ signed text, Sign (Some (signer_of seed)) document = Ok signed ∧
    Marshal signed = Some text ∧ Unmarshal text = Some signed ∧
    VerifySignedPolicy signed = Ok tt ∧ Document signed = document ∧
    SigningPublicKey signed = raw_std_encode (ed_public seed) ∧ wf signed.
Proof.
  intros Hl Hb Ht Hv. pose proof Hv as Hok%policy_valid.
  destruct (Marshal_Unmarshal document (policy_wf document Hok Ht)) as (t & Hm & _).
  set (signed := {| Signed_Schema := SignedPolicySchema;
    Signed_SchemaVersion := SignedPolicyVersion; Document := document; Algorithm := "Ed25519";
    SigningPublicKey := raw_std_encode (ed_public seed);
    Signature := raw_std_encode (ed_sign (ed_private seed) t) |}).
  assert (wf signed) as Hwf.
  { cbn [wf Signed_codec]. split_and!; [|done|done|by apply policy_wf].
    unfold utf8, signed. cbn [Signed_Schema Algorithm SigningPublicKey Signature].
    repeat first [apply Forall_nil_2 | apply Forall_cons_2]; try done;
      apply is_ascii_valid, encode_ascii; [apply ed_public_bytes|apply ed_sign_bytes]. }
  destruct (Marshal_Unmarshal signed Hwf) as (text & Htext & Hun).
  exists signed, text. split_and!; try done.
  - unfold Sign, signer_of. cbn [privateKey publicKey]. unfold ed_private at 1.
    rewrite length_app, ed_public_length, Hl. cbn [negb Nat.add Z.of_nat Z.eqb Pos.eqb].
    by rewrite Hv, bind_ok, Hm.
  - unfold VerifySignedPolicy, signed.
    cbn [Signed_Schema Signed_SchemaVersion Algorithm Document SigningPublicKey Signature].
    cbn [negb orb]. rewrite Hv, bind_ok.
    rewrite decode_sized_encode by (apply ed_public_bytes || by rewrite ed_public_length).
    rewrite decode_sized_encode by (apply ed_sign_bytes || by rewrite ed_sign_length).
    by rewrite Hm, ed_verify_sign.
Qed.

Lemma VerifySignedPolicy_ok policy :
  VerifySignedPolicy policy = Ok tt →
  PolicyDocument_Validate (Document policy) = Ok tt ∧
  ∃ pk sg text, decode_sized 32 (SigningPublicKey policy) = Some pk ∧
    decode_sized 64 (Signature policy) = Some sg ∧ Marshal (Document policy) = Some text ∧
    ed_verify pk text sg = true.
Proof.
  unfold VerifySignedPolicy. case_match; [done|]. intros ([] & Hv & HP)%bind_ok_inv.
  split; [done|]. repeat case_match; try done. bool_prop. eauto 10.
Qed.
End signing.
