(* ===== verification/ControllerSteps.v ===== *)
(** * Package controller: operations as steps

    The requests the controller serves as a type [op], [run] as the effect of
    one of them on the store, and [step] as the transition it makes.  Every
    operation is atomic: a call that returns an error has changed nothing. *)

From S2P Require Import Prelude GoString Calendar GoTime Json Model ModelJson Profile GoCrypto Base64.
From S2P Require Import ControllerTypes ControllerStore.
#[local] Open Scope Z_scope.

(** ** Atomic computations *)

(** Leaves the store alone. *)
Class ReadOnly {A} (m : eff Store A) : Prop := read_only : ∀ s, (m s).1 = s.
(** Leaves the store alone when it fails. *)
Class Atomic {A} (m : eff Store A) : Prop :=
  atomic : ∀ s s' e, m s = (s', Err e) → s' = s.

#[export] Instance pure_read_only {A} (r : result A) : ReadOnly (pure_ r).
Proof. done. Qed.
#[export] Instance guard_read_only c e : ReadOnly (guard_ c e).
Proof. done. Qed.
#[export] Instance mret_read_only {A} (a : A) : ReadOnly (mret a).
Proof. done. Qed.
#[export] Instance read_only_atomic {A} (m : eff Store A) : ReadOnly m → Atomic m.
Proof. intros H s s' e He. specialize (H s). by rewrite He in H. Qed.

#[export] Instance transaction_atomic {A} (m : eff Store A) : Atomic (transaction m).
Proof. intros s s' e. unfold transaction. destruct (m s) as [s1 [a|e1]]; congruence. Qed.

#[export] Instance bind_atomic {A B} (m : eff Store A) (f : A → eff Store B) :
  ReadOnly m → (∀ a, Atomic (f a)) → Atomic (m ≫= f).
Proof.
  intros Hm Hf s s' e. unfold mbind, eff_bind. specialize (Hm s).
  destruct (m s) as [s1 [a|e1]]; cbn in Hm; subst s1; [apply Hf|congruence].
Qed.

Lemma atomic_mret {A B} (m : eff Store A) (f : A → B) :
  Atomic m → Atomic (m ≫= λ a, mret (f a)).
Proof.
  intros Hm s s' e. unfold mbind, eff_bind. destruct (m s) as [s1 [a|e1]] eqn:E; [done|].
  intros [= <- <-]. by apply Hm in E.
Qed.

(** An UPDATE of one device followed by [requireAffected]. *)
Lemma update_device_atomic {B} id cond set (f : unit → eff Store B) :
  (∀ s, ∃ b, f tt s = (s, Ok b)) →
  Atomic (affected ← update_device id cond set; _ ← pure_ (requireAffected affected); f tt).
Proof.
  intros Hf s s' e. unfold mbind, eff_bind, update_device.
  destruct (devices s !! id) as [row|]; [|by intros [= <- _]].
  destruct (cond row); [|by intros [= <- _]]. cbn.
  destruct (Hf (set_devices (<[id := set row]> (devices s)) s)) as [b ->]. done.
Qed.

(** ** Inverting successful calls *)

Lemma transaction_ok_inv {A} (m : eff Store A) s s' a :
  transaction m s = (s', Ok a) → m s = (s', Ok a).
Proof. unfold transaction. destruct (m s) as [s1 [x|e]]; congruence. Qed.

Lemma transaction_ok {A} (m : eff Store A) s s' a :
  m s = (s', Ok a) → transaction m s = (s', Ok a).
Proof. unfold transaction. by intros ->. Qed.

Lemma mret_ok_inv {A} (a : A) (s s' : Store) b :
  mret (M := eff Store) a s = (s', Ok b) → s' = s ∧ b = a.
Proof. by intros [= -> ->]. Qed.

Lemma guard_ok_inv c e s s' u : guard_ c e s = (s', Ok u) → s' = s ∧ c = false.
Proof. unfold guard_, pure_, fail_if. destruct c; [done|]. by intros [= <- _]. Qed.

Lemma update_device_ok_inv id cond set s s' u :
  (affected ← update_device id cond set; pure_ (requireAffected affected)) s = (s', Ok u) →
  ∃ row, devices s !! id = Some row ∧ cond row = true ∧
    s' = set_devices (<[id := set row]> (devices s)) s.
Proof.
  unfold mbind, eff_bind, update_device. destruct (devices s !! id) as [row|]; [|done].
  destruct (cond row) eqn:E; [|done]. cbn. intros [= <- _]. eauto.
Qed.

Lemma requireAffected_ok n : requireAffected n = Ok tt → n = 1.
Proof. unfold requireAffected. destruct (n =? 1) eqn:E; [|done]. intros _. by bool_prop. Qed.

Lemma update_affected_inv id cond set s s' n :
  update_device id cond set s = (s', Ok n) → requireAffected n = Ok tt →
  ∃ row, devices s !! id = Some row ∧ cond row = true ∧
    s' = set_devices (<[id := set row]> (devices s)) s.
Proof.
  intros H ->%requireAffected_ok. unfold update_device in H.
  destruct (devices s !! id) as [row|]; [|done].
  destruct (cond row) eqn:E; [|done]. injection H as <-. eauto.
Qed.

(** The store with one more audit entry. *)
Definition audited (actorID action targetType targetID : string) (now : Time) (s : Store) : Store :=
  insert_audit {| au_sequence := audit_autoincrement s + 1; au_actor_id := actorID;
                  au_action := action; au_target_type := targetType;
                  au_target_id := targetID; au_created_at := timeText (utc now) |} s.

Lemma appendAudit_ok_inv a b c d now s s' u :
  appendAudit a b c d now s = (s', Ok u) →
  s' = audited a b c d now s ∧ audit_autoincrement s < max_int64.
Proof.
  unfold appendAudit. destruct (max_int64 <=? _) eqn:E; [done|]. intros [= <- _]. bool_prop.
  split; [done|lia].
Qed.

Lemma appendAudit_ok a b c d now s :
  audit_autoincrement s < max_int64 →
  appendAudit a b c d now s = (audited a b c d now s, Ok tt).
Proof. intros H. unfold appendAudit. by rewrite (proj2 (Z.leb_gt _ _)). Qed.

(** A table read through updates of other tables. *)
Ltac tables :=
  cbn [devices enrollment_tokens policies group_policy_assignments findings admin_audit
       audit_autoincrement set_tokens set_devices set_policies set_assignments set_findings
       audited insert_audit] in *.

(** Splits the hypothesis that a sequence of calls succeeded. *)
Ltac eff_inv :=
  repeat match goal with
  | H : (_ ≫= _) _ = (_, Ok _) |- _ =>
      let s1 := fresh "s" in let a := fresh "a" in let H1 := fresh "H" in
      apply eff_bind_ok_inv in H as (s1 & a & H1 & H)
  | H : (let '(_, _) := ?p in _) _ = (_, Ok _) |- _ => destruct p
  | H : transaction _ _ = (_, Ok _) |- _ => apply transaction_ok_inv in H
  | H : wrap_err _ _ _ = (_, Ok _) |- _ => apply wrap_err_ok_inv in H
  | H : guard_ _ _ _ = (_, Ok _) |- _ => apply guard_ok_inv in H as [-> H]
  | H : pure_ _ _ = (_, Ok _) |- _ => apply pure_ok_inv in H as [-> H]
  | H : mret _ _ = (_, Ok _) |- _ => apply mret_ok_inv in H as [-> ->]
  | H : mret _ _ = (_, Ok _) |- _ => apply mret_ok_inv in H as [-> H]
  | H : appendAudit _ _ _ _ _ _ = (_, Ok _) |- _ => apply appendAudit_ok_inv in H as [-> H]
  | H : update_device _ _ _ _ = (_, Ok ?n), H' : requireAffected ?n = Ok _ |- _ =>
      let row := fresh "row" in let Hr := fresh "Hrow" in let Hc := fresh "Hcond" in
      apply (update_affected_inv _ _ _ _ _ _ H) in H' as (row & Hr & Hc & ->); clear H
  | u : unit |- _ => destruct u
  end.

(** ** Operations *)

Inductive op :=
  | OpCreateEnrollmentToken (random : option (list Z)) (actorID group : string) (ttl : Z)
  | OpEnroll (randomID randomCredential : option (list Z)) (token : string) (metadata : DeviceMetadata)
  | OpHeartbeat (deviceID : string) (metadata : DeviceMetadata)
  | OpRotateDeviceCredential (random : option (list Z)) (deviceID : string)
  | OpRevokeDevice (actorID deviceID : string)
  | OpAssignDeviceGroup (actorID deviceID group : string)
  | OpCreatePolicy (actorID : string) (document : PolicyDocument)
  | OpUpdatePolicy (actorID : string) (document : PolicyDocument)
  | OpDeletePolicy (actorID policyID : string)
  | OpAssignGroupPolicy (actorID group policyID : string)
  | OpUnassignGroupPolicy (actorID group : string)
  | OpSyncReport (deviceID : string) (report : ReportSync).

Section steps.
Context `{HH : Hash, HL : !HashLaws}.

Definition discard {A} (m : eff Store A) : eff Store unit := m ≫= λ _, mret tt.

Definition run (now : Time) (o : op) : eff Store unit :=
  match o with
  | OpCreateEnrollmentToken r a g ttl => discard (CreateEnrollmentToken r a g ttl now)
  | OpEnroll r1 r2 t m => discard (Enroll r1 r2 t m now)
  | OpHeartbeat d m => Heartbeat d m now
  | OpRotateDeviceCredential r d => discard (RotateDeviceCredential r d now)
  | OpRevokeDevice a d => RevokeDevice a d now
  | OpAssignDeviceGroup a d g => AssignDeviceGroup a d g now
  | OpCreatePolicy a p => CreatePolicy a p now
  | OpUpdatePolicy a p => UpdatePolicy a p now
  | OpDeletePolicy a p => DeletePolicy a p now
  | OpAssignGroupPolicy a g p => AssignGroupPolicy a g p now
  | OpUnassignGroupPolicy a g => UnassignGroupPolicy a g now
  | OpSyncReport d r => SyncReport d r now
  end.

Lemma Heartbeat_atomic d m now : Atomic (Heartbeat d m now).
Proof.
  unfold Heartbeat. apply bind_atomic; [apply _|]. intros _ s s' e H.
  unfold mbind, eff_bind, update_device in H.
  destruct (devices s !! d) as [row|]; [|by injection H as <- _].
  destruct (not_revoked row); [done|by injection H as <- _].
Qed.

Lemma run_atomic now o : Atomic (run now o).
Proof.
  destruct o; cbn [run]; try (apply (atomic_mret _ (λ _, tt))); try apply Heartbeat_atomic.
  - unfold CreateEnrollmentToken. repeat (apply bind_atomic; [apply _|intros ?]).
    case_match. apply (atomic_mret _ (λ _, _)), _.
  - unfold Enroll. repeat (apply bind_atomic; [apply _|intros ?]).
    case_match. apply (atomic_mret _ (λ _, _)), _.
  - unfold RotateDeviceCredential. apply bind_atomic; [apply _|]. intros [credential hash].
    apply (update_device_atomic _ _ _ (λ _, mret credential)). intros s. by exists credential.
  - apply _.
  - apply _.
  - apply _.
  - apply _.
  - apply _.
  - apply _.
  - apply _.
  - apply _.
Qed.

(** What the Go types and the clock guarantee of the arguments. *)
Definition random_ok (n : nat) (random : option (list Z)) : Prop :=
  ∀ l, random = Some l → length l = n ∧ is_bytes l.

Definition op_ok (now : Time) (o : op) : Prop :=
  clock_ok now ∧
  match o with
  | OpCreateEnrollmentToken r _ _ _ => random_ok 32 r
  | OpEnroll r1 r2 _ _ => random_ok 18 r1 ∧ random_ok 32 r2
  | OpRotateDeviceCredential r _ => random_ok 32 r
  | OpCreatePolicy _ p | OpUpdatePolicy _ p => Policy_typed p
  | OpSyncReport _ r => Report_typed r
  | _ => True
  end.

(** One request, successful or not. *)
Inductive step (s : Store) : Store → Prop :=
  | step_run now o : op_ok now o → step s (run now o s).1.

Definition new_store (now : Time) : Store := (migrate now empty_store).1.

Definition reachable (s : Store) : Prop := ∃ now, rtc step (new_store now) s.

(** Requests of a kind only. *)
Inductive step_if (P : op → Prop) (s : Store) : Store → Prop :=
  | step_if_run now o : op_ok now o → P o → step_if P s (run now o s).1.

Lemma step_step_if s s' : step s s' → step_if (λ _, True) s s'.
Proof. intros [now o Ho]. by constructor. Qed.

(** Induction over the successful requests of a run: the others leave the
    store alone. *)
Lemma steps_if_ind (K : op → Prop) (P : Store → Prop) s s' :
  P s →
  (∀ s1 s2 now o, P s1 → op_ok now o → K o → run now o s1 = (s2, Ok tt) → P s2) →
  rtc (step_if K) s s' → P s'.
Proof.
  intros H0 Hs H. revert H0. induction H as [|s s1 s' [now o Ho HK] _ IH]; intros H0; [done|].
  apply IH. destruct (run now o s) as [s2 [[]|e]] eqn:E; cbn; [eauto|].
  apply run_atomic in E. by subst.
Qed.

Lemma steps_ind (P : Store → Prop) s s' :
  P s →
  (∀ s1 s2 now o, P s1 → op_ok now o → run now o s1 = (s2, Ok tt) → P s2) →
  rtc step s s' → P s'.
Proof.
  intros H0 Hs H. apply (steps_if_ind (λ _, True) P s); [done|by eauto|].
  eapply rtc_subrel; [|exact H]. apply step_step_if.
Qed.

Lemma steps_if_steps K s s' : rtc (step_if K) s s' → rtc step s s'.
Proof. apply rtc_subrel. intros x y [now o Ho _]. by constructor. Qed.

(** Every request is atomic: one that returns an error leaves the tables,
    the audit log and its counter exactly as they were, even where several
    statements ran before the failing one. *)
Theorem run_error_unchanged now o s s' e : run now o s = (s', Err e) → s' = s.
Proof. apply run_atomic. Qed.
End steps.

(** Any number of requests. *)
Abbreviation steps := (rtc step).
