(* ===== verification/ControllerSpec.v ===== *)
(** * Package controller: specification of the requests

    [effect now s o s'] is what request [o] promises: when it is accepted in
    [s] and the store it leaves.  [run_effect] says that the code accepts
    exactly those requests, with exactly that effect. *)

From S2P Require Import Prelude GoString Calendar GoTime Json Model ModelJson Profile GoCrypto Base64.
From S2P Require Import ControllerTypes ControllerStore ControllerSteps.
#[local] Open Scope Z_scope.

(** The log has room for one more entry. *)
Definition audit_room (s : Store) : Prop := audit_autoincrement s < max_int64.

Definition finding_row (reportedAt : Time) (f : RedactedFinding) : FindingRow := {|
  fi_severity := Red_Severity f; fi_state := Red_State f;
  fi_first_seen := timeText (utc (Red_FirstSeen f));
  fi_last_seen := timeText (utc (Red_LastSeen f));
  fi_occurrences := Red_Occurrences f; fi_reported_at := timeText (utc reportedAt) |}.

(** The findings after a report: one row per reported finding. *)
Definition reported (deviceID : string) (reportedAt : Time) (l : list RedactedFinding)
    (m : gmap FindingKey FindingRow) : gmap FindingKey FindingRow :=
  foldl (λ m f, <[(deviceID, Red_DetectorID f, Red_Category f) := finding_row reportedAt f]> m) m l.

Definition referenced (id : string) (s : Store) : Prop :=
  ∃ g a, group_policy_assignments s !! g = Some a ∧ ga_policy_id a = id.

Section spec.
Context `{HH : Hash, HL : !HashLaws}.

Definition token_of (bytes : list Z) : string := raw_url_encode bytes.

Inductive effect (now : Time) (s : Store) : op → Store → Prop :=
  | eff_create_token bytes actor group ttl :
      validIdentifier actor = true → validGroup group = true →
      minute ≤ ttl ≤ 7 * 24 * hour →
      enrollment_tokens s !! Sum256 (token_of bytes) = None → audit_room s →
      effect now s (OpCreateEnrollmentToken (Some bytes) actor group ttl)
        (audited actor "enrollment_token.create" "group" group now
           (set_tokens (<[Sum256 (token_of bytes) := {|
              tk_group_name := group; tk_expires_at := timeText (add now ttl);
              tk_created_at := timeText now; tk_created_by := actor;
              tk_used_at := None; tk_used_by_device_id := None |}]> (enrollment_tokens s)) s))
  | eff_enroll b1 b2 token md row :
      DeviceMetadata_Validate md = Ok tt → token ≠ "" → slen token ≤ 4096 →
      enrollment_tokens s !! Sum256 token = Some row →
      token_usable (timeText now) row = true → devices s !! raw_url_encode b1 = None →
      effect now s (OpEnroll (Some b1) (Some b2) token md)
        (set_devices (<[raw_url_encode b1 := {|
             dv_credential_hash := Sum256 (token_of b2); dv_name := Meta_Name md;
             dv_platform := Meta_Platform md; dv_os_version := Meta_OSVersion md;
             dv_agent_version := Meta_AgentVersion md; dv_group_name := tk_group_name row;
             dv_enrolled_at := timeText now; dv_last_seen_at := None;
             dv_credential_rotated_at := timeText now; dv_revoked_at := None |}]> (devices s))
           (set_tokens (<[Sum256 token := {|
              tk_group_name := tk_group_name row; tk_expires_at := tk_expires_at row;
              tk_created_at := tk_created_at row; tk_created_by := tk_created_by row;
              tk_used_at := Some (timeText now);
              tk_used_by_device_id := Some (raw_url_encode b1) |}]> (enrollment_tokens s)) s))
  | eff_heartbeat id md row :
      DeviceMetadata_Validate md = Ok tt → devices s !! id = Some row →
      not_revoked row = true →
      effect now s (OpHeartbeat id md)
        (set_devices (<[id := set_heartbeat md (timeText now) row]> (devices s)) s)
  | eff_rotate bytes id row :
      devices s !! id = Some row → not_revoked row = true →
      effect now s (OpRotateDeviceCredential (Some bytes) id)
        (set_devices (<[id := set_credential (Sum256 (token_of bytes)) (timeText now) row]>
           (devices s)) s)
  | eff_revoke actor id row :
      validIdentifier actor = true → validIdentifier id = true →
      devices s !! id = Some row → not_revoked row = true → audit_room s →
      effect now s (OpRevokeDevice actor id)
        (audited actor "device.revoke" "device" id now
           (set_devices (<[id := set_revoked (timeText now) row]> (devices s)) s))
  | eff_assign_device actor id group row :
      validIdentifier actor = true → validIdentifier id = true → validGroup group = true →
      devices s !! id = Some row → audit_room s →
      effect now s (OpAssignDeviceGroup actor id group)
        (audited actor "device.group.assign" "device" id now
           (set_devices (<[id := set_group group row]> (devices s)) s))
  | eff_create_policy actor d text :
      validIdentifier actor = true → policy_ok d → Revision d = 1 → Marshal d = Some text →
      policies s !! Policy_ID d = None → audit_room s →
      effect now s (OpCreatePolicy actor d)
        (audited actor "policy.create" "policy" (Policy_ID d) now
           (set_policies (<[Policy_ID d := {|
              pl_revision := Revision d; pl_document := text; pl_created_at := timeText now;
              pl_updated_at := timeText now; pl_created_by := actor;
              pl_updated_by := actor |}]> (policies s)) s))
  | eff_update_policy actor d text row :
      validIdentifier actor = true → policy_ok d → Marshal d = Some text →
      0 < Revision d ≤ max_int64 →
      policies s !! Policy_ID d = Some row → pl_revision row = Revision d - 1 → audit_room s →
      effect now s (OpUpdatePolicy actor d)
        (audited actor "policy.update" "policy" (Policy_ID d) now
           (set_policies (<[Policy_ID d := set_document (Revision d) text (timeText now) actor row]>
              (policies s)) s))
  | eff_delete_policy actor id row :
      validIdentifier actor = true → validIdentifier id = true →
      policies s !! id = Some row → ¬ referenced id s → audit_room s →
      effect now s (OpDeletePolicy actor id)
        (audited actor "policy.delete" "policy" id now
           (set_policies (delete id (policies s)) s))
  | eff_assign_group actor group id row :
      validIdentifier actor = true → validGroup group = true → validIdentifier id = true →
      policies s !! id = Some row → audit_room s →
      effect now s (OpAssignGroupPolicy actor group id)
        (audited actor "group.policy.assign" "group" group now
           (set_assignments (<[group := {| ga_policy_id := id; ga_updated_at := timeText now;
              ga_updated_by := actor |}]> (group_policy_assignments s)) s))
  | eff_unassign actor group row :
      validIdentifier actor = true → validGroup group = true →
      group_policy_assignments s !! group = Some row → audit_room s →
      effect now s (OpUnassignGroupPolicy actor group)
        (audited actor "group.policy.remove" "group" group now
           (set_assignments (delete group (group_policy_assignments s)) s))
  | eff_sync id report row :
      report_ok now report → Forall (λ f, 0 < Red_Occurrences f ≤ max_int64) (Report_Findings report) →
      devices s !! id = Some row → not_revoked row = true →
      effect now s (OpSyncReport id report)
        (set_devices (<[id := set_last_seen (timeText now) row]> (devices s))
           (set_findings (reported id (ReportedAt report) (Report_Findings report) (findings s)) s)).

(** ** The code has the effect *)

Lemma policy_referenced_spec id s : policy_referenced id s = true ↔ referenced id s.
Proof.
  unfold policy_referenced, referenced. rewrite existsb_exists. split.
  - intros ([g a] & Hin%list_elem_of_In & He). apply elem_of_map_to_list in Hin.
    apply String.eqb_eq in He. eauto.
  - intros (g & a & Hg & He). exists (g, a). split; [|by apply String.eqb_eq].
    by apply list_elem_of_In, elem_of_map_to_list.
Qed.

Lemma store_findings_ok_inv id at_ l s s' :
  store_findings id at_ l s = (s', Ok tt) →
  s' = set_findings (reported id at_ l (findings s)) s ∧
  Forall (λ f, 0 < Red_Occurrences f ≤ max_int64) l.
Proof.
  revert s. induction l as [|f l IH]; intros s; cbn [store_findings].
  { intros [= <-]. split; [by destruct s|constructor]. }
  intros H. apply eff_bind_ok_inv in H as (s1 & [] & H1 & H). apply IH in H as [-> H].
  unfold store_finding in H1. eff_inv. unfold uint64_argument in *. case_match; [done|].
  bool_prop. repeat match goal with H : Ok _ = Ok _ |- _ => injection H as <- end.
  unfold upsert_finding in *. cbn [fi_occurrences fst] in *.
  destruct (Red_Occurrences f <=? 0) eqn:E; [done|]. bool_prop. destruct (devices s !! id); [|done].
  match goal with H : (_, _) = _ |- _ => injection H as <- end.
  split; [done|]. constructor; [lia|done].
Qed.

Lemma store_findings_ok id at_ l s :
  is_Some (devices s !! id) → Forall (λ f, 0 < Red_Occurrences f ≤ max_int64) l →
  store_findings id at_ l s = (set_findings (reported id at_ l (findings s)) s, Ok tt).
Proof.
  intros Hd Hl. revert s Hd. induction Hl as [|f l Hf _ IH]; intros s Hd; cbn [store_findings].
  { unfold reported. cbn. by destruct s. }
  destruct Hd as [row Hd].
  assert (store_finding id at_ f s =
    (set_findings (<[(id, Red_DetectorID f, Red_Category f) := finding_row at_ f]> (findings s)) s,
     Ok tt)) as E.
  { unfold store_finding, wrap_err, mbind, eff_bind, pure_, uint64_argument.
    rewrite (proj2 (Z.ltb_ge _ _)) by lia. cbn. unfold upsert_finding. cbn [fi_occurrences fst].
    rewrite (proj2 (Z.leb_gt _ _)) by lia. by rewrite Hd. }
  rewrite (eff_bind_ok _ _ _ _ _ E), IH; [done|]. by exists row.
Qed.

Lemma newCredential_inv r t h :
  newCredential r = Ok (t, h) → ∃ b, r = Some b ∧ t = token_of b ∧ h = Sum256 (token_of b).
Proof. destruct r as [b|]; cbn; [|done]. intros [= <- <-]. eauto. Qed.

Lemma newRandomIdentifier_inv r i :
  newRandomIdentifier r = Ok i → ∃ b, r = Some b ∧ i = raw_url_encode b.
Proof. destruct r as [b|]; cbn; [|done]. intros [= <-]. eauto. Qed.

Lemma insert_token_inv h row s s' u :
  insert_token h row s = (s', Ok u) →
  enrollment_tokens s !! h = None ∧ s' = set_tokens (<[h := row]> (enrollment_tokens s)) s.
Proof.
  unfold insert_token. case_match; [done|]. destruct (enrollment_tokens s !! h); [done|].
  by intros [= <- _].
Qed.

Lemma insert_device_inv id row s s' u :
  insert_device id row s = (s', Ok u) →
  devices s !! id = None ∧ s' = set_devices (<[id := row]> (devices s)) s.
Proof.
  unfold insert_device. case_match; [done|]. destruct (devices s !! id); [done|].
  by intros [= <- _].
Qed.

Lemma consume_token_inv h d now s s' g :
  consume_token h d now s = (s', Ok g) →
  ∃ row, enrollment_tokens s !! h = Some row ∧ token_usable now row = true ∧
    g = tk_group_name row ∧
    s' = set_tokens (<[h := {|
           tk_group_name := tk_group_name row; tk_expires_at := tk_expires_at row;
           tk_created_at := tk_created_at row; tk_created_by := tk_created_by row;
           tk_used_at := Some now; tk_used_by_device_id := Some d |}]> (enrollment_tokens s)) s.
Proof.
  unfold consume_token. destruct (enrollment_tokens s !! h) as [row|]; [|done].
  destruct (token_usable now row) eqn:E; [|done]. intros [= <- <-]. eauto.
Qed.

Lemma insert_policy_inv id row s s' u :
  insert_policy id row s = (s', Ok u) →
  policies s !! id = None ∧ s' = set_policies (<[id := row]> (policies s)) s.
Proof.
  unfold insert_policy. case_match; [done|]. destruct (policies s !! id); [done|].
  by intros [= <- _].
Qed.

Lemma update_policy_inv id rev set s s' n :
  update_policy id rev set s = (s', Ok n) → requireAffected n = Ok tt →
  ∃ row, policies s !! id = Some row ∧ pl_revision row = rev ∧ 0 < pl_revision (set row) ∧
    s' = set_policies (<[id := set row]> (policies s)) s.
Proof.
  intros H ->%requireAffected_ok. unfold update_policy in H.
  destruct (policies s !! id) as [row|]; [|done]. repeat case_match; try done.
  injection H as <-. bool_prop. exists row. split_and!; [done..|lia|done].
Qed.

Lemma delete_policy_inv id s s' n :
  delete_policy id s = (s', Ok n) → requireAffected n = Ok tt →
  (∃ row, policies s !! id = Some row) ∧ ¬ referenced id s ∧
    s' = set_policies (delete id (policies s)) s.
Proof.
  intros H ->%requireAffected_ok. unfold delete_policy in H.
  destruct (policies s !! id) as [row|]; [|done].
  destruct (policy_referenced id s) eqn:E; [done|]. injection H as <-.
  split_and!; [eauto| |done]. intros Hr%policy_referenced_spec. congruence.
Qed.

Lemma upsert_assignment_inv g row s s' u :
  upsert_assignment g row s = (s', Ok u) →
  (∃ p, policies s !! ga_policy_id row = Some p) ∧
  s' = set_assignments (<[g := row]> (group_policy_assignments s)) s.
Proof.
  unfold upsert_assignment. destruct (policies s !! _); [|done]. intros [= <- _]. eauto.
Qed.

Lemma delete_assignment_inv g s s' n :
  delete_assignment g s = (s', Ok n) → requireAffected n = Ok tt →
  (∃ row, group_policy_assignments s !! g = Some row) ∧
  s' = set_assignments (delete g (group_policy_assignments s)) s.
Proof.
  intros H ->%requireAffected_ok. unfold delete_assignment in H.
  destruct (group_policy_assignments s !! g); [|done]. injection H as <-. eauto.
Qed.

Lemma marshal_policy_inv f d t : marshal_policy f d = Ok t → Marshal d = Some t.
Proof. unfold marshal_policy. by destruct (Marshal d); intros [=]; subst. Qed.

Lemma uint64_argument_inv z z' : uint64_argument z = Ok z' → z' = z ∧ z ≤ max_int64.
Proof.
  unfold uint64_argument. destruct (max_int64 <? z) eqn:E; [done|]. intros [= <-]. by bool_prop.
Qed.

End spec.

(** Splits a successful request into its statements. *)
Ltac stmt_inv :=
  eff_inv;
  repeat match goal with
  | H : newCredential _ = Ok (_, _) |- _ =>
      let b := fresh "b" in apply newCredential_inv in H as (b & -> & -> & ->)
  | H : newRandomIdentifier _ = Ok _ |- _ =>
      let b := fresh "b" in apply newRandomIdentifier_inv in H as (b & -> & ->)
  | H : insert_token _ _ _ = (_, Ok _) |- _ => apply insert_token_inv in H as [H ->]
  | H : consume_token _ _ _ _ = (_, Ok _) |- _ =>
      let row := fresh "row" in
      let Hr := fresh "Htok" in let Hu := fresh "Huse" in
      apply consume_token_inv in H as (row & Hr & Hu & -> & ->)
  | H : insert_device _ _ _ = (_, Ok _) |- _ => apply insert_device_inv in H as [H ->]
  | H : insert_policy _ _ _ = (_, Ok _) |- _ => apply insert_policy_inv in H as [H ->]
  | H : upsert_assignment _ _ _ = (_, Ok _) |- _ =>
      let p := fresh "p" in let Hp := fresh "Hpol" in
      apply upsert_assignment_inv in H as [[p Hp] ->]
  | H : update_policy _ _ _ _ = (_, Ok ?n), H' : requireAffected ?n = Ok _ |- _ =>
      let row := fresh "row" in let Hr := fresh "Hpol" in
      apply (update_policy_inv _ _ _ _ _ _ H) in H' as (row & Hr & ? & ? & ->); clear H
  | H : delete_policy _ _ = (_, Ok ?n), H' : requireAffected ?n = Ok _ |- _ =>
      apply (delete_policy_inv _ _ _ _ H) in H' as ([? ?] & ? & ->); clear H
  | H : delete_assignment _ _ = (_, Ok ?n), H' : requireAffected ?n = Ok _ |- _ =>
      apply (delete_assignment_inv _ _ _ _ H) in H' as ([? ?] & ->); clear H
  | H : store_findings _ _ _ _ = (_, Ok _) |- _ => apply store_findings_ok_inv in H as [-> H]
  | H : marshal_policy _ _ = Ok _ |- _ => apply marshal_policy_inv in H
  | H : uint64_argument _ = Ok _ |- _ => apply uint64_argument_inv in H as [-> H]
  | H : map_err _ _ = Ok _ |- _ => apply map_err_ok_inv in H
  | H : PolicyDocument_Validate _ = Ok _ |- _ => apply policy_valid in H
  | H : ReportSync_Validate _ _ = Ok _ |- _ => apply report_valid in H
  | u : unit |- _ => destruct u
  end; bool_prop.

Section effects.
Context `{HH : Hash, HL : !HashLaws}.

Lemma timeText_utc t : timeText (utc t) = timeText t.
Proof. unfold timeText, fixed_text, utc. cbn [ns]. reflexivity. Qed.
Lemma timeText_add_utc t d : timeText (add (utc t) d) = timeText (add t d).
Proof. unfold timeText, fixed_text, add, utc. cbn [ns]. reflexivity. Qed.
Lemma audited_utc a b c d t s : audited a b c d (utc t) s = audited a b c d t s.
Proof. unfold audited. by rewrite timeText_utc. Qed.

Ltac norm_time :=
  rewrite ?audited_utc, ?timeText_add_utc, ?timeText_utc in *;
  cbn [devices enrollment_tokens audit_autoincrement set_tokens set_devices set_policies
       set_assignments set_findings] in *.

Lemma run_has_effect now o s s' : op_ok now o → run now o s = (s', Ok tt) → effect now s o s'.
Proof.
  intros [_ Ho] H. destruct o; cbn [run] in H; unfold discard in H; eff_inv.
  - unfold CreateEnrollmentToken in *. stmt_inv; norm_time. unfold validGroup in *. by constructor.
  - unfold Enroll in *. stmt_inv; norm_time. unfold maxBearerTokenBytes in *. by constructor.
  - unfold Heartbeat in *. stmt_inv; norm_time. by constructor.
  - unfold RotateDeviceCredential in *. stmt_inv; norm_time. by constructor.
  - unfold RevokeDevice in *. stmt_inv; norm_time. by constructor.
  - unfold AssignDeviceGroup in *. stmt_inv; norm_time. by constructor.
  - unfold CreatePolicy in *. stmt_inv; norm_time. by constructor.
  - unfold UpdatePolicy in *. stmt_inv; norm_time. econstructor; try done.
  - unfold DeletePolicy in *. stmt_inv; norm_time. by econstructor.
  - unfold AssignGroupPolicy in *. stmt_inv; norm_time. by econstructor.
  - unfold UnassignGroupPolicy in *. stmt_inv; norm_time. by econstructor.
  - unfold SyncReport in *. stmt_inv; norm_time. by econstructor.
Qed.

(** ** Every effect is accepted *)

Lemma Sum256_32 x : (Z.of_nat (length (Sum256 x)) =? 32) = true.
Proof. apply Z.eqb_eq. by rewrite Sum256_length. Qed.

Lemma wrap_err_ok {A} w (m : eff Store A) s s' a :
  m s = (s', Ok a) → wrap_err w m s = (s', Ok a).
Proof. unfold wrap_err. by intros ->. Qed.

Lemma guard_ok c e s : c = false → guard_ c e s = (s, Ok tt).
Proof. by intros ->. Qed.

Lemma pure_ok {A} (r : result A) (a : A) (s : Store) : r = Ok a → pure_ r s = (s, Ok a).
Proof. by intros ->. Qed.

Lemma eff_ok_bind {A B} (m : eff Store A) (f : A → eff Store B) s s1 s' a b :
  m s = (s1, Ok a) → f a s1 = (s', Ok b) → (m ≫= f) s = (s', Ok b).
Proof. intros H1 H2. by rewrite (eff_bind_ok _ _ _ _ _ H1). Qed.

Lemma update_device_ok id cond set s row :
  devices s !! id = Some row → cond row = true →
  update_device id cond set s = (set_devices (<[id := set row]> (devices s)) s, Ok 1).
Proof. unfold update_device. by intros -> ->. Qed.

Lemma insert_token_ok h row s :
  (Z.of_nat (length h) =? 32) = true → enrollment_tokens s !! h = None →
  insert_token h row s = (set_tokens (<[h := row]> (enrollment_tokens s)) s, Ok tt).
Proof. unfold insert_token. by intros -> ->. Qed.

Lemma insert_device_ok id row s :
  (Z.of_nat (length (dv_credential_hash row)) =? 32) = true → devices s !! id = None →
  insert_device id row s = (set_devices (<[id := row]> (devices s)) s, Ok tt).
Proof. unfold insert_device. by intros -> ->. Qed.

Lemma consume_token_ok h d now s row :
  enrollment_tokens s !! h = Some row → token_usable now row = true →
  consume_token h d now s =
    (set_tokens (<[h := {|
       tk_group_name := tk_group_name row; tk_expires_at := tk_expires_at row;
       tk_created_at := tk_created_at row; tk_created_by := tk_created_by row;
       tk_used_at := Some now; tk_used_by_device_id := Some d |}]> (enrollment_tokens s)) s,
     Ok (tk_group_name row)).
Proof. unfold consume_token. by intros -> ->. Qed.

Lemma insert_policy_ok id row s :
  0 < pl_revision row → policies s !! id = None →
  insert_policy id row s = (set_policies (<[id := row]> (policies s)) s, Ok tt).
Proof. unfold insert_policy. intros H ->. by rewrite (proj2 (Z.leb_gt _ _)). Qed.

Lemma update_policy_ok id rev set s row :
  policies s !! id = Some row → pl_revision row = rev → 0 < pl_revision (set row) →
  update_policy id rev set s = (set_policies (<[id := set row]> (policies s)) s, Ok 1).
Proof.
  unfold update_policy. intros -> -> H. by rewrite Z.eqb_refl, (proj2 (Z.leb_gt _ _)).
Qed.

Lemma delete_policy_ok id s row :
  policies s !! id = Some row → ¬ referenced id s →
  delete_policy id s = (set_policies (delete id (policies s)) s, Ok 1).
Proof.
  unfold delete_policy. intros -> H. destruct (policy_referenced id s) eqn:E; [|done].
  destruct H. by apply policy_referenced_spec.
Qed.

Lemma upsert_assignment_ok g row s p :
  policies s !! ga_policy_id row = Some p →
  upsert_assignment g row s =
    (set_assignments (<[g := row]> (group_policy_assignments s)) s, Ok tt).
Proof. unfold upsert_assignment. by intros ->. Qed.

Lemma delete_assignment_ok g s row :
  group_policy_assignments s !! g = Some row →
  delete_assignment g s = (set_assignments (delete g (group_policy_assignments s)) s, Ok 1).
Proof. unfold delete_assignment. by intros ->. Qed.

Lemma uint64_argument_ok z : z ≤ max_int64 → uint64_argument z = Ok z.
Proof. intros H. unfold uint64_argument. by rewrite (proj2 (Z.ltb_ge _ _)). Qed.

Lemma marshal_policy_ok f d t : Marshal d = Some t → marshal_policy f d = Ok t.
Proof. unfold marshal_policy. by intros ->. Qed.

Lemma appendAudit_utc a b c d t s :
  audit_room s → appendAudit a b c d (utc t) s = (audited a b c d t s, Ok tt).
Proof. rewrite <-audited_utc. apply appendAudit_ok. Qed.

(** Runs a request call by call, leaving the conditions it checks. *)
Ltac run_ok :=
  lazymatch goal with
  | |- (_ ≫= _) _ = _ => eapply eff_ok_bind; [run_ok|cbn beta iota; run_ok]
  | |- transaction _ _ = _ => apply transaction_ok; run_ok
  | |- wrap_err _ _ _ = _ => apply wrap_err_ok; run_ok
  | |- guard_ _ _ _ = _ => apply guard_ok
  | |- pure_ (newCredential (Some _)) _ = _ => reflexivity
  | |- pure_ (newRandomIdentifier (Some _)) _ = _ => reflexivity
  | |- pure_ (requireAffected 1) _ = _ => reflexivity
  | |- pure_ (map_err _ (requireAffected 1)) _ = _ => reflexivity
  | |- pure_ (uint64_argument _) _ = _ => apply pure_ok, uint64_argument_ok
  | |- pure_ (marshal_policy _ _) _ = _ => eapply pure_ok, marshal_policy_ok; eassumption
  | |- pure_ (PolicyDocument_Validate _) _ = _ => apply pure_ok, policy_valid
  | |- pure_ (ReportSync_Validate _ _) _ = _ => apply pure_ok, report_valid
  | |- pure_ _ _ = _ => eapply pure_ok; eassumption
  | |- mret _ _ = _ => reflexivity
  | |- appendAudit _ _ _ _ _ _ = _ => first [apply appendAudit_utc | apply appendAudit_ok]
  | |- update_device _ _ _ _ = _ => eapply update_device_ok; [eassumption|first [assumption|reflexivity]]
  | |- insert_token _ _ _ = _ => apply insert_token_ok; [apply Sum256_32|assumption]
  | |- insert_device _ _ _ = _ => apply insert_device_ok; [apply Sum256_32|assumption]
  | |- consume_token _ _ _ _ = _ => eapply consume_token_ok; eassumption
  | |- insert_policy _ _ _ = _ => apply insert_policy_ok
  | |- update_policy _ _ _ _ = _ => eapply update_policy_ok; [eassumption|eassumption|]
  | |- delete_policy _ _ = _ => eapply delete_policy_ok; eassumption
  | |- upsert_assignment _ _ _ = _ => eapply upsert_assignment_ok; cbn [ga_policy_id]; eassumption
  | |- delete_assignment _ _ = _ => eapply delete_assignment_ok; eassumption
  | |- store_findings _ _ _ _ = _ => apply store_findings_ok
  | _ => idtac
  end.

Ltac utc_ready := cbv zeta; rewrite ?timeText_add_utc, ?timeText_utc.

#[local] Opaque timeText.

Lemma effect_runs now o s s' : effect now s o s' → run now o s = (s', Ok tt).
Proof.
  intros H. destruct H as
    [bytes actor group ttl Ha Hg Httl Hn Hroom|b1 b2 token md row Hm Ht Hl Hrow Hu Hd
    |id md row Hm Hrow Hr|bytes id row Hrow Hr|actor id row Ha Hi Hrow Hr Hroom
    |actor id group row Ha Hi Hg Hrow Hroom|actor d text Ha Hp Hrev Ht Hn Hroom
    |actor d text row Ha Hp Ht Hrev Hrow Hprev Hroom|actor id row Ha Hi Hrow Hnr Hroom
    |actor group id row Ha Hg Hi Hrow Hroom|actor group row Ha Hg Hrow Hroom
    |id report row Hrep Hocc Hrow Hr]; cbn [run]; unfold discard.
  - unfold CreateEnrollmentToken. utc_ready. run_ok; [by rewrite Ha, Hg| |done].
    apply orb_false_iff. lia.
  - unfold Enroll. utc_ready. run_ok.
    apply String.eqb_neq in Ht. rewrite Ht. unfold maxBearerTokenBytes. cbn. lia.
  - unfold Heartbeat. utc_ready. run_ok.
  - unfold RotateDeviceCredential. utc_ready. run_ok.
  - unfold RevokeDevice. utc_ready. run_ok; [by rewrite Ha, Hi|done].
  - unfold AssignDeviceGroup. utc_ready. run_ok; [by rewrite Ha, Hi, Hg|done].
  - unfold CreatePolicy. utc_ready. run_ok; [by rewrite Ha|done|by rewrite Hrev|rewrite Hrev; done
      |cbn; lia|done|done].
  - unfold UpdatePolicy. utc_ready. run_ok; [by rewrite Ha|done|lia|lia|cbn; lia|done].
  - unfold DeletePolicy. utc_ready. run_ok; [by rewrite Ha, Hi|done].
  - unfold AssignGroupPolicy. utc_ready. run_ok; [by rewrite Ha, Hg, Hi|done].
  - unfold UnassignGroupPolicy. utc_ready. run_ok; [by rewrite Ha, Hg|done].
  - unfold SyncReport. utc_ready. run_ok; [done|by exists row|done].
Qed.

(** C3. Refinement of the specification: on arguments in the range of their
    types a request succeeds exactly when [effect] allows it, and then it
    leaves exactly the store [effect] names: the rows written, the frame, and
    one audit entry for an administrative request and none for an agent's. *)
Theorem run_effect now o s s' :
  op_ok now o → run now o s = (s', Ok tt) ↔ effect now s o s'.
Proof. intros Ho. split; [by apply run_has_effect|apply effect_runs]. Qed.
End effects.
