(* ===== verification/ControllerInvariant.v ===== *)
(** * Package controller: the invariant of the store

    [store_ok] holds of a new database and is kept by every request, so it
    holds of every reachable store.  From it: the queries of the operator
    never fail on a stored row, an assigned group always has its policy, and
    the audit log is numbered 1, 2, 3, ... without gaps. *)

From S2P Require Import Prelude GoString Calendar GoTime Json Model ModelJson Profile GoCrypto Base64.
From S2P Require Import ControllerTypes ControllerStore ControllerSteps.
From S2P Require Import ControllerSpec.
#[local] Open Scope Z_scope.

(** A timestamp the store has written from the clock. *)
Definition stamp (text : string) : Prop := ∃ t, four_digit_year t = true ∧ text = timeText t.

Record device_row_ok (id : string) (row : DeviceRow) : Prop := {
  dr_id : validIdentifier id = true;
  dr_group : validGroup (dv_group_name row) = true;
  dr_hash : length (dv_credential_hash row) = 32%nat;
  dr_enrolled : stamp (dv_enrolled_at row);
  dr_rotated : stamp (dv_credential_rotated_at row);
  dr_seen : ∀ x, dv_last_seen_at row = Some x → stamp x;
  dr_revoked : ∀ x, dv_revoked_at row = Some x → stamp x;
}.

Definition policy_row_ok (id : string) (row : PolicyRow) : Prop :=
  ∃ d, policy_ok d ∧ Policy_typed d ∧ Marshal d = Some (pl_document row) ∧ Policy_ID d = id ∧
    Revision d = pl_revision row ∧ 0 < pl_revision row ≤ max_int64.

Record store_ok (s : Store) : Prop := {
  so_tokens : ∀ h row, enrollment_tokens s !! h = Some row → validGroup (tk_group_name row) = true;
  so_devices : ∀ id row, devices s !! id = Some row → device_row_ok id row;
  so_policies : ∀ id row, policies s !! id = Some row → policy_row_ok id row;
  so_assignments : ∀ g a, group_policy_assignments s !! g = Some a →
    validGroup g = true ∧ is_Some (policies s !! ga_policy_id a);
  so_findings : ∀ k row, findings s !! k = Some row →
    is_Some (devices s !! k.1.1) ∧ 0 < fi_occurrences row ≤ max_int64;
  so_sequences : au_sequence <$> admin_audit s = seqZ 1 (Z.of_nat (length (admin_audit s)));
  so_counter : audit_autoincrement s = Z.of_nat (length (admin_audit s));
  so_room : audit_autoincrement s ≤ max_int64;
  so_stamps : Forall (λ r, stamp (au_created_at r)) (admin_audit s);
}.

Lemma clock_stamp now : clock_ok now → stamp (timeText now).
Proof. intros H. exists now. split; [by apply clock_year|done]. Qed.

Lemma stamp_parse text : stamp text → ∃ t, parseTime text = Ok t.
Proof.
  intros (t & Ht & ->). exists (utc t). unfold parseTime, timeText.
  by rewrite parse_fixed_text.
Qed.

(** ** Preservation *)

(** The entry an administrative request appends. *)
Lemma audited_ok actor action tt_ tid now s :
  clock_ok now → audit_room s → store_ok s → store_ok (audited actor action tt_ tid now s).
Proof.
  intros Hc Hr []. unfold audited, audit_room in *. constructor; tables; try done.
  - rewrite fmap_app, length_app, so_sequences0. cbn [fmap list_fmap length au_sequence].
    rewrite so_counter0. rewrite Nat2Z.inj_add, seqZ_app by lia. f_equal.
    change (Z.of_nat 1) with (Z.succ 0). rewrite seqZ_cons by lia. cbn. f_equal. lia.
  - rewrite length_app. cbn [au_sequence length]. lia.
  - cbn [au_sequence]. lia.
  - apply Forall_app. split; [done|]. constructor; [|constructor].
    cbn [au_created_at]. by apply (clock_stamp now).
Qed.

Lemma set_tokens_ok h row s :
  validGroup (tk_group_name row) = true →
  store_ok s → store_ok (set_tokens (<[h := row]> (enrollment_tokens s)) s).
Proof.
  intros Hg []. constructor; tables; try done.
  intros h' r. rewrite lookup_insert_Some. intros [[_ <-]|[_ ?]]; eauto.
Qed.

Lemma set_devices_ok id row s :
  device_row_ok id row → store_ok s → store_ok (set_devices (<[id := row]> (devices s)) s).
Proof.
  intros Hd []. constructor; tables; try done.
  - intros id' r. rewrite lookup_insert_Some. intros [[<- <-]|[_ ?]]; eauto.
  - intros k r Hk. apply so_findings0 in Hk as [Hk ?]. split; [|done].
    apply lookup_insert_is_Some. destruct (decide (id = k.1.1)); auto.
Qed.

Lemma set_policies_ok id row s :
  policy_row_ok id row → store_ok s → store_ok (set_policies (<[id := row]> (policies s)) s).
Proof.
  intros Hd []. constructor; tables; try done.
  - intros id' r. rewrite lookup_insert_Some. intros [[<- <-]|[_ ?]]; eauto.
  - intros g a Hg. apply so_assignments0 in Hg as [? Hg]. split; [done|].
    apply lookup_insert_is_Some. destruct (decide (id = ga_policy_id a)); auto.
Qed.

Lemma delete_policies_ok id s :
  ¬ referenced id s → store_ok s → store_ok (set_policies (delete id (policies s)) s).
Proof.
  intros Hn []. constructor; tables; try done.
  - intros id' r [_ H]%lookup_delete_Some. eauto.
  - intros g a Hg. pose proof (so_assignments0 _ _ Hg) as [? Hp]. split; [done|].
    rewrite lookup_delete_ne; [done|]. intros E. destruct Hn. by exists g, a.
Qed.

Lemma set_assignments_ok g row p s :
  validGroup g = true → policies s !! ga_policy_id row = Some p →
  store_ok s → store_ok (set_assignments (<[g := row]> (group_policy_assignments s)) s).
Proof.
  intros Hg Hp []. constructor; tables; try done.
  intros g' r. rewrite lookup_insert_Some. intros [[<- <-]|[_ ?]]; eauto.
Qed.

Lemma delete_assignments_ok g s :
  store_ok s → store_ok (set_assignments (delete g (group_policy_assignments s)) s).
Proof. intros []. constructor; tables; try done. intros g' a [_ H]%lookup_delete_Some. eauto. Qed.

(** Every key of the findings after a report is an old one or reported. *)
Lemma reported_lookup id at_ l m k row :
  reported id at_ l m !! k = Some row →
  m !! k = Some row ∨ ∃ f, f ∈ l ∧ k = (id, Red_DetectorID f, Red_Category f) ∧ row = finding_row at_ f.
Proof.
  revert m. induction l as [|f l IH]; intros m; [by left|]. unfold reported. cbn [foldl].
  intros [H|(f' & Hf & -> & ->)]%IH.
  - apply lookup_insert_Some in H as [[<- <-]|[_ H]]; [|by left].
    right. exists f. split; [by left|done].
  - right. exists f'. split; [by right|done].
Qed.

Lemma set_findings_ok id at_ l row s :
  devices s !! id = Some row → Forall (λ f, 0 < Red_Occurrences f ≤ max_int64) l →
  store_ok s → store_ok (set_findings (reported id at_ l (findings s)) s).
Proof.
  intros Hd Hl []. constructor; tables; try done.
  intros k r [H|(f & Hf & -> & ->)]%reported_lookup; [eauto|].
  rewrite Forall_forall in Hl. split; [by exists row|]. by apply Hl.
Qed.

Lemma marshalled_row_ok d text row :
  policy_ok d → Policy_typed d → Marshal d = Some text → 0 < Revision d ≤ max_int64 →
  pl_document row = text → pl_revision row = Revision d → policy_row_ok (Policy_ID d) row.
Proof. intros ???? Hd Hr. exists d. rewrite Hd, Hr. split_and!; try done; lia. Qed.

Section invariant.
Context `{HH : Hash, HL : !HashLaws}.

Lemma url_identifier bytes :
  is_bytes bytes → length bytes = 18%nat → validIdentifier (raw_url_encode bytes) = true.
Proof.
  intros Hb Hl. assert (slen (raw_url_encode bytes) = 24) as Hs.
  { unfold raw_url_encode. by rewrite slen_encode, Hl. }
  unfold validIdentifier, identifier_syntax, maxIdentifierLength. rewrite Hs.
  destruct (String.eqb_spec (raw_url_encode bytes) "") as [E|_]; [by rewrite E in Hs|].
  by apply url_all_runes.
Qed.

Lemma effect_ok now o s s' : op_ok now o → store_ok s → effect now s o s' → store_ok s'.
Proof.
  intros [Hc Ho] HS H. pose proof (clock_stamp now Hc) as Hst.
  destruct H; cbn [op_ok] in Ho; try (apply audited_ok; [done|done|]).
  - by apply set_tokens_ok.
  - destruct Ho as [Ho1 Ho2]. destruct (Ho1 _ eq_refl) as [Hl1 Hb1].
    apply (set_devices_ok _ _ (set_tokens _ s)).
    + constructor; cbn; try done.
      * by apply url_identifier.
      * by eapply so_tokens.
      * apply Sum256_length.
    + apply set_tokens_ok; [|done]. cbn. by eapply so_tokens.
  - apply set_devices_ok; [|done].
    destruct (so_devices _ HS _ _ H0). constructor; cbn; try done. by intros x [= <-].
  - apply set_devices_ok; [|done].
    destruct (so_devices _ HS _ _ H). constructor; cbn; try done. apply Sum256_length.
  - apply set_devices_ok; [|done].
    destruct (so_devices _ HS _ _ H1). constructor; cbn; try done. by intros x [= <-].
  - apply set_devices_ok; [|done].
    destruct (so_devices _ HS _ _ H2). constructor; cbn; done.
  - apply set_policies_ok; [|done]. eapply marshalled_row_ok; try done. by rewrite H1.
  - apply set_policies_ok; [|done]. by eapply marshalled_row_ok.
  - by apply delete_policies_ok.
  - by eapply set_assignments_ok.
  - by apply delete_assignments_ok.
  - apply (set_devices_ok _ _ (set_findings _ s)).
    + destruct (so_devices _ HS _ _ H1). constructor; cbn; try done. by intros x [= <-].
    + by eapply set_findings_ok.
Qed.

Lemma new_store_ok now : store_ok (new_store now).
Proof.
  constructor; cbn; try done; intros *; by rewrite lookup_empty.
Qed.

Lemma steps_ok s s' : store_ok s → steps s s' → store_ok s'.
Proof.
  intros HS. apply (steps_ind store_ok); [done|].
  intros s1 s2 now o H1 Ho Hr. by eapply effect_ok; [exact Ho|exact H1|apply run_has_effect].
Qed.

Lemma reachable_store_ok s : reachable s → store_ok s.
Proof. intros [now H]. eapply steps_ok; [|exact H]. apply new_store_ok. Qed.

(** C4. Every store reached from a new database by any sequence of requests,
    accepted or refused, satisfies [store_ok]: devices carry valid identifiers
    and groups, 32-byte hashes and parseable stamps; every policy row holds
    the text of a valid document with the row's id and revision; assignments
    and findings refer to existing policies and devices; counts are positive
    and fit an int64; the audit log is numbered 1 to n without gaps. *)
Theorem reachable_invariant s : reachable s → store_ok s.
Proof. apply reachable_store_ok. Qed.
End invariant.
