(* ===== verification/ControllerLifecycle.v ===== *)
(** * Package controller: enrollment tokens and device credentials

    A token is good for one enrollment before it expires; the credential an
    enrollment or a rotation hands out authenticates its device until the next
    rotation or the revocation; a revoked device never comes back. *)

From S2P Require Import Prelude GoString Calendar GoTime Json Model ModelJson Profile GoCrypto Base64.
From S2P Require Import ControllerTypes ControllerStore ControllerSteps.
From S2P Require Import ControllerSpec ControllerInvariant.
#[local] Open Scope Z_scope.

(** ** Facts of a store that no request undoes *)

(** The token with this hash has been used. *)
Definition token_used (h : list Z) (s : Store) : Prop :=
  ∃ row, enrollment_tokens s !! h = Some row ∧ tk_used_at row ≠ None.

(** The token with this hash is for this group and expires at this time. *)
Definition token_issued (h : list Z) (group expires : string) (s : Store) : Prop :=
  ∃ row, enrollment_tokens s !! h = Some row ∧
    tk_group_name row = group ∧ tk_expires_at row = expires.

Definition device_revoked (id : string) (s : Store) : Prop :=
  ∃ row, devices s !! id = Some row ∧ dv_revoked_at row ≠ None.

(** The device is not revoked and its credential has this hash. *)
Definition device_active (id : string) (h : list Z) (s : Store) : Prop :=
  ∃ row, devices s !! id = Some row ∧ not_revoked row = true ∧ dv_credential_hash row = h.

Section lifecycle.
Context `{HH : Hash, HL : !HashLaws}.

Lemma token_issued_step h g x now s o s' :
  effect now s o s' → token_issued h g x s → token_issued h g x s'.
Proof.
  unfold token_issued. intros He (row & Hr & Hg & Hx).
  destruct He; tables; try (exists row; by split_and!).
  - exists row. rewrite lookup_insert_ne; [done|]. congruence.
  - destruct (decide (Sum256 token = h)) as [<-|Hne].
    + rewrite lookup_insert. rewrite decide_True by done. eexists. split; [done|]. cbn.
      assert (row0 = row) as -> by congruence. done.
    + exists row. by rewrite lookup_insert_ne.
Qed.

Lemma token_used_step h now s o s' : effect now s o s' → token_used h s → token_used h s'.
Proof.
  unfold token_used. intros He (row & Hr & Hu).
  destruct He; tables; try (exists row; by split_and!).
  - exists row. rewrite lookup_insert_ne; [done|]. congruence.
  - destruct (decide (Sum256 token = h)) as [<-|Hne].
    + rewrite lookup_insert. rewrite decide_True by done. by eexists.
    + exists row. by rewrite lookup_insert_ne.
Qed.

(** Requests that replace or withdraw the credential of a device. *)
Definition withdraws (id : string) (o : op) : Prop :=
  match o with
  | OpRotateDeviceCredential _ d | OpRevokeDevice _ d => d = id
  | _ => False
  end.

(** What a request leaves of a device row. *)
Definition row_kept (keep : Prop) (row row' : DeviceRow) : Prop :=
  dv_enrolled_at row' = dv_enrolled_at row ∧
  (dv_revoked_at row ≠ None → dv_revoked_at row' ≠ None) ∧
  (keep → dv_credential_hash row' = dv_credential_hash row ∧
          dv_revoked_at row' = dv_revoked_at row).

Lemma row_kept_insert (keep : Prop) id id' (m : gmap string DeviceRow) row new old :
  m !! id = Some row → m !! id' = Some old → (id' = id → row_kept keep old new) →
  ∃ row', <[id' := new]> m !! id = Some row' ∧ row_kept keep row row'.
Proof.
  intros Hr Ho Hk. destruct (decide (id' = id)) as [->|Hne].
  - exists new. rewrite lookup_insert, decide_True by done. split; [done|].
    assert (old = row) as -> by congruence. by apply Hk.
  - exists row. rewrite lookup_insert_ne by done. by split_and!.
Qed.

Lemma effect_device id row now s o s' :
  effect now s o s' → devices s !! id = Some row →
  ∃ row', devices s' !! id = Some row' ∧ row_kept (¬ withdraws id o) row row'.
Proof.
  intros He Hr. destruct He; tables; try (exists row; by split_and!);
    try (eapply row_kept_insert; [exact Hr|eassumption|]; intros ->).
  - exists row. rewrite lookup_insert_ne by congruence. by split_and!.
  - by split_and!.
  - split_and!; [done..|]. cbn. intros []. done.
  - split_and!; [done..|]. cbn. intros []. done.
  - by split_and!.
  - by split_and!.
Qed.

Lemma device_revoked_step id now s o s' :
  effect now s o s' → device_revoked id s → device_revoked id s'.
Proof.
  intros He (row & Hr & Hu). destruct (effect_device id row now s o s' He Hr) as (row' & Hr' & _ & Hk & _).
  exists row'. auto.
Qed.

Lemma device_active_step id h now s o s' :
  effect now s o s' → ¬ withdraws id o → device_active id h s → device_active id h s'.
Proof.
  intros He Hw (row & Hr & Hn & Hh).
  destruct (effect_device id row now s o s' He Hr) as (row' & Hr' & _ & _ & Hk).
  destruct (Hk Hw) as [H1 H2]. exists row'. split_and!; [done| |congruence].
  unfold not_revoked in *. by rewrite H2.
Qed.

(** What no request undoes survives a run. *)
Lemma steps_keep (P : Store → Prop) s s' :
  (∀ now s o s', effect now s o s' → P s → P s') → steps s s' → P s → P s'.
Proof.
  intros HP Hs H. apply (steps_ind P s s' H); [|done].
  intros s1 s2 now o H1 Ho Hr. by eapply HP; [apply run_has_effect|].
Qed.

(** *** Tokens *)

Lemma bind_pure_ok {A B} (r : result A) (a : A) (f : A → eff Store B) s :
  r = Ok a → (pure_ r ≫= f) s = f a s.
Proof. by intros ->. Qed.

Lemma Enroll_unusable r1 r2 token md now s :
  DeviceMetadata_Validate md = Ok tt → is_Some r1 → is_Some r2 →
  (∀ row, enrollment_tokens s !! Sum256 token = Some row → token_usable (timeText now) row = false) →
  Enroll r1 r2 token md now s = (s, Err ErrUnauthenticated).
Proof.
  intros Hm [b1 ->] [b2 ->] Hr. unfold Enroll.
  rewrite (bind_pure_ok _ tt) by done. unfold guard_, fail_if.
  destruct (String.eqb token "" || (maxBearerTokenBytes <? slen token)); [done|].
  rewrite (bind_pure_ok (Ok tt) tt) by done.
  rewrite (bind_pure_ok (newRandomIdentifier (Some b1)) _ _ _ eq_refl).
  rewrite (bind_pure_ok (newCredential (Some b2)) _ _ _ eq_refl).
  unfold mbind, eff_bind, transaction, consume_token.
  destruct (enrollment_tokens s !! Sum256 token) as [row|]; [|done].
  by rewrite timeText_utc, (Hr row eq_refl).
Qed.

(** C14. An enrollment token works once: after an enrollment with it, and any
    further requests, every enrollment that presents it again is refused as
    unauthenticated and changes nothing. *)
Theorem Enroll_once now r1 r2 token md grant device s s1 s2 now' r1' r2' md' :
  op_ok now (OpEnroll r1 r2 token md) →
  Enroll r1 r2 token md now s = (s1, Ok (grant, device)) → steps s1 s2 →
  DeviceMetadata_Validate md' = Ok tt → is_Some r1' → is_Some r2' →
  Enroll r1' r2' token md' now' s2 = (s2, Err ErrUnauthenticated).
Proof.
  intros Ho He Hs Hm H1 H2.
  assert (run now (OpEnroll r1 r2 token md) s = (s1, Ok tt)) as Hrun.
  { cbn [run]. unfold discard. by rewrite (eff_bind_ok _ _ _ _ _ He). }
  apply run_has_effect in Hrun; [|done]. assert (token_used (Sum256 token) s1) as Hu.
  { inversion Hrun; subst. unfold token_used. tables.
    rewrite lookup_insert, decide_True by done. by eexists. }
  apply (steps_keep _ _ _ (token_used_step (Sum256 token)) Hs) in Hu as (row & Hr & Hu).
  apply Enroll_unusable; [done..|]. intros row' Hr'. assert (row' = row) as -> by congruence.
  unfold token_usable. by destruct (tk_used_at row).
Qed.

Lemma Enroll_result r1 r2 token md now s s1 g d :
  Enroll r1 r2 token md now s = (s1, Ok (g, d)) →
  ∃ b1 b2, r1 = Some b1 ∧ r2 = Some b2 ∧ DeviceID g = raw_url_encode b1 ∧
    DeviceCredential g = token_of b2 ∧ Device_ID d = DeviceID g ∧ EnrolledAt d = utc now ∧
    LastSeenAt d = None ∧ RevokedAt d = None ∧
    ∃ row, enrollment_tokens s !! Sum256 token = Some row ∧ Group d = tk_group_name row.
Proof.
  unfold Enroll. intros H. stmt_inv.
  repeat match goal with H : (_, _) = (_, _) |- _ => injection H as ? ?; subst end.
  eexists _, _. split_and!; try done. by exists row.
Qed.

(** A new enrollment token is good until it expires: whatever requests
    come in between, as long as the token was not used, an enrollment that
    presents it with valid metadata and a fresh identifier succeeds before the
    expiry, into the group of the token, and is refused as unauthenticated
    from the expiry on. *)
Theorem CreateEnrollmentToken_until_expiry now r actor group ttl token expires s s1 s2
    now' b1 b2 md :
  op_ok now (OpCreateEnrollmentToken r actor group ttl) →
  CreateEnrollmentToken r actor group ttl now s = (s1, Ok (token, expires)) →
  steps s1 s2 → ¬ token_used (Sum256 token) s2 →
  op_ok now' (OpEnroll (Some b1) (Some b2) token md) → DeviceMetadata_Validate md = Ok tt →
  devices s2 !! raw_url_encode b1 = None →
  ns expires = ns now + ttl ∧
  (ns now' < ns expires → ∃ s3 grant device,
     Enroll (Some b1) (Some b2) token md now' s2 = (s3, Ok (grant, device)) ∧
     Group device = group ∧ Device_ID device = DeviceID grant) ∧
  (ns expires ≤ ns now' →
     Enroll (Some b1) (Some b2) token md now' s2 = (s2, Err ErrUnauthenticated)).
Proof.
  intros Ho He Hs Hu Ho' Hm Hd. pose proof He as Hrun.
  unfold CreateEnrollmentToken in He. stmt_inv.
  repeat match goal with H : (_, _) = (_, _) |- _ => injection H as ? ?; subst end.
  destruct Ho as [Hc Hb]. destruct (Hb _ eq_refl) as [Hl Hbytes].
  assert (token_issued (Sum256 (token_of b)) group (timeText (add (utc now) ttl)) s2) as Hi.
  { eapply (steps_keep _ _ _ (token_issued_step _ _ _)); [exact Hs|].
    eexists. tables. rewrite lookup_insert, decide_True by done. by split_and!. }
  destruct Hi as (row & Hr & Hg & Hx).
  assert (tk_used_at row = None) as Hnone.
  { destruct (tk_used_at row) eqn:E; [|done]. destruct Hu. exists row. by rewrite E. }
  assert (token_usable (timeText now') row = (ns now' <? ns now + ttl)) as Huse.
  { unfold token_usable. rewrite Hnone, Hx. unfold timeText. rewrite fixed_text_ltb; [done| |].
    - apply clock_year, Ho'.
    - apply clock_year_add; [done|]. split; [|lia]. unfold minute, second in *. lia. }
  split_and!; [done| |].
  - intros Hlt. cbn [ns add utc] in Hlt. rewrite (proj2 (Z.ltb_lt _ _)) in Huse by lia.
    assert (slen (token_of b) = 43) as Hsl.
    { unfold token_of, raw_url_encode. by rewrite slen_encode, Hl. }
    pose proof (effect_runs now' _ s2 _ (eff_enroll now' s2 b1 b2 (token_of b) md row Hm
      ltac:(intros E; by rewrite E in Hsl) ltac:(lia) Hr Huse Hd)) as Hok.
    cbn [run] in Hok. unfold discard in Hok.
    apply eff_bind_ok_inv in Hok as (s3 & [grant device] & Hok & _).
    exists s3, grant, device. split; [done|].
    destruct (Enroll_result _ _ _ _ _ _ _ _ _ Hok)
      as (? & ? & _ & _ & _ & _ & Hid & _ & _ & _ & row' & Hr' & HG).
    assert (row' = row) as -> by congruence. by rewrite HG.
  - intros Hge. cbn [ns add utc] in Hge. apply Enroll_unusable; [done|by eexists..|].
    intros row' Hr'. assert (row' = row) as -> by congruence. rewrite Huse. by apply Z.ltb_ge.
Qed.

(** *** Credentials *)

(** What [AuthenticateDevice] does with a presented credential. *)
Definition presented (credential : string) : string :=
  if maxBearerTokenBytes <? slen credential then "" else credential.

Lemma parseNullTime_ok x : (∀ v, x = Some v → stamp v) → ∃ t, parseNullTime x = Ok t.
Proof.
  intros H. destruct x as [v|]; [|by eexists]. destruct (stamp_parse v) as [t Ht]; [auto|].
  cbn. rewrite Ht. by eexists.
Qed.

Lemma Authenticate_row id credential s row :
  store_ok s → devices s !! id = Some row →
  (not_revoked row = true ∧ Sum256 (presented credential) = dv_credential_hash row →
     ∃ d, AuthenticateDevice id credential s = Ok d ∧ Device_ID d = id ∧
       Group d = dv_group_name row ∧ parseTime (dv_enrolled_at row) = Ok (EnrolledAt d)) ∧
  (¬ (not_revoked row = true ∧ Sum256 (presented credential) = dv_credential_hash row) →
     AuthenticateDevice id credential s = Err ErrUnauthenticated).
Proof.
  intros HS Hr. unfold AuthenticateDevice. rewrite Hr. fold (presented credential).
  unfold ConstantTimeCompare. case_bool_decide as E; cbn [andb].
  - destruct (not_revoked row); [|split; [by intros []|done]]. cbn [negb]. split; [|tauto].
    intros _. destruct (so_devices _ HS _ _ Hr) as [_ _ _ dr_enrolled0 dr_rotated0 dr_seen0 _].
    destruct (stamp_parse _ dr_enrolled0) as [t1 H1]. destruct (stamp_parse _ dr_rotated0) as [t2 H2].
    destruct (parseNullTime_ok _ dr_seen0) as [t3 H3].
    rewrite H1, H2, H3. cbn [mbind result_bind]. eexists. by split_and!.
  - split; [tauto|done].
Qed.

Lemma device_active_auth id h s credential :
  store_ok s → device_active id h s → Sum256 (presented credential) = h →
  ∃ d, AuthenticateDevice id credential s = Ok d ∧ Device_ID d = id.
Proof.
  intros HS (row & Hr & Hn & Hh) Hc.
  destruct (proj1 (Authenticate_row id credential s row HS Hr)) as (d & Hd & Hid & _); [by rewrite Hh|].
  by exists d.
Qed.

Lemma presented_token b : length b = 32%nat → presented (token_of b) = token_of b.
Proof.
  intros Hl. unfold presented, token_of, raw_url_encode, maxBearerTokenBytes.
  by rewrite slen_encode, Hl.
Qed.

(** The credential an enrollment grants authenticates its device through
    every run of requests that neither rotates nor revokes that device. *)
Theorem Enroll_credential now r1 r2 token md grant device s s1 s2 :
  reachable s → op_ok now (OpEnroll r1 r2 token md) →
  Enroll r1 r2 token md now s = (s1, Ok (grant, device)) →
  rtc (step_if (λ o, ¬ withdraws (DeviceID grant) o)) s1 s2 →
  ∃ d, AuthenticateDevice (DeviceID grant) (DeviceCredential grant) s2 = Ok d ∧
    Device_ID d = DeviceID grant.
Proof.
  intros HR Ho He Hs.
  assert (run now (OpEnroll r1 r2 token md) s = (s1, Ok tt)) as Hrun.
  { cbn [run]. unfold discard. by rewrite (eff_bind_ok _ _ _ _ _ He). }
  destruct (Enroll_result _ _ _ _ _ _ _ _ _ He) as (b1 & b2 & -> & -> & Hid & Hcr & _).
  pose proof Ho as [_ [_ Hb2]]. destruct (Hb2 _ eq_refl) as [Hl2 _].
  pose proof (run_has_effect now _ s s1 Ho Hrun) as Heff.
  pose proof (reachable_store_ok s HR) as HS.
  pose proof (effect_ok now _ s s1 Ho HS Heff) as HS1.
  assert (store_ok s2) as HS2 by (eapply steps_ok; [exact HS1|by eapply steps_if_steps]).
  assert (device_active (DeviceID grant) (Sum256 (token_of b2)) s2) as Ha.
  { apply (steps_if_ind (λ o, ¬ withdraws (DeviceID grant) o) _ s1 s2); [| |exact Hs].
    - rewrite Hid. inversion Heff; subst. eexists. tables.
      rewrite lookup_insert, decide_True by done. by split_and!.
    - intros s3 s4 now' o H3 Ho' Hk Hr. eapply device_active_step; [|exact Hk|exact H3].
      by apply run_has_effect. }
  apply (device_active_auth _ _ _ _ HS2 Ha). by rewrite Hcr, presented_token.
Qed.

(** After a rotation the device is authenticated by the credentials with
    the hash of the new one and no others: the old credential is dead unless
    the two collide under the hash. *)
Theorem RotateDeviceCredential_replaces now r id c s s1 credential :
  reachable s → op_ok now (OpRotateDeviceCredential r id) →
  RotateDeviceCredential r id now s = (s1, Ok c) →
  (Sum256 (presented credential) = Sum256 c →
     ∃ d, AuthenticateDevice id credential s1 = Ok d ∧ Device_ID d = id) ∧
  (Sum256 (presented credential) ≠ Sum256 c →
     AuthenticateDevice id credential s1 = Err ErrUnauthenticated) ∧
  (∀ id', id' ≠ id → AuthenticateDevice id' credential s1 = AuthenticateDevice id' credential s).
Proof.
  intros HR Ho He.
  assert (run now (OpRotateDeviceCredential r id) s = (s1, Ok tt)) as Hrun.
  { cbn [run]. unfold discard. by rewrite (eff_bind_ok _ _ _ _ _ He). }
  apply run_has_effect in Hrun; [|done].
  pose proof (effect_ok now _ s s1 Ho (reachable_store_ok s HR) Hrun) as HS1.
  assert (∃ b, r = Some b ∧ c = token_of b) as (b & -> & ->).
  { unfold RotateDeviceCredential in He. stmt_inv. by exists b. }
  inversion Hrun as [| | |? ? row Hr Hn| | | | | | | |]; subst.
  pose proof (Authenticate_row id credential _
    (set_credential (Sum256 (token_of b)) (timeText now) row) HS1) as HA.
  tables. rewrite lookup_insert, decide_True in HA by done. specialize (HA eq_refl) as [HA1 HA2].
  split_and!.
  - intros E. destruct HA1 as (d & Hd & Hid & _); [done|]. by exists d.
  - intros E. apply HA2. intros [_ ?]. done.
  - intros id' Hne. unfold AuthenticateDevice. tables. by rewrite lookup_insert_ne by congruence.
Qed.

(** *** Revocation *)

(** C15. Revocation is final: after [RevokeDevice] succeeds, and any further
    requests, no credential authenticates the device, it gets no policy, and
    its heartbeats, rotations and reports are all refused with the store
    unchanged. *)
Theorem RevokeDevice_final now actor id s s1 s2 :
  op_ok now (OpRevokeDevice actor id) → RevokeDevice actor id now s = (s1, Ok tt) →
  steps s1 s2 →
  (∀ credential, AuthenticateDevice id credential s2 = Err ErrUnauthenticated) ∧
  PolicyForDevice id s2 = Err ErrNotFound ∧
  (∀ now' md, DeviceMetadata_Validate md = Ok tt →
     Heartbeat id md now' s2 = (s2, Err ErrNotFound)) ∧
  (∀ now' r, is_Some r → RotateDeviceCredential r id now' s2 = (s2, Err ErrNotFound)) ∧
  (∀ now' report, op_ok now' (OpSyncReport id report) →
     ∃ e, SyncReport id report now' s2 = (s2, Err e)).
Proof.
  intros Ho He Hs.
  assert (device_revoked id s2) as (row & Hr & Hrev).
  { eapply (steps_keep _ _ _ (device_revoked_step id)); [exact Hs|].
    pose proof (run_has_effect now (OpRevokeDevice actor id) s s1 Ho He) as Heff.
    inversion Heff; subst. eexists. tables. rewrite lookup_insert, decide_True by done. by split. }
  assert (not_revoked row = false) as Hn by (unfold not_revoked; by destruct (dv_revoked_at row)).
  split_and!.
  - intros c. unfold AuthenticateDevice. by rewrite Hr, Hn, andb_false_r.
  - unfold PolicyForDevice, device_document. rewrite Hr. cbn [mbind option_bind]. by rewrite Hn.
  - intros now' md Hm. unfold Heartbeat. rewrite (bind_pure_ok _ tt) by done.
    unfold mbind, eff_bind, update_device. by rewrite Hr, Hn.
  - intros now' r [b ->]. unfold RotateDeviceCredential.
    rewrite (bind_pure_ok (newCredential (Some b)) _ _ _ eq_refl).
    unfold mbind, eff_bind, update_device. by rewrite Hr, Hn.
  - intros now' report Ho'. destruct (SyncReport id report now' s2) as [s3 [[]|e]] eqn:E.
    + apply (run_has_effect now' (OpSyncReport id report)) in E; [|done].
      inversion E; subst. congruence.
    + exists e. f_equal. by apply (run_atomic now' (OpSyncReport id report)) in E.
Qed.
End lifecycle.
