(* ===== verification/ControllerQueries.v ===== *)
(** * Package controller: policies, audit log and reports

    The compare-and-swap of policy revisions, the policy a group is assigned,
    the trail of administrative requests, and what a report leaves in the
    table of findings. *)

From S2P Require Import Prelude GoString Calendar GoTime Json Model ModelJson Profile GoCrypto Base64.
From S2P Require Import ControllerTypes ControllerStore ControllerSteps.
From S2P Require Import ControllerSpec ControllerInvariant ControllerLifecycle.
#[local] Open Scope Z_scope.

(** The entry of an administrative request; the requests of agents have none. *)
Definition audit_of (o : op) : option (string * string * string * string) :=
  match o with
  | OpCreateEnrollmentToken _ a g _ => Some (a, "enrollment_token.create", "group", g)
  | OpRevokeDevice a d => Some (a, "device.revoke", "device", d)
  | OpAssignDeviceGroup a d _ => Some (a, "device.group.assign", "device", d)
  | OpCreatePolicy a p => Some (a, "policy.create", "policy", Policy_ID p)
  | OpUpdatePolicy a p => Some (a, "policy.update", "policy", Policy_ID p)
  | OpDeletePolicy a p => Some (a, "policy.delete", "policy", p)
  | OpAssignGroupPolicy a g _ => Some (a, "group.policy.assign", "group", g)
  | OpUnassignGroupPolicy a g => Some (a, "group.policy.remove", "group", g)
  | OpEnroll _ _ _ _ | OpHeartbeat _ _ | OpRotateDeviceCredential _ _ | OpSyncReport _ _ => None
  end%string.

Definition audit_entries (now : Time) (o : op) (s : Store) : list AuditRow :=
  match audit_of o with
  | Some (actor, action, targetType, targetID) =>
      [{| au_sequence := audit_autoincrement s + 1; au_actor_id := actor; au_action := action;
          au_target_type := targetType; au_target_id := targetID;
          au_created_at := timeText now |}]
  | None => []
  end.

Lemma mapM_result_ok {A B} (f : A → result B) l :
  (∀ x, x ∈ l → ∃ y, f x = Ok y) → ∃ k, mapM f l = Ok k ∧ Forall2 (λ x y, f x = Ok y) l k.
Proof.
  induction l as [|x l IH]; intros H; [by exists []|].
  destruct (H x) as [y Hy]; [by left|]. destruct IH as (k & Hk & HF); [intros; apply H; by right|].
  exists (y :: k). cbn. rewrite Hy. cbn. rewrite Hk. split; [done|]. by constructor.
Qed.

Lemma mapM_result_err {A B} (f : A → result B) l x e :
  x ∈ l → f x = Err e → ∃ e', mapM f l = Err e'.
Proof.
  induction 1 as [x l|x y l Hin IH]; intros Hx; cbn.
  - rewrite Hx. by eexists.
  - destruct (f y); cbn; [|by eexists]. destruct (IH Hx) as [e' ->]. by eexists.
Qed.

Lemma elem_of_take_l {A} n (l : list A) x : x ∈ take n l → x ∈ l.
Proof. intros H. rewrite <-(take_drop n l). apply elem_of_app. by left. Qed.

Lemma elem_of_drop_l {A} n (l : list A) x : x ∈ drop n l → x ∈ l.
Proof. intros H. rewrite <-(take_drop n l). apply elem_of_app. by right. Qed.

Lemma boundedLimit_range v f m : 1 ≤ f ≤ m → 1 ≤ boundedLimit v f m ≤ m.
Proof. intros H. unfold boundedLimit. repeat case_match; lia. Qed.

Section queries.
Context `{HH : Hash, HL : !HashLaws}.

(** ** Policies *)

Lemma decode_stored id row :
  policy_row_ok id row →
  ∃ d, decodeStoredPolicy (pl_document row) = Ok d ∧ policy_ok d ∧ Policy_ID d = id ∧
    Revision d = pl_revision row ∧ Marshal d = Some (pl_document row).
Proof.
  intros (d & Hok & Ht & Hm & Hid & Hrev & _). exists d.
  destruct (Marshal_Unmarshal d (policy_wf d Hok Ht)) as (t & Ht' & Hu).
  assert (t = pl_document row) as -> by congruence. unfold decodeStoredPolicy. rewrite Hu.
  apply policy_valid in Hok as Hv. rewrite Hv. by split_and!.
Qed.

Lemma decode_marshalled d text :
  policy_ok d → Policy_typed d → Marshal d = Some text → decodeStoredPolicy text = Ok d.
Proof.
  intros Hok Ht Hm. destruct (Marshal_Unmarshal d (policy_wf d Hok Ht)) as (t & Ht' & Hu).
  assert (t = text) as -> by congruence. unfold decodeStoredPolicy. rewrite Hu.
  apply policy_valid in Hok as Hv. by rewrite Hv.
Qed.

(** The identifier of a valid document passes the guard of [GetPolicy]. *)
Lemma GetPolicy_row id row s :
  validIdentifier id = true → policies s !! id = Some row →
  GetPolicy id s = decodeStoredPolicy (pl_document row).
Proof. intros Hid Hr. unfold GetPolicy. by rewrite Hid, Hr. Qed.

Lemma UpdatePolicy_conflict now actor d s :
  Policy_typed d → validIdentifier actor = true → policy_ok d → Revision d ≤ max_int64 →
  pl_revision <$> policies s !! Policy_ID d ≠ Some (Revision d - 1) →
  UpdatePolicy actor d now s = (s, Err ErrConflict).
Proof.
  intros Ht Ha Hok Hrev Hne. apply policy_valid in Hok as Hv.
  destruct (Marshal_Unmarshal d (policy_wf d Hok Ht)) as (t & Hm & _).
  unfold UpdatePolicy, guard_, marshal_policy. rewrite Ha, Hv, Hm. cbn [negb fail_if].
  do 3 (rewrite (bind_pure_ok (Ok _) _ _ _ eq_refl)).
  unfold transaction, mbind, eff_bind, wrap_err, pure_.
  rewrite !uint64_argument_ok by lia. unfold update_policy.
  destruct (policies s !! Policy_ID d) as [row|]; [|done]. cbn in Hne.
  destruct (pl_revision row =? Revision d - 1) eqn:E; [|done]. bool_prop. congruence.
Qed.

(** Updating a policy is a compare-and-swap on its revision: a valid
    document with revision r is accepted exactly over a stored revision r - 1,
    is then what [GetPolicy] reads, leaves the other policies alone, and makes
    every competing update to the same revision fail with [ErrConflict]; over
    any other stored revision, or none, the update is an [ErrConflict] and
    changes nothing. *)
Theorem UpdatePolicy_compare_and_swap now actor d s :
  op_ok now (OpUpdatePolicy actor d) → validIdentifier actor = true →
  PolicyDocument_Validate d = Ok tt → Revision d ≤ max_int64 → audit_room s →
  (pl_revision <$> policies s !! Policy_ID d = Some (Revision d - 1) →
   ∃ s1, UpdatePolicy actor d now s = (s1, Ok tt) ∧ GetPolicy (Policy_ID d) s1 = Ok d ∧
     (∀ id, id ≠ Policy_ID d → GetPolicy id s1 = GetPolicy id s) ∧
     (∀ now' actor' d', Policy_typed d' → validIdentifier actor' = true →
        PolicyDocument_Validate d' = Ok tt →
        Policy_ID d' = Policy_ID d → Revision d' = Revision d →
        UpdatePolicy actor' d' now' s1 = (s1, Err ErrConflict))) ∧
  (pl_revision <$> policies s !! Policy_ID d ≠ Some (Revision d - 1) →
   UpdatePolicy actor d now s = (s, Err ErrConflict)).
Proof.
  intros [_ Ht] Ha Hok%policy_valid Hrev Hroom. cbn [op_ok] in Ht.
  split; [|by apply UpdatePolicy_conflict].
  destruct (policies s !! Policy_ID d) as [row|] eqn:Hrow; [|done]. cbn. intros [= Hprev].
  destruct (Marshal_Unmarshal d (policy_wf d Hok Ht)) as (t & Hm & _).
  assert (0 < Revision d ≤ max_int64) as Hpos.
  { pose proof Hok as (_ & _ & _ & ? & _). destruct Ht as [[? _] _]. lia. }
  eexists. split; [exact (effect_runs now (OpUpdatePolicy actor d) s _
    (eff_update_policy now s actor d t row Ha Hok Hm Hpos Hrow Hprev Hroom))|].
  assert (validIdentifier (Policy_ID d) = true) as Hid by apply Hok. split_and!.
  - erewrite GetPolicy_row; [|done|tables; by rewrite lookup_insert, decide_True].
    by apply decode_marshalled.
  - intros id Hne. unfold GetPolicy. tables. by rewrite lookup_insert_ne by congruence.
  - intros now' actor' d' Ht' Ha' Hok'%policy_valid Hi Hr. apply UpdatePolicy_conflict; try done.
    + by rewrite Hr.
    + rewrite Hi, Hr. tables. rewrite lookup_insert, decide_True by done. cbn. intros [= ?]. lia.
Qed.

Lemma policy_referenced_true id s g a :
  group_policy_assignments s !! g = Some a → ga_policy_id a = id → policy_referenced id s = true.
Proof. intros. apply policy_referenced_spec. by exists g, a. Qed.

(** In every reachable store an assigned group has its policy: the
    assignment resolves to a valid stored document, every device of the group
    that is not revoked is given that same document, and deleting it is
    refused as a conflict as long as the assignment stands. *)
Theorem assigned_policy s g a :
  reachable s → group_policy_assignments s !! g = Some a →
  ∃ d, PolicyForGroup g s = Ok d ∧ policy_ok d ∧ Policy_ID d = ga_policy_id a ∧
    (∀ id row, devices s !! id = Some row → dv_group_name row = g → not_revoked row = true →
       PolicyForDevice id s = Ok d) ∧
    (∀ now actor, validIdentifier actor = true →
       DeletePolicy actor (ga_policy_id a) now s = (s, Err ErrConflict)).
Proof.
  intros HR Hg. pose proof (reachable_store_ok s HR) as HS.
  destruct (so_assignments _ HS _ _ Hg) as [Hvg [row Hrow]].
  destruct (decode_stored _ _ (so_policies _ HS _ _ Hrow)) as (d & Hd & Hok & Hid & _ & _).
  assert (group_document g s = Some (pl_document row)) as Hdoc.
  { unfold group_document. rewrite Hg. cbn. by rewrite Hrow. }
  exists d. split_and!; try done.
  - unfold PolicyForGroup. by rewrite Hvg, Hdoc.
  - intros id dv Hdv Hgn Hnr. unfold PolicyForDevice, device_document. rewrite Hdv.
    cbn [mbind option_bind]. by rewrite Hnr, Hgn, Hdoc.
  - intros now actor Ha. unfold DeletePolicy, guard_. rewrite Ha.
    assert (validIdentifier (ga_policy_id a) = true) as -> by (rewrite <-Hid; apply Hok).
    cbn [negb orb fail_if]. rewrite (bind_pure_ok (Ok tt) _ _ _ eq_refl).
    unfold transaction, mbind, eff_bind, wrap_err, delete_policy.
    rewrite Hrow, (policy_referenced_true _ _ _ _ Hg eq_refl). done.
Qed.

(** ** The audit log *)

Lemma effect_audit now s o s' :
  effect now s o s' → admin_audit s' = admin_audit s ++ audit_entries now o s.
Proof.
  intros He. destruct He; unfold audited, insert_audit, audit_entries; cbn [admin_audit
    set_tokens set_devices set_policies set_assignments set_findings audit_autoincrement];
    rewrite ?app_nil_r, ?timeText_utc; reflexivity.
Qed.

(** The audit trail is complete and exact: an accepted request appends
    one entry with the next number, its actor, action and target when it is
    administrative, and nothing when it is an agent's; and no run of requests
    ever changes or removes an entry. *)
Theorem audit_trail s1 s2 :
  (∀ now o, op_ok now o → run now o s1 = (s2, Ok tt) →
     admin_audit s2 = admin_audit s1 ++ audit_entries now o s1) ∧
  (steps s1 s2 → admin_audit s1 `prefix_of` admin_audit s2).
Proof.
  split.
  - intros now o Ho Hr. by apply effect_audit, run_has_effect.
  - intros Hs. apply (steps_ind (λ s, admin_audit s1 `prefix_of` admin_audit s) s1 s2); [done| |done].
    intros s3 s4 now o Hp Ho Hr%run_has_effect; [|done]. apply effect_audit in Hr.
    rewrite Hr. by apply prefix_app_r.
Qed.

Lemma filter_after (l : list AuditRow) (start after : Z) :
  au_sequence <$> l = seqZ start (Z.of_nat (length l)) →
  filter (λ r, after < au_sequence r) l = drop (Z.to_nat (after - start + 1)) l.
Proof.
  revert start. induction l as [|r l IH]; intros start; [by rewrite drop_nil|].
  cbn [fmap list_fmap length]. rewrite seqZ_cons by lia. intros [= Hr Hl].
  replace (Z.pred (Z.of_nat (S (length l)))) with (Z.of_nat (length l)) in Hl by lia.
  rewrite filter_cons, (IH (Z.succ start)) by done. case_decide as Hd.
  - replace (Z.to_nat (after - start + 1)) with 0%nat by lia.
    replace (Z.to_nat (after - Z.succ start + 1)) with 0%nat by lia. done.
  - replace (Z.to_nat (after - start + 1)) with (S (Z.to_nat (after - Z.succ start + 1))) by lia.
    done.
Qed.

Definition entry_of (r : AuditRow) (e : AuditEntry) : Prop :=
  Audit_Sequence e = au_sequence r ∧ ActorID e = au_actor_id r ∧ Action e = au_action r ∧
  TargetType e = au_target_type r ∧ TargetID e = au_target_id r ∧
  parseTime (au_created_at r) = Ok (CreatedAt e).

(** [ListAudit] pages through the log: after sequence n it returns the
    entries n+1, n+2, ... without gaps, as many as there are up to the
    effective limit (100 by default, 1000 at most), each as it was recorded;
    it never fails on a reachable store, and refuses a negative cursor. *)
Theorem ListAudit_page s after limit :
  reachable s →
  (after < 0 → ListAudit after limit s = Err ErrInvalidInput) ∧
  (0 ≤ after → ∃ l, ListAudit after limit s = Ok l ∧
     Forall2 entry_of
       (take (Z.to_nat (boundedLimit limit 100 1000)) (drop (Z.to_nat after) (admin_audit s))) l ∧
     1 ≤ boundedLimit limit 100 1000 ≤ 1000).
Proof.
  intros HR. pose proof (reachable_store_ok s HR) as HS. split.
  - intros Hn. unfold ListAudit. by rewrite (proj2 (Z.ltb_lt _ _)).
  - intros Hn. unfold ListAudit. rewrite (proj2 (Z.ltb_ge _ _)) by done. cbn [fail_if].
    rewrite bind_ok, (filter_after _ 1) by apply HS.
    replace (after - 1 + 1) with after by lia.
    set (rows := take _ _).
    destruct (mapM_result_ok scan_audit rows) as (l & Hl & HF).
    { intros r Hr. apply elem_of_take_l, elem_of_drop_l in Hr.
      destruct (stamp_parse (au_created_at r)) as [t Ht].
      { by apply (proj1 (Forall_forall _ _) (so_stamps _ HS)). }
      unfold scan_audit. rewrite Ht. by eexists. }
    exists l. split_and!; [done| |apply boundedLimit_range; lia..].
    eapply Forall2_impl; [exact HF|]. intros r e. unfold scan_audit.
    destruct (parseTime (au_created_at r)) as [t|] eqn:E; [|done]. cbn.
    intros [= <-]. by split_and!.
Qed.

(** ** Listings *)

(** The listings of the operator never fail on a reachable store: every
    device row and every policy row is readable, [ListDevices] and
    [ListPolicies] return as many entries as there are rows up to the
    effective limit, and each is a stored row. *)
Theorem listings_total s limit :
  reachable s →
  (∃ l, ListDevices limit s = Ok l ∧
     Z.of_nat (length l) = Z.min (boundedLimit limit 100 1000) (Z.of_nat (size (devices s))) ∧
     Forall (λ d, is_Some (devices s !! Device_ID d)) l) ∧
  (∃ l, ListPolicies limit s = Ok l ∧
     Z.of_nat (length l) = Z.min (boundedLimit limit 100 1000) (Z.of_nat (size (policies s))) ∧
     Forall (λ d, GetPolicy (Policy_ID d) s = Ok d) l).
Proof.
  intros HR. pose proof (reachable_store_ok s HR) as HS.
  pose proof (boundedLimit_range limit 100 1000 ltac:(lia)) as Hlim.
  assert (∀ {A} (less : A → A → bool) (l : list A), Z.of_nat (length
    (take (Z.to_nat (boundedLimit limit 100 1000)) (sort_by less l))) =
    Z.min (boundedLimit limit 100 1000) (Z.of_nat (length l))) as Hlen.
  { intros A less l. rewrite length_take, length_sort_by. lia. }
  split; [unfold ListDevices|unfold ListPolicies]; set (rows := take _ _).
  - destruct (mapM_result_ok scan_device rows) as (l & Hl & HF).
    { intros [id row] Hr. apply elem_of_take_l in Hr.
      rewrite elem_of_sort_by in Hr. apply elem_of_map_to_list in Hr.
      destruct (so_devices _ HS _ _ Hr) as [_ _ _ Hen Hro Hse Hre].
      destruct (stamp_parse _ Hen) as [t1 H1]. destruct (stamp_parse _ Hro) as [t2 H2].
      destruct (parseNullTime_ok _ Hse) as [t3 H3]. destruct (parseNullTime_ok _ Hre) as [t4 H4].
      unfold scan_device. rewrite H1, H2, H3, H4. by eexists. }
    exists l. split_and!; [done| |].
    + apply Forall2_length in HF as Hl'. rewrite <-Hl'. unfold rows. rewrite Hlen.
      by rewrite length_map_to_list.
    + apply Forall_forall. intros d Hd. apply list_elem_of_lookup in Hd as [i Hi].
      destruct (Forall2_lookup_r _ _ _ _ _ HF Hi) as ([id row] & Hrow & Hsc).
      apply list_elem_of_lookup_2, elem_of_take_l in Hrow. rewrite elem_of_sort_by in Hrow.
      apply elem_of_map_to_list in Hrow. unfold scan_device in Hsc. ok_inv. by exists row.
  - destruct (mapM_result_ok (λ r : string * PolicyRow, decodeStoredPolicy (pl_document r.2)) rows)
      as (l & Hl & HF).
    { intros [id row] Hr. apply elem_of_take_l in Hr.
      rewrite elem_of_sort_by in Hr. apply elem_of_map_to_list in Hr.
      destruct (decode_stored _ _ (so_policies _ HS _ _ Hr)) as (d & Hd & _). by exists d. }
    exists l. split_and!; [done| |].
    + apply Forall2_length in HF as Hl'. rewrite <-Hl'. unfold rows. rewrite Hlen.
      by rewrite length_map_to_list.
    + apply Forall_forall. intros d Hd. apply list_elem_of_lookup in Hd as [i Hi].
      destruct (Forall2_lookup_r _ _ _ _ _ HF Hi) as ([id row] & Hrow & Hsc).
      apply list_elem_of_lookup_2, elem_of_take_l in Hrow. rewrite elem_of_sort_by in Hrow.
      apply elem_of_map_to_list in Hrow. cbn in Hsc.
      destruct (decode_stored _ _ (so_policies _ HS _ _ Hrow)) as (d' & Hd' & Hok & Hid & _).
      assert (d' = d) as -> by congruence. rewrite <-Hid in Hrow.
      rewrite (GetPolicy_row _ row); [done|apply Hok|done].
Qed.

(** ** Reports *)

Definition report_key (id : string) (f : RedactedFinding) : FindingKey :=
  (id, Red_DetectorID f, Red_Category f).

Lemma reported_other id at_ l m k :
  (∀ f, f ∈ l → k ≠ report_key id f) → reported id at_ l m !! k = m !! k.
Proof.
  revert m. induction l as [|f l IH]; intros m H; [done|]. 
  trans (<[report_key id f := finding_row at_ f]> m !! k); [apply IH; intros g Hg; apply H; by right|].
  apply lookup_insert_ne. intros E. apply (H f); [by left|done].
Qed.

Lemma reported_here id at_ l m f :
  NoDup ((λ f, (Red_DetectorID f, Red_Category f)) <$> l) → f ∈ l →
  reported id at_ l m !! report_key id f = Some (finding_row at_ f).
Proof.
  revert m. induction l as [|g l IH]; intros m Hd Hf; [by apply not_elem_of_nil in Hf|].
  cbn in Hd. apply NoDup_cons in Hd as [Hg Hd].
  change (reported id at_ (g :: l) m) with (reported id at_ l (<[report_key id g := finding_row at_ g]> m)).
  apply elem_of_cons in Hf as [->|Hf]; [|by apply IH].
  rewrite reported_other; [by rewrite lookup_insert, decide_True|].
  intros f Hf [= E1 E2]. apply Hg, list_elem_of_fmap. exists f. by rewrite E1, E2.
Qed.

(** An accepted report replaces exactly its findings: each one is stored
    under its device, detector and category with the values reported, the
    other findings, policies, tokens, assignments, devices and the audit log
    are as before, and the device keeps its row but for the time it was last
    seen. *)
Theorem SyncReport_replaces now id report s s1 :
  op_ok now (OpSyncReport id report) → SyncReport id report now s = (s1, Ok tt) →
  (∀ f, f ∈ Report_Findings report →
     findings s1 !! (id, Red_DetectorID f, Red_Category f) = Some (finding_row (ReportedAt report) f)) ∧
  (∀ k, (∀ f, f ∈ Report_Findings report → k ≠ (id, Red_DetectorID f, Red_Category f)) →
     findings s1 !! k = findings s !! k) ∧
  (∃ row, devices s !! id = Some row ∧ not_revoked row = true ∧
     devices s1 = <[id := set_last_seen (timeText now) row]> (devices s)) ∧
  policies s1 = policies s ∧ enrollment_tokens s1 = enrollment_tokens s ∧
  group_policy_assignments s1 = group_policy_assignments s ∧ admin_audit s1 = admin_audit s.
Proof.
  intros Ho H. apply (run_has_effect now (OpSyncReport id report)) in H; [|done].
  inversion H as [| | | | | | | | | | |? ? row Hrep Hocc Hrow Hr]; subst. tables.
  split_and!; try done.
  - intros f Hf. apply (reported_here id); [apply Hrep|done].
  - intros k Hk. by apply reported_other.
  - by exists row.
Qed.

(** A time whose year is negative in UTC has a text that does not parse. *)
Lemma negative_year_text t :
  cyear (f_date (wall (utc t))) < 0 → ∃ e, parseTime (timeText t) = Err e.
Proof.
  intros H. unfold parseTime, timeText, fixed_text, date_text, year_text.
  rewrite (proj2 (Z.ltb_lt _ _)) by done. by eexists.
Qed.

Lemma scan_finding_unreadable k row e :
  parseTime (fi_first_seen row) = Err e → scan_finding (k, row) = Err e.
Proof. destruct k as [[d c] g]. cbn. by intros ->. Qed.

(** A report can make the listing of findings unusable.  Validation
    bounds [first_seen] only from above; a time in the first hours of the year
    0 in an eastern zone is before the year 0 in UTC, is stored as a text with
    a negative year, and cannot be read back: [ListFindings] then fails
    whenever its limit covers the table. *)
Theorem ListFindings_unreadable now id report s s1 f limit :
  op_ok now (OpSyncReport id report) → SyncReport id report now s = (s1, Ok tt) →
  f ∈ Report_Findings report → cyear (f_date (wall (utc (Red_FirstSeen f)))) < 0 →
  Z.of_nat (size (findings s1)) ≤ boundedLimit limit 500 5000 →
  ∃ e, ListFindings limit s1 = Err e.
Proof.
  intros Ho H Hf Hy Hsz. apply (run_has_effect now (OpSyncReport id report)) in H; [|done].
  assert (findings s1 !! report_key id f = Some (finding_row (ReportedAt report) f)) as Hrow.
  { inversion H as [| | | | | | | | | | |? ? row Hrep Hocc Hrow Hr]; subst. tables.
    apply reported_here; [apply Hrep|done]. }
  destruct (negative_year_text (Red_FirstSeen f) Hy) as [e He].
  unfold ListFindings.
  rewrite take_ge by (rewrite length_sort_by, length_map_to_list; lia).
  eapply mapM_result_err; [rewrite elem_of_sort_by; by apply elem_of_map_to_list|].
  apply scan_finding_unreadable. cbn [fi_first_seen finding_row]. exact He.
Qed.
End queries.
