(* ===== verification/ControllerDemo.v ===== *)
(** * Package controller: a worked run

    A concrete run of the controller with a toy hash: a token, an enrollment, a
    policy and its assignment, a report.  The theorems of the controller are
    applied to it. *)

From S2P Require Import Prelude GoString Calendar GoTime Json Model ModelJson Profile GoCrypto Base64.
From S2P Require Import ControllerTypes ControllerStore ControllerSteps.
From S2P Require Import ControllerSpec ControllerInvariant ControllerLifecycle ControllerQueries.
From S2P Require Import ControllerAuth.
From S2P Require Import DemoCrypto.
#[local] Open Scope Z_scope.
#[local] Existing Instances checksum_hash checksum_laws.

(** ** The run *)

Definition demo_now : Time := mkTime ((unix_epoch + 1785326400) * second) 0.
Definition demo_later : Time := add demo_now (2 * hour).
Definition demo_random (n : nat) (b : Z) : list Z := replicate n b.

Definition demo_metadata : DeviceMetadata := {|
  Meta_Name := "laptop"; Meta_Platform := "linux"; Meta_OSVersion := "6.8";
  Meta_AgentVersion := "1.0" |}.

Definition demo_policy (revision : Z) : PolicyDocument := {|
  Policy_Schema := PolicySchema; Policy_SchemaVersion := 1; Policy_ID := "baseline";
  Revision := revision; Checks := [{| Check_ID := "firewall"; Check_Enabled := true |}];
  Policy_Profile := "developer";
  Cadence := {| ScanIntervalSeconds := 3600; JitterSeconds := 60 |};
  Reporting := {| Rep_Enabled := true; SyncIntervalSeconds := 600 |};
  Policy_Remediation := "observe" |}.

(** Midnight of the first day of the year 0, ten hours east of Greenwich. *)
Definition year_zero_east : Time := mkTime (-31622400 * second - 10 * hour) 36000.

Definition demo_finding (first : Time) : RedactedFinding := {|
  Red_DetectorID := "firewall"; Red_Category := "network"; Red_Severity := "warn";
  Red_State := "open"; Red_FirstSeen := first; Red_LastSeen := demo_now;
  Red_Occurrences := 1 |}.

Definition demo_report (first : Time) : ReportSync := {|
  Report_Schema := ReportSchema; Report_SchemaVersion := 1; ReportedAt := demo_now;
  Report_Findings := [demo_finding first] |}.

Definition demo_token : string := token_of (demo_random 32 1).
Definition demo_id : string := raw_url_encode (demo_random 18 2).
Definition demo_credential : string := token_of (demo_random 32 3).

Definition op_token : op :=
  OpCreateEnrollmentToken (Some (demo_random 32 1)) "alice" "laptops" hour.
Definition op_enroll : op :=
  OpEnroll (Some (demo_random 18 2)) (Some (demo_random 32 3)) demo_token demo_metadata.
Definition op_policy : op := OpCreatePolicy "alice" (demo_policy 1).
Definition op_assign : op := OpAssignGroupPolicy "alice" "laptops" "baseline".
Definition op_update : op := OpUpdatePolicy "alice" (demo_policy 2).
Definition op_rotate : op := OpRotateDeviceCredential (Some (demo_random 32 4)) demo_id.
Definition op_revoke : op := OpRevokeDevice "alice" demo_id.
Definition op_report (first : Time) : op := OpSyncReport demo_id (demo_report first).

Definition exec (ops : list op) : Store :=
  foldl (λ s o, (run demo_now o s).1) (new_store demo_now) ops.

Definition demo_store : Store := exec [op_token; op_enroll; op_policy; op_assign].

Example year_zero_text :
  rfc3339nano year_zero_east = "0000-01-01T00:00:00+10:00" ∧
  timeText year_zero_east = "-0001-12-31T14:00:00.000000000Z".
Proof. by vm_compute. Qed.

Lemma demo_clock : clock_ok demo_now.
Proof. by vm_compute. Qed.

Lemma demo_random_ok n b : 0 ≤ b < 256 → random_ok n (Some (demo_random n b)).
Proof.
  intros Hb l [= <-]. split; [apply length_replicate|]. apply Forall_forall.
  intros x Hx. apply elem_of_replicate_inv in Hx. by subst.
Qed.

Lemma demo_policy_typed r : 0 ≤ r ≤ 10 → Policy_typed (demo_policy r).
Proof.
  intros H. unfold Policy_typed, uint64, uint32, max_uint64. cbn. lia.
Qed.

Lemma demo_op_ok o :
  o ∈ [op_token; op_enroll; op_policy; op_assign; op_update; op_rotate; op_revoke;
       op_report demo_now; op_report year_zero_east] → op_ok demo_now o.
Proof.
  intros H. split; [apply demo_clock|].
  repeat (apply elem_of_cons in H as [->|H]; [cbn [op_ok op_token op_enroll op_policy op_assign op_update op_rotate op_revoke op_report]|]);
    try (split; apply demo_random_ok; lia); try (apply demo_random_ok; lia);
    try (apply demo_policy_typed; lia); try done.
  - repeat constructor; cbn; unfold uint64, max_uint64; lia.
  - repeat constructor; cbn; unfold uint64, max_uint64; lia.
  - by apply not_elem_of_nil in H.
Qed.

Lemma exec_reachable ops : Forall (op_ok demo_now) ops → reachable (exec ops).
Proof.
  intros H. exists demo_now. unfold exec. generalize (new_store demo_now) as s.
  induction H as [|o ops Ho _ IH]; intros s; [done|]. cbn [foldl].
  eapply rtc_l; [by constructor|]. apply IH.
Qed.

Lemma demo_reachable : reachable demo_store.
Proof.
  apply exec_reachable.
  repeat first [apply Forall_nil_2 | apply Forall_cons_2]; apply demo_op_ok; elem_here.
Qed.

(** ** The theorems at work *)

Ltac demo_ok := apply demo_op_ok; elem_here.

Lemma run_error_unchanged_witness :
  ∃ s' e, run demo_now op_policy demo_store = (s', Err e) ∧ e = ErrConflict ∧ s' = demo_store.
Proof.
  eexists _, _. assert (run demo_now op_policy demo_store = (demo_store, Err ErrConflict)) as E
    by (vm_compute; reflexivity).
  split; [exact E|]. split; [done|]. exact (run_error_unchanged _ _ _ _ _ E).
Defined.

Lemma run_effect_witness : ∃ s', effect demo_now demo_store op_update s'.
Proof.
  exists (run demo_now op_update demo_store).1.
  apply (proj1 (run_effect demo_now op_update demo_store _ ltac:(demo_ok))). vm_compute. reflexivity.
Defined.

Lemma reachable_invariant_witness : store_ok demo_store.
Proof. exact (reachable_invariant demo_store demo_reachable). Defined.

Lemma Policy_roundtrip_witness :
  ∃ t, Marshal (demo_policy 1) = Some t ∧ Unmarshal t = Some (demo_policy 1).
Proof.
  apply Policy_roundtrip; [apply demo_policy_typed; lia|by vm_compute].
Defined.

Lemma Enroll_once_witness :
  let s2 := exec [op_token; op_enroll; op_policy] in
  Enroll (Some (demo_random 18 7)) (Some (demo_random 32 8)) demo_token demo_metadata
    demo_now s2 = (s2, Err ErrUnauthenticated).
Proof.
  intros s2.
  refine (Enroll_once demo_now (Some (demo_random 18 2)) (Some (demo_random 32 3)) demo_token
    demo_metadata {| DeviceID := demo_id; DeviceCredential := demo_credential |} _
    (exec [op_token]) (exec [op_token; op_enroll]) s2 _ _ _ _ ltac:(demo_ok) _ _ _ _ _).
  - vm_compute. reflexivity.
  - eapply rtc_l; [apply (step_run _ demo_now op_policy); demo_ok|apply rtc_refl].
  - by vm_compute.
  - by eexists.
  - by eexists.
Defined.

Lemma demo_later_ok :
  op_ok demo_later (OpEnroll (Some (demo_random 18 2)) (Some (demo_random 32 3)) demo_token demo_metadata).
Proof. split; [by vm_compute|]. split; apply demo_random_ok; lia. Qed.

Lemma CreateEnrollmentToken_until_expiry_witness :
  let s1 := exec [op_token] in
  (∃ s3 grant device, Enroll (Some (demo_random 18 2)) (Some (demo_random 32 3)) demo_token
     demo_metadata demo_now s1 = (s3, Ok (grant, device)) ∧ Group device = "laptops") ∧
  Enroll (Some (demo_random 18 2)) (Some (demo_random 32 3)) demo_token demo_metadata
    demo_later s1 = (s1, Err ErrUnauthenticated).
Proof.
  intros s1. assert (¬ token_used (Sum256 demo_token) s1) as Hu.
  { intros (row & Hr & Hu). apply Hu. vm_compute in Hr. by injection Hr as <-. }
  split.
  - destruct (CreateEnrollmentToken_until_expiry demo_now (Some (demo_random 32 1)) "alice" "laptops"
      hour demo_token (add demo_now hour) (new_store demo_now) s1 s1 demo_now
      (demo_random 18 2) (demo_random 32 3) demo_metadata) as (_ & H & _);
      [demo_ok|vm_compute; reflexivity|apply rtc_refl|exact Hu|demo_ok
      |vm_compute; reflexivity|vm_compute; reflexivity|].
    destruct H as (s3 & g & d & H & Hg & _); [by vm_compute|]. exists s3, g, d. split; [exact H|exact Hg].
  - destruct (CreateEnrollmentToken_until_expiry demo_now (Some (demo_random 32 1)) "alice" "laptops"
      hour demo_token (add demo_now hour) (new_store demo_now) s1 s1 demo_later
      (demo_random 18 2) (demo_random 32 3) demo_metadata) as (_ & _ & H);
      [demo_ok|vm_compute; reflexivity|apply rtc_refl|exact Hu|exact demo_later_ok
      |vm_compute; reflexivity|vm_compute; reflexivity|].
    apply H. by vm_compute.
Defined.

Lemma Enroll_credential_witness :
  ∃ d, AuthenticateDevice demo_id demo_credential (exec [op_token; op_enroll; op_policy]) = Ok d ∧
    Device_ID d = demo_id.
Proof.
  refine (Enroll_credential demo_now (Some (demo_random 18 2)) (Some (demo_random 32 3)) demo_token
    demo_metadata {| DeviceID := demo_id; DeviceCredential := demo_credential |} _
    (exec [op_token]) (exec [op_token; op_enroll]) _ _ ltac:(demo_ok) _ _).
  - apply exec_reachable. repeat first [apply Forall_nil_2 | apply Forall_cons_2]; demo_ok.
  - vm_compute. reflexivity.
  - eapply rtc_l; [apply (step_if_run _ _ demo_now op_policy); [demo_ok|by intros []]|apply rtc_refl].
Defined.

Lemma RotateDeviceCredential_replaces_witness :
  AuthenticateDevice demo_id demo_credential (run demo_now op_rotate demo_store).1
    = Err ErrUnauthenticated.
Proof.
  destruct (RotateDeviceCredential_replaces demo_now (Some (demo_random 32 4)) demo_id
    (token_of (demo_random 32 4)) demo_store (run demo_now op_rotate demo_store).1 demo_credential)
    as (_ & H & _); [apply demo_reachable|demo_ok|vm_compute; reflexivity|].
  apply H. by vm_compute.
Defined.

Lemma RevokeDevice_final_witness :
  AuthenticateDevice demo_id demo_credential (run demo_now op_revoke demo_store).1
    = Err ErrUnauthenticated.
Proof.
  destruct (RevokeDevice_final demo_now "alice" demo_id demo_store
    (run demo_now op_revoke demo_store).1 (run demo_now op_revoke demo_store).1)
    as (H & _); [demo_ok|vm_compute; reflexivity|apply rtc_refl|].
  exact (H demo_credential).
Defined.

Lemma UpdatePolicy_compare_and_swap_witness :
  (∃ s1, UpdatePolicy "alice" (demo_policy 2) demo_now demo_store = (s1, Ok tt) ∧
     GetPolicy "baseline" s1 = Ok (demo_policy 2)) ∧
  UpdatePolicy "alice" (demo_policy 3) demo_now demo_store = (demo_store, Err ErrConflict).
Proof.
  assert (audit_room demo_store) as Hroom by (by vm_compute). split.
  - destruct (UpdatePolicy_compare_and_swap demo_now "alice" (demo_policy 2) demo_store)
      as [H _]; [demo_ok|by vm_compute|by vm_compute|by vm_compute|done|].
    destruct H as (s1 & H1 & H2 & _); [by vm_compute|]. exists s1. split; [exact H1|exact H2].
  - destruct (UpdatePolicy_compare_and_swap demo_now "alice" (demo_policy 3) demo_store)
      as [_ H]; [split; [apply demo_clock|apply demo_policy_typed; lia]|by vm_compute|by vm_compute
        |by vm_compute|exact Hroom|].
    apply H. by vm_compute.
Defined.

Lemma assigned_policy_witness :
  ∃ d, PolicyForGroup "laptops" demo_store = Ok d ∧
    DeletePolicy "alice" "baseline" demo_now demo_store = (demo_store, Err ErrConflict).
Proof.
  destruct (assigned_policy demo_store "laptops" {| ga_policy_id := "baseline";
    ga_updated_at := timeText demo_now; ga_updated_by := "alice" |} demo_reachable)
    as (d & H1 & _ & _ & _ & H2); [by vm_compute|].
  exists d. split; [exact H1|]. apply H2. by vm_compute.
Defined.

Lemma ListAudit_page_witness :
  ∃ l, ListAudit 1 0 demo_store = Ok l ∧ Forall2 entry_of (drop 1 (admin_audit demo_store)) l.
Proof.
  destruct (proj2 (ListAudit_page demo_store 1 0 demo_reachable)) as (l & H1 & H2 & _); [done|].
  exists l. split; [exact H1|]. rewrite take_ge in H2 by (by vm_compute; lia). exact H2.
Defined.

Lemma listings_total_witness :
  ∃ l, ListDevices 0 demo_store = Ok l ∧ Z.of_nat (length l) = 1.
Proof.
  destruct (proj1 (listings_total demo_store 0 demo_reachable)) as (l & H1 & H2 & _).
  exists l. split; [exact H1|]. rewrite H2. vm_compute. reflexivity.
Defined.

Lemma SyncReport_replaces_witness :
  findings (run demo_now (op_report demo_now) demo_store).1 !! (demo_id, "firewall", "network")
    = Some (finding_row demo_now (demo_finding demo_now)).
Proof.
  destruct (SyncReport_replaces demo_now demo_id (demo_report demo_now) demo_store
    (run demo_now (op_report demo_now) demo_store).1) as (H & _);
    [demo_ok|vm_compute; reflexivity|].
  exact (H (demo_finding demo_now) (list_elem_of_here _ _)).
Defined.

Lemma ListFindings_unreadable_witness :
  ∃ e, ListFindings 0 (run demo_now (op_report year_zero_east) demo_store).1 = Err e.
Proof.
  eapply (ListFindings_unreadable demo_now demo_id (demo_report year_zero_east) demo_store);
    [demo_ok|vm_compute; reflexivity|by left|by vm_compute|by vm_compute].
Defined.

Definition demo_spec : PrincipalSpec :=
  {| Spec_ID := "alice"; Spec_Role := "admin"; TokenSHA256 := HashToken "secret" |}.
Definition demo_principal : Principal :=
  {| Principal_ID := "alice"; Principal_Role := "admin"; tokenHash := Sum256 "secret" |}.

Lemma AuthenticateBearer_spec_witness :
  ∃ p, AuthenticateBearer [demo_principal] (bearer_prefix +:+ "secret") = Some p ∧ Principal_ID p = "alice".
Proof.
  assert (NewPrincipalSet [demo_spec] = Ok [demo_principal]) as Hps by (vm_compute; reflexivity).
  assert (token_ok "secret") as Ht by (split; [discriminate|split; vm_compute; [discriminate|reflexivity]]).
  destruct (AuthenticateBearer_spec [demo_spec] [demo_principal] Hps) as (_ & _ & _ & _ & H).
  assert (TokenSHA256 demo_spec = HashToken "secret") as E by (vm_compute; reflexivity).
  destruct (H demo_spec "secret" (list_elem_of_here _ _) E Ht) as (p & Hp & Hid & _).
  exists p. split; [exact Hp|exact Hid].
Defined.
