(* ===== verification/ControllerServer.v ===== *)
(** * Package controller: the HTTP server

    [internal/controller/server.go]: the routes, the authentication in front
    of them, the handlers and the responses.  A request is what net/http hands
    to the mux: the method, the unescaped segments of a clean path, the
    headers, the query and a body of declared length; a response is its status,
    headers and content.  A handler moves the store and answers.  Redirects of
    paths that are not clean, chunked bodies, the listener and TLS are not
    modelled. *)

From S2P Require Import Prelude GoString GoHttp GoLib Calendar GoTime Json JsonCompact Model ModelJson.
From S2P Require Import StrictJson Profile GoCrypto Base64 ControllerTypes.
From S2P Require Import ControllerHttp ControllerStore ControllerAuth.
#[local] Open Scope Z_scope.

Definition defaultJSONBodyLimit : Z := 65536.
Definition policyJSONBodyLimit : Z := 262144.
Definition reportJSONBodyLimit : Z := 1048576.

Definition errBodyTooLarge : error := Sentinel "request body exceeds limit".
Definition errUnsupportedMedia : error := Sentinel "request content type must be application/json".

Record Request := {
  Method : string;
  Path : list string;
  Header : gmap string string;
  Query : gmap string (list string);
  Body : string;
}.

(** [request.Header.Get] *)
Definition header_get (name : string) (request : Request) : string :=
  header name (Header request).

(** What the handlers draw from crypto/rand; [None] is its failure. *)
Record Random := { random_id : option (list Z); random_secret : option (list Z) }.

Record Server := { principals : PrincipalSet; signer : option Signer }.

Definition NewServer (principals : PrincipalSet) (signer : option Signer) : result Server :=
  if (length principals =? 0)%nat then Err (ErrorsNew "controller principals are required")
  else match signer with
  | None => Err (ErrorsNew "controller signer is required")
  | Some signer' =>
      if (length (privateKey signer') =? 0)%nat then Err (ErrorsNew "controller signer is required")
      else Ok {| principals := principals; signer := signer |}
  end.

(** ** Responses *)

(** The encoder ends a value with a line feed; a value it cannot encode leaves
    the content empty. *)
Definition writeJSON (status : Z) (value : option string) : Response := {|
  Status := status; Headers := {["Content-Type" := "application/json"]};
  Content := match value with Some text => text +:+ String newline "" | None => "" end |}.

Definition writeAPIError (status : Z) (code : string) : Response :=
  writeJSON status (enc_struct [("error", f_str code)]).

Definition unauthorized_challenge : string := "Bearer realm=" +:+ raw_quote "oh-my-safety-controller".

Definition writeUnauthorized : Response :=
  let response := writeAPIError 401 "unauthorized" in {|
  Status := Status response;
  Headers := <["WWW-Authenticate" := unauthorized_challenge]> (Headers response);
  Content := Content response |}.

Definition noContent : Response := {| Status := 204; Headers := ∅; Content := "" |}.

(** [errors.Is] against a package variable. *)
Definition is_error (err target : error) : bool :=
  match target with Sentinel name => errors_is err name | _ => false end.

Definition writeDecodeError (err : error) : Response :=
  if is_error err errBodyTooLarge then writeAPIError 413 "request_too_large"
  else if is_error err errUnsupportedMedia then writeAPIError 415 "unsupported_media_type"
  else writeAPIError 400 "invalid_request".

Definition writeStoreError (err : error) : Response :=
  if is_error err ErrInvalidInput then writeAPIError 400 "invalid_request"
  else if is_error err ErrNotFound then writeAPIError 404 "not_found"
  else if is_error err ErrConflict then writeAPIError 409 "conflict"
  else if is_error err ErrUnauthenticated then writeUnauthorized
  else writeAPIError 500 "internal_error".

(** ** Requests *)

Definition decodeRequestJSON {A} `{Codec A, Shaped A} (limit : Z) (request : Request) : result A :=
  if negb (bool_decide (ParseMediaType (header_get "Content-Type" request) = Some "application/json"))
  then Err errUnsupportedMedia
  else if limit <? slen (Body request) then Err errBodyTooLarge
  else match decode_strict (Body request) with
  | Some destination => Ok destination
  | None => Err (ErrorsNew "json")
  end.

Definition requireEmptyBody (request : Request) : bool := String.eqb (Body request) "".

Definition queryInteger (request : Request) (name : string) (fallback : Z) : option Z :=
  match Query request !! name with
  | None => Some fallback
  | Some [value] =>
      if String.eqb value "" then None else
      value ← parse_int64 value; if value <? 0 then None else Some value
  | Some _ => None
  end.

Definition bearerToken (header : string) : option string :=
  if (slen header <=? slen bearer_prefix) || (slen bearer_prefix + maxBearerTokenBytes <? slen header)
  then None
  else token ← strip_prefix bearer_prefix header;
       if contains_any token token_separators then None else Some token.

(** ** Handlers *)

(** A handler gets the request, the wildcard of its path, the random bytes and
    the time. *)
Definition action := Store → Store * Response.
Definition handler := Request → string → Random → Time → action.

Definition answer (response : Response) : action := λ s, (s, response).

(** A call of the store whose error is written by [writeStoreError]. *)
Definition respond {A} (call : eff Store A) (ok : A → Response) : action := λ s,
  match call s with
  | (s', Ok a) => (s', ok a)
  | (s', Err err) => (s', writeStoreError err)
  end.

Definition with_body {A} `{Codec A, Shaped A} (limit : Z) (request : Request) (next : A → action)
    : action :=
  match decodeRequestJSON limit request with
  | Ok body => next body
  | Err err => answer (writeDecodeError err)
  end.

Definition with_empty_body (request : Request) (next : action) : action :=
  if negb (requireEmptyBody request) then answer (writeAPIError 400 "invalid_request") else next.

Definition with_limit (request : Request) (name : string) (next : Z → action) : action :=
  match queryInteger request name 0 with
  | Some value => next value
  | None => answer (writeAPIError 400 "invalid_request")
  end.

Section server.
Context `{HH : Hash} `{ED : Ed25519}.
Context (server : Server).

Definition health : handler := λ _ _ _ _,
  answer (writeJSON 200 (enc_struct [("status", f_str "ok")])).

Definition enroll : handler := λ request _ random now,
  with_body defaultJSONBodyLimit request (λ body s,
    match Enroll (random_id random) (random_secret random) (EnrollmentToken body)
            (Request_Device body) now s with
    | (s', Ok (grant, _)) => (s', writeJSON 201 (Marshal grant))
    | (s', Err err) =>
        if is_error err ErrUnauthenticated then (s', writeUnauthorized)
        else (s', writeStoreError err)
    end).

Definition heartbeat (device : Device) : handler := λ request _ _ now,
  with_body defaultJSONBodyLimit request (λ metadata,
    respond (Heartbeat (Device_ID device) metadata now) (λ _, noContent)).

Definition fetchPolicy (device : Device) : handler := λ _ _ _ _,
  respond (query (PolicyForDevice (Device_ID device)) ≫= λ document,
           pure_ (Sign (signer server) document))
    (λ signed, writeJSON 200 (Marshal signed)).

Definition syncReport (device : Device) : handler := λ request _ _ now,
  with_body reportJSONBodyLimit request (λ report,
    respond (SyncReport (Device_ID device) report now)
      (λ _, writeJSON 202 (enc_struct
              [("accepted", f_int (Z.of_nat (length (Report_Findings report))))]))).

Definition rotateCredential (device : Device) : handler := λ request _ random now,
  with_empty_body request
    (respond (RotateDeviceCredential (random_secret random) (Device_ID device) now)
      (λ credential, writeJSON 200 (enc_struct
         [("device_credential", f_str credential); ("device_id", f_str (Device_ID device))]))).

Definition createEnrollmentToken (principal : Principal) : handler := λ request _ random now,
  with_body defaultJSONBodyLimit request (λ body,
    respond (CreateEnrollmentToken (random_secret random) (Principal_ID principal)
               (Token_Group body) (TTLSeconds body * second) now)
      (λ r, writeJSON 201 (enc_struct
         [("enrollment_token", f_str r.1); ("expires_at", f_req r.2)]))).

Definition listDevices (_ : Principal) : handler := λ request _ _ _,
  with_limit request "limit" (λ limit,
    respond (query (ListDevices limit))
      (λ devices, writeJSON 200 (enc_struct [("devices", f_nil_list Device_text devices)]))).

Definition revokeDevice (principal : Principal) : handler := λ request deviceID _ now,
  with_empty_body request
    (respond (RevokeDevice (Principal_ID principal) deviceID now) (λ _, noContent)).

Definition assignDeviceGroup (principal : Principal) : handler := λ request deviceID _ now,
  with_body defaultJSONBodyLimit request (λ body,
    respond (AssignDeviceGroup (Principal_ID principal) deviceID (Req_Group body) now)
      (λ _, noContent)).

Definition listFindings (_ : Principal) : handler := λ request _ _ _,
  with_limit request "limit" (λ limit,
    respond (query (ListFindings limit))
      (λ findings, writeJSON 200 (enc_struct [("findings", f_nil_list Stored_text findings)]))).

Definition listAudit (_ : Principal) : handler := λ request _ _ _,
  with_limit request "limit" (λ limit, with_limit request "after" (λ after,
    respond (query (ListAudit after limit))
      (λ entries, writeJSON 200 (enc_struct [("audit", f_nil_list Audit_text entries)])))).

Definition listPolicies (_ : Principal) : handler := λ request _ _ _,
  with_limit request "limit" (λ limit,
    respond (query (ListPolicies limit))
      (λ policies, writeJSON 200 (enc_struct [("policies", f_nil_list Marshal policies)]))).

Definition createPolicy (principal : Principal) : handler := λ request _ _ now,
  with_body policyJSONBodyLimit request (λ document,
    respond (CreatePolicy (Principal_ID principal) document now)
      (λ _, writeJSON 201 (Marshal document))).

Definition getPolicy (_ : Principal) : handler := λ _ policyID _ _,
  respond (query (GetPolicy policyID)) (λ document, writeJSON 200 (Marshal document)).

Definition updatePolicy (principal : Principal) : handler := λ request policyID _ now,
  with_body policyJSONBodyLimit request (λ document,
    if negb (String.eqb (Policy_ID document) policyID)
    then answer (writeAPIError 400 "invalid_request")
    else respond (UpdatePolicy (Principal_ID principal) document now)
           (λ _, writeJSON 200 (Marshal document))).

Definition deletePolicy (principal : Principal) : handler := λ request policyID _ now,
  with_empty_body request
    (respond (DeletePolicy (Principal_ID principal) policyID now) (λ _, noContent)).

Definition getGroupPolicy (_ : Principal) : handler := λ _ group _ _,
  respond (query (PolicyForGroup group)) (λ document, writeJSON 200 (Marshal document)).

Definition assignGroupPolicy (principal : Principal) : handler := λ request group _ now,
  with_body defaultJSONBodyLimit request (λ body,
    respond (AssignGroupPolicy (Principal_ID principal) group (Req_PolicyID body) now)
      (λ _, noContent)).

Definition unassignGroupPolicy (principal : Principal) : handler := λ request group _ now,
  with_empty_body request
    (respond (UnassignGroupPolicy (Principal_ID principal) group now) (λ _, noContent)).

(** ** Authentication *)

Definition withPrincipal (required : Role) (next : Principal → handler) : handler :=
  λ request path random now,
  match AuthenticateBearer (principals server) (header_get "Authorization" request) with
  | None => answer writeUnauthorized
  | Some principal =>
      if negb (Role_Allows (Principal_Role principal) required)
      then answer (writeAPIError 403 "forbidden")
      else next principal request path random now
  end.

Definition withAgent (next : Device → handler) : handler := λ request path random now s,
  let token := bearerToken (header_get "Authorization" request) in
  let credential := default "" token in
  match AuthenticateDevice (header_get "X-Device-ID" request) credential s, token with
  | Ok device, Some _ => next device request path random now s
  | _, _ => (s, writeUnauthorized)
  end.

(** ** Routes *)

Definition routes : list (string * string * handler) := [
  ("GET", "/healthz", health);
  ("POST", "/v1/agent/enroll", enroll);
  ("POST", "/v1/agent/heartbeat", withAgent heartbeat);
  ("GET", "/v1/agent/policy", withAgent fetchPolicy);
  ("POST", "/v1/agent/reports", withAgent syncReport);
  ("POST", "/v1/agent/credentials/rotate", withAgent rotateCredential);
  ("POST", "/v1/admin/enrollment-tokens", withPrincipal RoleOperator createEnrollmentToken);
  ("GET", "/v1/admin/devices", withPrincipal RoleViewer listDevices);
  ("POST", "/v1/admin/devices/{deviceID}/revoke", withPrincipal RoleAdmin revokeDevice);
  ("PUT", "/v1/admin/devices/{deviceID}/group", withPrincipal RoleOperator assignDeviceGroup);
  ("GET", "/v1/admin/findings", withPrincipal RoleViewer listFindings);
  ("GET", "/v1/admin/audit", withPrincipal RoleAdmin listAudit);
  ("GET", "/v1/admin/policies", withPrincipal RoleViewer listPolicies);
  ("POST", "/v1/admin/policies", withPrincipal RoleOperator createPolicy);
  ("GET", "/v1/admin/policies/{policyID}", withPrincipal RoleViewer getPolicy);
  ("PUT", "/v1/admin/policies/{policyID}", withPrincipal RoleOperator updatePolicy);
  ("DELETE", "/v1/admin/policies/{policyID}", withPrincipal RoleOperator deletePolicy);
  ("GET", "/v1/admin/groups/{group}/policy", withPrincipal RoleViewer getGroupPolicy);
  ("PUT", "/v1/admin/groups/{group}/policy", withPrincipal RoleOperator assignGroupPolicy);
  ("DELETE", "/v1/admin/groups/{group}/policy", withPrincipal RoleOperator unassignGroupPolicy)].

(** ** [http.ServeMux] *)

(** The segments of a pattern; one that starts with a brace is a wildcard. *)
Definition segments (pattern : string) : list string :=
  match split_on "/" pattern with "" :: segments => segments | segments => segments end.

Definition is_wildcard (segment : string) : bool := has_prefix segment "{".

(** The wildcards of a path that matches; an empty segment, which a trailing
    slash makes, matches no wildcard. *)
Fixpoint match_path (pattern path : list string) : option (list string) :=
  match pattern, path with
  | [], [] => Some []
  | p :: pattern, x :: path =>
      if is_wildcard p
      then if String.eqb x "" then None else cons x <$> match_path pattern path
      else if String.eqb p x then match_path pattern path else None
  | _, _ => None
  end.

(** A GET pattern matches HEAD, too. *)
Definition method_matches (pattern method : string) : bool :=
  String.eqb pattern method || (String.eqb pattern "GET" && String.eqb method "HEAD").

Definition find_route (request : Request) (table : list (string * string * handler))
    : option (handler * string) :=
  foldr (λ route found,
    match match_path (segments route.1.2) (Path request) with
    | Some values =>
        if method_matches route.1.1 (Method request)
        then Some (route.2, default "" (head values)) else found
    | None => found
    end) None table.

(** The methods registered for a path, in the order of the Allow header. *)
Definition matchingMethods (request : Request) (table : list (string * string * handler))
    : list string :=
  let methods := (λ route, route.1.1) <$>
    filter (λ route, is_Some (match_path (segments route.1.2) (Path request))) table in
  filter (λ method, method ∈ methods ∨ (method = "HEAD" ∧ "GET" ∈ methods))
    ["DELETE"; "GET"; "HEAD"; "POST"; "PUT"].

(** [http.Error] *)
Definition httpError (status : Z) (text : string) (allow : gmap string string) : Response := {|
  Status := status;
  Headers := <["Content-Type" := "text/plain; charset=utf-8"]>
    (<["X-Content-Type-Options" := "nosniff"]> allow);
  Content := text +:+ String newline "" |}.

Definition mux : Request → Random → Time → action := λ request random now,
  match find_route request routes with
  | Some (next, value) => next request value random now
  | None =>
      match matchingMethods request routes with
      | [] => answer (httpError 404 "404 page not found" ∅)
      | methods => answer (httpError 405 "Method Not Allowed" {["Allow" := join ", " methods]})
      end
  end.

Definition security_headers : gmap string string := list_to_map [
  ("Cache-Control", "no-store"); ("Content-Security-Policy", "default-src 'none'");
  ("Referrer-Policy", "no-referrer"); ("X-Content-Type-Options", "nosniff");
  ("X-Frame-Options", "DENY")].

(** [securityHeaders]: set before the handler, which may replace them. *)
Definition securityHeaders (next : Request → Random → Time → action)
    : Request → Random → Time → action := λ request random now s,
  let '(s', response) := next request random now s in
  (s', {| Status := Status response; Headers := Headers response ∪ security_headers;
          Content := Content response |}).

Definition serve : Request → Random → Time → action := securityHeaders mux.

Definition EndpointSummary : list string := [
  "GET /healthz"; "POST /v1/agent/enroll"; "POST /v1/agent/heartbeat"; "GET /v1/agent/policy";
  "POST /v1/agent/reports"; "POST /v1/agent/credentials/rotate";
  "POST /v1/admin/enrollment-tokens"; "GET /v1/admin/devices";
  "POST /v1/admin/devices/{deviceID}/revoke"; "PUT /v1/admin/devices/{deviceID}/group";
  "GET /v1/admin/findings"; "GET /v1/admin/audit"; "GET /v1/admin/policies";
  "POST /v1/admin/policies"; "GET /v1/admin/policies/{policyID}";
  "PUT /v1/admin/policies/{policyID}"; "DELETE /v1/admin/policies/{policyID}";
  "GET /v1/admin/groups/{group}/policy"; "PUT /v1/admin/groups/{group}/policy";
  "DELETE /v1/admin/groups/{group}/policy"].
End server.
