(* ===== verification/ControllerServerFacts.v ===== *)
(** * The HTTP server: who may change what

    Every request the server answers makes at most one step of the store, one
    it asks for and the presented credential entitles to, and none when the
    answer is an error. *)

From S2P Require Import Prelude GoString GoHttp GoLib Calendar GoTime Json JsonCompact Model ModelJson.
From S2P Require Import StrictJson Profile GoCrypto Base64 ControllerTypes.
From S2P Require Import ControllerHttp ControllerStore ControllerAuth ControllerSteps ControllerSpec.
From S2P Require Import ControllerInvariant ControllerServer.
#[local] Open Scope Z_scope.

(** The device an agent's request acts for. *)
Definition device_of (o : op) : option string :=
  match o with
  | OpHeartbeat id _ | OpRotateDeviceCredential _ id | OpSyncReport id _ => Some id
  | _ => None
  end.

(** The actor of an administrative request and the role it takes. *)
Definition actor_of (o : op) : option (string * Role) :=
  match o with
  | OpRevokeDevice a _ => Some (a, RoleAdmin)
  | OpCreateEnrollmentToken _ a _ _ | OpAssignDeviceGroup a _ _ | OpCreatePolicy a _
  | OpUpdatePolicy a _ | OpDeletePolicy a _ | OpAssignGroupPolicy a _ _
  | OpUnassignGroupPolicy a _ => Some (a, RoleOperator)
  | _ => None
  end.

Section facts.
Context `{HH : Hash, HL : !HashLaws} `{ED : Ed25519}.
Context (server : Server).

(** What entitles a request to an operation: that it presents a token in force
    which the enrollment consumes, the credential of the device it acts for, or
    the token of a principal with the role it takes. *)
Inductive entitled (now : Time) (s : Store) (request : Request) : op → Prop :=
  | entitled_token r1 r2 body row :
      decode_strict (Body request) = Some body →
      enrollment_tokens s !! Sum256 (EnrollmentToken body) = Some row →
      token_usable (timeText now) row = true →
      entitled now s request (OpEnroll r1 r2 (EnrollmentToken body) (Request_Device body))
  | entitled_device o device token :
      bearerToken (header_get "Authorization" request) = Some token →
      AuthenticateDevice (header_get "X-Device-ID" request) token s = Ok device →
      device_of o = Some (header_get "X-Device-ID" request) → entitled now s request o
  | entitled_principal o principal role :
      AuthenticateBearer (principals server) (header_get "Authorization" request) = Some principal →
      actor_of o = Some (Principal_ID principal, role) →
      Role_Allows (Principal_Role principal) role = true → entitled now s request o.

(** What the operation is about is what the request asks for: the content of
    its body and a segment of its path, with the random bytes drawn for it. *)
Definition asked (random : Random) (request : Request) (o : op) : Prop :=
  match o with
  | OpCreateEnrollmentToken r _ group ttl =>
      r = random_secret random ∧ ∃ body, decode_strict (Body request) = Some body ∧
        group = Token_Group body ∧ ttl = TTLSeconds body * second
  | OpEnroll r1 r2 token md =>
      r1 = random_id random ∧ r2 = random_secret random ∧
      decode_strict (Body request) = Some {| EnrollmentToken := token; Request_Device := md |}
  | OpHeartbeat _ md => decode_strict (Body request) = Some md
  | OpRotateDeviceCredential r _ => r = random_secret random ∧ Body request = ""
  | OpRevokeDevice _ id => id ∈ Path request ∧ Body request = ""
  | OpAssignDeviceGroup _ id group =>
      id ∈ Path request ∧ decode_strict (Body request) = Some {| Req_Group := group |}
  | OpCreatePolicy _ document => decode_strict (Body request) = Some document
  | OpUpdatePolicy _ document =>
      decode_strict (Body request) = Some document ∧ Policy_ID document ∈ Path request
  | OpDeletePolicy _ id => id ∈ Path request ∧ Body request = ""
  | OpAssignGroupPolicy _ group id =>
      group ∈ Path request ∧ decode_strict (Body request) = Some {| Req_PolicyID := id |}
  | OpUnassignGroupPolicy _ group => group ∈ Path request ∧ Body request = ""
  | OpSyncReport _ report => decode_strict (Body request) = Some report
  end.

(** The random bytes and the clock are what crypto/rand and time give. *)
Definition env_ok (random : Random) (now : Time) : Prop :=
  random_ok 18 (random_id random) ∧ random_ok 32 (random_secret random) ∧ clock_ok now.

(** The store after an action and the status of its answer, for operations
    that satisfy [P]. *)
Definition sound (now : Time) (P : op → Prop) (s : Store) (r : Store * Response) : Prop :=
  (r.1 = s ∨ ∃ o, op_ok now o ∧ P o ∧ run now o s = (r.1, Ok tt)) ∧
  (400 ≤ Status r.2 → r.1 = s).

Lemma sound_answer now P s response : sound now P s (answer response s).
Proof. unfold sound, answer. cbn. auto. Qed.

Lemma sound_mono now (P Q : op → Prop) s r :
  (∀ o, P o → Q o) → sound now P s r → sound now Q s r.
Proof.
  intros HPQ [[H|(o & H1 & H2 & H3)] H4]; (split; [|exact H4]); [by left|right]. exists o. auto.
Qed.

(** A call of the store that is the operation [o]. *)
Lemma sound_respond {A} now (P : op → Prop) s o (call : eff Store A) ok :
  (∀ s, run now o s = discard call s) → op_ok now o → P o → (∀ a, Status (ok a) < 400) →
  sound now P s (respond call ok s).
Proof.
  intros Hrun Ho HP Hok. unfold respond, sound. specialize (Hrun s).
  unfold discard, mbind, eff_bind in Hrun. destruct (call s) as [s' [a|e]]; cbn [fst snd].
  - split; [|intros H; specialize (Hok a); lia]. right. exists o. by rewrite Hrun.
  - apply run_atomic in Hrun. subst. auto.
Qed.

(** A call that only reads. *)
Lemma sound_query {A} now P s (call : eff Store A) ok :
  ReadOnly call → sound now P s (respond call ok s).
Proof.
  intros Hr. specialize (Hr s). unfold respond. destruct (call s) as [s' [a|e]]; cbn in Hr; subst;
    (split; cbn; auto).
Qed.

#[local] Instance query_read_only {A} (f : Store → result A) : ReadOnly (query f).
Proof. done. Qed.

#[local] Instance bind_read_only {A B} (m : eff Store A) (f : A → eff Store B) :
  ReadOnly m → (∀ a, ReadOnly (f a)) → ReadOnly (m ≫= f).
Proof.
  intros Hm Hf s. unfold mbind, eff_bind. specialize (Hm s).
  destruct (m s) as [s1 [a|e]]; cbn in *; subst; [apply Hf|done].
Qed.

Lemma discard_unit (m : eff Store unit) s : m s = discard m s.
Proof. unfold discard, mbind, eff_bind. by destruct (m s) as [s' [[]|e]]. Qed.

Lemma sound_body {A} `{Codec A, Shaped A} now P s limit request (next : A → action) :
  (∀ x, decode_strict (Body request) = Some x → sound now P s (next x s)) →
  sound now P s (with_body limit request next s).
Proof.
  intros Hn. unfold with_body, decodeRequestJSON.
  destruct (negb _); [apply sound_answer|]. destruct (_ <? _); [apply sound_answer|].
  destruct (decode_strict (Body request)) as [x|] eqn:E; [|apply sound_answer]. by apply Hn.
Qed.

Lemma sound_empty now P s request next :
  (Body request = "" → sound now P s (next s)) → sound now P s (with_empty_body request next s).
Proof.
  unfold with_empty_body, requireEmptyBody. destruct (String.eqb _ _) eqn:E; [|intros _; apply sound_answer].
  intros Hn. apply Hn. by bool_prop.
Qed.

Lemma sound_limit now P s request name next :
  (∀ z, sound now P s (next z s)) → sound now P s (with_limit request name next s).
Proof. unfold with_limit. intros H. destruct (queryInteger _ _ _); [apply H|apply sound_answer]. Qed.

(** ** The handlers *)

Lemma Authenticate_id id credential s d :
  AuthenticateDevice id credential s = Ok d → Device_ID d = id.
Proof.
  unfold AuthenticateDevice. cbv zeta. destruct (devices s !! id) as [row|]; [|done].
  destruct (negb _); [done|]. intros H. ok_inv. done.
Qed.

Lemma sound_enroll request path random now s :
  env_ok random now →
  sound now (λ o, entitled now s request o ∧ asked random request o) s (enroll request path random now s).
Proof.
  intros (H1 & H2 & Hc). unfold enroll. apply sound_body. intros body Hb.
  set (o := OpEnroll (random_id random) (random_secret random) (EnrollmentToken body) (Request_Device body)).
  assert (∀ s' r, Enroll (random_id random) (random_secret random) (EnrollmentToken body)
    (Request_Device body) now s = (s', r) → run now o s = (s', (λ _, tt) <$> r)) as Hrun.
  { intros s' r E. cbn [run o]. unfold discard, mbind, eff_bind. rewrite E. by destruct r. }
  destruct (Enroll _ _ _ _ _ s) as [s' [[grant device]|e]] eqn:E; specialize (Hrun _ _ eq_refl).
  - split; [|cbn; lia]. right. exists o. assert (op_ok now o) as Ho by exact (conj Hc (conj H1 H2)).
    split; [done|]. split; [|done]. split.
    + pose proof (run_has_effect _ _ _ _ Ho Hrun) as Heff. inversion Heff; subst. by econstructor.
    + unfold asked, o. rewrite Hb. by destruct body.
  - assert (s' = s) as -> by exact (run_atomic now o s s' e Hrun).
    destruct (is_error e ErrUnauthenticated); split; cbn; auto.
Qed.

(** The wildcard of a route's path, if it has one, is a segment of the path
    that was asked for. *)
Definition matched (pattern : string) (request : Request) (path : string) : Prop :=
  existsb is_wildcard (segments pattern) = true → path ∈ Path request.

Lemma match_path_matched pattern request values :
  match_path (segments pattern) (Path request) = Some values → matched pattern request (default "" (head values)).
Proof.
  unfold matched. generalize (segments pattern) (Path request). intros ps xs. revert xs values.
  induction ps as [|p ps IH]; intros [|x xs] values; cbn; try done.
  destruct (is_wildcard p); cbn [orb].
  - destruct (String.eqb x ""); [done|]. destruct (match_path ps xs) as [vs|]; [|done].
    intros [= <-] _. left.
  - destruct (String.eqb p x); [|done]. intros H Hw. right. by apply (IH xs values H Hw).
Qed.

(** Handlers of a route that do at most an operation satisfying [P x], one the
    request asks for. *)
Definition sound_for {X} (pattern : string) (P : X → op → Prop) (next : X → handler) : Prop :=
  ∀ x request path random now s, env_ok random now → matched pattern request path →
    sound now (λ o, P x o ∧ asked random request o) s (next x request path random now s).

Lemma sound_withAgent pattern next :
  sound_for pattern (λ d o, device_of o = Some (Device_ID d)) next →
  ∀ request path random now s, env_ok random now → matched pattern request path →
    sound now (λ o, entitled now s request o ∧ asked random request o) s
      (withAgent next request path random now s).
Proof.
  intros Hn request path random now s He Hm. unfold withAgent. cbv zeta.
  destruct (bearerToken _) as [token|] eqn:Et; cbn [default];
    destruct (AuthenticateDevice _ _ s) as [d|e] eqn:Ed; try apply sound_answer.
  eapply sound_mono; [|by apply Hn]. intros o [Ho Ha]. split; [|done].
  assert (Device_ID d = header_get "X-Device-ID" request) as Hid by (exact (Authenticate_id _ _ _ _ Ed)).
  eapply entitled_device; [done|exact Ed|]. by rewrite <-Hid.
Qed.

Lemma sound_withPrincipal pattern required next :
  sound_for pattern (λ p o, actor_of o = Some (Principal_ID p, required)) next →
  ∀ request path random now s, env_ok random now → matched pattern request path →
    sound now (λ o, entitled now s request o ∧ asked random request o) s
      (withPrincipal server required next request path random now s).
Proof.
  intros Hn request path random now s He Hm. unfold withPrincipal.
  destruct (AuthenticateBearer _ _) as [p|] eqn:Ep; [|apply sound_answer].
  destruct (Role_Allows (Principal_Role p) required) eqn:Er; [|apply sound_answer]. cbn [negb].
  eapply sound_mono; [|by apply Hn]. intros o [Ho Ha]. split; [|done].
  eapply entitled_principal; [exact Ep|exact Ho|exact Er].
Qed.

(** Runs a handler to its call of the store. *)
Ltac handler_start :=
  intros x request path random now s (R1 & R2 & Hc) Hm;
  try specialize (Hm eq_refl);
  first [apply sound_body; intros body Hv | apply sound_empty; intros Hb
        | repeat (apply sound_limit; intros ?)].

(** A call that returns what [run] discards. *)
Ltac same_run := intros ?; first [reflexivity | apply discard_unit].

(** What is asked for, read off the body. *)
Ltac as_asked := split; [done|]; unfold asked; try match goal with
  | Hv : decode_strict _ = Some ?body |- _ => rewrite Hv; try by destruct body
  end; eauto.

Lemma routes_sound request random now s :
  env_ok random now →
  Forall (λ route, ∀ path, matched route.1.2 request path →
      sound now (λ o, entitled now s request o ∧ asked random request o) s
        (route.2 request path random now s))
    (routes server).
Proof.
  intros He. unfold routes.
  repeat first [apply Forall_nil_2 | apply Forall_cons_2]; cbn [fst snd]; intros value Hmatch;
    first [ apply sound_answer | by apply sound_enroll
          | revert Hmatch; refine (λ Hm, sound_withAgent _ _ _ _ _ _ _ _ He Hm)
          | revert Hmatch; refine (λ Hm, sound_withPrincipal _ _ _ _ _ _ _ _ _ He Hm) ];
    clear; handler_start; try (apply sound_query; apply _).
  - apply (sound_respond _ _ _ (OpHeartbeat (Device_ID x) body)); [same_run|done|as_asked|done].
  - apply decode_strict_dec in Hv as Hd. destruct Hd as [v Hd].
    apply (sound_respond _ _ _ (OpSyncReport (Device_ID x) body)); [same_run| |as_asked|done].
    split; [done|by eapply dec_report_typed].
  - apply (sound_respond _ _ _ (OpRotateDeviceCredential (random_secret random) (Device_ID x)));
      [same_run|done|as_asked|done].
  - apply (sound_respond _ _ _ (OpCreateEnrollmentToken (random_secret random) (Principal_ID x)
      (Token_Group body) (TTLSeconds body * second))); [same_run|done|as_asked|done].
  - apply (sound_respond _ _ _ (OpRevokeDevice (Principal_ID x) path)); [same_run|done|as_asked|done].
  - apply (sound_respond _ _ _ (OpAssignDeviceGroup (Principal_ID x) path (Req_Group body)));
      [same_run|done|as_asked|done].
  - apply decode_strict_dec in Hv as Hd. destruct Hd as [v Hd].
    apply (sound_respond _ _ _ (OpCreatePolicy (Principal_ID x) body)); [same_run| |as_asked|done].
    split; [done|by eapply dec_policy_typed].
  - apply decode_strict_dec in Hv as Hd. destruct Hd as [v Hd].
    destruct (negb _) eqn:Eid; [apply sound_answer|]. bool_prop.
    apply (sound_respond _ _ _ (OpUpdatePolicy (Principal_ID x) body)); [same_run| |as_asked|done].
    { split; [done|by eapply dec_policy_typed]. }
    split; [done|]. congruence.
  - apply (sound_respond _ _ _ (OpDeletePolicy (Principal_ID x) path)); [same_run|done|as_asked|done].
  - apply (sound_respond _ _ _ (OpAssignGroupPolicy (Principal_ID x) path (Req_PolicyID body)));
      [same_run|done|as_asked|done].
  - apply (sound_respond _ _ _ (OpUnassignGroupPolicy (Principal_ID x) path));
      [same_run|done|as_asked|done].
Qed.

Lemma find_route_in request table next value :
  find_route request table = Some (next, value) →
  ∃ route, route ∈ table ∧ route.2 = next ∧ matched route.1.2 request value.
Proof.
  induction table as [|route table IH]; [done|]. cbn [find_route foldr].
  destruct (match_path _ _) as [values|] eqn:E.
  - destruct (method_matches _ _).
    { intros [= <- <-]. exists route. split_and!; [by left|done|by apply match_path_matched]. }
    intros (r & Hr & ?)%IH. exists r. split; [by right|done].
  - intros (r & Hr & ?)%IH. exists r. split; [by right|done].
Qed.

Lemma serve_sound request random now s :
  env_ok random now →
  sound now (λ o, entitled now s request o ∧ asked random request o) s (serve server request random now s).
Proof.
  intros He. unfold serve, securityHeaders.
  assert (sound now (λ o, entitled now s request o ∧ asked random request o) s
    (mux server request random now s)) as H.
  { unfold mux. destruct (find_route request (routes server)) as [[next value]|] eqn:E.
    - apply find_route_in in E as (route & Hin & <- & Hm).
      pose proof (routes_sound request random now s He) as HF.
      rewrite Forall_forall in HF. by apply HF.
    - case_match; apply sound_answer. }
  by destruct (mux server request random now s) as [s' response].
Qed.

(** ** Properties *)

(** C5. The server changes the store only for those entitled to the change:
    answering any request either leaves the store alone or makes exactly one
    operation of the store, one whose contents are those of the request's body
    and path; it is an enrollment with the very token the request presents,
    which is on record and in force, or is carried out for the device whose
    credential was presented, or in the name of the principal whose token was
    and with a role that allows it; and an answer with an error status never
    hides a change. *)
Theorem serve_entitled request random now s s' response :
  env_ok random now → serve server request random now s = (s', response) →
  (s' = s ∨ ∃ o, op_ok now o ∧ entitled now s request o ∧ asked random request o ∧ run now o s = (s', Ok tt)) ∧
  (400 ≤ Status response → s' = s).
Proof.
  intros He H. pose proof (serve_sound request random now s He) as [HS HE]. rewrite H in HS, HE.
  split; [|exact HE]. destruct HS as [?|(o & ? & [? ?] & ?)]; [by left|right; by exists o].
Qed.

(** One request served. *)
Inductive served (s : Store) : Store → Prop :=
  | served_request request random now :
      env_ok random now → served s (serve server request random now s).1.

Lemma served_steps s s' : rtc served s s' → steps s s'.
Proof.
  induction 1 as [|s s1 s2 [request random now He] _ IH]; [done|].
  destruct (serve_sound request random now s He) as [Hs _]. revert IH Hs.
  generalize (serve server request random now s).1. intros t IH [->|(o & Ho & _ & Hr)]; [done|].
  eapply rtc_l; [|exact IH]. assert ((run now o s).1 = t) as <- by (by rewrite Hr). by constructor.
Qed.

(** Whatever requests it is sent, well formed or not, the server keeps
    the store well formed, and only ever appends to the audit log. *)
Theorem served_invariant s s' :
  reachable s → rtc served s s' → reachable s' ∧ store_ok s'.
Proof.
  intros Hs H%served_steps. assert (reachable s') as Hr.
  { destruct Hs as [now Hs]. exists now. by transitivity s. }
  split; [done|by apply reachable_store_ok].
Qed.

(** ** The gates *)

Definition secured (response : Response) : Response := {|
  Status := Status response; Headers := Headers response ∪ security_headers;
  Content := Content response |}.

Lemma match_nil path values : match_path [] path = Some values → path = [] ∧ values = [].
Proof. destruct path; [|done]. by intros [= <-]. Qed.

Lemma match_literal p pattern path values :
  is_wildcard p = false → match_path (p :: pattern) path = Some values →
  ∃ path', path = p :: path' ∧ match_path pattern path' = Some values.
Proof.
  intros Hw. destruct path as [|x path]; [done|]. cbn [match_path]. rewrite Hw.
  destruct (String.eqb_spec p x) as [<-|]; [|done]. eauto.
Qed.

Lemma match_wildcard p pattern path values :
  is_wildcard p = true → match_path (p :: pattern) path = Some values →
  ∃ x path' values', path = x :: path' ∧ String.eqb x "" = false ∧ values = x :: values' ∧
    match_path pattern path' = Some values'.
Proof.
  intros Hw. destruct path as [|x path]; [done|]. cbn [match_path]. rewrite Hw.
  destruct (String.eqb x "") eqn:E; [done|].
  destruct (match_path pattern path) as [vs|] eqn:Em; [|done]. intros [= <-]. eauto 10.
Qed.

(** Reads a path off the pattern it matches. *)
Ltac match_inv H :=
  first [ apply match_nil in H as [-> ->]
        | apply match_literal in H as (? & -> & H); [|reflexivity]; match_inv H
        | let x := fresh "x" in let Hx := fresh "Hx" in
          apply match_wildcard in H as (x & ? & ? & -> & Hx & -> & H); [|reflexivity];
          destruct x as [|? x]; [discriminate Hx|]; clear Hx; match_inv H ].

(** The endpoints of the agents, and those of the administrators with the role
    they take. *)
Definition agent_table : list (string * string) := [
  ("POST", "/v1/agent/heartbeat"); ("GET", "/v1/agent/policy"); ("POST", "/v1/agent/reports");
  ("POST", "/v1/agent/credentials/rotate")].

Definition admin_table : list (string * string * Role) := [
  ("POST", "/v1/admin/enrollment-tokens", RoleOperator); ("GET", "/v1/admin/devices", RoleViewer);
  ("POST", "/v1/admin/devices/{deviceID}/revoke", RoleAdmin);
  ("PUT", "/v1/admin/devices/{deviceID}/group", RoleOperator);
  ("GET", "/v1/admin/findings", RoleViewer); ("GET", "/v1/admin/audit", RoleAdmin);
  ("GET", "/v1/admin/policies", RoleViewer); ("POST", "/v1/admin/policies", RoleOperator);
  ("GET", "/v1/admin/policies/{policyID}", RoleViewer);
  ("PUT", "/v1/admin/policies/{policyID}", RoleOperator);
  ("DELETE", "/v1/admin/policies/{policyID}", RoleOperator);
  ("GET", "/v1/admin/groups/{group}/policy", RoleViewer);
  ("PUT", "/v1/admin/groups/{group}/policy", RoleOperator);
  ("DELETE", "/v1/admin/groups/{group}/policy", RoleOperator)].

Definition requests (method pattern : string) (request : Request) : Prop :=
  Method request = method ∧ is_Some (match_path (segments pattern) (Path request)).

(** Finds the route of a request whose path is known. *)
Ltac route_found :=
  eexists _, _; lazy -[health enroll heartbeat fetchPolicy syncReport rotateCredential
    createEnrollmentToken listDevices revokeDevice assignDeviceGroup listFindings listAudit
    listPolicies createPolicy getPolicy updatePolicy deletePolicy getGroupPolicy assignGroupPolicy
    unassignGroupPolicy withAgent withPrincipal RoleAdmin RoleOperator RoleViewer]; reflexivity.

Lemma agent_route request method pattern :
  (method, pattern) ∈ agent_table → requests method pattern request →
  ∃ next value, find_route request (routes server) = Some (withAgent next, value).
Proof.
  intros Hin [Hm [values Hp]]. destruct request as [m path h q b]. cbn [Method Path] in *. subst m.
  unfold agent_table in Hin.
  repeat (apply elem_of_cons in Hin as [[= -> ->]|Hin]); [..|by apply not_elem_of_nil in Hin];
    match type of Hp with match_path ?p _ = _ => let p' := eval vm_compute in p in change p with p' in Hp end;
    match_inv Hp; route_found.
Qed.

Lemma admin_route request method pattern role :
  (method, pattern, role) ∈ admin_table → requests method pattern request →
  ∃ next value, find_route request (routes server) = Some (withPrincipal server role next, value).
Proof.
  intros Hin [Hm [values Hp]]. destruct request as [m path h q b]. cbn [Method Path] in *. subst m.
  unfold admin_table in Hin.
  repeat (apply elem_of_cons in Hin as [[= -> -> ->]|Hin]); [..|by apply not_elem_of_nil in Hin];
    match type of Hp with match_path ?p _ = _ => let p' := eval vm_compute in p in change p with p' in Hp end;
    match_inv Hp; route_found.
Qed.

(** C39. No credential, no service: an agent's endpoint answers a request whose
    credential does not authenticate the named device, and an administrative
    one a request without the token of a principal, with one and the same 401,
    whatever else the request and the store hold; a principal whose role does
    not allow the endpoint gets a 403; the store is unchanged. *)
Theorem serve_gates request random now s method pattern :
  requests method pattern request →
  ((method, pattern) ∈ agent_table →
   (∀ token, bearerToken (header_get "Authorization" request) = Some token →
      is_ok (AuthenticateDevice (header_get "X-Device-ID" request) token s) = false) →
   serve server request random now s = (s, secured writeUnauthorized)) ∧
  (∀ role, (method, pattern, role) ∈ admin_table →
   (AuthenticateBearer (principals server) (header_get "Authorization" request) = None →
    serve server request random now s = (s, secured writeUnauthorized)) ∧
   (∀ p, AuthenticateBearer (principals server) (header_get "Authorization" request) = Some p →
    Role_Allows (Principal_Role p) role = false →
    serve server request random now s = (s, secured (writeAPIError 403 "forbidden")))).
Proof.
  intros Hreq. unfold serve, securityHeaders, mux. split.
  - intros Hin Hno. destruct (agent_route _ _ _ Hin Hreq) as (next & value & ->).
    unfold withAgent. cbv zeta. destruct (bearerToken _) as [token|]; cbn [default].
    + specialize (Hno token eq_refl). by destruct (AuthenticateDevice _ _ _).
    + by destruct (AuthenticateDevice _ _ _).
  - intros role Hin. destruct (admin_route _ _ _ _ Hin Hreq) as (next & value & ->).
    unfold withPrincipal. split; [by intros ->|]. by intros p -> ->.
Qed.
End facts.
