(* ===== verification/Managed.v ===== *)
(** * Package managed: the enrolled endpoint

    [internal/managed/policy.go]: the revision ledger that remembers the
    highest revision of every policy, and the installation of a verified
    policy; the checks of [state.go] they use.  The two files of the policy
    cache are a value, [PolicyFiles]; the checks of file modes, the write lock
    and the atomic replacement are not modelled. *)

From S2P Require Import Prelude GoString Calendar GoTime Json JsonCompact Model ModelJson Profile.
From S2P Require Import GoCrypto Base64 ControllerTypes ControllerAuth.
#[local] Open Scope Z_scope.

Definition policyRevisionLedgerSchema := "io.oh-my-safety/managed-policy-revisions".
Definition policyRevisionLedgerVersion : Z := 1.
Definition maxPolicyFileBytes : Z := 262144.
Definition maxPolicyRevisionLedgerBytes : Z := 1048576.
Definition maxRememberedPolicyIDs : Z := 4096.

Record policyRevisionEntry := {
  PolicyID : string;
  HighestRevision : Z;
  DocumentSHA256 : string;
}.

Record policyRevisionLedger := {
  Ledger_Schema : string;
  Ledger_SchemaVersion : Z;
  Policies : list policyRevisionEntry;
}.

Definition Entry_parts (e : policyRevisionEntry) : list part :=
  [("policy_id", f_str (PolicyID e)); ("highest_revision", f_int (HighestRevision e));
   ("document_sha256", f_str (DocumentSHA256 e))].

#[export] Instance Entry_codec : Codec policyRevisionEntry := {
  enc e := enc_struct (Entry_parts e);
  dec := dec_struct {| PolicyID := ""; HighestRevision := 0; DocumentSHA256 := "" |} (λ ms,
    id ← get_string ms "policy_id"; rv ← get_uint ms "highest_revision";
    sh ← get_string ms "document_sha256";
    Some {| PolicyID := id; HighestRevision := rv; DocumentSHA256 := sh |});
  wf e := utf8 [PolicyID e; DocumentSHA256 e] ∧ 0 ≤ HighestRevision e ≤ max_uint64;
}.

#[export] Instance Entry_laws : CodecLaws policyRevisionEntry.
Proof.
  constructor. intros e H. cbn [wf enc dec Entry_codec] in *. wf_split.
  struct_laws (Entry_parts e). by destruct e.
Qed.

Definition Ledger_parts (l : policyRevisionLedger) : list part :=
  [("schema", f_str (Ledger_Schema l)); ("schema_version", f_int (Ledger_SchemaVersion l));
   ("policies", f_list (Policies l))].

#[export] Instance Ledger_codec : Codec policyRevisionLedger := {
  enc l := enc_struct (Ledger_parts l);
  dec := dec_struct {| Ledger_Schema := ""; Ledger_SchemaVersion := 0; Policies := [] |} (λ ms,
    sc ← get_string ms "schema"; sv ← get_int ms "schema_version"; ps ← get_list dec ms "policies";
    Some {| Ledger_Schema := sc; Ledger_SchemaVersion := sv; Policies := ps |});
  wf l := utf8 [Ledger_Schema l] ∧ 0 ≤ Ledger_SchemaVersion l ≤ max_int64 ∧ Forall wf (Policies l);
}.

#[export] Instance Ledger_laws : CodecLaws policyRevisionLedger.
Proof.
  constructor. intros l H. cbn [wf enc dec Ledger_codec] in *. wf_split.
  struct_laws (Ledger_parts l). by destruct l.
Qed.

Definition safeIdentifier (value : string) (maximum : Z) : bool := identifier_syntax maximum value.

Definition safeCredential (value : string) : bool :=
  if (slen value <? 32) || (512 <? slen value) then false
  else all_runes (λ c, negb (is_space c || is_control c)) value.

Section managed.
Context `{HH : Hash} `{ED : Ed25519}.

(** ** The revision ledger *)

Definition invalid_ledger : error := ErrorsNew "managed policy revision ledger is invalid".

(** The loop of [validate]. *)
Fixpoint validate_entries (seen : gset string) (entries : list policyRevisionEntry) : result unit :=
  match entries with
  | [] => Ok tt
  | entry :: entries' =>
      let digest_ok := match hex_decode (DocumentSHA256 entry) with
                       | Some decodedDigest => Z.of_nat (length decodedDigest) =? 32
                       | None => false
                       end in
      if negb (safeIdentifier (PolicyID entry) 128) || (HighestRevision entry =? 0) || negb digest_ok
      then Err invalid_ledger
      else if bool_decide (PolicyID entry ∈ seen) then
        Err (ErrorsNew "managed policy revision ledger contains duplicate policy ids")
      else validate_entries ({[PolicyID entry]} ∪ seen) entries'
  end.

Definition ledger_validate (ledger : policyRevisionLedger) : result unit :=
  if negb (String.eqb (Ledger_Schema ledger) policyRevisionLedgerSchema)
     || negb (Ledger_SchemaVersion ledger =? policyRevisionLedgerVersion)
     || (maxRememberedPolicyIDs <? Z.of_nat (length (Policies ledger)))
  then Err invalid_ledger
  else validate_entries ∅ (Policies ledger).

Definition policyDocumentDigest (document : PolicyDocument) : result string :=
  match Marshal document with
  | None => Err (ErrorsNew "encode managed policy revision digest")
  | Some encoded => Ok (hex_encode (Sum256 encoded))
  end.

(** The loop of [observe]: [None] when no entry names the policy, otherwise
    the entries afterwards and whether they changed. *)
Fixpoint observe_entries (document : PolicyDocument) (digest : string)
    (entries : list policyRevisionEntry)
    : option (result (list policyRevisionEntry * bool)) :=
  match entries with
  | [] => None
  | entry :: entries' =>
      if negb (String.eqb (PolicyID entry) (Policy_ID document)) then
        r ← observe_entries document digest entries';
        Some (rest ← r; Ok (entry :: rest.1, rest.2))
      else Some (
        if Revision document <? HighestRevision entry then
          Err (ErrorsNew "managed policy revision rollback rejected")
        else if (Revision document =? HighestRevision entry)
                && negb (String.eqb digest (DocumentSHA256 entry)) then
          Err (ErrorsNew "managed policy revision equivocation rejected")
        else if Revision document =? HighestRevision entry then Ok (entries, false)
        else Ok ({| PolicyID := PolicyID entry; HighestRevision := Revision document;
                    DocumentSHA256 := digest |} :: entries', true))
  end.

Definition entry_less (left right : policyRevisionEntry) : bool :=
  str_ltb (PolicyID left) (PolicyID right).

Definition with_policies (entries : list policyRevisionEntry) (ledger : policyRevisionLedger)
    : policyRevisionLedger := {|
  Ledger_Schema := Ledger_Schema ledger; Ledger_SchemaVersion := Ledger_SchemaVersion ledger;
  Policies := entries |}.

Definition observe (ledger : policyRevisionLedger) (document : PolicyDocument)
    : result (policyRevisionLedger * bool) :=
  digest ← policyDocumentDigest document;
  match observe_entries document digest (Policies ledger) with
  | Some r => '(entries, changed) ← r; Ok (with_policies entries ledger, changed)
  | None =>
      if maxRememberedPolicyIDs <=? Z.of_nat (length (Policies ledger)) then
        Err (ErrorsNew "managed policy revision ledger is full")
      else
        Ok (with_policies (sort_by entry_less (Policies ledger ++
              [{| PolicyID := Policy_ID document; HighestRevision := Revision document;
                  DocumentSHA256 := digest |}])) ledger, true)
  end.

(** The first entry of a policy. *)
Definition ledger_entry (id : string) (ledger : policyRevisionLedger) : option policyRevisionEntry :=
  snd <$> list_find (λ e, PolicyID e = id) (Policies ledger).

Definition verifyCurrent (ledger : policyRevisionLedger) (document : PolicyDocument) : result unit :=
  digest ← policyDocumentDigest document;
  match ledger_entry (Policy_ID document) ledger with
  | None => Err (ErrorsNew "cached managed policy is absent from revision ledger")
  | Some entry =>
      if negb (HighestRevision entry =? Revision document)
         || negb (String.eqb (DocumentSHA256 entry) digest)
      then Err (ErrorsNew "cached managed policy does not match revision ledger") else Ok tt
  end.

(** ** The policy cache *)

Definition decodePublicKey (encoded : string) : result (list Z) :=
  match decode_sized 32 encoded with
  | None => Err (ErrorsNew "policy public key must be raw-base64 Ed25519 key material")
  | Some decoded =>
      if negb (String.eqb (raw_std_encode decoded) encoded)
      then Err (ErrorsNew "policy public key is not canonical raw base64") else Ok decoded
  end.

Definition verifyPinnedPolicy (pinnedEncoding : string) (signed : SignedPolicy) : result unit :=
  pinned ← map_err (λ _, ErrorsNew "pinned policy public key is invalid")
             (decodePublicKey pinnedEncoding);
  presented ← map_err (λ _, ErrorsNew "policy signer does not match pinned key")
                (decodePublicKey (SigningPublicKey signed));
  _ ← fail_if (negb (bool_decide (pinned = presented)))
        (ErrorsNew "policy signer does not match pinned key");
  map_err (λ _, ErrorsNew "controller policy signature is invalid") (VerifySignedPolicy signed).

Definition policiesEqual (left right : PolicyDocument) : result bool :=
  match Marshal left with
  | None => Err (ErrorsNew "encode existing managed policy")
  | Some leftJSON =>
      match Marshal right with
      | None => Err (ErrorsNew "encode presented managed policy")
      | Some rightJSON => Ok (String.eqb leftJSON rightJSON)
      end
  end.

(** What the two files hold; [None] is a file that does not exist. *)
Record PolicyFiles := { cached : option SignedPolicy; ledger_file : option policyRevisionLedger }.

Definition new_ledger : policyRevisionLedger := {|
  Ledger_Schema := policyRevisionLedgerSchema; Ledger_SchemaVersion := policyRevisionLedgerVersion;
  Policies := [] |}.

Definition write_ledger (ledger : policyRevisionLedger) : eff PolicyFiles unit := λ files,
  match Marshal ledger with
  | Some encoded =>
      if maxPolicyRevisionLedgerBytes <? slen encoded
      then (files, Err (ErrorsNew "encode managed policy revision ledger"))
      else ({| cached := cached files; ledger_file := Some ledger |}, Ok tt)
  | None => (files, Err (ErrorsNew "encode managed policy revision ledger"))
  end.

Definition persistPolicyRevisionLedger (ledger : policyRevisionLedger) : eff PolicyFiles unit :=
  _ ← pure_ (ledger_validate ledger);
  write_ledger ledger.

(** The ledger to start from: the file's, or a new one that has observed the
    cached policy. *)
Definition starting_ledger (files : PolicyFiles) : result policyRevisionLedger :=
  match ledger_file files with
  | Some ledger => _ ← ledger_validate ledger; Ok ledger
  | None =>
      match cached files with
      | Some existingSigned =>
          '(ledger, _) ← observe new_ledger (Document existingSigned); Ok ledger
      | None => Ok new_ledger
      end
  end.

Definition install_policy (signed : SignedPolicy) : eff PolicyFiles unit := λ files,
  match Marshal signed with
  | Some encoded =>
      if maxPolicyFileBytes <? slen encoded
      then (files, Err (ErrorsNew "encode verified managed policy"))
      else ({| cached := Some signed; ledger_file := ledger_file files |}, Ok tt)
  | None => (files, Err (ErrorsNew "encode verified managed policy"))
  end.

(** The policy is already cached. *)
Definition already_cached (existing : option SignedPolicy) (document : PolicyDocument)
    : result bool :=
  match existing with
  | Some existingSigned =>
      if String.eqb (Policy_ID (Document existingSigned)) (Policy_ID document)
         && (Revision (Document existingSigned) =? Revision document)
      then policiesEqual (Document existingSigned) document
      else Ok false
  | None => Ok false
  end.

Definition persistVerifiedPolicy (pinned : string) (signed : SignedPolicy) : eff PolicyFiles unit :=
  _ ← pure_ (verifyPinnedPolicy pinned signed);
  let document := Document signed in
  existing ← query (λ files, Ok (cached files));
  _ ← pure_ (match existing with
             | Some existingSigned =>
                 map_err (λ _, ErrorsNew "cached managed policy signature is invalid")
                   (verifyPinnedPolicy pinned existingSigned)
             | None => Ok tt
             end);
  ledgerMissing ← query (λ files, Ok (match ledger_file files with None => true | _ => false end));
  ledger ← query starting_ledger;
  '(ledger, ledgerChanged) ← pure_ (observe ledger document);
  _ ← (if ledgerMissing || ledgerChanged then persistPolicyRevisionLedger ledger
       else pure_ (Ok tt));
  equal ← pure_ (already_cached existing document);
  (if equal : bool then pure_ (Ok tt) else install_policy signed).

Definition LoadPolicy (pinned : string) (files : PolicyFiles) : result PolicyDocument :=
  match cached files with
  | None => Err (Sentinel "managed policy not found")
  | Some signed =>
      _ ← verifyPinnedPolicy pinned signed;
      match ledger_file files with
      | None => Err (Sentinel "managed policy revision ledger not found")
      | Some ledger =>
          _ ← ledger_validate ledger;
          _ ← verifyCurrent ledger (Document signed);
          Ok (Document signed)
      end
  end.
End managed.
