(* ===== verification/Redact.v ===== *)
(** * Package managed: redaction of local findings

    [RedactFindings] of [internal/managed/sync.go]: local findings are reduced
    to an allow-list of fields and aggregated by detector and category.  The
    result depends on nothing else, loses no finding, and is a report the
    controller accepts. *)

From S2P Require Import Prelude GoString GoTime Json Model ControllerTypes.
#[local] Open Scope Z_scope.

Definition severityRank (severity : Severity) : Z :=
  if String.eqb severity SeverityCritical then 3
  else if String.eqb severity SeverityWarn then 2
  else if String.eqb severity SeverityInfo then 1 else 0.

Definition stateRank (state : FindingState) : Z :=
  if String.eqb state FindingOpen then 4
  else if String.eqb state FindingAcknowledged then 3
  else if String.eqb state FindingSuppressed then 2
  else if String.eqb state FindingResolved then 1 else 0.

Definition candidate (finding : Finding) : RedactedFinding := {|
  Red_DetectorID := DetectorID finding;
  Red_Category := if String.eqb (Category finding) "" then "uncategorized" else Category finding;
  Red_Severity := Finding_Severity finding; Red_State := State finding;
  Red_FirstSeen := utc (FirstSeen finding); Red_LastSeen := utc (LastSeen finding);
  Red_Occurrences := Occurrences finding |}.

(** The update of an aggregate by another finding of its key. *)
Definition merge (existing candidate : RedactedFinding) : result RedactedFinding :=
  if max_uint64 - Red_Occurrences existing <? Red_Occurrences candidate then
    Err (ErrorsNew "redacted finding occurrence count overflow")
  else Ok {|
    Red_DetectorID := Red_DetectorID existing; Red_Category := Red_Category existing;
    Red_Severity :=
      if severityRank (Red_Severity existing) <? severityRank (Red_Severity candidate)
      then Red_Severity candidate else Red_Severity existing;
    Red_State :=
      if stateRank (Red_State existing) <? stateRank (Red_State candidate)
      then Red_State candidate else Red_State existing;
    Red_FirstSeen :=
      if before (Red_FirstSeen candidate) (Red_FirstSeen existing)
      then Red_FirstSeen candidate else Red_FirstSeen existing;
    Red_LastSeen :=
      if after (Red_LastSeen candidate) (Red_LastSeen existing)
      then Red_LastSeen candidate else Red_LastSeen existing;
    Red_Occurrences := Red_Occurrences existing + Red_Occurrences candidate |}.

(** The loop over the findings. *)
Fixpoint aggregate (aggregated : gmap string RedactedFinding) (findings : list Finding)
    : result (gmap string RedactedFinding) :=
  match findings with
  | [] => Ok aggregated
  | finding :: findings' =>
      let c := candidate finding in
      let key := finding_key c in
      match aggregated !! key with
      | None => aggregate (<[key := c]> aggregated) findings'
      | Some existing =>
          merged ← merge existing c;
          aggregate (<[key := merged]> aggregated) findings'
      end
  end.

Definition redacted_less (left right : RedactedFinding) : bool :=
  if String.eqb (Red_DetectorID left) (Red_DetectorID right)
  then str_ltb (Red_Category left) (Red_Category right)
  else str_ltb (Red_DetectorID left) (Red_DetectorID right).

Definition RedactFindings (findings : list Finding) : result (list RedactedFinding) :=
  aggregated ← aggregate ∅ findings;
  Ok (sort_by redacted_less ((map_to_list aggregated).*2)).

(** ** Properties *)

(** Redaction is an allow-list: two lists of findings that agree, finding
    by finding, on detector, category, severity, state, the instants of first
    and last sight and the count give the same result, so no title, summary,
    evidence, remediation, label, action note or identifier can reach the
    report. *)
Theorem RedactFindings_allowlist l1 l2 :
  Forall2 (λ f g, DetectorID f = DetectorID g ∧ Category f = Category g ∧
    Finding_Severity f = Finding_Severity g ∧ State f = State g ∧
    ns (FirstSeen f) = ns (FirstSeen g) ∧ ns (LastSeen f) = ns (LastSeen g) ∧
    Occurrences f = Occurrences g) l1 l2 →
  RedactFindings l1 = RedactFindings l2.
Proof.
  intros H. unfold RedactFindings. generalize (∅ : gmap string RedactedFinding) as m.
  assert (∀ m, aggregate m l1 = aggregate m l2) as E; [|intros m; by rewrite E].
  induction H as [|f g l1 l2 Hfg _ IH]; intros m; [done|]. cbn [aggregate].
  assert (candidate f = candidate g) as ->.
  { destruct Hfg as (H1 & H2 & H3 & H4 & H5 & H6 & H7). unfold candidate, utc.
    by rewrite H1, H2, H3, H4, H5, H6, H7. }
  destruct (m !! _) as [e|]; [|apply IH]. destruct (merge e (candidate g)); [apply IH|done].
Qed.

(** The counts of the findings with a key. *)
Definition count_of (key : string) (findings : list Finding) : Z :=
  foldr (λ f n, (if String.eqb (finding_key (candidate f)) key then Occurrences f else 0) + n)
    0 findings.

Definition occurrences_at (key : string) (m : gmap string RedactedFinding) : Z :=
  match m !! key with Some r => Red_Occurrences r | None => 0 end.

(** [r] stands for [c]: the same key, and at least as wide, severe and open. *)
Definition covers (r c : RedactedFinding) : Prop :=
  finding_key r = finding_key c ∧ ns (Red_FirstSeen r) ≤ ns (Red_FirstSeen c) ∧
  ns (Red_LastSeen c) ≤ ns (Red_LastSeen r) ∧
  severityRank (Red_Severity c) ≤ severityRank (Red_Severity r) ∧
  stateRank (Red_State c) ≤ stateRank (Red_State r).

Lemma covers_refl c : covers c c.
Proof. by split_and!. Qed.

Lemma covers_trans a b c : covers a b → covers b c → covers a c.
Proof. unfold covers. intros (H1 & ?) (H2 & ?). rewrite H1, H2. split_and!; [done|lia..]. Qed.

Lemma merge_covers e c r :
  merge e c = Ok r → finding_key e = finding_key c → covers r e ∧ covers r c.
Proof.
  unfold merge. case_match; [done|]. intros [= <-] Hk. unfold covers, finding_key in *.
  cbn [Red_DetectorID Red_Category Red_Severity Red_State Red_FirstSeen Red_LastSeen Red_Occurrences].
  unfold before, after. rewrite <-Hk.
  destruct (ns (Red_FirstSeen c) <? ns (Red_FirstSeen e)) eqn:E1;
    destruct (ns (Red_LastSeen e) <? ns (Red_LastSeen c)) eqn:E2;
    destruct (severityRank (Red_Severity e) <? _) eqn:E3;
    destruct (stateRank (Red_State e) <? _) eqn:E4; bool_prop; split_and!; first [done | lia].
Qed.

(** Every aggregate is stored under its own key and satisfies [P]. *)
Definition keyed (P : RedactedFinding → Prop) (m : gmap string RedactedFinding) : Prop :=
  ∀ k r, m !! k = Some r → finding_key r = k ∧ P r.

Lemma keyed_insert P m r : P r → keyed P m → keyed P (<[finding_key r := r]> m).
Proof.
  intros Hr Hm k x. rewrite lookup_insert_Some. intros [[<- <-]|[_ H]]; [done|by apply Hm].
Qed.

Lemma merge_key e c r : merge e c = Ok r → finding_key r = finding_key e.
Proof. unfold merge. case_match; [done|]. by intros [= <-]. Qed.

Section aggregate.
Context (P : RedactedFinding → Prop).
Hypothesis P_merge : ∀ e c r, P e → P c → merge e c = Ok r → P r.

Lemma aggregate_spec findings m m' :
  keyed P m → Forall (λ f, P (candidate f)) findings → aggregate m findings = Ok m' →
  keyed P m' ∧ (∀ k, occurrences_at k m' = occurrences_at k m + count_of k findings) ∧
  (∀ k r, m !! k = Some r → ∃ r', m' !! k = Some r' ∧ covers r' r) ∧
  (∀ f, f ∈ findings → ∃ r', m' !! finding_key (candidate f) = Some r' ∧ covers r' (candidate f)).
Proof.
  revert m. induction findings as [|f l IH]; intros m Hm HP.
  { intros [= <-]. split_and!; [done|intros k; cbn; lia| |by intros f Hf%not_elem_of_nil].
    intros k r Hr. exists r. split; [done|apply covers_refl]. }
  apply Forall_cons in HP as [Hf HP]. cbn [aggregate].
  set (c := candidate f) in *.
  assert (∀ x, P x → finding_key x = finding_key c → covers x c →
    (∀ e, m !! finding_key c = Some e → covers x e) →
    Red_Occurrences x = occurrences_at (finding_key c) m + Occurrences f →
    aggregate (<[finding_key c := x]> m) l = Ok m' →
    keyed P m' ∧ (∀ k, occurrences_at k m' = occurrences_at k m + count_of k (f :: l)) ∧
    (∀ k r, m !! k = Some r → ∃ r', m' !! k = Some r' ∧ covers r' r) ∧
    (∀ g, g ∈ f :: l → ∃ r', m' !! finding_key (candidate g) = Some r' ∧ covers r' (candidate g)))
    as Hstep.
  { intros x Hx Hk Hxc Hxe Hocc Ha.
    destruct (IH (<[finding_key c := x]> m)) as (H1 & H2 & H3 & H4); [|done|exact Ha|].
    { rewrite <-Hk. by apply keyed_insert. }
    split_and!; [done| | |].
    - intros k. rewrite H2. unfold count_of at 2. cbn [foldr]. fold (count_of k l). fold c.
      unfold occurrences_at at 1. destruct (String.eqb_spec (finding_key c) k) as [<-|Hne].
      + rewrite lookup_insert, decide_True by done. lia.
      + rewrite lookup_insert_ne by done. unfold occurrences_at. lia.
    - intros k r Hr. destruct (decide (finding_key c = k)) as [<-|Hne].
      + destruct (H3 (finding_key c) x) as (r' & Hr' & Hc); [by rewrite lookup_insert, decide_True|].
        exists r'. split; [done|]. eapply covers_trans; [exact Hc|by apply Hxe].
      + apply H3. by rewrite lookup_insert_ne.
    - intros g [->|Hg]%elem_of_cons; [|by apply H4].
      destruct (H3 (finding_key c) x) as (r' & Hr' & Hc); [by rewrite lookup_insert, decide_True|].
      exists r'. split; [done|]. by eapply covers_trans. }
  destruct (m !! finding_key c) as [e|] eqn:He.
  - intros (x & Hx & Ha)%bind_ok_inv. destruct (Hm _ _ He) as [Hke HPe].
    destruct (merge_covers _ _ _ Hx Hke) as [Hc1 Hc2].
    apply (Hstep x); [exact (P_merge _ _ _ HPe Hf Hx)|by rewrite (merge_key _ _ _ Hx)|done| | |done].
    + intros e' E. assert (e' = e) as -> by congruence. done.
    + unfold occurrences_at. rewrite He. unfold merge in Hx. case_match; [done|]. by injection Hx as <-.
  - apply (Hstep c); [done|done|apply covers_refl|intros e; congruence|].
    unfold occurrences_at. rewrite He. done.
Qed.
End aggregate.

Definition total (findings : list Finding) : Z := foldr (λ f n, Occurrences f + n) 0 findings.

Lemma total_cons f l : total (f :: l) = Occurrences f + total l.
Proof. done. Qed.

Lemma aggregate_ok findings m :
  Forall (λ f, 0 ≤ Occurrences f) findings →
  (∀ k r, m !! k = Some r → Red_Occurrences r + total findings ≤ max_uint64) →
  total findings ≤ max_uint64 →
  ∃ m', aggregate m findings = Ok m' ∧ (size m' ≤ size m + length findings)%nat.
Proof.
  revert m. induction findings as [|f l IH]; intros m Hpos Hm Ht; [exists m; split; [done|simpl; lia]|].
  apply Forall_cons in Hpos as [Hf Hpos]. rewrite total_cons in Ht. setoid_rewrite total_cons in Hm.
  cbn [aggregate length]. assert (0 ≤ total l) as Htl.
  { clear -Hpos. induction Hpos; [done|]. rewrite total_cons. lia. }
  assert (∀ x, Red_Occurrences x + total l ≤ max_uint64 →
    ∃ m', aggregate (<[finding_key (candidate f) := x]> m) l = Ok m' ∧
      (size m' ≤ size m + S (length l))%nat) as Hstep.
  { intros x Hx. destruct (IH (<[finding_key (candidate f) := x]> m)) as (m' & Ha & Hs);
      [done| |lia|].
    - intros k r. rewrite lookup_insert_Some. intros [[_ <-]|[_ Hr]]; [done|].
      apply Hm in Hr. lia.
    - exists m'. split; [done|]. rewrite map_size_insert in Hs.
      destruct (m !! _); cbn in Hs; lia. }
  destruct (m !! finding_key (candidate f)) as [e|] eqn:He.
  - specialize (Hm _ _ He). unfold merge. cbn [Red_Occurrences candidate].
    rewrite (proj2 (Z.ltb_ge _ _)) by lia. rewrite bind_ok. apply Hstep.
    cbn [Red_Occurrences]. lia.
  - apply Hstep. cbn [Red_Occurrences candidate]. lia.
Qed.

(** A finding the endpoint can report at [now]: what [Finding.Validate] and the
    journal guarantee, with identifiers for detector and category. *)
Definition reportable (now : Time) (f : Finding) : Prop :=
  Finding_Validate f = Ok tt ∧ 0 ≤ Occurrences f ∧ validIdentifier (DetectorID f) = true ∧
  (Category f = "" ∨ validIdentifier (Category f) = true) ∧
  ns (FirstSeen f) ≤ ns (LastSeen f) ≤ ns now + 5 * minute.

Lemma candidate_ok now f : reportable now f → redacted_ok (utc now) (candidate f).
Proof.
  intros (Hv & Hpos & Hd & Hc & Ht). apply Finding_Validate_ok in Hv as
    (_ & _ & _ & _ & _ & Hs & Hst & (H1 & H2 & _) & Ho & _).
  unfold redacted_ok, candidate, is_zero. cbn. split_and!; try done; try by apply Z.eqb_neq.
  - destruct (String.eqb_spec (Category f) "") as [_|Hne]; [by vm_compute|]. by destruct Hc.
  - apply Ht.
  - apply Ht.
Qed.

Lemma merge_ok at_ e c r :
  redacted_ok at_ e ∧ 0 < Red_Occurrences e → redacted_ok at_ c ∧ 0 < Red_Occurrences c →
  merge e c = Ok r → redacted_ok at_ r ∧ 0 < Red_Occurrences r.
Proof.
  intros [(E1 & E2 & E3 & E4 & E5 & E6 & E7 & E8) Ee] [(C1 & C2 & C3 & C4 & C5 & C6 & C7 & C8) Cc].
  unfold merge. case_match; [done|]. intros [= <-]. unfold redacted_ok.
  cbn [Red_DetectorID Red_Category Red_Severity Red_State Red_FirstSeen Red_LastSeen Red_Occurrences].
  unfold before, after.
  destruct (ns (Red_FirstSeen c) <? ns (Red_FirstSeen e)) eqn:F1;
    destruct (ns (Red_LastSeen e) <? ns (Red_LastSeen c)) eqn:F2; bool_prop;
    split_and!; try done; try lia; case_match; done.
Qed.

#[local] Instance redacted_less_strict : StrictLess redacted_less.
Proof.
  apply (lex_by_strict Red_DetectorID String.eqb str_ltb (λ a b, str_ltb (Red_Category a) (Red_Category b))).
  - apply str_eqb_eq.
  - apply str_ltb_total.
  - apply _.
  - apply _.
Qed.

(** What holds of the candidates and survives merging holds of the result. *)
Lemma RedactFindings_forall (P : RedactedFinding → Prop) findings l :
  (∀ e c r, P e → P c → merge e c = Ok r → P r) → Forall (λ f, P (candidate f)) findings →
  RedactFindings findings = Ok l → Forall P l.
Proof.
  intros HP HF (m & Hm & [= <-])%bind_ok_inv.
  destruct (aggregate_spec P HP findings ∅ m) as (Hk & _); [done|done|done|].
  apply Forall_forall. intros r. rewrite elem_of_sort_by, list_elem_of_fmap.
  intros ([k x] & -> & Hx%elem_of_map_to_list). by apply Hk in Hx as [_ ?].
Qed.

Lemma redact_accepted now findings :
  is_zero now = false → Forall (reportable now) findings →
  Z.of_nat (length findings) ≤ 2000 → total findings ≤ max_uint64 →
  ∃ l, RedactFindings findings = Ok l ∧
    ReportSync_Validate {| Report_Schema := ReportSchema;
      Report_SchemaVersion := ReportSchemaVersion; ReportedAt := utc now;
      Report_Findings := l |} now = Ok tt ∧
    StronglySorted (λ a b, redacted_less b a = false) l ∧
    (∀ f, f ∈ findings → ∃ r, r ∈ l ∧ covers r (candidate f)) ∧
    (∀ r, r ∈ l → Red_Occurrences r = count_of (finding_key r) findings).
Proof.
  intros Hz HF Hlen Ht. rewrite Forall_forall in HF.
  destruct (aggregate_ok findings ∅) as (m & Hm & Hsize); [|done|done|].
  { apply Forall_forall. intros f Hf. apply (HF f Hf). }
  assert (∀ f, f ∈ findings → redacted_ok (utc now) (candidate f) ∧ 0 < Red_Occurrences (candidate f))
    as HP.
  { intros f Hf. specialize (HF f Hf). pose proof (candidate_ok now f HF) as Hc. split; [done|].
    destruct HF as (_ & Hpos & _), Hc as (_ & _ & _ & _ & _ & _ & _ & Ho). cbn in *. lia. }
  destruct (aggregate_spec (λ r, redacted_ok (utc now) r ∧ 0 < Red_Occurrences r)
    (merge_ok (utc now)) findings ∅ m) as (Hk & Hocc & _ & Hcov);
    [done|by apply Forall_forall|done|].
  set (l := sort_by redacted_less (map_to_list m).*2).
  assert (∀ r, r ∈ l ↔ ∃ k, m !! k = Some r) as Hin.
  { intros r. unfold l. rewrite elem_of_sort_by, list_elem_of_fmap. split.
    - intros ([k x] & -> & H%elem_of_map_to_list). by exists k.
    - intros [k H]. exists (k, r). split; [done|]. by apply elem_of_map_to_list. }
  exists l. split_and!.
  - unfold RedactFindings. by rewrite Hm.
  - apply report_valid. unfold report_ok.
    cbn [Report_Schema Report_SchemaVersion ReportedAt Report_Findings].
    assert (Forall (redacted_ok (utc now)) l) as HRok.
    { apply Forall_forall. intros r [k Hr]%Hin. by apply Hk in Hr as (_ & ? & _). }
    split_and!; try done.
    + unfold utc, minute, second. cbn. lia.
    + unfold l. rewrite length_sort_by, length_fmap, length_map_to_list. rewrite map_size_empty in Hsize. lia.
    + apply finding_keys_nodup.
      { eapply Forall_impl; [exact HRok|]. by intros r (? & _). }
      assert (finding_key <$> l ≡ₚ (map_to_list m).*1) as ->; [|apply NoDup_fst_map_to_list].
      unfold l. rewrite sort_by_perm, <-list_fmap_compose.
      assert ((finding_key ∘ snd <$> map_to_list m) = (map_to_list m).*1) as ->; [|done].
      apply list_fmap_ext. intros i [k r] Hi. cbn. apply list_elem_of_lookup_2, elem_of_map_to_list in Hi.
      by apply Hk in Hi as [? _].
  - apply (sort_by_sorted redacted_less).
  - intros f Hf. destruct (Hcov f Hf) as (r & Hr & Hc). exists r. split; [|done]. apply Hin. by eexists.
  - intros r [k Hr]%Hin. pose proof (Hk _ _ Hr) as [<- _]. specialize (Hocc (finding_key r)).
    unfold occurrences_at in Hocc. rewrite Hr, lookup_empty in Hocc. lia.
Qed.

(** C33. The report of the endpoint is complete and acceptable: redacting, at
    a time that is not the zero time, up to 2000 findings reportable then whose
    counts total within a uint64 succeeds, gives a
    sorted list that the controller's [ReportSync.Validate] accepts, in which
    every finding is covered by the entry of its detector and category (seen
    from no later, until no earlier, at least as severe and as open), and each
    entry counts exactly the occurrences of the findings it stands for. *)
Theorem RedactFindings_accepted now findings :
  is_zero now = false → Forall (reportable now) findings →
  Z.of_nat (length findings) ≤ 2000 → total findings ≤ max_uint64 →
  ∃ l, RedactFindings findings = Ok l ∧
    ReportSync_Validate {| Report_Schema := ReportSchema;
      Report_SchemaVersion := ReportSchemaVersion; ReportedAt := utc now;
      Report_Findings := l |} now = Ok tt ∧
    StronglySorted (λ a b, redacted_less b a = false) l ∧
    (∀ f, f ∈ findings → ∃ r, r ∈ l ∧ covers r (candidate f)) ∧
    (∀ r, r ∈ l → Red_Occurrences r = count_of (finding_key r) findings).
Proof. apply redact_accepted. Qed.
