(* ===== verification/ManagedFacts.v ===== *)
(** * Package managed: no rollback

    The revision ledger only moves forward, one document per revision, and so
    does the policy the endpoint loads, whatever is presented to it. *)

From S2P Require Import Prelude GoString Calendar GoTime Json JsonCompact Model ModelJson Profile.
From S2P Require Import GoCrypto Base64 ControllerTypes ControllerAuth.
From S2P Require Import Managed.
#[local] Open Scope Z_scope.

Definition distinct (l : policyRevisionLedger) : Prop := NoDup (PolicyID <$> Policies l).

Lemma list_find_distinct {A} (f : A → string) (l : list A) id x :
  NoDup (f <$> l) →
  snd <$> list_find (λ y, f y = id) l = Some x ↔ x ∈ l ∧ f x = id.
Proof.
  intros Hd. split.
  - destruct (list_find _ l) as [[i y]|] eqn:E; [|done]. cbn. intros [= ->].
    apply list_find_Some in E as (Hi & <- & _). split; [by apply list_elem_of_lookup_2 in Hi|done].
  - intros [Hin Hid]. destruct (list_find_elem_of (λ y, f y = id) l x Hin Hid) as [[i y] E].
    rewrite E. cbn. f_equal. apply list_find_Some in E as (Hi & Hy & _).
    apply list_elem_of_lookup in Hin as [j Hj].
    assert (i = j) as ->; [|congruence].
    apply (NoDup_lookup _ i j id Hd); rewrite list_lookup_fmap.
    + by rewrite Hi, <-Hy.
    + by rewrite Hj, <-Hid.
Qed.

Section facts.
Context `{HH : Hash} `{ED : Ed25519}.

Lemma validate_entries_distinct seen entries :
  validate_entries seen entries = Ok tt →
  NoDup (PolicyID <$> entries) ∧ Forall (λ e, PolicyID e ∉ seen) entries.
Proof.
  revert seen. induction entries as [|e l IH]; intros seen.
  { intros _. split; constructor. }
  cbn [validate_entries]. cbv zeta. destruct (_ || _); [done|].
  case_bool_decide as Hs; [done|]. intros [Hd Hn]%IH.
  rewrite Forall_forall in Hn. split.
  - constructor; [|done]. intros (x & Hx & Hin)%list_elem_of_fmap. apply Hn in Hin. set_solver.
  - constructor; [done|]. apply Forall_forall. intros x Hin%Hn. set_solver.
Qed.

Lemma ledger_validate_distinct l : ledger_validate l = Ok tt → distinct l.
Proof.
  unfold ledger_validate. case_match; [done|]. intros H'. exact (proj1 (validate_entries_distinct _ _ H')).
Qed.

Lemma ledger_entry_spec l id e :
  distinct l → ledger_entry id l = Some e ↔ e ∈ Policies l ∧ PolicyID e = id.
Proof. apply list_find_distinct. Qed.

(** The entry a document gets. *)
Definition entry_of (d : PolicyDocument) (digest : string) : policyRevisionEntry :=
  {| PolicyID := Policy_ID d; HighestRevision := Revision d; DocumentSHA256 := digest |}.

Lemma observe_entries_none d digest l :
  observe_entries d digest l = None → Policy_ID d ∉ PolicyID <$> l.
Proof.
  induction l as [|e l IH]; [intros _ Hin; by apply not_elem_of_nil in Hin|].
  cbn [observe_entries fmap list_fmap].
  destruct (String.eqb_spec (PolicyID e) (Policy_ID d)) as [|Hne]; [done|]. cbn.
  destruct (observe_entries d digest l); [done|]. intros _ [Heq|Hin]%elem_of_cons; [congruence|by apply IH].
Qed.

Lemma observe_entries_some d digest l l' b :
  observe_entries d digest l = Some (Ok (l', b)) →
  ∃ l1 e l2, l = l1 ++ e :: l2 ∧ l' = l1 ++ entry_of d digest :: l2 ∧
    PolicyID e = Policy_ID d ∧ HighestRevision e ≤ Revision d ∧
    (HighestRevision e = Revision d → DocumentSHA256 e = digest) ∧
    (b = false → l' = l).
Proof.
  revert l' b. induction l as [|e l IH]; intros l' b; cbn; [done|].
  destruct (String.eqb_spec (PolicyID e) (Policy_ID d)) as [He|Hne]; cbn.
  - destruct (Revision d <? HighestRevision e) eqn:E1; [done|].
    destruct (String.eqb_spec digest (DocumentSHA256 e)) as [Hd|Hd];
      destruct (Revision d =? HighestRevision e) eqn:E2; cbn; try done; bool_prop;
      intros [= <- <-]; exists [], e, l; cbn; unfold entry_of; split_and!; try done; try lia.
    + f_equal. destruct e; cbn in *. congruence.
    + by rewrite He.
    + by rewrite He.
  - destruct (observe_entries d digest l) as [[[r c]|]|] eqn:E; cbn; try done.
    intros [= <- <-]. destruct (IH r c eq_refl) as (l1 & x & l2 & -> & -> & Hx & Hr & Hs & Hb).
    exists (e :: l1), x, l2. cbn. split_and!; try done. intros Hc. by rewrite (Hb Hc).
Qed.

(** What an accepted observation does to the ledger. *)
Lemma observe_ok l d l' b :
  distinct l → observe l d = Ok (l', b) →
  ∃ digest, policyDocumentDigest d = Ok digest ∧ distinct l' ∧
    entry_of d digest ∈ Policies l' ∧
    (∀ e, e ∈ Policies l → PolicyID e = Policy_ID d →
       HighestRevision e ≤ Revision d ∧
       (HighestRevision e = Revision d → DocumentSHA256 e = digest)) ∧
    (∀ e, PolicyID e ≠ Policy_ID d → e ∈ Policies l' ↔ e ∈ Policies l) ∧
    (b = false → l' = l).
Proof.
  intros Hd (digest & Hdig & H)%bind_ok_inv. exists digest. split; [done|].
  destruct (observe_entries d digest (Policies l)) as [r|] eqn:E.
  - apply bind_ok_inv in H as ([entries c] & -> & [= <- <-]).
    apply observe_entries_some in E as (l1 & e & l2 & Hl & -> & He & Hr & Hs & Hb).
    unfold distinct in *. cbn [Policies with_policies].
    assert (PolicyID <$> l1 ++ entry_of d digest :: l2 = PolicyID <$> Policies l) as Hids.
    { rewrite Hl, !fmap_app, !fmap_cons. cbn. by rewrite He. }
    split_and!.
    + by rewrite Hids.
    + set_solver.
    + intros x Hx Hxid. assert (x = e) as ->; [|done].
      assert (ledger_entry (Policy_ID d) l = Some x) as E1 by (by apply ledger_entry_spec).
      assert (ledger_entry (Policy_ID d) l = Some e) as E2.
      { apply ledger_entry_spec; [done|]. rewrite Hl. set_solver. }
      congruence.
    + intros x Hx. rewrite Hl, !elem_of_app, !elem_of_cons. split; intros [?|[->|?]]; auto; by destruct Hx.
    + intros Hc. rewrite (Hb Hc). by destruct l.
  - case_match; [done|]. injection H as <- <-. apply observe_entries_none in E as Hn.
    unfold distinct in *. cbn [Policies with_policies].
    assert (∀ x, x ∈ sort_by entry_less (Policies l ++ [entry_of d digest]) ↔
      x ∈ Policies l ∨ x = entry_of d digest) as Hin.
    { intros x. rewrite elem_of_sort_by, elem_of_app, list_elem_of_singleton. done. }
    fold (entry_of d digest). split_and!.
    + rewrite sort_by_perm, fmap_app. apply NoDup_app. split_and!; [done| |repeat constructor; set_solver].
      intros x Hx [->|Hx']%elem_of_cons; [by destruct Hn|by apply not_elem_of_nil in Hx'].
    + apply Hin. by right.
    + intros x Hx Hxid. destruct Hn. rewrite <-Hxid. by apply list_elem_of_fmap_2.
    + intros x Hx. rewrite Hin. split; [|by left]. intros [?| ->]; [done|]. by destruct Hx.
    + done.
Qed.

(** ** The policy cache *)

(** The ledger remembers revision [rev] of policy [id] with this digest, or a
    later one. *)
Definition remembers (id : string) (rev : Z) (digest : string) (files : PolicyFiles) : Prop :=
  ∃ l e, ledger_file files = Some l ∧ distinct l ∧ e ∈ Policies l ∧ PolicyID e = id ∧
    rev ≤ HighestRevision e ∧ (HighestRevision e = rev → DocumentSHA256 e = digest).

(** One attempt to install a policy, successful or not. *)
Inductive install_step (files : PolicyFiles) : PolicyFiles → Prop :=
  | install_run pinned signed : install_step files (persistVerifiedPolicy pinned signed files).1.

Lemma starting_ledger_ok files l :
  starting_ledger files = Ok l →
  distinct l ∧ (∀ l0, ledger_file files = Some l0 → l = l0).
Proof.
  unfold starting_ledger. destruct (ledger_file files) as [l0|].
  - intros ([] & Hv & [= <-])%bind_ok_inv. split; [by apply ledger_validate_distinct|by intros ? [= ->]].
  - destruct (cached files) as [s|].
    + intros ([l' b] & Ho & [= <-])%bind_ok_inv. apply observe_ok in Ho as (_ & _ & Hd & _); [done|].
      apply NoDup_nil_2.
    + intros [= <-]. split; [apply NoDup_nil_2|done].
Qed.

Lemma write_inv l files f q :
  persistPolicyRevisionLedger l files = (f, q) →
  match q with Ok _ => ledger_file f = Some l | Err _ => f = files end.
Proof.
  unfold persistPolicyRevisionLedger, mbind, eff_bind, pure_, write_ledger.
  destruct (ledger_validate l) as [[]|]; [|by intros [= <- <-]].
  destruct (Marshal l); [destruct (_ <? _)|]; by intros [= <- <-].
Qed.

(** How an attempt changes the ledger file: not at all, or to what the starting
    ledger becomes by observing the document. *)
Lemma persist_ledger pinned signed files files' r :
  persistVerifiedPolicy pinned signed files = (files', r) →
  ledger_file files' = ledger_file files ∨
  ∃ l0 l b, starting_ledger files = Ok l0 ∧ observe l0 (Document signed) = Ok (l, b) ∧
    ledger_file files' = Some l.
Proof.
  assert (∀ f : PolicyFiles, ledger_file (install_policy signed f).1 = ledger_file f) as Hins.
  { intros f. unfold install_policy. repeat case_match; done. }
  assert (∀ (q : result bool) f f' r', (pure_ q ≫= λ equal,
    (if equal : bool then pure_ (Ok tt) else install_policy signed)) f = (f', r') →
    ledger_file f' = ledger_file f) as Hlast.
  { intros [[]|] f f' r'; [by intros [= <- _]| |by intros [= <- _]].
    rewrite pure_bind. intros E. by rewrite <-(Hins f), E. }
  unfold persistVerifiedPolicy. destruct (verifyPinnedPolicy pinned signed) as [[]|];
    [rewrite pure_bind|intros [= <- _]; by left].
  cbv zeta. rewrite (query_bind _ _ _ (cached files)) by done.
  destruct (match cached files with Some _ => _ | None => _ end) as [[]|];
    [rewrite pure_bind|intros [= <- _]; by left].
  rewrite (query_bind _ _ files (match ledger_file files with None => true | _ => false end)) by done.
  destruct (starting_ledger files) as [l0|e] eqn:El0; cycle 1.
  { unfold mbind, eff_bind, query. rewrite El0. intros [= <- _]. by left. }
  rewrite (query_bind _ _ _ _ El0).
  destruct (observe l0 (Document signed)) as [[l b]|] eqn:Eo; [|intros [= <- _]; by left].
  rewrite pure_bind. cbv beta iota. destruct (_ || b) eqn:Eb; cycle 1.
  { rewrite pure_bind. intros E%Hlast. by left. }
  destruct (persistPolicyRevisionLedger l files) as [f q] eqn:Ew.
  pose proof (write_inv _ _ _ _ Ew) as Hw. destruct q as [[]|e].
  - rewrite (eff_bind_ok _ _ _ _ _ Ew). intros E%Hlast. right. exists l0, l, b.
    split_and!; [done..|]. by rewrite E.
  - unfold mbind, eff_bind. rewrite Ew. intros [= <- _]. left. by rewrite Hw.
Qed.

Lemma remembers_step id rev digest files files' :
  install_step files files' → remembers id rev digest files → remembers id rev digest files'.
Proof.
  intros [pinned signed] (l & e & Hl & Hd & He & Hid & Hrev & Hdig).
  destruct (persistVerifiedPolicy pinned signed files) as [f r] eqn:E.
  apply persist_ledger in E as [E|(l0 & l' & b & H0 & Ho & E)]; cbn.
  - exists l, e. rewrite E. by split_and!.
  - apply starting_ledger_ok in H0 as [_ H0]. rewrite (H0 _ Hl) in Ho.
    apply observe_ok in Ho as (dg & Hdg & Hd' & Hin & Hold & Hother & _); [|done].
    destruct (decide (Policy_ID (Document signed) = id)) as [Heq|Hne].
    + exists l', (entry_of (Document signed) dg). cbn. split_and!; [done..| |].
      * destruct (Hold e He) as [? _]; [congruence|]. lia.
      * intros Hr. destruct (Hold e He) as [Hle Hsame]; [congruence|].
        rewrite <-Hdig; [|lia]. symmetry. apply Hsame. lia.
    + exists l', e. split_and!; try done. apply Hother; [congruence|done].
Qed.

(** What a successful installation went through. *)
Lemma persist_inv pinned signed files files' :
  persistVerifiedPolicy pinned signed files = (files', Ok tt) →
  verifyPinnedPolicy pinned signed = Ok tt ∧
  (∀ existing, cached files = Some existing → verifyPinnedPolicy pinned existing = Ok tt) ∧
  ∃ l0 l b, starting_ledger files = Ok l0 ∧ observe l0 (Document signed) = Ok (l, b) ∧
    ledger_file files' = Some l ∧ ledger_validate l = Ok tt ∧
    ((already_cached (cached files) (Document signed) = Ok true ∧ cached files' = cached files) ∨
     cached files' = Some signed).
Proof.
  unfold persistVerifiedPolicy. intros H.
  destruct (verifyPinnedPolicy pinned signed) as [[]|] eqn:Ev; [|done]. rewrite pure_bind in H.
  cbv zeta in H. rewrite (query_bind _ _ _ (cached files)) in H by done.
  assert (∀ existing, cached files = Some existing → verifyPinnedPolicy pinned existing = Ok tt) as Hex.
  { intros ex Hc. rewrite Hc in H. by destruct (verifyPinnedPolicy pinned ex) as [[]|]. }
  split; [done|]. split; [done|].
  destruct (match cached files with Some _ => _ | None => _ end) as [[]|]; [|done].
  rewrite pure_bind in H.
  rewrite (query_bind _ _ files (match ledger_file files with None => true | _ => false end)) in H by done.
  destruct (starting_ledger files) as [l0|e] eqn:El0; cycle 1.
  { unfold mbind, eff_bind, query in H. by rewrite El0 in H. }
  rewrite (query_bind _ _ _ _ El0) in H.
  destruct (observe l0 (Document signed)) as [[l b]|] eqn:Eo; [|done]. rewrite pure_bind in H.
  cbv beta iota in H. exists l0, l, b. split; [done|]. split; [done|].
  apply eff_bind_ok_inv in H as (f & [] & Hw & H).
  assert (ledger_file f = Some l ∧ ledger_validate l = Ok tt ∧ cached f = cached files) as (Hl & Hlv & Hc).
  { destruct (_ || b) eqn:Eb.
    - pose proof (write_inv _ _ _ _ Hw) as Hl. unfold persistPolicyRevisionLedger in Hw.
      destruct (ledger_validate l) as [[]|]; [|done]. rewrite pure_bind in Hw. unfold write_ledger in Hw.
      destruct (Marshal l); [destruct (_ <? _)|]; try done. by injection Hw as <-.
    - apply orb_false_iff in Eb as [Em ->]. injection Hw as <-.
      unfold starting_ledger in El0. destruct (ledger_file files) as [lf|] eqn:Ef; [|done].
      apply bind_ok_inv in El0 as ([] & Hv & [= ->]). rename Eo into Ho.
      apply observe_ok in Ho as (_ & _ & _ & _ & _ & _ & Hb); [|by apply ledger_validate_distinct].
      by rewrite (Hb eq_refl). }
  destruct (already_cached (cached files) (Document signed)) as [[]|] eqn:Ea; [| |done];
    rewrite pure_bind in H.
  - injection H as <-. split_and!; [done..|]. left. by split.
  - unfold install_policy in H. destruct (Marshal signed); [destruct (_ <? _)|]; try done.
    injection H as <-. cbn [ledger_file cached]. split_and!; [done..|]. by right.
Qed.

Lemma persist_remembers pinned signed files files' :
  persistVerifiedPolicy pinned signed files = (files', Ok tt) →
  ∃ digest, policyDocumentDigest (Document signed) = Ok digest ∧
    remembers (Policy_ID (Document signed)) (Revision (Document signed)) digest files'.
Proof.
  intros (_ & _ & l0 & l & b & El0 & Eo & Hl & _)%persist_inv.
  destruct (starting_ledger_ok files l0 El0) as [Hd0 _].
  destruct (observe_ok _ _ _ _ Hd0 Eo) as (dg & Hdg & Hd & Hin & _).
  exists dg. split; [done|]. exists l, (entry_of (Document signed) dg). by split_and!.
Qed.

(** An installed policy is the policy that is loaded. *)
Lemma persist_load pinned signed files files' :
  persistVerifiedPolicy pinned signed files = (files', Ok tt) →
  ∃ d, LoadPolicy pinned files' = Ok d ∧ Marshal d = Marshal (Document signed).
Proof.
  intros (Hv & Hex & l0 & l & b & El0 & Eo & Hl & Hlv & Hc)%persist_inv.
  destruct (starting_ledger_ok files l0 El0) as [Hd0 _].
  destruct (observe_ok _ _ _ _ Hd0 Eo) as (dg & Hdg & Hd & Hin & _).
  assert (∃ sp, cached files' = Some sp ∧ verifyPinnedPolicy pinned sp = Ok tt ∧
    Policy_ID (Document sp) = Policy_ID (Document signed) ∧
    Revision (Document sp) = Revision (Document signed) ∧
    Marshal (Document sp) = Marshal (Document signed)) as (sp & Hsp & Hvs & Hid & Hrev & Hm).
  { destruct Hc as [[Ha Hc]|Hc]; [|by exists signed]. unfold already_cached in Ha.
    destruct (cached files) as [ex|]; [|done]. destruct (_ && _) eqn:Eid; [|done]. bool_prop.
    exists ex. split_and!; try done; [by apply Hex|]. unfold policiesEqual in Ha.
    destruct (Marshal (Document ex)) as [t1|]; [|done].
    destruct (Marshal (Document signed)) as [t2|]; [|done]. injection Ha as Ha%String.eqb_eq. congruence. }
  exists (Document sp). split; [|done]. unfold LoadPolicy. rewrite Hsp, Hvs, bind_ok, Hl, Hlv, bind_ok.
  unfold verifyCurrent, policyDocumentDigest in *. rewrite Hm. rewrite Hdg, bind_ok, Hid.
  rewrite (proj2 (ledger_entry_spec _ _ (entry_of (Document signed) dg) Hd)) by done.
  cbn [HighestRevision DocumentSHA256 entry_of]. by rewrite Hrev, Z.eqb_refl, String.eqb_refl.
Qed.

(** C16. No rollback and no equivocation.  Once a policy document has been
    installed, then whatever further policies are presented, accepted or
    refused, a document of the same policy that [LoadPolicy] later returns has
    a revision at least as high, and at the same revision it has the same
    digest. *)
Theorem persist_no_rollback pinned signed files files1 files2 pinned' d :
  persistVerifiedPolicy pinned signed files = (files1, Ok tt) →
  rtc install_step files1 files2 → LoadPolicy pinned' files2 = Ok d →
  Policy_ID d = Policy_ID (Document signed) →
  Revision (Document signed) ≤ Revision d ∧
  (Revision d = Revision (Document signed) →
     policyDocumentDigest d = policyDocumentDigest (Document signed)).
Proof.
  intros (digest & Hdig & Hrem)%persist_remembers Hs Hload Hid.
  assert (remembers (Policy_ID (Document signed)) (Revision (Document signed)) digest files2)
    as (l & e & Hl & Hd & He & Heid & Hrev & Hed).
  { clear Hload. induction Hs as [|f1 f2 f3 H1 _ IH]; [done|]. apply IH. by eapply remembers_step. }
  unfold LoadPolicy in Hload. destruct (cached files2) as [sp|]; [|done]. rewrite Hl in Hload.
  ok_inv. unfold verifyCurrent in *. ok_inv.
  assert (ledger_entry (Policy_ID (Document sp)) l = Some e) as Hent.
  { apply ledger_entry_spec; [done|]. split; [done|congruence]. }
  repeat match goal with H : match ledger_entry _ _ with _ => _ end = _ |- _ => rewrite Hent in H end.
  case_match; [done|]. bool_prop. split; [lia|]. intros Hr.
  match goal with H : policyDocumentDigest (Document sp) = Ok _ |- _ => rewrite H end.
  rewrite Hdig. f_equal. rewrite <-Hed by lia. congruence.
Qed.
End facts.
