(* ===== verification/ManagedDemo.v ===== *)
(** * The endpoint: a worked run

    A policy signed, installed, replaced and loaded; and a report redacted
    from local findings.  The theorems of the endpoint are applied to them. *)

From S2P Require Import Prelude GoString Calendar GoTime Json Model ModelJson Profile GoCrypto Base64.
From S2P Require Import ControllerTypes ControllerAuth Managed.
From S2P Require Import ManagedFacts Redact.
From S2P Require Import DemoCrypto.
#[local] Open Scope Z_scope.
#[local] Existing Instances checksum_hash checksum_laws toy toy_laws.

(** ** Policies *)

Definition endpoint_policy (revision : Z) : PolicyDocument := {|
  Policy_Schema := PolicySchema; Policy_SchemaVersion := 1; Policy_ID := "baseline";
  Revision := revision; Checks := [{| Check_ID := "firewall"; Check_Enabled := true |}];
  Policy_Profile := "developer";
  Cadence := {| ScanIntervalSeconds := 3600; JitterSeconds := 60 |};
  Reporting := {| Rep_Enabled := true; SyncIntervalSeconds := 600 |};
  Policy_Remediation := "observe" |}.

Definition toy_seed : list Z := replicate 32 7.

Lemma toy_seed_bytes : is_bytes toy_seed.
Proof. apply Forall_replicate. lia. Qed.

Definition signed_of (revision : Z) : SignedPolicy :=
  match Sign (Some (signer_of toy_seed)) (endpoint_policy revision) with
  | Ok signed => signed
  | Err _ => {| Signed_Schema := ""; Signed_SchemaVersion := 0; Document := endpoint_policy 0;
                Algorithm := ""; SigningPublicKey := ""; Signature := "" |}
  end.

Definition toy_pinned : string := raw_std_encode (ed_public toy_seed).
Definition no_files : PolicyFiles := {| cached := None; ledger_file := None |}.
Definition files_of (revision : Z) (files : PolicyFiles) : PolicyFiles :=
  (persistVerifiedPolicy toy_pinned (signed_of revision) files).1.

(** Revision 2 is installed, revision 1 is refused, revision 3 is installed. *)
Example install_demo :
  (persistVerifiedPolicy toy_pinned (signed_of 2) no_files).2 = Ok tt ∧
  (persistVerifiedPolicy toy_pinned (signed_of 1) (files_of 2 no_files)).2 =
    Err (ErrorsNew "managed policy revision rollback rejected") ∧
  LoadPolicy toy_pinned (files_of 3 (files_of 1 (files_of 2 no_files))) = Ok (endpoint_policy 3).
Proof. vm_compute. auto. Qed.

Lemma files_of_step revision files : install_step files (files_of revision files).
Proof. exact (install_run files toy_pinned (signed_of revision)). Qed.

Lemma files_of_ok revision files :
  (persistVerifiedPolicy toy_pinned (signed_of revision) files).2 = Ok tt →
  persistVerifiedPolicy toy_pinned (signed_of revision) files = (files_of revision files, Ok tt).
Proof. unfold files_of. destruct (persistVerifiedPolicy _ _ _) as [f r]. cbn. by intros ->. Qed.

Lemma persist_no_rollback_witness :
  2 ≤ 3 ∧ (3 = 2 → policyDocumentDigest (endpoint_policy 3) = policyDocumentDigest (endpoint_policy 2)).
Proof.
  assert ((persistVerifiedPolicy toy_pinned (signed_of 2) no_files).2 = Ok tt) as E
    by (vm_compute; reflexivity).
  assert (Document (signed_of 2) = endpoint_policy 2) as D by (vm_compute; reflexivity).
  assert (LoadPolicy toy_pinned (files_of 3 (files_of 1 (files_of 2 no_files))) = Ok (endpoint_policy 3))
    as L by (vm_compute; reflexivity).
  assert (Policy_ID (endpoint_policy 3) = Policy_ID (Document (signed_of 2))) as I
    by (rewrite D; reflexivity).
  destruct (persist_no_rollback toy_pinned (signed_of 2) no_files (files_of 2 no_files)
    (files_of 3 (files_of 1 (files_of 2 no_files))) toy_pinned (endpoint_policy 3)
    (files_of_ok 2 no_files E)
    (rtc_l _ _ _ _ (files_of_step 1 _) (rtc_once _ _ (files_of_step 3 _))) L I) as [H1 H2].
  rewrite D in H1, H2. split; [exact H1|exact H2].
Defined.

(** ** Reports *)

Definition endpoint_now : Time := mkTime ((unix_epoch + 1785326400) * second) 0.

Definition local_finding (detector title : string) (severity : Severity) (count : Z) : Finding := {|
  Finding_Schema := FindingSchema; Finding_SchemaVersion := FindingSchemaVersion;
  Finding_ID := "check:" +:+ title; DetectorID := detector; Category := "network"; Title := title;
  Summary := "secret path"; Finding_Severity := severity; State := FindingOpen;
  FirstSeen := endpoint_now; LastSeen := endpoint_now; UpdatedAt := endpoint_now;
  Occurrences := count; Finding_Evidence := []; Finding_Remediation := None; Finding_Labels := ∅;
  SuppressedUntil := None; Acknowledgement := None; Resolution := None; LastEventID := "e";
  LastEventSequence := 1 |}.

Definition local_findings : list Finding :=
  [local_finding "firewall" "a" SeverityWarn 2; local_finding "ssh" "b" SeverityInfo 1;
   local_finding "firewall" "c" SeverityCritical 3].

Lemma local_reportable : Forall (reportable endpoint_now) local_findings.
Proof.
  assert (∀ f, (is_ok (Finding_Validate f) && (0 <=? Occurrences f) && validIdentifier (DetectorID f) &&
    validIdentifier (Category f) && (ns (FirstSeen f) <=? ns (LastSeen f)) &&
    (ns (LastSeen f) <=? ns endpoint_now + 5 * minute)) = true → reportable endpoint_now f) as H.
  { intros f. rewrite !andb_true_iff, !Z.leb_le. intros (((((H1 & ?) & ?) & ?) & ?) & ?).
    unfold reportable. destruct (Finding_Validate f) as [[]|]; [|done].
    split_and!; try done. by right. }
  repeat first [apply Forall_nil_2 | apply Forall_cons_2; [apply H; vm_compute; reflexivity|]].
Qed.

Lemma RedactFindings_accepted_witness :
  ∃ l, RedactFindings local_findings = Ok l ∧
    ReportSync_Validate {| Report_Schema := ReportSchema;
      Report_SchemaVersion := ReportSchemaVersion; ReportedAt := utc endpoint_now;
      Report_Findings := l |} endpoint_now = Ok tt ∧
    StronglySorted (λ a b, redacted_less b a = false) l ∧
    (∀ f, f ∈ local_findings → ∃ r, r ∈ l ∧ covers r (candidate f)) ∧
    (∀ r, r ∈ l → Red_Occurrences r = count_of (finding_key r) local_findings).
Proof.
  apply (RedactFindings_accepted endpoint_now local_findings).
  - vm_compute. reflexivity.
  - exact local_reportable.
  - apply Z.leb_le. vm_compute. reflexivity.
  - apply Z.leb_le. vm_compute. reflexivity.
Defined.

(** The title does not reach the report. *)
Lemma RedactFindings_allowlist_witness :
  RedactFindings [local_finding "ssh" "b" SeverityInfo 1] =
  RedactFindings [local_finding "ssh" "another title" SeverityInfo 1].
Proof.
  apply (RedactFindings_allowlist [local_finding "ssh" "b" SeverityInfo 1]
    [local_finding "ssh" "another title" SeverityInfo 1]).
  apply Forall2_cons_2; [repeat split|apply Forall2_nil_2].
Defined.

Example redact_demo :
  match RedactFindings local_findings with
  | Ok l => (λ r, (Red_DetectorID r, Red_Severity r, Red_Occurrences r)) <$> l
  | Err _ => []
  end = [("firewall", SeverityCritical, 5); ("ssh", SeverityInfo, 1)].
Proof. vm_compute. reflexivity. Qed.
