(* ===== verification/ManagedClient.v ===== *)
(** * Package managed: the client of the controller

    [internal/managed/client.go], [Sync] of [sync.go] and the enrollment state
    of [state.go]: the requests an endpoint makes and what it accepts as an
    answer.  [World] is what a call changes: the other side of the transport,
    the enrollment state file, the policy cache.  Modes and replacement of the
    files are not modelled. *)

From S2P Require Import Prelude GoString GoHttp GoLib GoUrl GoTime Json JsonCompact Model ModelJson StrictJson.
From S2P Require Import Profile GoCrypto Base64 ControllerTypes ControllerHttp.
From S2P Require Import ControllerAuth ControllerServer Managed Redact.
#[local] Open Scope Z_scope.

Module Client.

Definition StateSchema : string := "io.oh-my-safety/managed-enrollment".
Definition StateSchemaVersion : Z := 1.
Definition maxStateBytes : Z := 32768.

Definition maxEnrollmentRequestBytes : Z := 65536.
Definition maxEnrollmentResponseBytes : Z := 32768.
Definition maxHeartbeatRequestBytes : Z := 65536.
Definition maxPolicyResponseBytes : Z := 524288.
Definition maxReportRequestBytes : Z := 1048576.
Definition maxReportResponseBytes : Z := 32768.
Definition maxRotationResponseBytes : Z := 32768.

Record EnrollmentState := {
  State_Schema : string;
  State_SchemaVersion : Z;
  ControllerURL : string;
  State_DeviceID : string;
  State_DeviceCredential : string;
  PolicyPublicKey : string;
  State_EnrolledAt : Time;
}.

Definition State_parts (s : EnrollmentState) : list part :=
  [("schema", f_str (State_Schema s)); ("schema_version", f_int (State_SchemaVersion s));
   ("controller_url", f_str (ControllerURL s)); ("device_id", f_str (State_DeviceID s));
   ("device_credential", f_str (State_DeviceCredential s));
   ("policy_public_key", f_str (PolicyPublicKey s)); ("enrolled_at", f_req (State_EnrolledAt s))].

Definition zero_state : EnrollmentState := {|
  State_Schema := ""; State_SchemaVersion := 0; ControllerURL := ""; State_DeviceID := "";
  State_DeviceCredential := ""; PolicyPublicKey := ""; State_EnrolledAt := zero_time |}.

#[export] Instance State_codec : Codec EnrollmentState := {
  enc s := enc_struct (State_parts s);
  dec := dec_struct zero_state (λ ms,
    sc ← get_string ms "schema"; sv ← get_int ms "schema_version";
    cu ← get_string ms "controller_url"; di ← get_string ms "device_id";
    dc ← get_string ms "device_credential"; pk ← get_string ms "policy_public_key";
    ea ← get zero_time dec ms "enrolled_at";
    Some {| State_Schema := sc; State_SchemaVersion := sv; ControllerURL := cu;
            State_DeviceID := di; State_DeviceCredential := dc; PolicyPublicKey := pk;
            State_EnrolledAt := ea |});
  wf s := utf8 [State_Schema s; ControllerURL s; State_DeviceID s; State_DeviceCredential s;
                PolicyPublicKey s] ∧ 0 ≤ State_SchemaVersion s ≤ max_int64 ∧ wf (State_EnrolledAt s);
}.

#[export] Instance State_shape : Shaped EnrollmentState :=
  Fields [("schema", Leaf); ("schema_version", Leaf); ("controller_url", Leaf);
          ("device_id", Leaf); ("device_credential", Leaf); ("policy_public_key", Leaf);
          ("enrolled_at", Leaf)].

#[export] Instance State_laws : CodecLaws EnrollmentState.
Proof.
  constructor. intros s H. cbn [wf enc dec State_codec] in *. wf_split.
  struct_laws (State_parts s). by destruct s.
Qed.

#[export] Instance State_shaped : ShapedLaws EnrollmentState.
Proof.
  constructor. intros s t (H & Hv & He) Ht. cbn [enc State_codec] in *. wf_split.
  apply (known_struct _ (State_parts s)); [vm_compute; reflexivity|known_fields|exact Ht|known_fields].
Qed.

(** The answer to a report. *)
Record reportAnswer := { Accepted : Z }.

#[export] Instance reportAnswer_codec : Codec reportAnswer := {
  enc a := enc_struct [("accepted", f_int (Accepted a))];
  dec := dec_struct {| Accepted := 0 |} (λ ms,
    a ← get_int ms "accepted"; Some {| Accepted := a |});
  wf a := 0 ≤ Accepted a ≤ max_int64;
}.
#[export] Instance reportAnswer_shape : Shaped reportAnswer := Fields [("accepted", Leaf)].

#[export] Instance reportAnswer_laws : CodecLaws reportAnswer.
Proof.
  constructor. intros a H. cbn [wf enc dec reportAnswer_codec] in *.
  struct_laws [("accepted", f_int (Accepted a))]. by destruct a.
Qed.

#[export] Instance reportAnswer_shaped : ShapedLaws reportAnswer.
Proof.
  constructor. intros a t H Ht. cbn [wf enc reportAnswer_codec] in *.
  apply (known_struct _ [("accepted", f_int (Accepted a))]);
    [vm_compute; reflexivity|known_fields|exact Ht|known_fields].
Qed.

(** [RemoteError] *)
Definition RemoteError (operation : string) (statusCode : Z) : error :=
  Errorf "managed controller request failed" [FStr operation; FInt statusCode].

Definition validEnvironmentName (value : string) : bool :=
  let letter c := between 65 90 (byte c) || Ascii.eqb c "_" in
  if String.eqb value "" || (128 <? slen value) then false
  else match value with
       | String c rest =>
           letter c && forallb (λ c, letter c || between 48 57 (byte c)) (chars rest)
       | EmptyString => false
       end.

Section client.
Context `{HH : Hash} `{ED : Ed25519}.

Definition loopbackHostname (host : string) : bool :=
  if field_match "localhost" host then true else ip_IsLoopback host.

Definition without_path (u : URL) : URL := {|
  Scheme := Scheme u; Opaque := Opaque u; User := User u; Host := Host u; URL_Path := "";
  RawPath := RawPath u; OmitHost := OmitHost u; ForceQuery := ForceQuery u; RawQuery := RawQuery u;
  Fragment := Fragment u; RawFragment := RawFragment u |}.

(** [strings.TrimSuffix] *)
Definition TrimSuffix (s suffix : string) : string :=
  let n := (String.length s - String.length suffix)%nat in
  if (String.length suffix <=? String.length s)%nat
     && String.eqb (String.substring n (String.length suffix) s) suffix
  then String.substring 0 n s else s.

Definition validateControllerURL (raw : string) : result string :=
  if negb (String.eqb (trim_space raw) raw) || String.eqb raw "" then
    Err (ErrorsNew "controller URL is required")
  else
    match url_Parse raw with
    | None => Err (ErrorsNew "controller URL must be an origin without credentials, query, or path")
    | Some parsed =>
        if String.eqb (Host parsed) "" || bool_decide (is_Some (User parsed)) || negb (String.eqb (RawQuery parsed) "")
           || negb (String.eqb (Fragment parsed) "")
           || (negb (String.eqb (URL_Path parsed) "") && negb (String.eqb (URL_Path parsed) "/"))
        then Err (ErrorsNew "controller URL must be an origin without credentials, query, or path")
        else
          _ ← (if String.eqb (Scheme parsed) "https" then Ok tt
               else if String.eqb (Scheme parsed) "http" then
                 fail_if (negb (loopbackHostname (url_Hostname parsed)))
                   (ErrorsNew "HTTP controller URLs are allowed only for loopback hosts")
               else Err (ErrorsNew "controller URL must use HTTPS"));
          _ ← fail_if (String.eqb (url_Port parsed) "" && negb (String.eqb (Scheme parsed) "https"))
                (ErrorsNew "loopback HTTP controller URL must include a port");
          Ok (TrimSuffix (url_String (without_path parsed)) "/")
    end.

Definition EnrollmentState_Validate (state : EnrollmentState) : result unit :=
  if negb (String.eqb (State_Schema state) StateSchema)
     || negb (State_SchemaVersion state =? StateSchemaVersion)
  then Err (ErrorsNew "unsupported managed enrollment state schema")
  else if negb (bool_decide (validateControllerURL (ControllerURL state) = Ok (ControllerURL state)))
  then Err (ErrorsNew "managed enrollment state has an invalid controller URL")
  else if negb (safeIdentifier (State_DeviceID state) 128)
  then Err (ErrorsNew "managed enrollment state has an invalid device id")
  else if negb (safeCredential (State_DeviceCredential state))
  then Err (ErrorsNew "managed enrollment state has an invalid device credential")
  else if negb (is_ok (decodePublicKey (PolicyPublicKey state)))
  then Err (ErrorsNew "managed enrollment state has an invalid policy public key")
  else if is_zero (State_EnrolledAt state)
  then Err (ErrorsNew "managed enrollment state has no enrollment timestamp")
  else Ok tt.

(** ** The enrollment state file *)

(** [LoadState], given what the file holds. *)
Definition LoadState (file : option string) : result EnrollmentState :=
  match file with
  | None => Err (Wrapf "inspect managed enrollment state: %w" (Sentinel "file does not exist") [])
  | Some content =>
      if maxStateBytes <? slen content then
        Err (ErrorsNew "managed enrollment state exceeds its size limit")
      else match decode_strict content with
      | None => Err (ErrorsNew "decode managed enrollment state")
      | Some state => _ ← EnrollmentState_Validate state; Ok state
      end
  end.

(** [writeTemporaryState]: the content written. *)
Definition state_content (state : EnrollmentState) : result string :=
  match Marshal state with
  | None => Err (ErrorsNew "encode managed enrollment state")
  | Some encoded =>
      if maxStateBytes <? slen encoded then
        Err (ErrorsNew "managed enrollment state exceeds its size limit")
      else Ok (encoded +:+ String "010" "")
  end.

Context {N : Type} `{TR : !Transport N}.

Record World := { remote : N; state_file : option string; policy_files : PolicyFiles }.

Definition write_state (content : string) : eff World unit := λ w,
  ({| remote := remote w; state_file := Some content; policy_files := policy_files w |}, Ok tt).

Definition createState (state : EnrollmentState) : eff World unit :=
  _ ← pure_ (EnrollmentState_Validate state);
  _ ← query (λ w, match state_file w with
                  | Some _ => Err (ErrorsNew "managed enrollment state already exists")
                  | None => Ok tt
                  end);
  content ← pure_ (state_content state);
  write_state content.

Definition replaceState (state : EnrollmentState) : eff World unit :=
  _ ← pure_ (EnrollmentState_Validate state);
  _ ← query (λ w, match state_file w with
                  | Some _ => Ok tt
                  | None => Err (ErrorsNew "inspect managed enrollment state before update")
                  end);
  content ← pure_ (state_content state);
  write_state content.

(** ** One request *)

Definition send (request : HTTPRequest) : eff World exchange := λ w,
  let '(n, r) := Do request (remote w) in
  ({| remote := n; state_file := state_file w; policy_files := policy_files w |}, Ok r).

Definition request_headers (has_body : bool) (deviceID credential : string) : gmap string string :=
  let headers := {["Accept" := "application/json"; "User-Agent" := "oh-my-safety-agent"]} in
  let headers := if has_body then <["Content-Type" := "application/json"]> headers else headers in
  if String.eqb credential "" then headers
  else <["X-Device-ID" := deviceID]> (<["Authorization" := "Bearer " +:+ credential]> headers).

(** The encoded body; no value is [None], a value that does not encode is
    [Some None]. *)
Definition request_body (requestValue : option (option string)) (requestLimit : Z) : result string :=
  match requestValue with
  | None => Ok ""
  | Some (Some encoded) =>
      if requestLimit <? slen encoded
      then Err (ErrorsNew "managed request payload is invalid or too large") else Ok encoded
  | Some None => Err (ErrorsNew "managed request payload is invalid or too large")
  end.

(** [performJSON] up to the check of the status: the answer, and whether its
    body breaks off. *)
Definition perform (method endpoint deviceID credential : string)
    (requestValue : option (option string)) (requestLimit expectedStatus : Z) (operation : string)
    : eff World (Response * bool) :=
  body ← pure_ (request_body requestValue requestLimit);
  _ ← pure_ (fail_if (negb (bool_decide (is_Some (url_Parse endpoint))))
               (ErrorsNew "create managed controller request"));
  r ← send {| Req_Method := method; Req_URL := endpoint;
              Req_Header := request_headers (bool_decide (is_Some requestValue)) deviceID credential;
              Req_Body := body |};
  match r with
  | NotSent (Some cause) _ => pure_ (Err (Wrapf "managed controller request canceled: %w" cause []))
  | NotSent None _ => pure_ (Err (RemoteError operation 0))
  | Answered response =>
      if negb (Status response =? expectedStatus)
      then pure_ (Err (RemoteError operation (Status response)))
      else pure_ (Ok (response, false))
  | Interrupted response _ =>
      if negb (Status response =? expectedStatus)
      then pure_ (Err (RemoteError operation (Status response)))
      else pure_ (Ok (response, true))
  end.

(** The rest of it, without and with a value to read. *)
Definition expect_nothing (received : Response * bool) : result unit :=
  fail_if (negb (String.eqb (Content received.1) "") || received.2)
    (ErrorsNew "controller returned an unexpected response body").

Definition expect_json {A} `{Codec A, Shaped A} (responseLimit : Z) (received : Response * bool) : result A :=
  let '(response, broken) := received in
  if negb (bool_decide (ParseMediaType (header "Content-Type" (Headers response))
                          = Some "application/json"))
  then Err (ErrorsNew "controller returned a non-JSON response")
  else if responseLimit <? slen (Content response) then
    Err (ErrorsNew "controller response exceeds its size limit")
  else if broken then Err (ErrorsNew "read controller response")
  else match decode_strict (Content response) with
  | None => Err (ErrorsNew "controller returned invalid JSON")
  | Some value => Ok value
  end.

(** ** Operations *)

Definition invalid_metadata : error := ErrorsNew "local device metadata is invalid".

(** [os.Hostname], [runtime.GOOS] and [runtime.GOARCH] are arguments. *)
Definition LocalDeviceMetadataForName (hostname : option string) (goos goarch : string)
    (agentVersion deviceName : string) : result DeviceMetadata :=
  deviceName ← (if String.eqb deviceName "" then
                  match hostname with
                  | Some hostname =>
                      if blank hostname then Err (ErrorsNew "read local hostname") else Ok hostname
                  | None => Err (ErrorsNew "read local hostname")
                  end
                else Ok deviceName);
  let metadata := {| Meta_Name := deviceName; Meta_Platform := goos;
                     Meta_OSVersion := goos +:+ "-" +:+ goarch; Meta_AgentVersion := agentVersion |} in
  _ ← map_err (λ _, invalid_metadata) (DeviceMetadata_Validate metadata);
  Ok metadata.

(** The options but for the HTTP client; [environment] is the process's. *)
Definition EnrollFromEnvironment (environment : gmap string string)
    (statePath controllerURL tokenEnv policyPublicKey : string) (metadata : DeviceMetadata)
    (now : Time) : eff World EnrollmentState :=
  _ ← pure_ (fail_if (negb (validEnvironmentName tokenEnv))
               (ErrorsNew "enrollment token environment variable name is invalid"));
  token ← pure_ (match environment !! tokenEnv with
                 | Some token => if safeCredential token then Ok token else
                     Err (ErrorsNew "enrollment token environment variable is missing or invalid")
                 | None => Err (ErrorsNew "enrollment token environment variable is missing or invalid")
                 end);
  _ ← pure_ (map_err (λ _, invalid_metadata) (DeviceMetadata_Validate metadata));
  canonicalURL ← pure_ (validateControllerURL controllerURL);
  _ ← pure_ (decodePublicKey policyPublicKey);
  _ ← pure_ (fail_if (blank statePath) (ErrorsNew "managed enrollment state path is required"));
  _ ← query (λ w, match state_file w with
                  | Some _ => Err (ErrorsNew "managed enrollment state already exists")
                  | None => Ok tt
                  end);
  response ← perform "POST" (canonicalURL +:+ "/v1/agent/enroll") "" ""
    (Some (Marshal {| EnrollmentToken := token; Request_Device := metadata |}))
    maxEnrollmentRequestBytes 201 "enroll";
  grant ← pure_ (expect_json maxEnrollmentResponseBytes response : result EnrollmentGrant);
  let state := {| State_Schema := StateSchema; State_SchemaVersion := StateSchemaVersion;
                  ControllerURL := canonicalURL; State_DeviceID := DeviceID grant;
                  State_DeviceCredential := DeviceCredential grant;
                  PolicyPublicKey := policyPublicKey; State_EnrolledAt := utc now |} in
  _ ← createState state;
  mret state.

(** The methods of a client with state [client]. *)
Definition Heartbeat (client : EnrollmentState) (metadata : DeviceMetadata) : eff World unit :=
  _ ← pure_ (map_err (λ _, invalid_metadata) (DeviceMetadata_Validate metadata));
  response ← perform "POST" (ControllerURL client +:+ "/v1/agent/heartbeat")
    (State_DeviceID client) (State_DeviceCredential client) (Some (Marshal metadata))
    maxHeartbeatRequestBytes 204 "heartbeat";
  pure_ (expect_nothing response).

(** The policy is verified again, with the key of the state file. *)
Definition persistPolicy (signed : SignedPolicy) : eff World unit := λ w,
  match LoadState (state_file w) with
  | Err e => (w, Err e)
  | Ok state =>
      let '(files, r) := persistVerifiedPolicy (PolicyPublicKey state) signed (policy_files w) in
      ({| remote := remote w; state_file := state_file w; policy_files := files |}, r)
  end.

Definition FetchPolicy (client : EnrollmentState) : eff World PolicyDocument :=
  response ← perform "GET" (ControllerURL client +:+ "/v1/agent/policy")
    (State_DeviceID client) (State_DeviceCredential client) None 0 200 "fetch policy";
  signed ← pure_ (expect_json maxPolicyResponseBytes response : result SignedPolicy);
  _ ← pure_ (verifyPinnedPolicy (PolicyPublicKey client) signed);
  _ ← persistPolicy signed;
  mret (Document signed).

Definition SubmitReport (client : EnrollmentState) (report : ReportSync) (now : Time)
    : eff World unit :=
  _ ← pure_ (map_err (λ _, ErrorsNew "redacted report is invalid") (ReportSync_Validate report (utc now)));
  response ← perform "POST" (ControllerURL client +:+ "/v1/agent/reports")
    (State_DeviceID client) (State_DeviceCredential client) (Some (Marshal report))
    maxReportRequestBytes 202 "submit report";
  answer ← pure_ (expect_json maxReportResponseBytes response);
  pure_ (fail_if (negb (Accepted answer =? Z.of_nat (length (Report_Findings report))))
           (ErrorsNew "controller acknowledged an unexpected report count")).

Definition with_credential (credential : string) (state : EnrollmentState) : EnrollmentState := {|
  State_Schema := State_Schema state; State_SchemaVersion := State_SchemaVersion state;
  ControllerURL := ControllerURL state; State_DeviceID := State_DeviceID state;
  State_DeviceCredential := credential; PolicyPublicKey := PolicyPublicKey state;
  State_EnrolledAt := State_EnrolledAt state |}.

(** The client's state afterwards, when there is no error. *)
Definition RotateCredential (client : EnrollmentState) : eff World EnrollmentState :=
  response ← perform "POST" (ControllerURL client +:+ "/v1/agent/credentials/rotate")
    (State_DeviceID client) (State_DeviceCredential client) None 0 200 "rotate credential";
  grant ← pure_ (expect_json maxRotationResponseBytes response : result EnrollmentGrant);
  _ ← pure_ (fail_if (negb (String.eqb (DeviceID grant) (State_DeviceID client))
                      || negb (safeCredential (DeviceCredential grant)))
               (ErrorsNew "controller returned an invalid rotated credential"));
  let updated := with_credential (DeviceCredential grant) client in
  _ ← wrap_err (λ _, ErrorsNew "persist rotated device credential") (replaceState updated);
  mret updated.

(** ** Synchronisation *)

Record SyncResult := {
  Sync_PolicyID : string;
  PolicyRevision : Z;
  ReportingEnabled : bool;
  FindingsSent : Z;
}.

(** [listFindings] is the finding source, [None] when it fails. *)
Definition Sync (client : EnrollmentState) (localFindings : option (list Finding))
    (metadata : DeviceMetadata) (now : Time) : eff World SyncResult :=
  _ ← pure_ (fail_if (is_zero now) (ErrorsNew "managed sync timestamp is required"));
  _ ← Heartbeat client metadata;
  policy ← FetchPolicy client;
  let result sent := {|
    Sync_PolicyID := Policy_ID policy; PolicyRevision := Revision policy;
    ReportingEnabled := Rep_Enabled (Reporting policy); FindingsSent := sent |} in
  if negb (Rep_Enabled (Reporting policy)) then mret (result 0)
  else
    findings ← pure_ (match localFindings with
                      | Some findings => Ok findings
                      | None => Err (ErrorsNew "read local findings for managed sync")
                      end);
    redacted ← pure_ (RedactFindings findings);
    _ ← SubmitReport client {| Report_Schema := ReportSchema;
                               Report_SchemaVersion := ReportSchemaVersion;
                               ReportedAt := utc now; Report_Findings := redacted |} now;
    mret (result (Z.of_nat (length redacted))).
End client.
Arguments World : clear implicits.
End Client.
