(* ===== verification/Limits.v ===== *)
(** * Package controller and package managed: sizes

    Both ends of the protocol bound the documents they read.  The limits are
    consistent: what validates fits, with its envelope, through every limit on
    its way. *)

From S2P Require Import Prelude GoString Calendar GoTime Json JsonCompact Model ModelJson StrictJson.
From S2P Require Import Profile GoCrypto Base64 JsonSize ControllerTypes ControllerHttp.
From S2P Require Import ControllerAuth ControllerServer Managed ManagedClient.
#[local] Open Scope Z_scope.

Lemma one_of_size s l n :
  one_of s l = true → forallb (λ x, slen (quote_json x) <=? n) l = true → slen (quote_json s) ≤ n.
Proof.
  intros Hs%one_of_elem%list_elem_of_In Hl. by apply (proj1 (forallb_forall _ _) Hl s), Z.leb_le in Hs.
Qed.

Lemma redacted_size now f t :
  redacted_ok now f → 0 ≤ Red_Occurrences f ≤ max_uint64 → enc f = Some t → slen t ≤ 470.
Proof.
  intros (Hd & Hc & Hs & Hst & _) Ho He. cbn [enc Redacted_codec] in He.
  etransitivity; [eapply (slen_struct _ [("detector_id", 130); ("category", 130); ("severity", 10);
    ("state", 14); ("first_seen", 37); ("last_seen", 37); ("occurrences", 20)] _ He)|by vm_compute].
  unfold Redacted_parts. bounds; try (apply slen_time); try done.
  - by apply (slen_quote_identifier 128).
  - by apply (slen_quote_identifier 128).
  - by eapply one_of_size.
  - by eapply one_of_size.
Qed.

(** A valid report fits the limit of the client and of the server. *)
Lemma report_size now report t :
  report_ok now report → Report_typed report → Marshal report = Some t →
  slen t ≤ reportJSONBodyLimit.
Proof.
  intros (Hs & Hv & _ & _ & Hn & Hf & _) Ht He. unfold Marshal in He. cbn [enc Report_codec] in He.
  etransitivity; [eapply (slen_struct _ [("schema", 40); ("schema_version", 20);
    ("reported_at", 37); ("findings", 2 + (470 + 1) * 2000)] _ He)|by vm_compute].
  unfold Report_parts. bounds; try (apply slen_time).
  - rewrite Hs. by vm_compute.
  - rewrite Hv. by vm_compute.
  - done.
  - exact Hn.
  - clear -Hf Ht. unfold Report_typed in Ht. induction Hf as [|f l Hf _ IH]; [constructor|].
    apply Forall_cons in Ht as [Ho Ht]. constructor; [|by apply IH].
    intros t. by eapply redacted_size.
Qed.

Lemma check_size c t : validIdentifier (Check_ID c) = true → enc c = Some t → slen t ≤ 160.
Proof.
  intros Hc He. cbn [enc Check_codec] in He.
  etransitivity; [eapply (slen_struct _ [("id", 130); ("enabled", 5)] _ He)|by vm_compute].
  unfold Check_parts. bounds. by apply (slen_quote_identifier 128).
Qed.

(** A valid policy is far below the limit of its uploads. *)
Lemma policy_size d t :
  policy_ok d → Policy_typed d → Marshal d = Some t → slen t ≤ 84000.
Proof.
  intros (Hs & Hv & Hid & _ & Hn & _ & _ & _ & Hrem & Hpr & Hc & _) (Hr & H1 & H2 & H3) He.
  unfold Marshal in He. cbn [enc Policy_codec] in He.
  assert (∀ z, uint32 z → 0 ≤ z ≤ max_uint64) as H32.
  { intros z Hz. unfold uint32 in Hz. unfold max_uint64. lia. }
  etransitivity; [eapply (slen_struct _ [("schema", 40); ("schema_version", 20); ("id", 130);
    ("revision", 20); ("checks", 2 + (160 + 1) * 512); ("profile", 40); ("cadence", 100);
    ("reporting", 100); ("remediation", 20)] _ He)|by vm_compute].
  unfold Policy_parts. bounds.
  - rewrite Hs. by vm_compute.
  - rewrite Hv. by vm_compute.
  - by apply (slen_quote_identifier 128).
  - exact Hr.
  - done.
  - apply Hn.
  - eapply Forall_impl; [exact Hc|]. intros c ? t'. by apply check_size.
  - eapply one_of_size; [by apply one_of_elem|by vm_compute].
  - intros v Hv'. cbn [enc Cadence_codec] in Hv'.
    etransitivity; [eapply (slen_struct _ [("scan_interval_seconds", 20); ("jitter_seconds", 20)] _ Hv')|by vm_compute].
    unfold Cadence_parts. bounds; by apply H32.
  - intros v Hv'. cbn [enc Reporting_codec] in Hv'.
    etransitivity; [eapply (slen_struct _ [("enabled", 5); ("sync_interval_seconds", 20)] _ Hv')|by vm_compute].
    unfold Reporting_parts. bounds. by apply H32.
  - eapply one_of_size; [by apply one_of_elem|by vm_compute].
Qed.

Lemma slen_quote_base64 l : is_bytes l → slen (quote_json (raw_std_encode l)) = (8 * Z.of_nat (length l) + 5) / 6 + 2.
Proof.
  intros H. rewrite slen_quote; [by unfold raw_std_encode; rewrite slen_encode|].
  unfold raw_std_encode, encode. induction (sextets_range l H) as [|v vs Hv _ IH]; [done|].
  cbn [fmap list_fmap of_chars foldr chars forallb]. apply andb_true_iff.
  split; [|exact IH].
  by apply (sextet_forall (λ v, unescaped (enc_char 43 47 v))) in Hv; [|vm_compute].
Qed.

Section signed.
Context `{ED : Ed25519, EL : !Ed25519Laws}.

Lemma signed_size seed d signed t :
  length seed = 32%nat → is_bytes seed → Policy_typed d → Sign (Some (signer_of seed)) d = Ok signed →
  Marshal signed = Some t → slen t ≤ 85000.
Proof.
  intros Hl Hb Ht Hs He. unfold Sign, signer_of in Hs. cbn [privateKey publicKey] in Hs.
  case_match; [done|]. apply bind_ok_inv in Hs as ([] & Hv%policy_valid & Hs).
  destruct (Marshal d) as [text|] eqn:Hm; [|done]. injection Hs as <-.
  unfold Marshal in He. cbn [enc Signed_codec] in He.
  etransitivity; [eapply (slen_struct _ [("schema", 40); ("schema_version", 20); ("document", 84000);
    ("algorithm", 10); ("signing_public_key", 45); ("signature", 90)] _ He)|by vm_compute].
  unfold Signed_parts. cbn [Signed_Schema Signed_SchemaVersion Document Algorithm SigningPublicKey Signature].
  bounds.
  - by vm_compute.
  - unfold SignedPolicyVersion, max_uint64. lia.
  - intros v Hv'. by eapply policy_size.
  - by vm_compute.
  - rewrite slen_quote_base64 by apply ed_public_bytes. by rewrite ed_public_length.
  - rewrite slen_quote_base64 by apply ed_sign_bytes. by rewrite ed_sign_length.
Qed.

(** C40. The size limits of the protocol are consistent: a report that
    validates is within what the client sends and the server reads; a policy
    that validates, within what the server reads; and the policy as it is
    signed, with the line feed of the response, within what the endpoint reads
    and what it stores. *)
Theorem documents_fit now report d seed signed :
  (∀ t, ReportSync_Validate report now = Ok tt → Report_typed report → Marshal report = Some t →
     slen t ≤ Client.maxReportRequestBytes ∧ slen t ≤ reportJSONBodyLimit) ∧
  (∀ t, PolicyDocument_Validate d = Ok tt → Policy_typed d → Marshal d = Some t →
     slen t ≤ policyJSONBodyLimit) ∧
  (∀ t, length seed = 32%nat → is_bytes seed → Policy_typed d →
     Sign (Some (signer_of seed)) d = Ok signed → Marshal signed = Some t →
     slen t + 1 ≤ Client.maxPolicyResponseBytes ∧ slen t ≤ maxPolicyFileBytes).
Proof.
  split_and!.
  - intros t Hv%report_valid Ht He. pose proof (report_size now report t Hv Ht He) as Hs.
    split; [|done]. exact Hs.
  - intros t Hv%policy_valid Ht He. etransitivity; [by eapply policy_size|by vm_compute].
  - intros t Hl Hb Ht Hs He. pose proof (signed_size seed d signed t Hl Hb Ht Hs He) as Hz.
    unfold Client.maxPolicyResponseBytes, maxPolicyFileBytes. lia.
Qed.
End signed.
