(* ===== verification/Delivery.v ===== *)
(** * The endpoint and its controller

    The client of [internal/managed] against the server of
    [internal/controller]: the transport carries a request for the origin of
    the controller to the server and its response back.  What one side writes
    the other reads, under the limits of both: a policy that is assigned is
    installed, findings that are reported are stored, a credential that is
    rotated is the one in force. *)

From S2P Require Import Prelude GoString Calendar GoTime Json JsonCompact Model ModelJson.
From S2P Require Import StrictJson JsonSize Profile GoHttp GoLib GoUrl GoCrypto Base64.
From S2P Require Import ControllerTypes ControllerHttp ControllerStore ControllerAuth.
From S2P Require Import ControllerSteps ControllerSpec ControllerInvariant ControllerLifecycle.
From S2P Require Import ControllerQueries ControllerServer ControllerServerFacts Managed Redact.
From S2P Require Import ManagedFacts ManagedClient Limits.
#[local] Open Scope Z_scope.
Import Client.

Section delivery.
Context `{HH : Hash, HL : !HashLaws} `{ED : Ed25519, EL : !Ed25519Laws}.
Context (server : Server) (origin : string) (random : Random) (clock : Time).

(** The request as it arrives: the path is what follows the origin. *)
Definition arriving (request : HTTPRequest) : option Request :=
  path ← strip_prefix origin (Req_URL request);
  Some {| Method := Req_Method request; Path := segments path; Header := Req_Header request;
          Query := ∅; Body := Req_Body request |}.

#[local] Instance network : Transport Store := λ request s,
  match arriving request with
  | Some request =>
      let '(s', response) := serve server request random clock s in (s', Answered response)
  | None => (s, NotSent None false)
  end.

(** ** Authentication of the client *)

Lemma separators_refused c : c ∈ token_separators → is_space (byte c) || is_control (byte c) = true.
Proof.
  unfold token_separators. intros H.
  repeat (apply elem_of_cons in H as [->|H]; [by vm_compute|]). by apply not_elem_of_nil in H.
Qed.

Lemma contains_any_byte s cs : contains_any s cs = true → ∃ c, c ∈ cs ∧ byte c ∈ bytes s.
Proof.
  induction s as [|c s IH]; [done|]. cbn [contains_any bytes].
  intros [H|H]%orb_true_iff; [bool_prop; exists c; split; [done|by left]|].
  destruct (IH H) as (d & Hd & Hin). exists d. split; [done|by right].
Qed.

(** A credential the client keeps is a token the server reads. *)
Lemma bearer_credential credential :
  safeCredential credential = true →
  bearerToken ("Bearer " +:+ credential) = Some credential ∧ String.eqb credential "" = false.
Proof.
  unfold safeCredential, bearerToken. destruct (_ || _) eqn:E; [done|]. intros Hr. bool_prop.
  change bearer_prefix with "Bearer ". rewrite slen_app. change (slen "Bearer ") with 7.
  unfold maxBearerTokenBytes. rewrite (proj2 (Z.leb_gt _ _)), (proj2 (Z.ltb_ge _ _)) by lia.
  cbn [orb]. rewrite strip_prefix_app. cbn [mbind option_bind]. split.
  - destruct (contains_any credential token_separators) eqn:Ec; [|done].
    apply contains_any_byte in Ec as (c & Hc & Hin). exfalso.
    pose proof (separators_refused c Hc) as Hs.
    assert (ascii_byte (byte c) = true) as Ha.
    { unfold token_separators in Hc.
      repeat (apply elem_of_cons in Hc as [->|Hc]; [by vm_compute|]). by apply not_elem_of_nil in Hc. }
    pose proof (all_runes_byte _ _ _ Hr Ha Hin) as Hn. cbn in Hn. rewrite Hs in Hn. done.
  - apply String.eqb_neq. intros ->. by cbn in *.
Qed.

Lemma headers_authorization has_body id credential :
  String.eqb credential "" = false →
  request_headers has_body id credential !! "Authorization" = Some ("Bearer " +:+ credential) ∧
  request_headers has_body id credential !! "X-Device-ID" = Some id.
Proof.
  intros H. unfold request_headers. cbv zeta. rewrite H. split; [|by rewrite lookup_insert, decide_True].
  rewrite lookup_insert_ne by done. by rewrite lookup_insert, decide_True.
Qed.

Lemma headers_content_type id credential :
  request_headers true id credential !! "Content-Type" = Some "application/json".
Proof.
  unfold request_headers. cbv zeta. destruct (String.eqb credential "").
  - by rewrite lookup_insert, decide_True.
  - rewrite !lookup_insert_ne by done. by rewrite lookup_insert, decide_True.
Qed.

Definition set_remote (s : Store) (w : World Store) : World Store := {|
  remote := s; state_file := state_file w; policy_files := policy_files w |}.

Lemma set_remote_same w : set_remote (remote w) w = w.
Proof. by destruct w. Qed.

(** The request the server gets. *)
Definition sent (method path id credential : string) (has_body : bool) (body : string) : Request := {|
  Method := method; Path := segments path; Header := request_headers has_body id credential;
  Query := ∅; Body := body |}.

Lemma perform_network method path id credential value limit status operation w body s' r :
  request_body value limit = Ok body → is_Some (url_Parse (origin +:+ path)) →
  serve server (sent method path id credential (bool_decide (is_Some value)) body) random clock
    (remote w) = (s', r) → Status r = status →
  perform method (origin +:+ path) id credential value limit status operation w =
    (set_remote s' w, Ok (r, false)).
Proof.
  intros Hb Hu Hs Hr. unfold perform. rewrite Hb, (bool_decide_true _ Hu). cbn [negb fail_if].
  rewrite !pure_bind. unfold mbind, eff_bind, send, Do, network, arriving.
  cbn [Req_URL Req_Method Req_Header Req_Body]. rewrite strip_prefix_app. cbn [mbind option_bind].
  fold (sent method path id credential (bool_decide (is_Some value)) body). rewrite Hs.
  rewrite Hr, Z.eqb_refl. done.
Qed.

Lemma agent_served next method path id credential has_body body device s :
  safeCredential credential = true → AuthenticateDevice id credential s = Ok device →
  find_route (sent method path id credential has_body body) (routes server)
    = Some (withAgent next, "") →
  serve server (sent method path id credential has_body body) random clock s =
    let '(s', r) := next device (sent method path id credential has_body body) "" random clock s in
    (s', secured r).
Proof.
  intros Hc Ha Hf. apply bearer_credential in Hc as [Hb He].
  destruct (headers_authorization has_body id credential He) as [H1 H2].
  unfold serve, securityHeaders, mux. rewrite Hf. unfold withAgent, header_get, header.
  change (Header (sent method path id credential has_body body))
    with (request_headers has_body id credential).
  rewrite H1, H2. change (default "" (Some id)) with id.
  change (default "" (Some ("Bearer " +:+ credential))) with ("Bearer " +:+ credential).
  rewrite Hb. change (default "" (Some credential)) with credential. by rewrite Ha.
Qed.

(** ** The policy *)

Lemma PolicyForDevice_ok id s d : PolicyForDevice id s = Ok d → policy_ok d ∧ Policy_typed d.
Proof.
  unfold PolicyForDevice, decodeStoredPolicy, Unmarshal.
  destruct (device_document id s) as [text|]; [|done].
  destruct (value_text (skip_ws text)) as [[v rest]|]; [|done]. cbn [mbind option_bind].
  destruct (String.eqb (skip_ws rest) ""); [|done]. destruct (dec v) as [d'|] eqn:Ed; [|done].
  intros H. ok_inv. split; [|by eapply dec_policy_typed].
  match goal with H : PolicyDocument_Validate _ = Ok ?u |- _ => destruct u; by apply policy_valid end.
Qed.

(** The JSON a handler wrote is the value the client reads. *)
Lemma expect_written {A} `{CodecLaws A} `{!Shaped A, !ShapedLaws A} limit status (x : A) text :
  wf x → Marshal x = Some text → slen text < limit →
  expect_json limit (secured (writeJSON status (Marshal x)), false) = Ok x.
Proof.
  intros Hx Ht Hl. unfold expect_json, secured, writeJSON, header. cbn [Headers Content]. rewrite Ht.
  rewrite (lookup_union_Some_l _ _ _ "application/json") by (by rewrite lookup_singleton).
  cbn [default]. rewrite bool_decide_true by (vm_compute; reflexivity). cbn [negb].
  rewrite slen_app. change (slen (String newline "")) with 1.
  rewrite (proj2 (Z.ltb_ge _ _)) by lia.
  destruct (decode_strict_line x Hx) as (t & Ht' & Hd). assert (t = text) as -> by congruence.
  change (String newline "") with (String "010" ""). by rewrite Hd.
Qed.

Lemma LoadState_valid file state :
  LoadState file = Ok state → EnrollmentState_Validate state = Ok tt.
Proof.
  unfold LoadState. destruct file as [content|]; [|done]. destruct (_ <? _); [done|].
  destruct (decode_strict content) as [st|]; [|done]. intros H. ok_inv.
  match goal with H : EnrollmentState_Validate _ = Ok ?u |- _ => by destruct u end.
Qed.

Lemma validated_path raw canonical path :
  validateControllerURL raw = Ok canonical → plain_path path = true → is_Some (url_Parse (raw +:+ path)).
Proof.
  unfold validateControllerURL. destruct (negb _ || _); [done|].
  destruct (url_Parse raw) as [u|] eqn:E; [|done]. destruct (String.eqb (Host u) "") eqn:Hh; [done|].
  cbn [orb]. case_match; [done|]. intros H' Hp. apply (url_Parse_append raw u path E); [|by apply String.eqb_neq|done].
  intros Hs. by rewrite Hs in H'.
Qed.

Lemma state_valid_inv state :
  EnrollmentState_Validate state = Ok tt →
  validateControllerURL (ControllerURL state) = Ok (ControllerURL state) ∧
  safeIdentifier (State_DeviceID state) 128 = true ∧
  safeCredential (State_DeviceCredential state) = true ∧
  is_ok (decodePublicKey (PolicyPublicKey state)) = true.
Proof. unfold EnrollmentState_Validate. repeat case_match; try done. by bool_prop. Qed.

(** A client of this controller. *)
Record enrolled (seed : list Z) (client : EnrollmentState) (w : World Store) : Prop := {
  en_state : LoadState (state_file w) = Ok client;
  en_origin : ControllerURL client = origin;
  en_pinned : PolicyPublicKey client = raw_std_encode (ed_public seed);
  en_signer : signer server = Some (signer_of seed);
  en_seed : length seed = 32%nat ∧ is_bytes seed;
  en_device : ∃ device,
    AuthenticateDevice (State_DeviceID client) (State_DeviceCredential client) (remote w) = Ok device;
}.

(** The requests of a client go to URLs that parse. *)
Lemma enrolled_path seed client w path :
  enrolled seed client w → plain_path path = true → is_Some (url_Parse (origin +:+ path)).
Proof.
  intros [Hst <- _ _ _ _] Hp. apply LoadState_valid, state_valid_inv in Hst as (Hu & _).
  by eapply validated_path.
Qed.

Lemma verifyPinned_signed seed document signed :
  SigningPublicKey signed = raw_std_encode (ed_public seed) → VerifySignedPolicy signed = Ok tt →
  Document signed = document →
  verifyPinnedPolicy (raw_std_encode (ed_public seed)) signed = Ok tt.
Proof.
  intros Hk Hv _. unfold verifyPinnedPolicy, decodePublicKey. rewrite Hk.
  rewrite decode_sized_encode by (apply ed_public_bytes || by rewrite ed_public_length).
  rewrite String.eqb_refl. cbn [negb map_err]. rewrite !bind_ok.
  rewrite bool_decide_true by done. cbn [negb fail_if]. by rewrite bind_ok, Hv.
Qed.

Lemma fetch_delivers seed client d w :
  enrolled seed client w → PolicyForDevice (State_DeviceID client) (remote w) = Ok d →
  ∃ signed, Sign (signer server) d = Ok signed ∧ Document signed = d ∧
    FetchPolicy client w =
      let '(files, r) := persistVerifiedPolicy (PolicyPublicKey client) signed (policy_files w) in
      ({| remote := remote w; state_file := state_file w; policy_files := files |}, _ ← r; Ok d).
Proof.
  intros Hen Hpol. pose proof (λ path, enrolled_path seed client w path Hen) as Hu.
  destruct Hen as [Hst Ho Hp Hsg [Hl Hb] [device Hd]].
  destruct (PolicyForDevice_ok _ _ _ Hpol) as [Hok Ht]. apply policy_valid in Hok as Hv.
  destruct (Sign_roundtrip seed d Hl Hb Ht Hv) as (signed & text & Hs & Hm & _ & Hver & Hdoc & Hkey & Hwf).
  exists signed. rewrite Hsg. split; [done|]. split; [done|].
  pose proof (Authenticate_id _ _ _ _ Hd) as Hid.
  pose proof (LoadState_valid _ _ Hst) as (_ & Hsi & Hsc & _)%state_valid_inv.
  assert (perform "GET" (origin +:+ "/v1/agent/policy") (State_DeviceID client)
    (State_DeviceCredential client) None 0 200 "fetch policy" w =
    (w, Ok (secured (writeJSON 200 (Marshal signed)), false))) as Hperf.
  { rewrite <-(set_remote_same w) at 2. apply (perform_network _ _ _ _ _ _ _ _ _ "");
      [done|by apply Hu| |done].
    rewrite (agent_served (fetchPolicy server) _ _ _ _ _ _ device); [|done|done|reflexivity].
    unfold fetchPolicy, respond. rewrite Hid, Hsg, (query_bind _ _ _ d) by done.
    unfold pure_. rewrite Hs. reflexivity. }
  unfold FetchPolicy. rewrite Ho, (eff_bind_ok _ _ _ _ _ Hperf). clear Hperf.
  rewrite (expect_written maxPolicyResponseBytes 200 signed text Hwf Hm).
  2:{ pose proof (signed_size seed d signed text Hl Hb Ht Hs Hm). unfold maxPolicyResponseBytes. lia. }
  rewrite pure_bind, Hp, (verifyPinned_signed seed d) by done. rewrite pure_bind.
  unfold mbind at 1, eff_bind, persistPolicy. cbn [state_file policy_files set_remote remote].
  rewrite Hst, Hp. destruct (persistVerifiedPolicy _ signed (policy_files w)) as [files [[]|e]].
  - unfold mret, eff_ret. by rewrite Hdoc.
  - done.
Qed.

(** What an administrator assigns is what the endpoint installs: for an
    enrolled endpoint whose group has a policy, [FetchPolicy] gets the document
    the controller holds, signed by the key the endpoint has pinned, through
    the limits and the strict decoding of both sides; what happens to it is
    then exactly what the revision ledger decides, and nothing is changed at
    the controller. *)
Theorem FetchPolicy_delivers seed client d w :
  enrolled seed client w → PolicyForDevice (State_DeviceID client) (remote w) = Ok d →
  ∃ signed, Sign (signer server) d = Ok signed ∧ Document signed = d ∧
    FetchPolicy client w =
      let '(files, r) := persistVerifiedPolicy (PolicyPublicKey client) signed (policy_files w) in
      ({| remote := remote w; state_file := state_file w; policy_files := files |}, _ ← r; Ok d).
Proof. apply fetch_delivers. Qed.

(** ** Requests with a body *)

Lemma body_read {A} `{CodecLaws A} `{!Shaped A, !ShapedLaws A} limit method path id credential
    (x : A) text (next : A → action) :
  wf x → Marshal x = Some text → slen text ≤ limit →
  with_body limit (sent method path id credential true text) next = next x.
Proof.
  intros Hx Ht Hl. unfold with_body, decodeRequestJSON, header_get, header.
  change (Header (sent method path id credential true text)) with (request_headers true id credential).
  rewrite headers_content_type. cbn [default].
  rewrite bool_decide_true by (vm_compute; reflexivity). cbn [negb].
  change (Body (sent method path id credential true text)) with text.
  rewrite (proj2 (Z.ltb_ge _ _)) by lia.
  destruct (decode_strict_Marshal x Hx) as (t & Ht' & Hd). assert (t = text) as -> by congruence.
  by rewrite Hd.
Qed.

Lemma request_body_fits text limit : slen text ≤ limit → request_body (Some (Some text)) limit = Ok text.
Proof. intros H. unfold request_body. by rewrite (proj2 (Z.ltb_ge _ _)) by lia. Qed.

Lemma Authenticate_active id credential s d :
  AuthenticateDevice id credential s = Ok d →
  ∃ row, devices s !! id = Some row ∧ not_revoked row = true ∧
    Sum256 (presented credential) = dv_credential_hash row.
Proof.
  unfold AuthenticateDevice. fold (presented credential). destruct (devices s !! id) as [row|]; [|done].
  unfold ConstantTimeCompare. case_bool_decide as E; [|done].
  destruct (not_revoked row) eqn:Hn; [|done]. by exists row.
Qed.

(** A request that takes nothing from the device keeps the client enrolled. *)
Lemma enrolled_step seed client w o s' :
  enrolled seed client w → store_ok (remote w) → op_ok clock o →
  ¬ withdraws (State_DeviceID client) o → effect clock (remote w) o s' →
  enrolled seed client (set_remote s' w).
Proof.
  intros [Hst Ho Hp Hsg Hlb [device Hd]] HS Hop Hw He. constructor; try done.
  apply Authenticate_active in Hd as (row & Hr & Hn & Hh).
  destruct (device_active_auth (State_DeviceID client) (Sum256 (presented (State_DeviceCredential client)))
    s' (State_DeviceCredential client)) as (d' & Hd' & _); [by eapply effect_ok| |done|by exists d'].
  eapply device_active_step; [exact He|exact Hw|]. by exists row.
Qed.

(** *** Reports *)

Definition report_times (report : ReportSync) : Prop :=
  representable (ReportedAt report) = true ∧
  Forall (λ f, representable (Red_FirstSeen f) = true ∧ representable (Red_LastSeen f) = true)
    (Report_Findings report).

Lemma identifier_utf8 v : validIdentifier v = true → valid_utf8 v = true.
Proof. intros (_ & _ & _ & H)%identifier_syntax_inv. by apply is_ascii_valid. Qed.

Lemma one_of_true_utf8 s l : one_of s l = true → forallb valid_utf8 l = true → valid_utf8 s = true.
Proof. intros Hs%one_of_elem%list_elem_of_In Hl. by apply (proj1 (forallb_forall _ _) Hl s). Qed.

Lemma report_wf now report :
  report_ok now report → Report_typed report → report_times report → wf report.
Proof.
  intros (Hs & Hv & _ & _ & _ & Hf & _) Ht [Ha Hts]. cbn [wf Report_codec]. rewrite Hs, Hv.
  split_and!; [by repeat constructor|done|done|exact Ha|]. unfold Report_typed in Ht.
  induction Hf as [|f l (Hd & Hc & Hsv & Hst & _) _ IH]; [constructor|].
  apply Forall_cons in Ht as [Ho Ht]. apply Forall_cons in Hts as [[H1 H2] Hts].
  constructor; [|by apply IH]. cbn [wf Redacted_codec]. split_and!; [|exact H1|exact H2|apply Ho|apply Ho].
  repeat constructor; first [by apply identifier_utf8 | by eapply one_of_true_utf8].
Qed.

Lemma positive_counts now report :
  report_ok now report → Forall (λ f, 0 ≤ Red_Occurrences f ≤ max_int64) (Report_Findings report) →
  Forall (λ f, 0 < Red_Occurrences f ≤ max_int64) (Report_Findings report).
Proof.
  intros (_ & _ & _ & _ & _ & Hf & _). rewrite !Forall_forall in *. intros H f Hin.
  specialize (H f Hin). destruct (Hf f Hin) as (_ & _ & _ & _ & _ & _ & _ & ?). lia.
Qed.

Lemma slen_answer n t :
  0 ≤ n ≤ 2000 → Marshal {| Accepted := n |} = Some t → slen t ≤ 100.
Proof.
  intros Hn He. unfold Marshal in He. cbn [enc reportAnswer_codec] in He.
  etransitivity; [eapply (slen_struct _ [("accepted", 20)] _ He)|by vm_compute].
  bounds. cbn [Accepted]. unfold max_uint64. lia.
Qed.

(** What the endpoint reports is what the controller stores: a report
    that validates on the endpoint is accepted by the controller, whose clock
    may be up to five minutes behind the report, exactly as [SyncReport] stores
    it, and the client takes the answer as the acknowledgement of all its
    findings. *)
Lemma SubmitReport_delivers seed client report now w :
  enrolled seed client w → ReportSync_Validate report (utc now) = Ok tt →
  ns (ReportedAt report) ≤ ns clock + 5 * minute → report_times report →
  Forall (λ f, 0 ≤ Red_Occurrences f ≤ max_int64) (Report_Findings report) →
  ∃ s', SyncReport (State_DeviceID client) report clock (remote w) = (s', Ok tt) ∧
    (∀ f, f ∈ Report_Findings report →
       findings s' !! (State_DeviceID client, Red_DetectorID f, Red_Category f)
         = Some (finding_row (ReportedAt report) f)) ∧
    SubmitReport client report now w = (set_remote s' w, Ok tt).
Proof.
  intros Hen Hv Hclk Hts Hocc. pose proof (λ path, enrolled_path seed client w path Hen) as Hu.
  destruct Hen as [Hst Ho _ _ _ [device Hd]]. pose proof Hv as Hok%report_valid.
  assert (Report_typed report) as Hty.
  { eapply Forall_impl; [exact Hocc|]. intros f ?. unfold uint64, max_uint64. unfold max_int64 in *. lia. }
  assert (report_ok clock report) as Hok'.
  { destruct Hok as (H1 & H2 & H3 & _ & H5). exact (conj H1 (conj H2 (conj H3 (conj Hclk H5)))). }
  pose proof (report_wf _ _ Hok Hty Hts) as Hwf.
  destruct (enc_wf report Hwf) as (text & Ht & _).
  pose proof (report_size _ _ _ Hok Hty Ht) as Hsize.
  pose proof (Authenticate_id _ _ _ _ Hd) as Hid.
  destruct (Authenticate_active _ _ _ _ Hd) as (row & Hr & Hn & _).
  pose proof (LoadState_valid _ _ Hst) as (_ & _ & Hsc & _)%state_valid_inv.
  pose proof (effect_runs clock (OpSyncReport (State_DeviceID client) report) (remote w) _
    (eff_sync clock (remote w) _ _ row Hok' (positive_counts _ report Hok Hocc) Hr Hn)) as Hrun.
  set (s' := set_devices _ _) in Hrun.
  assert (∀ f, f ∈ Report_Findings report → findings s' !! report_key (State_DeviceID client) f
    = Some (finding_row (ReportedAt report) f)) as Hstored.
  { intros f Hf. unfold s'. tables. by apply reported_here; [apply Hok|]. }
  clearbody s'. cbn [run] in Hrun. exists s'. split; [exact Hrun|]. split; [exact Hstored|].
  set (n := Z.of_nat (length (Report_Findings report))).
  assert (perform "POST" (origin +:+ "/v1/agent/reports") (State_DeviceID client)
    (State_DeviceCredential client) (Some (Marshal report)) maxReportRequestBytes 202
    "submit report" w =
    (set_remote s' w, Ok (secured (writeJSON 202 (Marshal {| Accepted := n |})), false))) as Hperf.
  { apply (perform_network _ _ _ _ _ _ _ _ _ text);
      [unfold Marshal; rewrite Ht; by apply request_body_fits|by apply Hu| |done].
    rewrite (agent_served syncReport _ _ _ _ _ _ device); [|done|done|reflexivity].
    unfold syncReport. change (bool_decide (is_Some (Some (Marshal report)))) with true.
    rewrite (body_read reportJSONBodyLimit _ _ _ _ report text) by done.
    unfold respond. rewrite Hid, Hrun. reflexivity. }
  unfold SubmitReport. rewrite Hv. cbn [map_err]. rewrite pure_bind, Ho, (eff_bind_ok _ _ _ _ _ Hperf). clear Hperf.
  assert (0 ≤ n ≤ 2000) as Hn2000.
  { destruct Hok as (_ & _ & _ & _ & Hlen & _). unfold n. lia. }
  assert (wf {| Accepted := n |}) as Hwa by (cbn; unfold max_int64; lia).
  destruct (enc_wf _ Hwa) as (answer & Ha & _).
  rewrite (expect_written maxReportResponseBytes 202 _ answer Hwa Ha).
  - rewrite pure_bind. cbn [Accepted]. unfold n. rewrite Z.eqb_refl. done.
  - apply slen_answer in Ha; [|done]. unfold maxReportResponseBytes. lia.
Qed.

(** ** Heartbeats *)

Definition metadata_fits (md : DeviceMetadata) : Prop :=
  wf md ∧ Forall (λ v, slen v ≤ 1024) [Meta_Name md; Meta_Platform md; Meta_OSVersion md; Meta_AgentVersion md].

Lemma metadata_size md t : metadata_fits md → Marshal md = Some t → slen t ≤ 30000.
Proof.
  intros [_ Hl] He. repeat (apply Forall_cons in Hl as [? Hl]). unfold Marshal in He.
  cbn [enc Metadata_codec] in He.
  etransitivity; [eapply (slen_struct _ [("name", 6150); ("platform", 6150); ("os_version", 6150);
    ("agent_version", 6150)] _ He)|by vm_compute].
  unfold Metadata_parts. bounds; (etransitivity; [apply slen_quote_any|lia]).
Qed.

Lemma Heartbeat_delivers seed client md w :
  enrolled seed client w → store_ok (remote w) → clock_ok clock →
  DeviceMetadata_Validate md = Ok tt → metadata_fits md →
  ∃ s', effect clock (remote w) (OpHeartbeat (State_DeviceID client) md) s' ∧
    Heartbeat client md w = (set_remote s' w, Ok tt) ∧ enrolled seed client (set_remote s' w).
Proof.
  intros Hen HS Hclk Hv Hfit. pose proof Hen as [Hst Ho _ _ _ [device Hd]].
  pose proof (λ path, enrolled_path seed client w path Hen) as Hu.
  destruct (enc_wf md (proj1 Hfit)) as (text & Ht & _).
  pose proof (metadata_size _ _ Hfit Ht) as Hsize.
  pose proof (Authenticate_id _ _ _ _ Hd) as Hid.
  destruct (Authenticate_active _ _ _ _ Hd) as (row & Hr & Hn & _).
  pose proof (LoadState_valid _ _ Hst) as (_ & _ & Hsc & _)%state_valid_inv.
  pose proof (eff_heartbeat clock (remote w) _ md row Hv Hr Hn) as Heff.
  set (s' := set_devices _ _) in Heff. clearbody s'. exists s'. split; [exact Heff|].
  pose proof (effect_runs _ _ _ _ Heff) as Hrun. cbn [run] in Hrun.
  split; [|exact (enrolled_step seed client w (OpHeartbeat (State_DeviceID client) md) s' Hen HS
    (conj Hclk I) (λ H, H) Heff)].
  assert (perform "POST" (origin +:+ "/v1/agent/heartbeat") (State_DeviceID client)
    (State_DeviceCredential client) (Some (Marshal md)) maxHeartbeatRequestBytes 204 "heartbeat" w =
    (set_remote s' w, Ok (secured noContent, false))) as Hperf.
  { apply (perform_network _ _ _ _ _ _ _ _ _ text);
      [unfold Marshal; rewrite Ht; apply request_body_fits; unfold maxHeartbeatRequestBytes; lia
      |by apply Hu| |done].
    rewrite (agent_served heartbeat _ _ _ _ _ _ device); [|done|done|reflexivity].
    unfold heartbeat. change (bool_decide (is_Some (Some (Marshal md)))) with true.
    rewrite (body_read defaultJSONBodyLimit _ _ _ _ md text _ (proj1 Hfit) Ht)
      by (unfold defaultJSONBodyLimit; lia).
    unfold respond. rewrite Hid, Hrun. reflexivity. }
  unfold Heartbeat. rewrite Hv. cbn [map_err]. rewrite pure_bind, Ho, (eff_bind_ok _ _ _ _ _ Hperf).
  reflexivity.
Qed.

End delivery.

(** ** The endpoint and its controller: one synchronisation

    [Sync] against the server: heartbeat, policy, report, in this order and all
    the way to the stores of both sides. *)

Section synchronisation.
Context `{HH : Hash, HL : !HashLaws} `{ED : Ed25519, EL : !Ed25519Laws}.
Context (server : Server) (origin : string) (random : Random) (clock : Time).
#[local] Hint Extern 0 (Transport Store) => exact (network server origin random clock) : typeclass_instances.

Lemma run_step s o s' : op_ok clock o → run clock o s = (s', Ok tt) → step s s'.
Proof. intros Ho Hr. assert ((run clock o s).1 = s') as <- by (by rewrite Hr). by constructor. Qed.

Lemma effect_step s o s' : op_ok clock o → effect clock s o s' → step s s'.
Proof. intros Ho He. eapply run_step; [exact Ho|by apply effect_runs]. Qed.

(** A heartbeat leaves the policy of the device. *)
Lemma heartbeat_policy id md s s' :
  effect clock s (OpHeartbeat id md) s' → PolicyForDevice id s' = PolicyForDevice id s.
Proof.
  inversion 1; subst. unfold PolicyForDevice, device_document. tables.
  rewrite lookup_insert, decide_True by done.
  match goal with H : devices _ !! _ = Some _ |- _ => rewrite H end. reflexivity.
Qed.

(** The findings of the endpoint at [now]: reportable, their counts within an
    int64, their times within what RFC 3339 can write in UTC. *)
Definition findings_fit (now : Time) (findings : list Finding) : Prop :=
  Forall (reportable now) findings ∧ Z.of_nat (length findings) ≤ 2000 ∧ total findings ≤ max_int64 ∧
  Forall (λ f, representable (utc (FirstSeen f)) = true ∧ representable (utc (LastSeen f)) = true) findings.

Lemma count_of_total key findings :
  Forall (λ f, 0 ≤ Occurrences f) findings → 0 ≤ count_of key findings ≤ total findings.
Proof.
  induction 1 as [|f l Hf _ IH]; [done|]. rewrite total_cons. cbn [count_of foldr].
  change (foldr _ _ l) with (count_of key l). case_match; lia.
Qed.

Lemma redacted_fit now findings l :
  findings_fit now findings → RedactFindings findings = Ok l →
  (∀ r, r ∈ l → Red_Occurrences r = count_of (finding_key r) findings) →
  Forall (λ f, 0 ≤ Red_Occurrences f ≤ max_int64) l ∧
  Forall (λ f, representable (Red_FirstSeen f) = true ∧ representable (Red_LastSeen f) = true) l.
Proof.
  intros (HF & _ & Ht & Hr) Hl Hocc. split.
  - apply Forall_forall. intros r Hin. rewrite (Hocc r Hin).
    pose proof (count_of_total (finding_key r) findings) as Hc.
    assert (0 ≤ count_of (finding_key r) findings ≤ total findings); [|lia]. apply Hc.
    eapply Forall_impl; [exact HF|]. by intros f (_ & ? & _).
  - eapply RedactFindings_forall; [|exact Hr|exact Hl]. cbn beta.
    intros e c r [E1 E2] [C1 C2]. unfold merge. case_match; [done|]. intros [= <-]. cbn.
    by repeat case_match.
Qed.

(** C6. One synchronisation carries both ways: for an enrolled endpoint whose
    group has a policy that the cache accepts and that turns reporting on, with
    valid metadata of bounded size, a clock that is not the zero time, that
    RFC 3339 can write and that is at most five minutes ahead of the controller's, and findings within the
    limits of a report, [Sync] succeeds, the endpoint then loads that policy,
    and the controller holds, under the device, an entry of the report for
    every local finding, as wide, as severe and as open as the finding. *)
Theorem Sync_delivers seed client d files md now findings w :
  enrolled server origin seed client w → store_ok (remote w) → clock_ok clock →
  DeviceMetadata_Validate md = Ok tt → metadata_fits md →
  PolicyForDevice (State_DeviceID client) (remote w) = Ok d → Rep_Enabled (Reporting d) = true →
  (∀ signed, Sign (signer server) d = Ok signed →
     persistVerifiedPolicy (PolicyPublicKey client) signed (policy_files w) = (files, Ok tt)) →
  is_zero now = false → representable (utc now) = true → ns now ≤ ns clock + 5 * minute →
  findings_fit now findings →
  ∃ w' l, RedactFindings findings = Ok l ∧
    Sync client (Some findings) md now w = (w', Ok {|
      Sync_PolicyID := Policy_ID d; PolicyRevision := Revision d; ReportingEnabled := true;
      FindingsSent := Z.of_nat (length l) |}) ∧
    (∃ d', LoadPolicy (PolicyPublicKey client) (policy_files w') = Ok d' ∧ Marshal d' = Marshal d) ∧
    (∀ f, f ∈ findings → ∃ r, r ∈ l ∧ covers r (candidate f) ∧
       ControllerStore.findings (remote w') !! (State_DeviceID client, Red_DetectorID r, Red_Category r)
         = Some (finding_row (utc now) r)) ∧
    steps (remote w) (remote w').
Proof.
  intros Hen HS Hclk Hmd Hfit Hpol Hrep Hper Hz Hnow Hclose Hfind.
  destruct (Heartbeat_delivers server origin random clock seed client md w Hen HS Hclk Hmd Hfit)
    as (s1 & E1 & Hbeat & Hen1).
  rewrite <-(heartbeat_policy _ _ _ _ E1) in Hpol.
  destruct (fetch_delivers server origin random clock seed client d (set_remote s1 w) Hen1 Hpol)
    as (signed & Hsign & Hdoc & Hfetch).
  cbn [policy_files set_remote remote state_file] in Hfetch. rewrite (Hper signed Hsign), bind_ok in Hfetch.
  set (w2 := {| remote := s1; state_file := state_file w; policy_files := files |}) in Hfetch.
  assert (enrolled server origin seed client w2) as Hen2 by (by destruct Hen1; constructor).
  pose proof Hfind as (HF & Hlen & Htot & _).
  destruct (redact_accepted now findings Hz HF Hlen) as (l & Hl & Hvalid & _ & Hcov & Hocc).
  { unfold max_uint64, max_int64 in *. lia. }
  destruct (redacted_fit now findings l Hfind Hl Hocc) as [Hcounts Htimes].
  set (report := {| Report_Schema := ReportSchema; Report_SchemaVersion := ReportSchemaVersion;
    ReportedAt := utc now; Report_Findings := l |}) in Hvalid.
  destruct (SubmitReport_delivers server origin random clock seed client report now w2 Hen2)
    as (s3 & Hsync & Hstored & Hsubmit).
  { apply report_valid in Hvalid. apply report_valid. exact Hvalid. }
  { exact Hclose. }
  { by split. }
  { exact Hcounts. }
  exists (set_remote s3 w2), l. split; [done|]. split_and!.
  - unfold Sync. rewrite Hz. cbn [fail_if]. rewrite pure_bind.
    rewrite (eff_bind_ok _ _ _ _ _ Hbeat), (eff_bind_ok _ _ _ _ _ Hfetch). cbv zeta. rewrite Hrep.
    cbn [negb]. rewrite pure_bind, Hl, pure_bind. fold report.
    rewrite (eff_bind_ok _ _ _ _ _ Hsubmit). reflexivity.
  - destruct (persist_load _ _ _ _ (Hper signed Hsign)) as (d' & Hload & Hm).
    exists d'. split; [exact Hload|]. by rewrite Hm, Hdoc.
  - intros f Hf. destruct (Hcov f Hf) as (r & Hr & Hc). exists r. split; [done|]. split; [done|].
    exact (Hstored r Hr).
  - eapply rtc_l; [exact (effect_step (remote w) (OpHeartbeat _ md) s1 (conj Hclk I) E1)|].
    apply rtc_once. apply (run_step _ (OpSyncReport (State_DeviceID client) report) _); [|exact Hsync].
    split; [done|]. eapply Forall_impl; [exact Hcounts|].
    intros f ?. unfold uint64, max_uint64. unfold max_int64 in *. lia.
Qed.
End synchronisation.
