(* ===== verification/Enrollment.v ===== *)
(** * The endpoint and its controller: credentials

    Enrollment and rotation, the two operations that change the enrollment
    state of the endpoint: what is saved loads again, and it holds the
    credential the controller authenticates. *)

From S2P Require Import Prelude GoString GoHttp GoLib GoUrl Calendar GoTime Json JsonCompact Model ModelJson.
From S2P Require Import StrictJson Profile GoCrypto Base64 JsonSize ControllerTypes.
From S2P Require Import ControllerHttp ControllerStore ControllerAuth ControllerSteps ControllerSpec.
From S2P Require Import ControllerInvariant ControllerLifecycle ControllerQueries.
From S2P Require Import ControllerServer ControllerServerFacts Managed Redact ManagedClient Limits Delivery.
#[local] Open Scope Z_scope.
Import Client.

Section enrollment.
Context `{HH : Hash, HL : !HashLaws} `{ED : Ed25519, EL : !Ed25519Laws}.
Context (server : Server) (origin : string) (random : Random) (clock : Time).
#[local] Hint Extern 0 (Transport Store) => exact (network server origin random clock) : typeclass_instances.

(** ** The enrollment state *)

Lemma key_length key : is_ok (decodePublicKey key) = true → slen key = 43.
Proof.
  unfold decodePublicKey, decode_sized. destruct (raw_std_decode key) as [l|]; [|done].
  cbn [mbind option_bind]. destruct (Z.eqb_spec (Z.of_nat (length l)) 32) as [E|]; [|done].
  destruct (String.eqb_spec (raw_std_encode l) key) as [<-|]; [|done]. intros _.
  unfold raw_std_encode. by rewrite slen_encode, E.
Qed.

Lemma state_size state t :
  EnrollmentState_Validate state = Ok tt → slen (ControllerURL state) ≤ 4096 →
  Marshal state = Some t → slen t < maxStateBytes.
Proof.
  intros Hv Hl He. unfold EnrollmentState_Validate in Hv. repeat case_match; try done. bool_prop.
  unfold Marshal in He. cbn [enc State_codec] in He.
  apply Z.le_lt_trans with (struct_bound [("schema", 45); ("schema_version", 20);
    ("controller_url", 24578); ("device_id", 130); ("device_credential", 3074);
    ("policy_public_key", 260); ("enrolled_at", 37)]); [apply (slen_struct _ _ _ He)|by vm_compute].
  unfold State_parts. bounds; try (apply slen_time).
  - rewrite H. by vm_compute.
  - rewrite H5. by vm_compute.
  - etransitivity; [apply slen_quote_any|lia].
  - by apply (slen_quote_identifier 128).
  - unfold safeCredential in H2. destruct (_ || _) eqn:E; [done|]. bool_prop.
    etransitivity; [apply slen_quote_any|lia].
  - etransitivity; [apply slen_quote_any|]. apply key_length in H3. lia.
Qed.

(** A state that was saved is the state that is loaded. *)
Lemma state_saved state :
  EnrollmentState_Validate state = Ok tt → slen (ControllerURL state) ≤ 4096 → wf state →
  ∃ content, state_content state = Ok content ∧ LoadState (Some content) = Ok state.
Proof.
  intros Hv Hl Hwf. destruct (decode_strict_line state Hwf) as (t & Ht & Hd).
  pose proof (state_size state t Hv Hl Ht) as Hs. unfold maxStateBytes in Hs.
  exists (t +:+ String "010" ""). unfold state_content, LoadState, maxStateBytes. rewrite Ht. split.
  - by rewrite (proj2 (Z.ltb_ge _ _)) by lia.
  - rewrite slen_app. change (slen (String "010" "")) with 1.
    rewrite (proj2 (Z.ltb_ge _ _)) by lia. by rewrite Hd, Hv.
Qed.

(** [map[string]string] writes its members sorted: the documents of a grant
    whose credential comes first. *)
Definition rotation_codec : Codec EnrollmentGrant := {|
  enc g := enc_struct [("device_credential", f_str (DeviceCredential g)); ("device_id", f_str (DeviceID g))];
  dec := dec; wf := wf |}.

Lemma rotation_laws : @CodecLaws _ rotation_codec.
Proof.
  constructor. intros g H. cbn [wf enc dec rotation_codec Grant_codec] in *. wf_split.
  struct_laws [("device_credential", f_str (DeviceCredential g)); ("device_id", f_str (DeviceID g))].
  by destruct g.
Qed.

Lemma rotation_shaped : @ShapedLaws _ rotation_codec Grant_shape.
Proof.
  constructor. intros g t H He. cbn [wf enc rotation_codec Grant_codec] in *. wf_split.
  apply (known_struct _ [("device_credential", f_str (DeviceCredential g)); ("device_id", f_str (DeviceID g))]);
    [vm_compute; reflexivity|known_fields|exact He|known_fields].
Qed.

Lemma grant_size g t :
  slen (DeviceID g) ≤ 128 → slen (DeviceCredential g) ≤ 512 →
  (enc g = Some t ∨ @enc _ rotation_codec g = Some t) → slen t < maxRotationResponseBytes.
Proof.
  intros H1 H2 He. apply Z.le_lt_trans with (struct_bound [("device_id", 770); ("device_credential", 3074)]);
    [|by vm_compute].
  destruct He as [He|He].
  - apply (slen_struct _ _ _ He). unfold Grant_parts. bounds; (etransitivity; [apply slen_quote_any|lia]).
  - change (struct_bound [("device_id", 770); ("device_credential", 3074)])
      with (struct_bound [("device_credential", 3074); ("device_id", 770)]).
    apply (slen_struct _ _ _ He). bounds; (etransitivity; [apply slen_quote_any|lia]).
Qed.

(** ** Rotation *)

Lemma wrap_ok {S A} f (m : eff S A) s s' a : m s = (s', Ok a) → wrap_err f m s = (s', Ok a).
Proof. unfold wrap_err. by intros ->. Qed.

Lemma safe_token bytes : length bytes = 32%nat → is_bytes bytes → safeCredential (token_of bytes) = true.
Proof.
  intros Hl Hb. unfold safeCredential, token_of.
  assert (slen (raw_url_encode bytes) = 43) as -> by (unfold raw_url_encode; by rewrite slen_encode, Hl).
  cbn [Z.ltb Z.compare Pos.compare Pos.compare_cont orb].
  pose proof (url_all_runes bytes Hb) as H. unfold all_runes in *.
  apply forallb_forall. intros r Hr. apply (proj1 (forallb_forall _ _) H) in Hr. clear H.
  pose proof (ident_rune_not_space r Hr) as Hs. rewrite Hs. cbn [negb orb].
  unfold ident_rune, is_alnum, is_lower_alpha, is_upper_alpha, is_digit, is_control, between in *.
  apply negb_true_iff, orb_false_iff. rewrite !andb_false_iff, !Z.leb_gt.
  rewrite !orb_true_iff, !andb_true_iff, !Z.leb_le, !Z.eqb_eq in Hr. lia.
Qed.

Lemma with_credential_valid credential state :
  EnrollmentState_Validate state = Ok tt → safeCredential credential = true →
  EnrollmentState_Validate (with_credential credential state) = Ok tt.
Proof.
  unfold EnrollmentState_Validate. intros Hv Hc. cbn [State_Schema State_SchemaVersion ControllerURL
    State_DeviceID State_DeviceCredential PolicyPublicKey State_EnrolledAt with_credential].
  rewrite Hc. repeat case_match; done.
Qed.

Lemma with_credential_wf bytes state :
  is_bytes bytes → wf state → wf (with_credential (token_of bytes) state).
Proof.
  intros Hb (Hu & Hrest). split; [|exact Hrest]. unfold utf8 in *.
  cbn [State_Schema ControllerURL State_DeviceID State_DeviceCredential PolicyPublicKey with_credential].
  repeat (apply Forall_cons in Hu as [? Hu]). repeat constructor; try done.
  apply is_ascii_valid. eapply all_runes_ascii; [apply ident_rune_ascii|by apply url_all_runes].
Qed.

(** Only the decoder matters to the reader. *)
Lemma expect_json_dec {A} (C1 C2 : Codec A) (S : Shaped A) limit response :
  (∀ t, @dec A C1 t = @dec A C2 t) →
  @expect_json A C1 S limit response = @expect_json A C2 S limit response.
Proof.
  intros H. unfold expect_json, decode_strict. destruct response as [response [|]]; [done|].
  destruct (negb _); [done|]. destruct (_ <? _); [done|].
  destruct (value_text _) as [[v rest]|]; [|done]. cbn [mbind option_bind].
  destruct (_ && _); [|done]. by rewrite H.
Qed.

Lemma expect_rotation id bytes :
  validIdentifier id = true → length bytes = 32%nat → is_bytes bytes →
  let grant := {| DeviceID := id; DeviceCredential := token_of bytes |} in
  expect_json maxRotationResponseBytes (secured (writeJSON 200 (@Marshal _ rotation_codec grant)), false) = Ok grant.
Proof.
  intros Hid Hl Hb grant. pose proof rotation_laws as LW. pose proof rotation_shaped as SH.
  assert (@wf _ rotation_codec grant) as Hwf.
  { cbn. repeat constructor; [by apply identifier_utf8|].
    apply is_ascii_valid. eapply all_runes_ascii; [apply ident_rune_ascii|by apply url_all_runes]. }
  destruct (@enc_wf _ rotation_codec LW grant Hwf) as (text & Ht & _).
  rewrite (expect_json_dec Grant_codec rotation_codec) by reflexivity.
  refine (@expect_written _ rotation_codec LW Grant_shape SH maxRotationResponseBytes 200 grant text Hwf Ht _).
  eapply grant_size; [| |by right]; cbn [DeviceID DeviceCredential].
  - apply identifier_syntax_inv in Hid as (_ & Hid & _). exact Hid.
  - change (slen (token_of bytes) ≤ 512). unfold token_of, raw_url_encode. by rewrite slen_encode, Hl.
Qed.

Lemma RotateDeviceCredential_grants bytes id s row :
  devices s !! id = Some row → not_revoked row = true →
  RotateDeviceCredential (Some bytes) id clock s =
    (set_devices (<[id := set_credential (Sum256 (token_of bytes)) (timeText clock) row]> (devices s)) s,
     Ok (token_of bytes)).
Proof.
  intros Hr Hn. pose proof (effect_runs clock _ s _ (eff_rotate clock s bytes id row Hr Hn)) as Hrun.
  cbn [run] in Hrun. unfold discard in Hrun. apply eff_bind_ok_inv in Hrun as (s1 & c & Hc & [= <-]).
  rewrite Hc. do 2 f_equal. clear -Hc HL. unfold RotateDeviceCredential in Hc. stmt_inv.
  match goal with H : newCredential _ = Ok _ |- _ => by injection H as <- end.
Qed.

(** A rotation hands over: the endpoint's new state is the one it will
    load, the credential in it is the one the controller now authenticates the
    device by, the endpoint stays enrolled, and the credential it had is
    refused. *)
Theorem RotateCredential_delivers seed client bytes w :
  enrolled server origin seed client w → wf client → slen origin ≤ 4096 →
  store_ok (remote w) → clock_ok clock →
  random_secret random = Some bytes → length bytes = 32%nat → is_bytes bytes →
  ∃ w' updated, RotateCredential client w = (w', Ok updated) ∧
    updated = with_credential (token_of bytes) client ∧
    RotateDeviceCredential (random_secret random) (State_DeviceID client) clock (remote w)
      = (remote w', Ok (token_of bytes)) ∧
    enrolled server origin seed updated w' ∧ policy_files w' = policy_files w ∧
    (Sum256 (presented (State_DeviceCredential client)) ≠ Sum256 (token_of bytes) →
     AuthenticateDevice (State_DeviceID client) (State_DeviceCredential client) (remote w')
       = Err ErrUnauthenticated).
Proof.
  intros Hen Hwf Hlen HS Hclk Hrand Hl Hb. pose proof Hen as [Hst Ho Hp Hsg Hseed [device Hd]].
  pose proof (λ path, enrolled_path server origin seed client w path Hen) as Hu.
  pose proof (Authenticate_id _ _ _ _ Hd) as Hid.
  destruct (Authenticate_active _ _ _ _ Hd) as (row & Hr & Hn & _).
  pose proof (LoadState_valid _ _ Hst) as Hv. pose proof Hv as (_ & Hsi & Hsc & Hk)%state_valid_inv.
  pose proof (eff_rotate clock (remote w) bytes _ row Hr Hn) as Heff.
  set (s' := set_devices _ _) in Heff.
  assert (op_ok clock (OpRotateDeviceCredential (Some bytes) (State_DeviceID client))) as Hop.
  { split; [done|]. by intros ? [= <-]. }
  pose proof (effect_ok _ _ _ _ Hop HS Heff) as HS'.
  pose proof (RotateDeviceCredential_grants bytes _ _ _ Hr Hn) as Hgrant. fold s' in Hgrant.
  pose proof (Authenticate_row (State_DeviceID client) (token_of bytes) s' _ HS'
    ltac:(unfold s'; tables; by rewrite lookup_insert, decide_True)) as [Hnew _].
  destruct Hnew as (device' & Hd' & _); [by rewrite presented_token|].
  pose proof (Authenticate_row (State_DeviceID client) (State_DeviceCredential client) s' _ HS'
    ltac:(unfold s'; tables; by rewrite lookup_insert, decide_True)) as [_ Hold].
  clearbody s'. set (updated := with_credential (token_of bytes) client).
  pose proof (safe_token bytes Hl Hb) as Hsafe.
  destruct (state_saved updated) as (content & Hcontent & Hload);
    [by apply with_credential_valid|by rewrite <-Ho in Hlen|by apply with_credential_wf|].
  set (grant := {| DeviceID := State_DeviceID client; DeviceCredential := token_of bytes |}).
  assert (perform "POST" (origin +:+ "/v1/agent/credentials/rotate") (State_DeviceID client)
    (State_DeviceCredential client) None 0 200 "rotate credential" w =
    (set_remote s' w, Ok (secured (writeJSON 200 (@Marshal _ rotation_codec grant)), false))) as Hperf.
  { apply (perform_network _ _ _ _ _ _ _ _ _ _ _ _ _ ""); [done|by apply Hu| |done].
    rewrite (agent_served _ _ _ rotateCredential _ _ _ _ _ _ device); [|done|done|reflexivity].
    unfold rotateCredential, with_empty_body, respond, requireEmptyBody, sent. cbn [Body].
    rewrite String.eqb_refl. cbn [negb]. rewrite Hid, Hrand, Hgrant. reflexivity. }
  pose proof (expect_rotation (State_DeviceID client) bytes Hsi Hl Hb) as Hread. cbv zeta in Hread.
  fold grant in Hread.
  exists {| remote := s'; state_file := Some content; policy_files := policy_files w |}, updated.
  split_and!; try done.
  - unfold RotateCredential. rewrite Ho, (eff_bind_ok _ _ _ _ _ Hperf), Hread, pure_bind.
    unfold grant. cbn [DeviceID DeviceCredential]. rewrite String.eqb_refl, Hsafe. cbn [negb orb fail_if].
    rewrite pure_bind. fold updated.
    assert (replaceState updated (set_remote s' w) =
      ({| remote := s'; state_file := Some content; policy_files := policy_files w |}, Ok tt)) as Hrep.
    { pose proof (with_credential_valid _ _ Hv Hsafe) as Hvu. unfold updated in Hcontent |- *.
      unfold replaceState. rewrite Hvu, pure_bind.
      destruct (state_file w) as [old|] eqn:Ef; [|done].
      rewrite (query_bind _ _ _ tt) by (cbn [state_file set_remote]; by rewrite Ef).
      by rewrite Hcontent, pure_bind. }
    rewrite (eff_bind_ok _ _ _ _ tt (wrap_ok _ _ _ _ _ Hrep)). reflexivity.
  - by rewrite Hrand.
  - constructor; try done. by exists device'.
  - intros Hne. apply Hold. intros [_ E]. by apply Hne.
Qed.

(** ** Enrollment *)

Lemma enrollment_size r t :
  slen (EnrollmentToken r) ≤ 512 → metadata_fits (Request_Device r) →
  Marshal r = Some t → slen t ≤ 40000.
Proof.
  intros Hl Hm He. unfold Marshal in He. cbn [enc enrollment_codec] in He.
  etransitivity; [eapply (slen_struct _ [("enrollment_token", 3074); ("device", 30000)] _ He)|by vm_compute].
  unfold enrollment_parts. bounds.
  - etransitivity; [apply slen_quote_any|lia].
  - intros v. by apply metadata_size.
Qed.

(** What the endpoint is given to enroll with. *)
Record enrollable (environment : gmap string string) (tokenEnv token key : string)
    (md : DeviceMetadata) (now : Time) (w : World Store) : Prop := {
  el_name : validEnvironmentName tokenEnv = true;
  el_token : environment !! tokenEnv = Some token ∧ safeCredential token = true ∧ valid_utf8 token = true;
  el_metadata : DeviceMetadata_Validate md = Ok tt ∧ metadata_fits md;
  el_origin : validateControllerURL origin = Ok origin ∧ slen origin ≤ 4096 ∧ valid_utf8 origin = true;
  el_key : is_ok (decodePublicKey key) = true ∧ valid_utf8 key = true;
  el_fresh : state_file w = None;
  el_now : is_zero (utc now) = false ∧ representable (utc now) = true;
}.

Lemma safe_length token : safeCredential token = true → token ≠ "" ∧ slen token ≤ 512.
Proof.
  intros Hs. split; [intros ->; discriminate Hs|].
  unfold safeCredential in Hs. destruct (_ || _) eqn:E; [done|]. bool_prop. lia.
Qed.

(** The controller's side: the device it grants is the one it authenticates. *)
Lemma Enroll_grants b1 b2 token md row s :
  DeviceMetadata_Validate md = Ok tt → safeCredential token = true → store_ok s → clock_ok clock →
  length b1 = 18%nat → is_bytes b1 → length b2 = 32%nat → is_bytes b2 →
  enrollment_tokens s !! Sum256 token = Some row → token_usable (timeText clock) row = true →
  devices s !! raw_url_encode b1 = None →
  ∃ s1 grant dev device,
    Enroll (Some b1) (Some b2) token md clock s = (s1, Ok (grant, dev)) ∧
    effect clock s (OpEnroll (Some b1) (Some b2) token md) s1 ∧
    DeviceID grant = raw_url_encode b1 ∧ DeviceCredential grant = token_of b2 ∧
    AuthenticateDevice (raw_url_encode b1) (token_of b2) s1 = Ok device ∧ Group device = tk_group_name row.
Proof.
  intros Hmd [Hne Htl]%safe_length HS Hclk L1 B1 L2 B2 Hrow Huse Hnone.
  pose proof (eff_enroll clock s b1 b2 token md row Hmd Hne ltac:(lia) Hrow Huse Hnone) as Heff.
  match type of Heff with effect _ _ _ ?t => set (s' := t) in Heff end.
  assert (op_ok clock (OpEnroll (Some b1) (Some b2) token md)) as Hop.
  { split; [done|]. split; intros ? [= <-]; done. }
  pose proof (effect_ok _ _ _ _ Hop HS Heff) as HS'.
  pose proof (Authenticate_row (raw_url_encode b1) (token_of b2) s' _ HS'
    ltac:(unfold s'; tables; by rewrite lookup_insert, decide_True)) as [Hnew _].
  destruct Hnew as (device & Hd & _ & Hg & _); [by rewrite presented_token|]. clearbody s'.
  pose proof (effect_runs _ _ _ _ Heff) as Hrun. cbn [run] in Hrun. unfold discard in Hrun.
  apply eff_bind_ok_inv in Hrun as (s1 & [grant dev] & Henroll & [= <-]).
  destruct (Enroll_result _ _ _ _ _ _ _ _ _ Henroll) as (? & ? & [= <-] & [= <-] & Hgi & Hgc & _).
  by exists s1, grant, dev, device.
Qed.

(** The request as the controller serves it. *)
Lemma enroll_performed request text grant dev s1 w :
  wf request → Marshal request = Some text → slen text ≤ 40000 → validateControllerURL origin = Ok origin →
  Enroll (random_id random) (random_secret random) (EnrollmentToken request) (Request_Device request) clock (remote w)
    = (s1, Ok (grant, dev)) →
  perform "POST" (origin +:+ "/v1/agent/enroll") "" "" (Some (Marshal request))
    maxEnrollmentRequestBytes 201 "enroll" w = (set_remote s1 w, Ok (secured (writeJSON 201 (Marshal grant)), false)).
Proof.
  intros Hwr Ht Hsize Hurl Henroll. apply (perform_network _ _ _ _ _ _ _ _ _ _ _ _ _ text);
    [rewrite Ht; apply request_body_fits; unfold maxEnrollmentRequestBytes; lia
    |by apply (validated_path _ _ _ Hurl)| |done].
  unfold serve, securityHeaders, mux.
  change (find_route (sent "POST" "/v1/agent/enroll" "" "" (bool_decide (is_Some (Some (Marshal request)))) text)
    (routes server)) with (Some (enroll, "")).
  unfold enroll. change (bool_decide (is_Some (Some (Marshal request)))) with true.
  rewrite (body_read defaultJSONBodyLimit _ _ _ _ request text _ Hwr Ht)
    by (unfold defaultJSONBodyLimit; lia).
  rewrite Henroll. reflexivity.
Qed.

Lemma enrollment_answer_fits grant text :
  validIdentifier (DeviceID grant) = true → safeCredential (DeviceCredential grant) = true → enc grant = Some text →
  slen text < maxEnrollmentResponseBytes.
Proof.
  intros (_ & Hi & _)%identifier_syntax_inv [_ Hc]%safe_length He.
  change maxEnrollmentResponseBytes with maxRotationResponseBytes. eapply grant_size; [done|done|by left].
Qed.

(** The state that is saved for a grant. *)
Definition granted_state (grant : EnrollmentGrant) (key : string) (now : Time) : EnrollmentState := {|
  State_Schema := StateSchema; State_SchemaVersion := StateSchemaVersion; ControllerURL := origin;
  State_DeviceID := DeviceID grant; State_DeviceCredential := DeviceCredential grant; PolicyPublicKey := key;
  State_EnrolledAt := utc now |}.

Lemma granted_state_saved environment tokenEnv token key md now w grant :
  enrollable environment tokenEnv token key md now w → wf grant →
  validIdentifier (DeviceID grant) = true → safeCredential (DeviceCredential grant) = true →
  EnrollmentState_Validate (granted_state grant key now) = Ok tt ∧
  ∃ content, state_content (granted_state grant key now) = Ok content ∧
             LoadState (Some content) = Ok (granted_state grant key now).
Proof.
  intros [_ _ _ (Hurl & Hlen & Huu) (Hk & Hku) _ (Hz & Hrep)] Hwg Hident Hsafe.
  assert (EnrollmentState_Validate (granted_state grant key now) = Ok tt) as Hvs.
  { unfold EnrollmentState_Validate, granted_state. cbn [State_Schema State_SchemaVersion ControllerURL
      State_DeviceID State_DeviceCredential PolicyPublicKey State_EnrolledAt].
    rewrite Hurl, bool_decide_true, Hsafe, Hk, Hz by done.
    change (safeIdentifier (DeviceID grant) 128) with (validIdentifier (DeviceID grant)). by rewrite Hident. }
  split; [done|]. apply (state_saved _ Hvs Hlen).
  split; [|done]. cbn in Hwg. unfold utf8 in *. cbn [State_Schema ControllerURL State_DeviceID
    State_DeviceCredential PolicyPublicKey granted_state].
  repeat (apply Forall_cons in Hwg as [? Hwg]). by repeat constructor.
Qed.

(** C7. An enrollment makes a device both sides agree on: an endpoint that
    presents a usable token is enrolled by the controller in the group of the
    token, saves the state it will load, and the identifier and credential in
    it are those the controller authenticates. *)
Theorem Enroll_delivers environment statePath tokenEnv token key md now w b1 b2 row :
  enrollable environment tokenEnv token key md now w → blank statePath = false →
  store_ok (remote w) → clock_ok clock →
  random_id random = Some b1 → length b1 = 18%nat → is_bytes b1 →
  random_secret random = Some b2 → length b2 = 32%nat → is_bytes b2 →
  enrollment_tokens (remote w) !! Sum256 token = Some row → token_usable (timeText clock) row = true →
  devices (remote w) !! raw_url_encode b1 = None →
  ∃ w' state device,
    EnrollFromEnvironment environment statePath origin tokenEnv key md now w = (w', Ok state) ∧
    effect clock (remote w) (OpEnroll (Some b1) (Some b2) token md) (remote w') ∧
    LoadState (state_file w') = Ok state ∧ ControllerURL state = origin ∧ PolicyPublicKey state = key ∧
    AuthenticateDevice (State_DeviceID state) (State_DeviceCredential state) (remote w') = Ok device ∧
    Group device = tk_group_name row ∧ policy_files w' = policy_files w.
Proof.
  intros Hel Hpath HS Hclk R1 L1 B1 R2 L2 B2 Hrow Huse Hnone.
  pose proof Hel as [Hname (Henv & Hsafe & Htu) (Hmd & Hfit) (Hurl & Hlen & Huu) (Hk & Hku) Hfresh (Hz & Hrep)].
  destruct (Enroll_grants b1 b2 token md row (remote w)) as (s1 & grant & dev & device & Henroll & Heff & Hgi & Hgc & Hd & Hg);
    [done..|].
  pose proof (url_identifier b1 B1 L1) as Hident. pose proof (safe_token b2 L2 B2) as Hsafe2.
  assert (wf grant) as Hwg.
  { cbn. rewrite Hgi, Hgc. repeat constructor; [by apply identifier_utf8|].
    apply is_ascii_valid. eapply all_runes_ascii; [apply ident_rune_ascii|by apply url_all_runes]. }
  rewrite <-Hgi in Hident. rewrite <-Hgc in Hsafe2.
  destruct (enc_wf grant Hwg) as (gtext & Hgt & _).
  set (request := {| EnrollmentToken := token; Request_Device := md |}).
  assert (wf request) as Hwr by (split; [by repeat constructor|apply Hfit]).
  destruct (enc_wf request Hwr) as (text & Ht & _).
  destruct (safe_length token Hsafe) as [_ Htl].
  pose proof (enrollment_size request text Htl Hfit Ht) as Hsize.
  pose proof (enroll_performed request text grant dev s1 w Hwr Ht Hsize Hurl) as Hperf.
  rewrite R1, R2 in Hperf. specialize (Hperf Henroll).
  destruct (granted_state_saved _ _ _ _ _ _ _ grant Hel Hwg Hident Hsafe2) as (Hvs & content & Hcontent & Hload).
  set (state := granted_state grant key now) in *.
  exists {| remote := s1; state_file := Some content; policy_files := policy_files w |}, state, device.
  cbn [remote state_file policy_files State_DeviceID State_DeviceCredential state granted_state]. rewrite Hgi, Hgc.
  split_and!; try done. unfold EnrollFromEnvironment. rewrite Hname. cbn [negb fail_if].
  rewrite pure_bind, Henv, Hsafe, pure_bind, Hmd. cbn [map_err].
  rewrite pure_bind, Hurl, pure_bind. destruct (decodePublicKey key) as [pk|]; [|done].
  rewrite pure_bind, Hpath. cbn [fail_if]. rewrite pure_bind, (query_bind _ _ _ tt) by (by rewrite Hfresh).
  fold request. rewrite (eff_bind_ok _ _ _ _ _ Hperf).
  rewrite (expect_written maxEnrollmentResponseBytes 201 grant gtext Hwg Hgt) by by eapply enrollment_answer_fits.
  rewrite pure_bind. cbv zeta. fold state.
  assert (createState state (set_remote s1 w) =
    ({| remote := s1; state_file := Some content; policy_files := policy_files w |}, Ok tt)) as Hcreate.
  { unfold createState. rewrite Hvs, pure_bind, (query_bind _ _ _ tt)
      by (cbn [state_file set_remote]; by rewrite Hfresh).
    by rewrite Hcontent, pure_bind. }
  rewrite (eff_bind_ok _ _ _ _ _ Hcreate). reflexivity.
Qed.
End enrollment.
