(* ===== verification/ServerDemo.v ===== *)
(** * The protocol: a worked run

    The run of [ControllerDemo] served over the server, with a client enrolled
    in it: the theorems about the server and about the endpoint and its
    controller are applied to it. *)

From S2P Require Import Prelude GoString GoHttp GoLib GoUrl Calendar GoTime Json JsonCompact Model ModelJson.
From S2P Require Import StrictJson Profile GoCrypto Base64 JsonSize ControllerTypes.
From S2P Require Import ControllerHttp ControllerStore ControllerAuth ControllerSteps ControllerSpec.
From S2P Require Import ControllerInvariant ControllerLifecycle ControllerQueries.
From S2P Require Import ControllerServer ControllerServerFacts Managed ManagedFacts Redact ManagedClient.
From S2P Require Import Limits Delivery Enrollment DemoCrypto.
From S2P Require Import ControllerDemo ManagedDemo.
#[local] Open Scope Z_scope.
#[local] Existing Instances checksum_hash checksum_laws toy toy_laws.
Import Client.

(** ** The server *)

Definition demo_server : Server :=
  {| principals := [demo_principal]; signer := Some (signer_of toy_seed) |}.
Definition demo_bytes : Random :=
  {| random_id := Some (demo_random 18 5); random_secret := Some (demo_random 32 6) |}.

Definition demo_request (method : string) (path : list string) (token body : string) : Request := {|
  Method := method; Path := path;
  Header := {["Authorization" := "Bearer " +:+ token; "X-Device-ID" := demo_id;
              "Content-Type" := "application/json"]};
  Query := ∅; Body := body |}.

Definition revoke_request : Request :=
  demo_request "POST" ["v1"; "admin"; "devices"; demo_id; "revoke"] "secret" "".
Definition stolen_request : Request :=
  demo_request "POST" ["v1"; "agent"; "heartbeat"] "guess" "{}".

Lemma demo_env : env_ok demo_bytes demo_now.
Proof. split; [|split]; [apply demo_random_ok; lia|apply demo_random_ok; lia|apply demo_clock]. Qed.

(** The administrator revokes the device; the answer has no content. *)
Example revoke_demo :
  Status (serve demo_server revoke_request demo_bytes demo_now demo_store).2 = 204 ∧
  AuthenticateDevice demo_id demo_credential
    (serve demo_server revoke_request demo_bytes demo_now demo_store).1 = Err ErrUnauthenticated.
Proof. split; vm_compute; reflexivity. Qed.

(** A device enrolls with the token that was made for it. *)
Definition token_store : Store := exec [op_token].
Definition enroll_request : Request :=
  demo_request "POST" ["v1"; "agent"; "enroll"] "" (default "" (Marshal
    {| EnrollmentToken := demo_token; Request_Device := demo_metadata |})).
Definition enroll_answer := serve demo_server enroll_request demo_bytes demo_now token_store.

Lemma enroll_answer_changes : enroll_answer.1 ≠ token_store ∧ Status enroll_answer.2 = 201.
Proof.
  split; [|vm_compute; reflexivity]. intros Hs. apply (f_equal (λ s, size (devices s))) in Hs.
  vm_compute in Hs. discriminate Hs.
Qed.

Lemma serve_entitled_witness :
  ∃ o, entitled demo_server demo_now token_store enroll_request o ∧ asked demo_bytes enroll_request o ∧
    run demo_now o token_store = (enroll_answer.1, Ok tt).
Proof.
  destruct (serve_entitled demo_server enroll_request demo_bytes demo_now token_store enroll_answer.1
    enroll_answer.2 demo_env (surjective_pairing _)) as [[Hs|(o & _ & He & Ha & Hr)] _].
  - destruct (proj1 enroll_answer_changes Hs).
  - exists o. split; [exact He|]. split; [exact Ha|exact Hr].
Defined.

Lemma served_invariant_witness :
  store_ok (serve demo_server revoke_request demo_bytes demo_now demo_store).1.
Proof.
  refine (proj2 (served_invariant demo_server demo_store _ demo_reachable (rtc_once _ _ _))).
  exact (served_request demo_server demo_store revoke_request demo_bytes demo_now demo_env).
Defined.

Lemma serve_gates_witness :
  serve demo_server stolen_request demo_bytes demo_now demo_store
    = (demo_store, secured writeUnauthorized).
Proof.
  refine (proj1 (serve_gates demo_server stolen_request demo_bytes demo_now demo_store
    "POST" "/v1/agent/heartbeat" _) _ _).
  - split; [reflexivity|]. exists []. vm_compute. reflexivity.
  - left.
  - intros token Ht. vm_compute in Ht. injection Ht as <-. vm_compute. reflexivity.
Defined.

(** ** The client *)

Definition demo_origin : string := "https://fleet.example".

Definition demo_client : EnrollmentState := {|
  State_Schema := StateSchema; State_SchemaVersion := StateSchemaVersion;
  ControllerURL := demo_origin; State_DeviceID := demo_id;
  State_DeviceCredential := demo_credential; PolicyPublicKey := toy_pinned;
  State_EnrolledAt := demo_now |}.

Definition demo_content : string :=
  match state_content demo_client with Ok content => content | Err _ => "" end.

Definition demo_world : World Store :=
  {| remote := demo_store; state_file := Some demo_content; policy_files := no_files |}.

Lemma demo_enrolled : enrolled demo_server demo_origin toy_seed demo_client demo_world.
Proof.
  constructor.
  - vm_compute. reflexivity.
  - reflexivity.
  - reflexivity.
  - reflexivity.
  - split; [vm_compute; reflexivity|exact toy_seed_bytes].
  - assert (is_ok (AuthenticateDevice demo_id demo_credential demo_store) = true) as H
      by (vm_compute; reflexivity).
    cbn [State_DeviceID State_DeviceCredential demo_client remote demo_world].
    destruct (AuthenticateDevice demo_id demo_credential demo_store) as [d|]; [by exists d|done].
Qed.

Lemma demo_remote_ok : store_ok (remote demo_world).
Proof. apply (reachable_store_ok demo_store demo_reachable). Qed.

Lemma demo_fits : metadata_fits demo_metadata.
Proof.
  split; [by repeat constructor|].
  repeat first [apply Forall_nil_2 | apply Forall_cons_2; [by vm_compute|]].
Qed.

Definition demo_signed : SignedPolicy := signed_of 1.

Lemma demo_sign : Sign (signer demo_server) (demo_policy 1) = Ok demo_signed.
Proof. vm_compute. reflexivity. Qed.

Lemma demo_assigned : PolicyForDevice (State_DeviceID demo_client) (remote demo_world) = Ok (demo_policy 1).
Proof. vm_compute. reflexivity. Qed.

Lemma FetchPolicy_delivers_witness :
  ∃ signed, Sign (signer demo_server) (demo_policy 1) = Ok signed ∧ Document signed = demo_policy 1.
Proof.
  destruct (FetchPolicy_delivers demo_server demo_origin demo_bytes demo_now toy_seed demo_client
    (demo_policy 1) demo_world demo_enrolled demo_assigned) as (signed & H1 & H2 & _).
  exists signed. split; [exact H1|exact H2].
Defined.

Lemma documents_fit_witness :
  ∃ t, Marshal (demo_policy 1) = Some t ∧ slen t ≤ policyJSONBodyLimit.
Proof.
  destruct (documents_fit demo_now (demo_report demo_now) (demo_policy 1) toy_seed demo_signed)
    as (_ & H & _).
  destruct (Marshal (demo_policy 1)) as [t|] eqn:E; [|vm_compute in E; discriminate E].
  exists t. split; [reflexivity|]. apply H; [vm_compute; reflexivity|apply demo_policy_typed; lia|reflexivity].
Defined.

Lemma RotateCredential_delivers_witness :
  ∃ w' updated, RotateCredential (TR := network demo_server demo_origin demo_bytes demo_now)
    demo_client demo_world = (w', Ok updated) ∧
    AuthenticateDevice demo_id demo_credential (remote w') = Err ErrUnauthenticated.
Proof.
  destruct (RotateCredential_delivers demo_server demo_origin demo_bytes demo_now toy_seed demo_client
    (demo_random 32 6) demo_world demo_enrolled) as (w' & updated & H1 & _ & _ & _ & _ & H2).
  - split; [by repeat constructor|]. split; [by vm_compute|by vm_compute].
  - by vm_compute.
  - exact demo_remote_ok.
  - exact demo_clock.
  - reflexivity.
  - reflexivity.
  - apply Forall_replicate. lia.
  - exists w', updated. split; [exact H1|]. apply H2. by vm_compute.
Defined.

(** Another device enrolls with a second token. *)
Definition second_token : string := token_of (demo_random 32 9).
Definition op_second : op :=
  OpCreateEnrollmentToken (Some (demo_random 32 9)) "alice" "servers" hour.
Definition second_world : World Store :=
  {| remote := (run demo_now op_second demo_store).1; state_file := None; policy_files := no_files |}.

Lemma second_store_ok : store_ok (remote second_world).
Proof.
  apply reachable_store_ok. destruct demo_reachable as [now H]. exists now.
  eapply rtc_r; [exact H|]. constructor. split; [exact demo_clock|apply demo_random_ok; lia].
Qed.

Lemma second_enrollable :
  enrollable demo_origin {["OMS_TOKEN" := second_token]} "OMS_TOKEN" second_token toy_pinned
    demo_metadata demo_now second_world.
Proof.
  constructor.
  - reflexivity.
  - split_and!; by vm_compute.
  - split; [by vm_compute|exact demo_fits].
  - split_and!; by vm_compute.
  - split; by vm_compute.
  - reflexivity.
  - split; by vm_compute.
Qed.

Lemma Enroll_delivers_witness :
  ∃ w' state, EnrollFromEnvironment (TR := network demo_server demo_origin demo_bytes demo_now)
    {["OMS_TOKEN" := second_token]} "state.json" demo_origin "OMS_TOKEN" toy_pinned demo_metadata
    demo_now second_world = (w', Ok state) ∧ LoadState (state_file w') = Ok state.
Proof.
  destruct (Enroll_delivers demo_server demo_origin demo_bytes demo_now {["OMS_TOKEN" := second_token]}
    "state.json" "OMS_TOKEN" second_token toy_pinned demo_metadata demo_now second_world
    (demo_random 18 5) (demo_random 32 6) {| tk_group_name := "servers";
      tk_expires_at := timeText (add demo_now hour); tk_created_at := timeText demo_now;
      tk_created_by := "alice"; tk_used_at := None; tk_used_by_device_id := None |} second_enrollable)
    as (w' & state & device & H1 & _ & H2 & _);
    [reflexivity|exact second_store_ok|exact demo_clock|reflexivity|reflexivity
    |apply Forall_replicate; lia|reflexivity|reflexivity|apply Forall_replicate; lia
    |vm_compute; reflexivity|vm_compute; reflexivity|vm_compute; reflexivity|].
  exists w', state. split; [exact H1|exact H2].
Defined.

Lemma Sync_delivers_witness :
  ∃ w' l r, RedactFindings local_findings = Ok l ∧
    Sync (TR := network demo_server demo_origin demo_bytes demo_now) demo_client (Some local_findings)
      demo_metadata demo_now demo_world = (w', Ok r) ∧ FindingsSent r = Z.of_nat (length l).
Proof.
  destruct (Sync_delivers demo_server demo_origin demo_bytes demo_now toy_seed demo_client
    (demo_policy 1) (persistVerifiedPolicy toy_pinned demo_signed no_files).1 demo_metadata demo_now
    local_findings demo_world demo_enrolled demo_remote_ok demo_clock)
    as (w' & l & H1 & H2 & _).
  - by vm_compute.
  - exact demo_fits.
  - exact demo_assigned.
  - reflexivity.
  - intros signed Hs. rewrite demo_sign in Hs. injection Hs as <-. vm_compute. reflexivity.
  - by vm_compute.
  - by vm_compute.
  - by vm_compute.
  - split_and!; [exact local_reportable|by vm_compute|by vm_compute|].
    repeat first [apply Forall_nil_2 | apply Forall_cons_2; [split; by vm_compute|]].
  - eexists w', l, _. split; [exact H1|]. split; [exact H2|reflexivity].
Defined.
