(* ===== verification/IntelTypes.v ===== *)
(** * Package intel: contracts and documents

    The types of [internal/intel/contract.go], the errors of [errors.go] and
    the JSON of both.  A [Record] is a tagged union with four payload pointers
    ([option] here); the records of a bundle are [None] when the slice is nil,
    which the header check tells from an empty one. *)

From S2P Require Import Prelude GoString GoTime Json JsonCompact Model ModelJson StrictJson.
#[local] Open Scope Z_scope.

Definition BundleSchema : string := "io.oh-my-safety/intelligence-bundle".
Definition BundleSchemaVersion : Z := 1.
Definition TrustStoreSchema : string := "io.oh-my-safety/intelligence-trust-store".
Definition TrustStoreVersion : Z := 1.
Definition CurrentSchema : string := "io.oh-my-safety/intelligence-current".
Definition CurrentSchemaVersion : Z := 1.

(** [RecordType], [SignerKind] and [ConstraintOperator] are Go strings. *)
Definition RecordMaliciousSHA256 : string := "malicious_sha256".
Definition RecordRevokedSigner : string := "revoked_signer".
Definition RecordVulnerablePackage : string := "vulnerable_package".
Definition RecordSecretPattern : string := "secret_detector_pattern".

Definition SignerID : string := "signer_id".
Definition TeamID : string := "team_id".

Definition ConstraintEqual : string := "eq".
Definition ConstraintLessThan : string := "lt".
Definition ConstraintLessThanOrEqual : string := "lte".
Definition ConstraintGreaterThan : string := "gt".
Definition ConstraintGreaterThanOrEqual : string := "gte".

Record VersionConstraint := { Operator : string; Version : string }.
Record MaliciousSHA256Record := { SHA256 : string }.
Record RevokedSignerRecord := { Revoked_Kind : string; Revoked_Identifier : string }.
Record VulnerablePackageRecord := {
  Ecosystem : string;
  Package : string;
  Constraints : list VersionConstraint;
}.
Record SecretDetectorPatternRecord := { Pattern_DetectorID : string; Pattern : string }.

Record IntelRecord := {
  Record_Type : string;
  MaliciousSHA256 : option MaliciousSHA256Record;
  RevokedSigner : option RevokedSignerRecord;
  VulnerablePackage : option VulnerablePackageRecord;
  SecretPattern : option SecretDetectorPatternRecord;
}.

Record Bundle := {
  Bundle_Schema : string;
  Bundle_SchemaVersion : Z;
  BundleID : string;
  Sequence : Z;
  IssuedAt : Time;
  ExpiresAt : Time;
  MinimumAgentSchema : Z;
  Records : option (list IntelRecord);
  PayloadSHA256 : string;
  KeyID : string;
  Bundle_Signature : string;
}.

Record IntelLimits := {
  MaxBundleBytes : Z;
  MaxRecords : Z;
  MaxRecordBytes : Z;
  MaxPatternBytes : Z;
}.

Definition zero_limits : IntelLimits :=
  {| MaxBundleBytes := 0; MaxRecords := 0; MaxRecordBytes := 0; MaxPatternBytes := 0 |}.

Definition DefaultLimits : IntelLimits :=
  {| MaxBundleBytes := Z.shiftl 4 20; MaxRecords := 10000;
     MaxRecordBytes := Z.shiftl 8 10; MaxPatternBytes := Z.shiftl 1 10 |}.

Record AcceptanceState := {
  Accepted_BundleID : string;
  Accepted_Sequence : Z;
  Accepted_PayloadSHA256 : string;
}.

Record VerifyOptions := {
  Verify_Limits : IntelLimits;
  Verify_Now : Time;
  ClockSkew : Z;
  AgentSchema : Z;
  LastAccepted : option AcceptanceState;
}.

Record VerifiedBundle := {
  Verified_Bundle : Bundle;
  Canonical : string;
  Verified_Replay : bool;
}.

Record CurrentMetadata := {
  Current_Schema : string;
  Current_SchemaVersion : Z;
  BundleFile : string;
  Current_BundleID : string;
  Current_Sequence : Z;
  Current_PayloadSHA256 : string;
  BundleSHA256 : string;
  Current_KeyID : string;
}.

Definition acceptance_state (m : CurrentMetadata) : AcceptanceState :=
  {| Accepted_BundleID := Current_BundleID m; Accepted_Sequence := Current_Sequence m;
     Accepted_PayloadSHA256 := Current_PayloadSHA256 m |}.

Record InstallResult := {
  Result_Metadata : CurrentMetadata;
  Installed : bool;
  Result_Replay : bool;
}.

Record trustStoreKey := { Trust_KeyID : string; Trust_PublicKey : string }.
Record trustStoreFile := {
  Trust_Schema : string;
  Trust_SchemaVersion : Z;
  Trust_Keys : list trustStoreKey;
}.

#[export] Instance VersionConstraint_eq_dec : EqDecision VersionConstraint.
Proof. solve_decision. Defined.
#[export] Instance MaliciousSHA256Record_eq_dec : EqDecision MaliciousSHA256Record.
Proof. solve_decision. Defined.
#[export] Instance RevokedSignerRecord_eq_dec : EqDecision RevokedSignerRecord.
Proof. solve_decision. Defined.
#[export] Instance VulnerablePackageRecord_eq_dec : EqDecision VulnerablePackageRecord.
Proof. solve_decision. Defined.
#[export] Instance SecretDetectorPatternRecord_eq_dec : EqDecision SecretDetectorPatternRecord.
Proof. solve_decision. Defined.
#[export] Instance IntelRecord_eq_dec : EqDecision IntelRecord.
Proof. solve_decision. Defined.
#[export] Instance IntelLimits_eq_dec : EqDecision IntelLimits.
Proof. solve_decision. Defined.
#[export] Instance CurrentMetadata_eq_dec : EqDecision CurrentMetadata.
Proof. solve_decision. Defined.

(** ** Errors *)

Definition ErrInvalidEncoding : error := Sentinel "intel.ErrInvalidEncoding".
Definition ErrNonCanonical : error := Sentinel "intel.ErrNonCanonical".
Definition ErrBundleTooLarge : error := Sentinel "intel.ErrBundleTooLarge".
Definition ErrTooManyRecords : error := Sentinel "intel.ErrTooManyRecords".
Definition ErrInvalidBundle : error := Sentinel "intel.ErrInvalidBundle".
Definition ErrInvalidRecord : error := Sentinel "intel.ErrInvalidRecord".
Definition ErrDuplicateRecord : error := Sentinel "intel.ErrDuplicateRecord".
Definition ErrPayloadHashMismatch : error := Sentinel "intel.ErrPayloadHashMismatch".
Definition ErrUnknownKey : error := Sentinel "intel.ErrUnknownKey".
Definition ErrInvalidSignature : error := Sentinel "intel.ErrInvalidSignature".
Definition ErrExpired : error := Sentinel "intel.ErrExpired".
Definition ErrNotYetValid : error := Sentinel "intel.ErrNotYetValid".
Definition ErrAgentSchema : error := Sentinel "intel.ErrAgentSchema".
Definition ErrRollback : error := Sentinel "intel.ErrRollback".
Definition ErrSequenceConflict : error := Sentinel "intel.ErrSequenceConflict".
Definition ErrInvalidTrustStore : error := Sentinel "intel.ErrInvalidTrustStore".
Definition ErrInsecurePermissions : error := Sentinel "intel.ErrInsecurePermissions".
Definition ErrUnsafeFile : error := Sentinel "intel.ErrUnsafeFile".
Definition ErrNoCurrentBundle : error := Sentinel "intel.ErrNoCurrentBundle".
Definition ErrCurrentState : error := Sentinel "intel.ErrCurrentState".

(** The struct [recordValidationError]: its text, its operands and, for
    [Unwrap], its cause. *)
Definition recordValidationError (index : Z) (code : string) (cause : error) : error :=
  Wrapf "intel: record %d failed validation (%s)" cause [FInt index; FStr code].

Definition invalidRecord (index : Z) (code : string) : error :=
  recordValidationError index code ErrInvalidRecord.

(** ** Documents *)

Definition Constraint_parts (c : VersionConstraint) : list part :=
  [("operator", f_str (Operator c)); ("version", f_str (Version c))].

#[export] Instance Constraint_codec : Codec VersionConstraint := {
  enc c := enc_struct (Constraint_parts c);
  dec := dec_struct {| Operator := ""; Version := "" |} (λ ms,
    op ← get_string ms "operator"; ve ← get_string ms "version";
    Some {| Operator := op; Version := ve |});
  wf c := utf8 [Operator c; Version c];
}.
#[export] Instance Constraint_shape : Shaped VersionConstraint :=
  Fields [("operator", Leaf); ("version", Leaf)].

Definition Malicious_parts (r : MaliciousSHA256Record) : list part := [("sha256", f_str (SHA256 r))].

#[export] Instance Malicious_codec : Codec MaliciousSHA256Record := {
  enc r := enc_struct (Malicious_parts r);
  dec := dec_struct {| SHA256 := "" |} (λ ms,
    h ← get_string ms "sha256"; Some {| SHA256 := h |});
  wf r := utf8 [SHA256 r];
}.
#[export] Instance Malicious_shape : Shaped MaliciousSHA256Record := Fields [("sha256", Leaf)].

Definition Revoked_parts (r : RevokedSignerRecord) : list part :=
  [("kind", f_str (Revoked_Kind r)); ("identifier", f_str (Revoked_Identifier r))].

#[export] Instance Revoked_codec : Codec RevokedSignerRecord := {
  enc r := enc_struct (Revoked_parts r);
  dec := dec_struct {| Revoked_Kind := ""; Revoked_Identifier := "" |} (λ ms,
    k ← get_string ms "kind"; i ← get_string ms "identifier";
    Some {| Revoked_Kind := k; Revoked_Identifier := i |});
  wf r := utf8 [Revoked_Kind r; Revoked_Identifier r];
}.
#[export] Instance Revoked_shape : Shaped RevokedSignerRecord :=
  Fields [("kind", Leaf); ("identifier", Leaf)].

Definition Vulnerable_parts (r : VulnerablePackageRecord) : list part :=
  [("ecosystem", f_str (Ecosystem r)); ("package", f_str (Package r));
   ("constraints", f_list (Constraints r))].

#[export] Instance Vulnerable_codec : Codec VulnerablePackageRecord := {
  enc r := enc_struct (Vulnerable_parts r);
  dec := dec_struct {| Ecosystem := ""; Package := ""; Constraints := [] |} (λ ms,
    e ← get_string ms "ecosystem"; p ← get_string ms "package"; cs ← get_list dec ms "constraints";
    Some {| Ecosystem := e; Package := p; Constraints := cs |});
  wf r := utf8 [Ecosystem r; Package r] ∧ Forall wf (Constraints r);
}.
#[export] Instance Vulnerable_shape : Shaped VulnerablePackageRecord :=
  Fields [("ecosystem", Leaf); ("package", Leaf); ("constraints", Items Constraint_shape)].

Definition Pattern_parts (r : SecretDetectorPatternRecord) : list part :=
  [("detector_id", f_str (Pattern_DetectorID r)); ("pattern", f_str (Pattern r))].

#[export] Instance Pattern_codec : Codec SecretDetectorPatternRecord := {
  enc r := enc_struct (Pattern_parts r);
  dec := dec_struct {| Pattern_DetectorID := ""; Pattern := "" |} (λ ms,
    d ← get_string ms "detector_id"; p ← get_string ms "pattern";
    Some {| Pattern_DetectorID := d; Pattern := p |});
  wf r := utf8 [Pattern_DetectorID r; Pattern r];
}.
#[export] Instance Pattern_shape : Shaped SecretDetectorPatternRecord :=
  Fields [("detector_id", Leaf); ("pattern", Leaf)].

Definition Record_parts (r : IntelRecord) : list part :=
  [("type", f_str (Record_Type r)); ("malicious_sha256", f_ptr (MaliciousSHA256 r));
   ("revoked_signer", f_ptr (RevokedSigner r)); ("vulnerable_package", f_ptr (VulnerablePackage r));
   ("secret_detector_pattern", f_ptr (SecretPattern r))].

Definition zero_record : IntelRecord :=
  {| Record_Type := ""; MaliciousSHA256 := None; RevokedSigner := None;
     VulnerablePackage := None; SecretPattern := None |}.

Definition wf_ptr {A} `{Codec A} (o : option A) : Prop := ∀ x, o = Some x → wf x.

#[export] Instance Record_codec : Codec IntelRecord := {
  enc r := enc_struct (Record_parts r);
  dec := dec_struct zero_record (λ ms,
    ty ← get_string ms "type"; ma ← get_opt dec ms "malicious_sha256";
    rv ← get_opt dec ms "revoked_signer"; vu ← get_opt dec ms "vulnerable_package";
    se ← get_opt dec ms "secret_detector_pattern";
    Some {| Record_Type := ty; MaliciousSHA256 := ma; RevokedSigner := rv;
            VulnerablePackage := vu; SecretPattern := se |});
  wf r := utf8 [Record_Type r] ∧ wf_ptr (MaliciousSHA256 r) ∧ wf_ptr (RevokedSigner r) ∧
    wf_ptr (VulnerablePackage r) ∧ wf_ptr (SecretPattern r);
}.
#[export] Instance Record_shape : Shaped IntelRecord :=
  Fields [("type", Leaf); ("malicious_sha256", Malicious_shape); ("revoked_signer", Revoked_shape);
    ("vulnerable_package", Vulnerable_shape); ("secret_detector_pattern", Pattern_shape)].

(** A slice without omitempty: [null] when it is nil. *)
Definition f_slice {A} `{Codec A} (o : option (list A)) : option (option string) :=
  match o with None => Some (Some "null") | Some l => f_list l end.
Definition dec_list {A} (d : string → option A) (t : string) : option (list A) :=
  vs ← read_array t; mapM d vs.

Record payloadEnvelope := { Payload_Records : option (list IntelRecord) }.
Definition payload_parts (p : payloadEnvelope) : list part :=
  [("records", f_slice (Payload_Records p))].
(** The envelope is only written. *)
Definition marshal_payload (p : payloadEnvelope) : option string := enc_struct (payload_parts p).

(** The fields of [unsignedEnvelope], and of [Bundle] after them. *)
Definition unsigned_parts (b : Bundle) : list part :=
  [("schema", f_str (Bundle_Schema b)); ("schema_version", f_int (Bundle_SchemaVersion b));
   ("bundle_id", f_str (BundleID b)); ("sequence", f_int (Sequence b));
   ("issued_at", f_req (IssuedAt b)); ("expires_at", f_req (ExpiresAt b));
   ("minimum_agent_schema", f_int (MinimumAgentSchema b)); ("records", f_slice (Records b));
   ("payload_sha256", f_str (PayloadSHA256 b)); ("key_id", f_str (KeyID b))].

Definition Bundle_parts (b : Bundle) : list part :=
  unsigned_parts b ++ [("signature", f_str (Bundle_Signature b))].

Definition zero_bundle : Bundle := {|
  Bundle_Schema := ""; Bundle_SchemaVersion := 0; BundleID := ""; Sequence := 0;
  IssuedAt := zero_time; ExpiresAt := zero_time; MinimumAgentSchema := 0; Records := None;
  PayloadSHA256 := ""; KeyID := ""; Bundle_Signature := "" |}.

#[export] Instance Bundle_codec : Codec Bundle := {
  enc b := enc_struct (Bundle_parts b);
  dec := dec_struct zero_bundle (λ ms,
    sc ← get_string ms "schema"; sv ← get_int ms "schema_version"; id ← get_string ms "bundle_id";
    sq ← get_uint ms "sequence"; ia ← get zero_time dec ms "issued_at";
    ex ← get zero_time dec ms "expires_at"; mi ← get_int ms "minimum_agent_schema";
    rs ← get_opt (dec_list dec) ms "records"; ps ← get_string ms "payload_sha256";
    ki ← get_string ms "key_id"; sg ← get_string ms "signature";
    Some {| Bundle_Schema := sc; Bundle_SchemaVersion := sv; BundleID := id; Sequence := sq;
            IssuedAt := ia; ExpiresAt := ex; MinimumAgentSchema := mi; Records := rs;
            PayloadSHA256 := ps; KeyID := ki; Bundle_Signature := sg |});
  wf b := utf8 [Bundle_Schema b; BundleID b; PayloadSHA256 b; KeyID b; Bundle_Signature b] ∧
    0 ≤ Bundle_SchemaVersion b ≤ max_int64 ∧ 0 ≤ Sequence b ≤ max_uint64 ∧
    wf (IssuedAt b) ∧ wf (ExpiresAt b) ∧ 0 ≤ MinimumAgentSchema b ≤ max_int64 ∧
    ∃ l, Records b = Some l ∧ Forall wf l;
}.
#[export] Instance Bundle_shape : Shaped Bundle :=
  Fields [("schema", Leaf); ("schema_version", Leaf); ("bundle_id", Leaf); ("sequence", Leaf);
    ("issued_at", Leaf); ("expires_at", Leaf); ("minimum_agent_schema", Leaf);
    ("records", Items Record_shape); ("payload_sha256", Leaf); ("key_id", Leaf); ("signature", Leaf)].

Definition Current_parts (m : CurrentMetadata) : list part :=
  [("schema", f_str (Current_Schema m)); ("schema_version", f_int (Current_SchemaVersion m));
   ("bundle_file", f_str (BundleFile m)); ("bundle_id", f_str (Current_BundleID m));
   ("sequence", f_int (Current_Sequence m)); ("payload_sha256", f_str (Current_PayloadSHA256 m));
   ("bundle_sha256", f_str (BundleSHA256 m)); ("key_id", f_str (Current_KeyID m))].

Definition zero_current : CurrentMetadata := {|
  Current_Schema := ""; Current_SchemaVersion := 0; BundleFile := ""; Current_BundleID := "";
  Current_Sequence := 0; Current_PayloadSHA256 := ""; BundleSHA256 := ""; Current_KeyID := "" |}.

#[export] Instance Current_codec : Codec CurrentMetadata := {
  enc m := enc_struct (Current_parts m);
  dec := dec_struct zero_current (λ ms,
    sc ← get_string ms "schema"; sv ← get_int ms "schema_version"; bf ← get_string ms "bundle_file";
    id ← get_string ms "bundle_id"; sq ← get_uint ms "sequence"; ps ← get_string ms "payload_sha256";
    bs ← get_string ms "bundle_sha256"; ki ← get_string ms "key_id";
    Some {| Current_Schema := sc; Current_SchemaVersion := sv; BundleFile := bf;
            Current_BundleID := id; Current_Sequence := sq; Current_PayloadSHA256 := ps;
            BundleSHA256 := bs; Current_KeyID := ki |});
  wf m := utf8 [Current_Schema m; BundleFile m; Current_BundleID m; Current_PayloadSHA256 m;
      BundleSHA256 m; Current_KeyID m] ∧
    0 ≤ Current_SchemaVersion m ≤ max_int64 ∧ 0 ≤ Current_Sequence m ≤ max_uint64;
}.
#[export] Instance Current_shape : Shaped CurrentMetadata :=
  Fields [("schema", Leaf); ("schema_version", Leaf); ("bundle_file", Leaf); ("bundle_id", Leaf);
    ("sequence", Leaf); ("payload_sha256", Leaf); ("bundle_sha256", Leaf); ("key_id", Leaf)].

Definition trust_key_parts (k : trustStoreKey) : list part :=
  [("key_id", f_str (Trust_KeyID k)); ("public_key", f_str (Trust_PublicKey k))].

#[export] Instance trust_key_codec : Codec trustStoreKey := {
  enc k := enc_struct (trust_key_parts k);
  dec := dec_struct {| Trust_KeyID := ""; Trust_PublicKey := "" |} (λ ms,
    i ← get_string ms "key_id"; p ← get_string ms "public_key";
    Some {| Trust_KeyID := i; Trust_PublicKey := p |});
  wf k := utf8 [Trust_KeyID k; Trust_PublicKey k];
}.
#[export] Instance trust_key_shape : Shaped trustStoreKey :=
  Fields [("key_id", Leaf); ("public_key", Leaf)].

Definition trust_file_parts (f : trustStoreFile) : list part :=
  [("schema", f_str (Trust_Schema f)); ("schema_version", f_int (Trust_SchemaVersion f));
   ("keys", f_list (Trust_Keys f))].

#[export] Instance trust_file_codec : Codec trustStoreFile := {
  enc f := enc_struct (trust_file_parts f);
  dec := dec_struct {| Trust_Schema := ""; Trust_SchemaVersion := 0; Trust_Keys := [] |} (λ ms,
    sc ← get_string ms "schema"; sv ← get_int ms "schema_version"; ks ← get_list dec ms "keys";
    Some {| Trust_Schema := sc; Trust_SchemaVersion := sv; Trust_Keys := ks |});
  wf f := utf8 [Trust_Schema f] ∧ 0 ≤ Trust_SchemaVersion f ≤ max_int64 ∧ Forall wf (Trust_Keys f);
}.
#[export] Instance trust_file_shape : Shaped trustStoreFile :=
  Fields [("schema", Leaf); ("schema_version", Leaf); ("keys", Items trust_key_shape)].

(** ** Laws of the documents *)

#[export] Instance Constraint_laws : CodecLaws VersionConstraint.
Proof.
  constructor. intros c H. cbn [wf enc dec Constraint_codec] in *. wf_split.
  struct_laws (Constraint_parts c). by destruct c.
Qed.
#[export] Instance Constraint_shaped : ShapedLaws VersionConstraint.
Proof.
  constructor. intros c t H He. cbn [wf enc Constraint_codec] in *. wf_split.
  apply (known_struct _ (Constraint_parts c)); [vm_compute; reflexivity|known_fields|exact He|known_fields].
Qed.

#[export] Instance Malicious_laws : CodecLaws MaliciousSHA256Record.
Proof.
  constructor. intros r H. cbn [wf enc dec Malicious_codec] in *. wf_split.
  struct_laws (Malicious_parts r). by destruct r.
Qed.
#[export] Instance Malicious_shaped : ShapedLaws MaliciousSHA256Record.
Proof.
  constructor. intros r t H He. cbn [wf enc Malicious_codec] in *. wf_split.
  apply (known_struct _ (Malicious_parts r)); [vm_compute; reflexivity|known_fields|exact He|known_fields].
Qed.

#[export] Instance Revoked_laws : CodecLaws RevokedSignerRecord.
Proof.
  constructor. intros r H. cbn [wf enc dec Revoked_codec] in *. wf_split.
  struct_laws (Revoked_parts r). by destruct r.
Qed.
#[export] Instance Revoked_shaped : ShapedLaws RevokedSignerRecord.
Proof.
  constructor. intros r t H He. cbn [wf enc Revoked_codec] in *. wf_split.
  apply (known_struct _ (Revoked_parts r)); [vm_compute; reflexivity|known_fields|exact He|known_fields].
Qed.

#[export] Instance Vulnerable_laws : CodecLaws VulnerablePackageRecord.
Proof.
  constructor. intros r [H Hc]. cbn [enc dec Vulnerable_codec] in *. wf_split.
  struct_laws (Vulnerable_parts r). by destruct r.
Qed.
#[export] Instance Vulnerable_shaped : ShapedLaws VulnerablePackageRecord.
Proof.
  constructor. intros r t [H Hc] He. cbn [enc Vulnerable_codec] in *. wf_split.
  apply (known_struct _ (Vulnerable_parts r)); [vm_compute; reflexivity|known_fields|exact He|known_fields].
  eexists; split; [elem_here|]. intros v. by apply known_list.
Qed.

#[export] Instance Pattern_laws : CodecLaws SecretDetectorPatternRecord.
Proof.
  constructor. intros r H. cbn [wf enc dec Pattern_codec] in *. wf_split.
  struct_laws (Pattern_parts r). by destruct r.
Qed.
#[export] Instance Pattern_shaped : ShapedLaws SecretDetectorPatternRecord.
Proof.
  constructor. intros r t H He. cbn [wf enc Pattern_codec] in *. wf_split.
  apply (known_struct _ (Pattern_parts r)); [vm_compute; reflexivity|known_fields|exact He|known_fields].
Qed.

Lemma known_ptr {A} `{CodecLaws A} `{!Shaped A, !ShapedLaws A} (o : option A) v :
  wf_ptr o → f_ptr o = Some (Some v) → known (shape_of A) v = true.
Proof. destruct o as [x|]; [|done]. intros Hx. by apply known_req, Hx. Qed.

#[export] Instance Record_laws : CodecLaws IntelRecord.
Proof.
  constructor. intros r (H & Hm & Hr & Hv & Hp). cbn [enc dec Record_codec] in *. wf_split.
  unfold wf_ptr in *. struct_laws (Record_parts r). by destruct r.
Qed.
#[export] Instance Record_shaped : ShapedLaws IntelRecord.
Proof.
  constructor. intros r t (H & Hm & Hr & Hv & Hp) He. cbn [enc Record_codec] in *. wf_split.
  apply (known_struct _ (Record_parts r)); [vm_compute; reflexivity| |exact He|known_fields].
  { unfold wf_ptr in *. known_fields. }
  all: eexists; split; [elem_here|]; intros v; by apply known_ptr.
Qed.

Lemma fill_slice {A} `{CodecLaws A} (o : option (list A)) l :
  o = Some l → Forall wf l → fill (f_slice o) None (λ t, Some <$> dec_list dec t) o.
Proof.
  intros -> Hl. pose proof (fill_list_all l Hl) as Hf. unfold f_slice.
  destruct (f_list l) as [[t|]|] eqn:E; [|unfold f_list in E; by destruct (mapM enc l)|done].
  destruct Hf as (Hc & Hn & Hd). split_and!; [done..|]. unfold dec_list. by rewrite Hd.
Qed.

#[export] Instance Bundle_laws : CodecLaws Bundle.
Proof.
  constructor. intros b (H & Hv & Hs & Hi & He & Hm & l & Hl & Hw). cbn [enc dec Bundle_codec] in *. wf_split.
  pose proof (fill_slice _ _ Hl Hw) as HR.
  struct_laws (Bundle_parts b); [exact (fill_part_ok _ _ _ _ HR)|].
  erewrite (G _ "records" _ None _ _); [|elem_here|exact HR]. cbn [mbind option_bind].
  read_fields G. by destruct b.
Qed.

#[export] Instance Bundle_shaped : ShapedLaws Bundle.
Proof.
  constructor. intros b t (H & Hv & Hs & Hi & He & Hm & l & Hl & Hw) Ht. cbn [enc Bundle_codec] in *. wf_split.
  pose proof (fill_slice _ _ Hl Hw) as HR.
  apply (known_struct _ (Bundle_parts b)); [vm_compute; reflexivity| |exact Ht|known_fields].
  { known_fields. exact (fill_part_ok _ _ _ _ HR). }
  eexists; split; [elem_here|]. intros v. rewrite Hl. by apply known_list.
Qed.

#[export] Instance Current_laws : CodecLaws CurrentMetadata.
Proof.
  constructor. intros m (H & Hv & Hs). cbn [enc dec Current_codec] in *. wf_split.
  struct_laws (Current_parts m). by destruct m.
Qed.
#[export] Instance Current_shaped : ShapedLaws CurrentMetadata.
Proof.
  constructor. intros m t (H & Hv & Hs) He. cbn [enc Current_codec] in *. wf_split.
  apply (known_struct _ (Current_parts m)); [vm_compute; reflexivity|known_fields|exact He|known_fields].
Qed.

#[export] Instance trust_key_laws : CodecLaws trustStoreKey.
Proof.
  constructor. intros k H. cbn [wf enc dec trust_key_codec] in *. wf_split.
  struct_laws (trust_key_parts k). by destruct k.
Qed.
#[export] Instance trust_key_shaped : ShapedLaws trustStoreKey.
Proof.
  constructor. intros k t H He. cbn [wf enc trust_key_codec] in *. wf_split.
  apply (known_struct _ (trust_key_parts k)); [vm_compute; reflexivity|known_fields|exact He|known_fields].
Qed.

#[export] Instance trust_file_laws : CodecLaws trustStoreFile.
Proof.
  constructor. intros f (H & Hv & Hk). cbn [enc dec trust_file_codec] in *. wf_split.
  struct_laws (trust_file_parts f). by destruct f.
Qed.
#[export] Instance trust_file_shaped : ShapedLaws trustStoreFile.
Proof.
  constructor. intros f t (H & Hv & Hk) He. cbn [enc trust_file_codec] in *. wf_split.
  apply (known_struct _ (trust_file_parts f)); [vm_compute; reflexivity|known_fields|exact He|known_fields].
  eexists; split; [elem_here|]. intros v. by apply known_list.
Qed.

Lemma dec_bundle_typed t (b : Bundle) : dec t = Some b → uint64 (Sequence b).
Proof.
  apply (dec_struct_inv _ _ _ _ (λ b, uint64 (Sequence b))); [done|]. intros ms y H. dec_inv.
  injection H as <-. by eapply get_uint_range.
Qed.
