(* ===== verification/IntelCanonical.v ===== *)
(** * Package intel: canonical bundles

    [internal/intel/canonical.go].  The bundle package's regular expressions
    are byte predicates (their classes are ASCII, so a byte of a longer rune
    matches none of them); the patterns that records carry are compiled by the
    class [Regexp], the part of package regexp in use, with the documented law
    that a pattern that compiles is UTF-8.

    A prepared bundle is a normal form: preparing it again changes nothing
    ([prepareBundle_idempotent]), and the order in which records were given
    does not matter ([prepareBundle_order]). *)

From S2P Require Import Prelude GoString GoTime Json JsonCompact Model ModelJson StrictJson GoCrypto.
From S2P Require Import IntelTypes.
#[local] Open Scope Z_scope.

Class Regexp := {
  regex : Type;
  regexp_Compile : string → option regex;
  MatchString : regex → string → bool;
}.

Class RegexpLaws `{Regexp} : Prop := {
  compile_utf8 p r : regexp_Compile p = Some r → valid_utf8 p = true;
}.

Definition maxBundleIDBytes : Z := 128.
Definition maxKeyIDBytes : Z := 128.
Definition maxPackageBytes : Z := 256.
Definition maxEcosystemBytes : Z := 32.
Definition maxVersionBytes : Z := 128.
Definition maxSignerIDBytes : Z := 128.
Definition maxDetectorIDBytes : Z := 128.
Definition maxConstraints : Z := 16.

(** ** Patterns of the package *)

(** [^[first][rest]*$] *)
Definition matches (first rest : Z → bool) (value : string) : bool :=
  match bytes value with b :: bs => first b && forallb rest bs | [] => false end.

(** One of the characters of a text. *)
Definition among (cs : string) (b : Z) : bool := existsb (Z.eqb b) (bytes cs).

Definition safeIdentifier : string → bool :=
  matches is_alnum (λ b, is_alnum b || among "._:-" b).
Definition safePackage : string → bool :=
  matches (λ b, is_alnum b || (b =? 64)) (λ b, is_alnum b || among "@+._:/~-" b).
Definition safeVersion : string → bool :=
  matches is_alnum (λ b, is_alnum b || among "+._:~-" b).
Definition lower_hex (b : Z) : bool := is_digit b || between 97 102 b.
Definition sha256Pattern (value : string) : bool :=
  (slen value =? 64) && forallb lower_hex (bytes value).
Definition teamIDPattern (value : string) : bool :=
  (slen value =? 10) && forallb (λ b, is_upper_alpha b || is_digit b) (bytes value).

Definition boundedMatch (value : string) (limit : Z) (pattern : string → bool) : bool :=
  (0 <? slen value) && (slen value <=? limit) && pattern value.

Definition boundedIdentifier (value : string) (limit : Z) : bool :=
  boundedMatch value limit safeIdentifier.

Definition containsUnsafeControl (value : string) : bool :=
  existsb (λ r, (r <? 0x20) || (r =? 0x7f)) (runes value).

Definition operator_valid (op : string) : bool :=
  one_of op [ConstraintEqual; ConstraintLessThan; ConstraintLessThanOrEqual;
             ConstraintGreaterThan; ConstraintGreaterThanOrEqual].

Definition hashBytes `{Hash} (value : string) : string := hex_encode (Sum256 value).

Definition decodeStrict {A} `{Codec A, Shaped A} (encoded : string) : result A :=
  match decode_strict encoded with Some x => Ok x | None => Err ErrInvalidEncoding end.

(** ** Limits, header *)

Definition normalizeLimits (limits : IntelLimits) : result IntelLimits :=
  let limits := if bool_decide (limits = zero_limits) then DefaultLimits else limits in
  if MaxBundleBytes limits <=? 0 then Err (ErrorsNew "intel: max bundle bytes must be positive")
  else if MaxRecords limits <=? 0 then Err (ErrorsNew "intel: max records must be positive")
  else if MaxRecordBytes limits <=? 0 then Err (ErrorsNew "intel: max record bytes must be positive")
  else if MaxPatternBytes limits <=? 0 then
    Err (ErrorsNew "intel: max pattern bytes must be positive")
  else if MaxRecordBytes limits <? MaxPatternBytes limits then
    Err (ErrorsNew "intel: pattern limit cannot exceed record limit")
  else Ok limits.

Definition validateBundleHeader (bundle : Bundle) : result unit :=
  if negb (String.eqb (Bundle_Schema bundle) BundleSchema) then Err ErrInvalidBundle
  else if negb (Bundle_SchemaVersion bundle =? BundleSchemaVersion) then Err ErrInvalidBundle
  else if negb (boundedIdentifier (BundleID bundle) maxBundleIDBytes) then Err ErrInvalidBundle
  else if Sequence bundle =? 0 then Err ErrInvalidBundle
  else if is_zero (IssuedAt bundle) || is_zero (ExpiresAt bundle) then Err ErrInvalidBundle
  else if negb (after (ExpiresAt bundle) (IssuedAt bundle)) then Err ErrInvalidBundle
  else if MinimumAgentSchema bundle <=? 0 then Err ErrInvalidBundle
  else if bool_decide (Records bundle = None) then Err ErrInvalidBundle
  else if negb (boundedIdentifier (KeyID bundle) maxKeyIDBytes) then Err ErrInvalidBundle
  else Ok tt.

(** ** Records *)

Section records.
Context `{RX : Regexp}.

Definition constraint_key (c : VersionConstraint) : string := Operator c +:+ ":" +:+ Version c.
Definition constraint_less (a b : VersionConstraint) : bool :=
  str_ltb (constraint_key a) (constraint_key b).

Definition constraint_valid (c : VersionConstraint) : bool :=
  operator_valid (Operator c) && boundedMatch (Version c) maxVersionBytes safeVersion.

(** The loop over the constraints of a package, [seen] its set of keys. *)
Fixpoint check_constraints (index : Z) (seen : gset string) (cs : list VersionConstraint)
    : result unit :=
  match cs with
  | [] => Ok tt
  | c :: cs =>
      _ ← fail_if (negb (constraint_valid c)) (invalidRecord index "constraint");
      _ ← fail_if (bool_decide (constraint_key c ∈ seen))
            (invalidRecord index "duplicate_constraint");
      check_constraints index ({[constraint_key c]} ∪ seen) cs
  end.

(** The cases of the switch of [canonicalRecord]. *)
Definition canonical_malicious (index : Z) (record : IntelRecord) : result (IntelRecord * string) :=
  match MaliciousSHA256 record with
  | None => Err (invalidRecord index "type_payload")
  | Some malicious =>
      let hash := to_lower (SHA256 malicious) in
      _ ← fail_if (negb (sha256Pattern hash)) (invalidRecord index "sha256");
      Ok ({| Record_Type := RecordMaliciousSHA256; MaliciousSHA256 := Some {| SHA256 := hash |};
             RevokedSigner := None; VulnerablePackage := None; SecretPattern := None |},
          Record_Type record +:+ ":" +:+ hash)
  end.

Definition canonical_revoked (index : Z) (record : IntelRecord) : result (IntelRecord * string) :=
  match RevokedSigner record with
  | None => Err (invalidRecord index "type_payload")
  | Some revoked =>
      _ ← (if String.eqb (Revoked_Kind revoked) TeamID then
             fail_if (negb (teamIDPattern (Revoked_Identifier revoked)))
               (invalidRecord index "team_id")
           else if String.eqb (Revoked_Kind revoked) SignerID then
             fail_if (negb (boundedIdentifier (Revoked_Identifier revoked) maxSignerIDBytes))
               (invalidRecord index "signer_id")
           else Err (invalidRecord index "signer_kind"));
      Ok ({| Record_Type := RecordRevokedSigner; MaliciousSHA256 := None;
             RevokedSigner := Some revoked; VulnerablePackage := None; SecretPattern := None |},
          Record_Type record +:+ ":" +:+ Revoked_Kind revoked +:+ ":" +:+ Revoked_Identifier revoked)
  end.

Definition canonical_vulnerable (index : Z) (record : IntelRecord) : result (IntelRecord * string) :=
  match VulnerablePackage record with
  | None => Err (invalidRecord index "type_payload")
  | Some pkg =>
      let ecosystem := to_lower (Ecosystem pkg) in
      _ ← fail_if (negb (boundedMatch ecosystem maxEcosystemBytes safeIdentifier))
            (invalidRecord index "ecosystem");
      _ ← fail_if (negb (boundedMatch (Package pkg) maxPackageBytes safePackage)
                   || contains (Package pkg) "..") (invalidRecord index "package");
      _ ← fail_if ((length (Constraints pkg) =? 0)%nat
                   || (maxConstraints <? Z.of_nat (length (Constraints pkg))))
            (invalidRecord index "constraint_count");
      _ ← check_constraints index ∅ (Constraints pkg);
      Ok ({| Record_Type := RecordVulnerablePackage; MaliciousSHA256 := None;
             RevokedSigner := None;
             VulnerablePackage := Some {| Ecosystem := ecosystem; Package := Package pkg;
               Constraints := sort_by constraint_less (Constraints pkg) |};
             SecretPattern := None |},
          Record_Type record +:+ ":" +:+ ecosystem +:+ ":" +:+ Package pkg)
  end.

Definition canonical_pattern (index : Z) (record : IntelRecord) (limits : IntelLimits)
    : result (IntelRecord * string) :=
  match SecretPattern record with
  | None => Err (invalidRecord index "type_payload")
  | Some pattern =>
      _ ← fail_if (negb (boundedIdentifier (Pattern_DetectorID pattern) maxDetectorIDBytes))
            (invalidRecord index "detector_id");
      _ ← fail_if ((slen (Pattern pattern) =? 0) || (MaxPatternBytes limits <? slen (Pattern pattern))
                   || containsUnsafeControl (Pattern pattern)) (invalidRecord index "pattern_length");
      match regexp_Compile (Pattern pattern) with
      | None => Err (invalidRecord index "pattern")
      | Some compiled =>
          _ ← fail_if (MatchString compiled "") (invalidRecord index "pattern");
          Ok ({| Record_Type := RecordSecretPattern; MaliciousSHA256 := None; RevokedSigner := None;
                 VulnerablePackage := None; SecretPattern := Some pattern |},
              Record_Type record +:+ ":" +:+ Pattern_DetectorID pattern)
      end
  end.

Definition present {A} (o : option A) : nat := match o with Some _ => 1 | None => 0 end.

Definition payload_count (record : IntelRecord) : nat :=
  (present (MaliciousSHA256 record) + present (RevokedSigner record)
   + present (VulnerablePackage record) + present (SecretPattern record))%nat.

Definition canonicalRecord (index : Z) (record : IntelRecord) (limits : IntelLimits)
    : result (IntelRecord * string) :=
  _ ← fail_if (negb (payload_count record =? 1)%nat) (invalidRecord index "payload_count");
  '(record, identity) ←
    (if String.eqb (Record_Type record) RecordMaliciousSHA256 then canonical_malicious index record
     else if String.eqb (Record_Type record) RecordRevokedSigner then canonical_revoked index record
     else if String.eqb (Record_Type record) RecordVulnerablePackage then
       canonical_vulnerable index record
     else if String.eqb (Record_Type record) RecordSecretPattern then
       canonical_pattern index record limits
     else Err (invalidRecord index "record_type"));
  match Marshal record with
  | None => Err (invalidRecord index "record_size")
  | Some encoded =>
      _ ← fail_if (MaxRecordBytes limits <? slen encoded) (invalidRecord index "record_size");
      Ok (record, identity)
  end.

(** A payload that the type asks for and is nil would panic; canonical records
    have it ([canonicalRecord_key]). *)
Definition recordSortKey (record : IntelRecord) : string :=
  if String.eqb (Record_Type record) RecordMaliciousSHA256 then
    Record_Type record +:+ ":" +:+ from_option SHA256 "" (MaliciousSHA256 record)
  else if String.eqb (Record_Type record) RecordRevokedSigner then
    Record_Type record +:+ ":" +:+ from_option Revoked_Kind "" (RevokedSigner record)
      +:+ ":" +:+ from_option Revoked_Identifier "" (RevokedSigner record)
  else if String.eqb (Record_Type record) RecordVulnerablePackage then
    Record_Type record +:+ ":" +:+ from_option Ecosystem "" (VulnerablePackage record)
      +:+ ":" +:+ from_option Package "" (VulnerablePackage record)
  else if String.eqb (Record_Type record) RecordSecretPattern then
    Record_Type record +:+ ":" +:+ from_option Pattern_DetectorID "" (SecretPattern record)
  else Record_Type record.

Definition record_less (a b : IntelRecord) : bool := str_ltb (recordSortKey a) (recordSortKey b).

(** The loop of [canonicalRecords] from a given index on. *)
Fixpoint collect (limits : IntelLimits) (index : Z) (duplicates : gset string)
    (records : list IntelRecord) : result (list IntelRecord) :=
  match records with
  | [] => Ok []
  | record :: records =>
      '(normalized, identity) ← canonicalRecord index record limits;
      _ ← fail_if (bool_decide (identity ∈ duplicates))
            (recordValidationError index "duplicate" (Join ErrInvalidRecord ErrDuplicateRecord));
      canonical ← collect limits (index + 1) ({[identity]} ∪ duplicates) records;
      Ok (normalized :: canonical)
  end.

Definition canonicalRecords (records : list IntelRecord) (limits : IntelLimits)
    : result (list IntelRecord) :=
  canonical ← collect limits 0 ∅ records; Ok (sort_by record_less canonical).

(** The bundle that [prepareBundle] returns, given its canonical records. *)
Definition prepared (bundle : Bundle) (records : list IntelRecord) : Bundle := {|
  Bundle_Schema := Bundle_Schema bundle; Bundle_SchemaVersion := Bundle_SchemaVersion bundle;
  BundleID := BundleID bundle; Sequence := Sequence bundle; IssuedAt := utc (IssuedAt bundle);
  ExpiresAt := utc (ExpiresAt bundle); MinimumAgentSchema := MinimumAgentSchema bundle;
  Records := Some records; PayloadSHA256 := PayloadSHA256 bundle; KeyID := KeyID bundle;
  Bundle_Signature := Bundle_Signature bundle |}.

Definition prepareBundle (bundle : Bundle) (limits : IntelLimits) : result (Bundle * string) :=
  _ ← validateBundleHeader bundle;
  let given := default [] (Records bundle) in
  _ ← fail_if (MaxRecords limits <? Z.of_nat (length given)) ErrTooManyRecords;
  records ← canonicalRecords given limits;
  match marshal_payload {| Payload_Records := Some records |} with
  | None => Err ErrInvalidBundle
  | Some payload => Ok (prepared bundle records, payload)
  end.
End records.

Definition canonicalUnsigned (bundle : Bundle) : option string := enc_struct (unsigned_parts bundle).
Definition canonicalBundle (bundle : Bundle) : option string := Marshal bundle.
