(* ===== verification/IntelNormal.v ===== *)
(** * Package intel: canonical records are normal forms

    What [canonicalRecord] accepts it leaves alone the second time; the two
    loops over sets of keys are characterised without the set, so that
    [canonicalRecords] and [prepareBundle] are idempotent and blind to the
    order of the records.  A prepared bundle is a document that JSON carries
    over ([prepared_wf]). *)

From S2P Require Import Prelude GoString GoTime Json JsonCompact Model ModelJson StrictJson.
From S2P Require Import IntelTypes IntelCanonical.
#[local] Open Scope Z_scope.

(** ** Characters *)

Definition lower_only (s : string) : Prop := Forall (λ b, is_upper_alpha b = false) (bytes s).

Lemma lower_byte_lower c : is_upper_alpha (byte (lower_byte c)) = false.
Proof. by destruct c as [[] [] [] [] [] [] [] []]. Qed.

Lemma to_lower_cons2 a b s2 :
  to_lower (String a (String b s2)) =
    if (byte a =? 0xC4) && (byte b =? 0xB0) then String "i" (to_lower s2)
    else match s2 with
         | String c s3 =>
             if (byte a =? 0xE2) && (byte b =? 0x84) && (byte c =? 0xAA)
             then String "k" (to_lower s3)
             else String (lower_byte a) (to_lower (String b s2))
         | EmptyString => String (lower_byte a) (to_lower (String b s2))
         end.
Proof. by destruct s2. Qed.

Lemma to_lower_only s : lower_only (to_lower s).
Proof.
  induction s as [s IH] using (induction_ltof1 _ String.length). unfold ltof in IH.
  assert (∀ c r, (String.length r < String.length s)%nat →
    lower_only (String (lower_byte c) (to_lower r))) as Hb.
  { intros c r Hr. constructor; [apply lower_byte_lower|by apply IH]. }
  destruct s as [|a [|b s2]]; [constructor|by apply (Hb a ""); cbn; lia|].
  rewrite to_lower_cons2. destruct (_ && _).
  { constructor; [done|]. apply IH. cbn. lia. }
  assert (lower_only (String (lower_byte a) (to_lower (String b s2)))) as Hd by (apply Hb; cbn; lia).
  destruct s2 as [|c s3]; [done|]. destruct (_ && _); [|done].
  constructor; [done|]. apply IH. cbn. lia.
Qed.

Lemma lower_byte_id c : is_upper_alpha (byte c) = false → lower_byte c = c.
Proof. unfold lower_byte, is_upper_alpha. by intros ->. Qed.

Lemma to_lower_id s : is_ascii s = true → lower_only s → to_lower s = s.
Proof.
  induction s as [|a s IH]; [done|]. intros Ha [Hu Hs]%Forall_cons.
  change (ascii_byte (byte a) && is_ascii s = true) in Ha. apply andb_true_iff in Ha as [Ha Has].
  specialize (IH Has Hs). unfold ascii_byte in Ha. apply Z.ltb_lt in Ha.
  assert ((byte a =? 0xC4) = false ∧ (byte a =? 0xE2) = false) as [H1 H2] by lia.
  destruct s as [|b s]; [cbn [to_lower]; by rewrite lower_byte_id|].
  rewrite to_lower_cons2, H1, IH, lower_byte_id by done. cbn [andb].
  destruct s as [|c s]; [done|]. by rewrite H2.
Qed.

Lemma to_lower_idem s : is_ascii (to_lower s) = true → to_lower (to_lower s) = to_lower s.
Proof. intros H. apply to_lower_id; [done|apply to_lower_only]. Qed.

Lemma forallb_ascii (P : Z → bool) s :
  (∀ b, P b = true → ascii_byte b = true) → forallb P (bytes s) = true → is_ascii s = true.
Proof.
  intros HP H. unfold is_ascii. rewrite forallb_forall in *. intros b Hb. by apply HP, H.
Qed.

Lemma matches_ascii f r s :
  (∀ b, f b = true → ascii_byte b = true) → (∀ b, r b = true → ascii_byte b = true) →
  matches f r s = true → is_ascii s = true.
Proof.
  unfold matches, is_ascii. intros Hf Hr. destruct (bytes s) as [|b bs]; [done|].
  intros [Hb Hs]%andb_true_iff. cbn. rewrite (Hf b Hb). cbn. rewrite forallb_forall in *.
  intros x Hx. by apply Hr, Hs.
Qed.

Lemma among_ascii cs b : is_ascii cs = true → among cs b = true → ascii_byte b = true.
Proof.
  unfold among, is_ascii. rewrite forallb_forall, existsb_exists. intros H (x & Hx & ->%Z.eqb_eq). by apply H.
Qed.

Lemma alnum_ascii b : is_alnum b = true → ascii_byte b = true.
Proof. intros H%is_alnum_ascii. by apply Z.ltb_lt. Qed.

Lemma alnum_or_ascii cs b :
  is_ascii cs = true → is_alnum b || among cs b = true → ascii_byte b = true.
Proof. intros Hc [H|H]%orb_true_iff; [by apply alnum_ascii|by apply (among_ascii cs)]. Qed.

Lemma safeIdentifier_ascii s : safeIdentifier s = true → is_ascii s = true.
Proof. apply matches_ascii; [apply alnum_ascii|]. intros b. by apply alnum_or_ascii. Qed.

Lemma safeVersion_ascii s : safeVersion s = true → is_ascii s = true.
Proof. apply matches_ascii; [apply alnum_ascii|]. intros b. by apply alnum_or_ascii. Qed.

Lemma safePackage_ascii s : safePackage s = true → is_ascii s = true.
Proof.
  apply matches_ascii; [|intros b; by apply alnum_or_ascii].
  intros b [H|H%Z.eqb_eq]%orb_true_iff; [by apply alnum_ascii|by subst].
Qed.

Lemma lower_hex_ascii b : lower_hex b = true → ascii_byte b = true.
Proof.
  unfold lower_hex, is_digit, between, ascii_byte. intros H.
  apply Z.ltb_lt. apply orb_true_iff in H as [H|H]; bool_prop; lia.
Qed.

Lemma sha256Pattern_ascii s : sha256Pattern s = true → is_ascii s = true.
Proof. intros [_ H]%andb_true_iff. exact (forallb_ascii _ _ lower_hex_ascii H). Qed.

Lemma teamIDPattern_ascii s : teamIDPattern s = true → is_ascii s = true.
Proof.
  intros [_ H]%andb_true_iff. refine (forallb_ascii _ _ _ H). intros b Hb. apply alnum_ascii.
  unfold is_alnum. apply orb_true_iff in Hb as [-> | ->]; by rewrite ?orb_true_r.
Qed.

Lemma boundedMatch_inv v n p : boundedMatch v n p = true → 0 < slen v ≤ n ∧ p v = true.
Proof. unfold boundedMatch. intros H. bool_prop. split; [lia|done]. Qed.

Lemma boundedIdentifier_ascii v n : boundedIdentifier v n = true → is_ascii v = true.
Proof. intros [_ H]%boundedMatch_inv. by apply safeIdentifier_ascii. Qed.

(** ** Constraints *)

Lemma constraint_less_strict : StrictLess constraint_less.
Proof. unfold constraint_less. apply less_on_strict, _. Qed.

Lemma operator_free op : operator_valid op = true → free_of ":" op.
Proof.
  unfold operator_valid. intros H%one_of_elem. unfold free_of.
  rewrite !elem_of_cons in H. destruct H as [->|[->|[->|[->|[->|H]]]]];
    [by vm_compute; set_solver..|by apply not_elem_of_nil in H].
Qed.

Lemma constraint_key_inj a b :
  constraint_valid a = true → constraint_valid b = true → constraint_key a = constraint_key b → a = b.
Proof.
  unfold constraint_valid. intros [Ha _]%andb_true_iff [Hb _]%andb_true_iff Hk.
  apply operator_free in Ha, Hb. destruct a as [oa va], b as [ob vb]. cbn in *.
  unfold constraint_key in Hk. cbn in Hk. apply (sep_inj ":") in Hk as [-> ->]; done.
Qed.

(** The loop without its set. *)
Lemma check_constraints_ok index seen cs :
  check_constraints index seen cs = Ok tt ↔
    Forall (λ c, constraint_valid c = true) cs ∧ NoDup (constraint_key <$> cs) ∧
    ∀ c, c ∈ cs → constraint_key c ∉ seen.
Proof.
  revert seen. induction cs as [|c cs IH]; intros seen; cbn [check_constraints fmap list_fmap].
  { split; [intros _|done]. split_and!; [constructor..|]. intros c Hc. by apply not_elem_of_nil in Hc. }
  rewrite Forall_cons, NoDup_cons. split.
  - intros H. ok_inv. bool_prop. apply IH in H as (Hv & Hn & Hs). split_and!; [done..| |done|].
    + intros (d & Hd & Hin)%list_elem_of_fmap. specialize (Hs d Hin). set_solver.
    + intros d [->|Hin]%elem_of_cons; [done|]. specialize (Hs d Hin). set_solver.
  - intros ((Hc & Hv) & (Hk & Hn) & Hs). rewrite Hc. cbn [negb fail_if]. rewrite bind_ok.
    rewrite bool_decide_eq_false_2 by (apply Hs; by left). cbn [fail_if]. rewrite bind_ok.
    apply IH. split_and!; [done..|]. intros d Hd Hin. apply elem_of_union in Hin as [Hin|Hin].
    + apply elem_of_singleton in Hin. apply Hk. rewrite <-Hin. by apply list_elem_of_fmap_2.
    + by apply (Hs d); [right|].
Qed.

Lemma check_constraints_perm index index' cs cs' :
  cs ≡ₚ cs' → check_constraints index ∅ cs = Ok tt → check_constraints index' ∅ cs' = Ok tt.
Proof.
  intros HP. rewrite !check_constraints_ok. intros (Hv & Hn & _).
  split_and!; [by rewrite <-HP|by rewrite <-HP|]. intros c _. apply not_elem_of_empty.
Qed.

Lemma check_constraints_sorted index index' cs :
  check_constraints index ∅ cs = Ok tt →
  check_constraints index' ∅ (sort_by constraint_less cs) = Ok tt.
Proof. apply check_constraints_perm. by rewrite sort_by_perm. Qed.

Lemma sort_by_idem {A} (less : A → A → bool) `{!StrictLess less} l :
  sort_by less (sort_by less l) = sort_by less l.
Proof. by apply sort_by_id, sort_by_sorted. Qed.

(** ** One record *)

Section normal.
Context `{RX : Regexp}.

(** What the switch gives for a record is one of its four normal shapes, which
    it gives again, under the same identity, at any index. *)
Definition stable (limits : IntelLimits) (r : IntelRecord) (identity : string) : Prop :=
  ∀ index, payload_count r = 1%nat ∧
    (if String.eqb (Record_Type r) RecordMaliciousSHA256 then canonical_malicious index r
     else if String.eqb (Record_Type r) RecordRevokedSigner then canonical_revoked index r
     else if String.eqb (Record_Type r) RecordVulnerablePackage then canonical_vulnerable index r
     else if String.eqb (Record_Type r) RecordSecretPattern then canonical_pattern index r limits
     else Err (invalidRecord index "record_type")) = Ok (r, identity).

Lemma malicious_stable limits index r r' id :
  Record_Type r = RecordMaliciousSHA256 → canonical_malicious index r = Ok (r', id) →
  stable limits r' id ∧ id = recordSortKey r'.
Proof.
  intros Ht H. unfold canonical_malicious in H. destruct (MaliciousSHA256 r) as [m|]; [|done].
  cbv zeta in H. apply bind_ok_inv in H as ([] & Hs%fail_if_ok_inv & H). injection H as <- <-.
  bool_prop. rewrite Ht. split; [|done].
  intros j. split; [done|]. cbn -[to_lower sha256Pattern].
  unfold canonical_malicious. cbn -[to_lower sha256Pattern].
  by rewrite to_lower_idem, Hs by by apply sha256Pattern_ascii.
Qed.

Lemma revoked_stable limits index r r' id :
  Record_Type r = RecordRevokedSigner → canonical_revoked index r = Ok (r', id) →
  stable limits r' id ∧ id = recordSortKey r'.
Proof.
  intros Ht H. unfold canonical_revoked in H. destruct (RevokedSigner r) as [m|]; [|done].
  apply bind_ok_inv in H as ([] & Hc & H). injection H as <- <-. rewrite Ht. split; [|done].
  intros j. split; [done|]. cbn -[teamIDPattern boundedIdentifier].
  unfold canonical_revoked. cbn -[teamIDPattern boundedIdentifier].
  destruct (String.eqb _ TeamID); [ok_inv; by rewrite Hc|].
  destruct (String.eqb _ SignerID); [ok_inv; by rewrite Hc|done].
Qed.

Lemma vulnerable_stable limits index r r' id :
  Record_Type r = RecordVulnerablePackage → canonical_vulnerable index r = Ok (r', id) →
  stable limits r' id ∧ id = recordSortKey r'.
Proof.
  intros Ht H. unfold canonical_vulnerable in H. destruct (VulnerablePackage r) as [m|]; [|done].
  cbv zeta in H. do 4 apply bind_ok_inv in H as ([] & ? & H). injection H as <- <-. rewrite Ht.
  split; [|done]. intros j. split; [done|].
  cbn -[to_lower boundedMatch safeIdentifier safePackage contains check_constraints sort_by].
  unfold canonical_vulnerable. cbn [VulnerablePackage Ecosystem Package Constraints Record_Type].
  repeat match goal with E : fail_if _ _ = Ok _ |- _ => apply fail_if_ok_inv in E end. bool_prop.
  assert (is_ascii (to_lower (Ecosystem m)) = true) as Ha.
  { eapply safeIdentifier_ascii, boundedMatch_inv. eassumption. }
  rewrite (to_lower_idem _ Ha), length_sort_by, (sort_by_idem _ (StrictLess0:=constraint_less_strict)).
  erewrite check_constraints_sorted by eassumption.
  repeat match goal with E : boundedMatch _ _ _ = true |- _ => rewrite E; clear E end.
  repeat match goal with E : contains _ _ = false |- _ => rewrite E; clear E end.
  match goal with E : (length _ =? 0)%nat = false |- _ => rewrite E end.
  rewrite (proj2 (Z.ltb_ge _ _)) by done. done.
Qed.

Lemma pattern_stable limits index r r' id :
  Record_Type r = RecordSecretPattern → canonical_pattern index r limits = Ok (r', id) →
  stable limits r' id ∧ id = recordSortKey r'.
Proof.
  intros Ht H. unfold canonical_pattern in H. destruct (SecretPattern r) as [m|]; [|done].
  do 2 apply bind_ok_inv in H as ([] & ? & H). destruct (regexp_Compile (Pattern m)) as [c|] eqn:Ec; [|done].
  apply bind_ok_inv in H as ([] & Hm & H). injection H as <- <-. rewrite Ht. split; [|done].
  intros j. split; [done|]. cbn -[boundedIdentifier slen containsUnsafeControl fail_if].
  unfold canonical_pattern. cbn [SecretPattern].
  repeat match goal with E : fail_if _ _ = Ok _ |- _ => apply fail_if_ok_inv in E; rewrite E end.
  rewrite Ec. apply fail_if_ok_inv in Hm. by rewrite Hm.
Qed.

Lemma canonicalRecord_stable limits index r r' id :
  canonicalRecord index r limits = Ok (r', id) →
  id = recordSortKey r' ∧ ∀ j, canonicalRecord j r' limits = Ok (r', id).
Proof.
  unfold canonicalRecord. intros (_ & _ & Hr)%bind_ok_inv.
  apply bind_ok_inv in Hr as ([r1 id1] & Hc & Hr).
  assert (stable limits r1 id1 ∧ id1 = recordSortKey r1) as [Hs Hk].
  { repeat case_in Hc; [..|done]; bool_prop; eauto using
      malicious_stable, revoked_stable, vulnerable_stable, pattern_stable. }
  destruct (Marshal r1) as [t|] eqn:Em; [|done].
  apply bind_ok_inv in Hr as ([] & Hl%fail_if_ok_inv & Hr). injection Hr as -> ->.
  split; [done|]. intros j. destruct (Hs j) as [Hp Hj]. rewrite Hp. cbn [Nat.eqb negb fail_if].
  rewrite bind_ok, Hj, bind_ok, Em, Hl. done.
Qed.

(** Two results that differ at most in the error. *)
Definition alike {A} (r1 r2 : result A) : Prop :=
  match r1, r2 with Ok a, Ok b => a = b | Err _, Err _ => True | _, _ => False end.

Lemma alike_bind {A B} (m1 m2 : result A) (f1 f2 : A → result B) :
  alike m1 m2 → (∀ a, alike (f1 a) (f2 a)) → alike (m1 ≫= f1) (m2 ≫= f2).
Proof. destruct m1, m2; cbn; intros H Hf; try done. by subst. Qed.

Lemma alike_fail c e1 e2 : alike (fail_if c e1) (fail_if c e2).
Proof. by destruct c. Qed.

Lemma alike_ok {A} (r1 r2 : result A) x : alike r1 r2 → r1 = Ok x → r2 = Ok x.
Proof. intros H ->. destruct r2; cbn in H; by subst. Qed.

Ltac alike :=
  repeat first
    [ reflexivity | exact I | apply alike_fail
    | apply alike_bind; [|intros ?]
    | match goal with |- alike (match ?x with _ => _ end) _ => destruct x end ].

Lemma check_constraints_index i j seen cs :
  alike (check_constraints i seen cs) (check_constraints j seen cs).
Proof. revert seen. induction cs as [|c cs IH]; intros seen; cbn [check_constraints]; alike. apply IH. Qed.

Lemma canonicalRecord_index limits i j r x :
  canonicalRecord i r limits = Ok x → canonicalRecord j r limits = Ok x.
Proof.
  apply alike_ok. unfold canonicalRecord, canonical_malicious, canonical_revoked,
    canonical_vulnerable, canonical_pattern. cbv zeta. alike. apply check_constraints_index.
Qed.

(** *** A canonical record is a JSON document *)

Lemma no_payload {A} `{Codec A} : wf_ptr (A:=A) None.
Proof. by intros x. Qed.

Lemma payload {A} `{Codec A} (x : A) : wf x → wf_ptr (Some x).
Proof. by intros Hx ? [= <-]. Qed.

Ltac utf8_fields := repeat first [apply Forall_nil_2 | apply Forall_cons_2]; try done; apply is_ascii_valid.

Lemma malicious_wf i r r' id : canonical_malicious i r = Ok (r', id) → wf r'.
Proof.
  unfold canonical_malicious. destruct (MaliciousSHA256 r) as [m|]; [|done]. cbv zeta.
  intros ([] & Hs%fail_if_ok_inv & [= <- <-])%bind_ok_inv. bool_prop.
  split_and!; [by utf8_fields|apply payload|apply no_payload..].
  utf8_fields. by apply sha256Pattern_ascii.
Qed.

Lemma revoked_wf i r r' id : canonical_revoked i r = Ok (r', id) → wf r'.
Proof.
  unfold canonical_revoked. destruct (RevokedSigner r) as [m|]; [|done].
  intros ([] & Hc & [= <- <-])%bind_ok_inv.
  split_and!; [by utf8_fields|apply no_payload|apply payload|apply no_payload..].
  destruct (String.eqb_spec (Revoked_Kind m) TeamID) as [E1|]; [|
    destruct (String.eqb_spec (Revoked_Kind m) SignerID) as [E1|]; [|done]];
    apply fail_if_ok_inv in Hc; bool_prop; utf8_fields; rewrite ?E1; try done.
  - by apply teamIDPattern_ascii.
  - by eapply boundedIdentifier_ascii.
Qed.

Lemma constraint_wf c : constraint_valid c = true → wf c.
Proof.
  unfold constraint_valid. intros [Ho [_ Hv]%boundedMatch_inv]%andb_true_iff.
  utf8_fields; [|by apply safeVersion_ascii]. unfold operator_valid in Ho. apply one_of_elem in Ho.
  rewrite !elem_of_cons in Ho. destruct Ho as [->|[->|[->|[->|[->|Ho]]]]]; [done..|].
  by apply not_elem_of_nil in Ho.
Qed.

Lemma vulnerable_wf i r r' id : canonical_vulnerable i r = Ok (r', id) → wf r'.
Proof.
  unfold canonical_vulnerable. destruct (VulnerablePackage r) as [m|]; [|done]. cbv zeta.
  intros ([] & He%fail_if_ok_inv & ([] & Hp%fail_if_ok_inv & ([] & _ &
    ([] & (Hv & _)%check_constraints_ok & [= <- <-])%bind_ok_inv)%bind_ok_inv)%bind_ok_inv)%bind_ok_inv.
  bool_prop. split_and!; [by utf8_fields|apply no_payload..|apply payload|apply no_payload].
  split.
  - utf8_fields; [by eapply safeIdentifier_ascii, boundedMatch_inv|by eapply safePackage_ascii, boundedMatch_inv].
  - cbn [Constraints]. rewrite sort_by_perm. eapply Forall_impl; [exact Hv|]. apply constraint_wf.
Qed.

Lemma pattern_wf `{!RegexpLaws} limits i r r' id : canonical_pattern i r limits = Ok (r', id) → wf r'.
Proof.
  unfold canonical_pattern. destruct (SecretPattern r) as [m|]; [|done].
  intros ([] & Hd%fail_if_ok_inv & ([] & _ & Hc)%bind_ok_inv)%bind_ok_inv.
  destruct (regexp_Compile (Pattern m)) as [c|] eqn:Ec; [|done].
  apply bind_ok_inv in Hc as ([] & _ & [= <- <-]). bool_prop.
  split_and!; [by utf8_fields|apply no_payload..|apply payload].
  repeat first [apply Forall_nil_2 | apply Forall_cons_2].
  - by eapply is_ascii_valid, boundedIdentifier_ascii.
  - by eapply compile_utf8.
Qed.

Lemma canonicalRecord_wf `{!RegexpLaws} limits i r r' id :
  canonicalRecord i r limits = Ok (r', id) → wf r'.
Proof.
  unfold canonicalRecord. intros (_ & _ & Hr)%bind_ok_inv.
  apply bind_ok_inv in Hr as ([r1 id1] & Hc & Hr).
  destruct (Marshal r1) as [t|]; [|done]. apply bind_ok_inv in Hr as ([] & _ & Hr).
  injection Hr as -> ->.
  repeat case_in Hc; eauto using malicious_wf, revoked_wf, vulnerable_wf, pattern_wf. done.
Qed.

(** ** The records of a bundle *)

Definition canonical_of (limits : IntelLimits) (r r' : IntelRecord) : Prop :=
  ∀ j, canonicalRecord j r limits = Ok (r', recordSortKey r').

Lemma canonical_of_det limits r r1 r2 : canonical_of limits r r1 → canonical_of limits r r2 → r1 = r2.
Proof. intros H1 H2. specialize (H1 0). specialize (H2 0). congruence. Qed.

(** The loop without its set. *)
Lemma collect_ok limits index dup rs l :
  collect limits index dup rs = Ok l ↔
    Forall2 (canonical_of limits) rs l ∧ NoDup (recordSortKey <$> l) ∧
    ∀ r, r ∈ l → recordSortKey r ∉ dup.
Proof.
  revert index dup l. induction rs as [|r rs IH]; intros index dup l; cbn [collect].
  { split.
    - intros [= <-]. split_and!; [constructor..|]. intros x Hx. by apply not_elem_of_nil in Hx.
    - intros (H & _). by inversion H. }
  split.
  - intros ([r' id] & Hr & Hc)%bind_ok_inv. apply bind_ok_inv in Hc as ([] & Hd%fail_if_ok_inv & Hc).
    apply bind_ok_inv in Hc as (l' & Hl & [= <-]). bool_prop.
    destruct (canonicalRecord_stable _ _ _ _ _ Hr) as [-> _].
    apply IH in Hl as (HF & HN & HS). split_and!.
    + constructor; [|done]. intros j. by apply (canonicalRecord_index _ index).
    + cbn. constructor; [|done]. intros (d & Hk & Hin)%list_elem_of_fmap. specialize (HS d Hin). set_solver.
    + intros x [->|Hx]%elem_of_cons; [done|]. specialize (HS x Hx). set_solver.
  - intros (HF & HN & HS). inversion HF as [|? r' ? l' Hr HF']; subst.
    cbn in HN. apply NoDup_cons in HN as [Hk HN].
    rewrite (Hr index), bind_ok. rewrite bool_decide_eq_false_2 by (apply HS; by left).
    cbn [fail_if]. rewrite bind_ok. rewrite (proj2 (IH (index + 1) _ l')); [done|].
    split_and!; [done..|]. intros d Hd Hin. apply elem_of_union in Hin as [Hin|Hin].
    + apply elem_of_singleton in Hin. apply Hk. rewrite <-Hin. by apply list_elem_of_fmap_2.
    + by apply (HS d); [right|].
Qed.

Lemma record_less_strict : StrictLess record_less.
Proof. unfold record_less. apply less_on_strict, _. Qed.

Lemma sort_records_ext l1 l2 :
  NoDup (recordSortKey <$> l1) → l1 ≡ₚ l2 → sort_by record_less l1 = sort_by record_less l2.
Proof.
  intros HN HP. apply (sort_by_ext _ (HL:=record_less_strict)); [|done].
  intros x y Hx Hy H1 H2. apply list_elem_of_lookup in Hx as [i Hi], Hy as [j Hj].
  assert (recordSortKey x = recordSortKey y) as Hk by by apply (str_ltb_total _ _ H2).
  assert (i = j) as ->; [|congruence]. eapply NoDup_lookup; [exact HN|..]; rewrite list_lookup_fmap.
  - by rewrite Hi.
  - rewrite Hj. cbn. by rewrite Hk.
Qed.

Lemma canonicalRecords_ok rs limits l :
  canonicalRecords rs limits = Ok l ↔
    ∃ l0, l = sort_by record_less l0 ∧ Forall2 (canonical_of limits) rs l0 ∧
          NoDup (recordSortKey <$> l0).
Proof.
  unfold canonicalRecords. split.
  - intros (l0 & (HF & HN & _)%collect_ok & [= <-])%bind_ok_inv. eauto.
  - intros (l0 & -> & HF & HN). rewrite (proj2 (collect_ok limits 0 ∅ rs l0)); [done|].
    split_and!; [done..|]. intros r _. apply not_elem_of_empty.
Qed.

Lemma canonicalRecords_order rs rs' limits l :
  rs ≡ₚ rs' → canonicalRecords rs limits = Ok l → canonicalRecords rs' limits = Ok l.
Proof.
  rewrite !canonicalRecords_ok. intros HP (l0 & -> & HF & HN).
  destruct (Permutation_Forall2 HP HF) as (l1 & HP1 & HF1).
  exists l1. split_and!; [by apply sort_records_ext|done|by rewrite <-HP1].
Qed.

Lemma canonicalRecords_length rs limits l :
  canonicalRecords rs limits = Ok l → length l = length rs.
Proof.
  intros (l0 & -> & HF & _)%canonicalRecords_ok. rewrite length_sort_by. by rewrite (Forall2_length _ _ _ HF).
Qed.

Lemma canonicalRecords_idem rs limits l :
  canonicalRecords rs limits = Ok l → canonicalRecords l limits = Ok l.
Proof.
  intros (l0 & -> & HF & HN)%canonicalRecords_ok.
  apply (canonicalRecords_order l0); [by rewrite sort_by_perm|].
  apply canonicalRecords_ok. exists l0. split_and!; [done| |done].
  clear HN. induction HF as [|r r' rs l0 Hr _ IH]; [constructor|]. constructor; [|done].
  intros j. by destruct (canonicalRecord_stable _ _ _ _ _ (Hr 0)) as [_ H].
Qed.

Lemma canonicalRecords_wf `{!RegexpLaws} rs limits l :
  canonicalRecords rs limits = Ok l → Forall wf l.
Proof.
  intros (l0 & -> & HF & _)%canonicalRecords_ok. rewrite sort_by_perm.
  induction HF as [|r r' rs l0 Hr _ IH]; [constructor|]. constructor; [|done].
  exact (canonicalRecord_wf _ _ _ _ _ (Hr 0)).
Qed.

(** ** Bundles *)

Lemma prepareBundle_inv b limits p payload :
  prepareBundle b limits = Ok (p, payload) →
  validateBundleHeader b = Ok tt ∧ ∃ rs l, Records b = Some rs ∧
    Z.of_nat (length rs) ≤ MaxRecords limits ∧ canonicalRecords rs limits = Ok l ∧
    p = prepared b l ∧ marshal_payload {| Payload_Records := Some l |} = Some payload.
Proof.
  unfold prepareBundle. intros ([] & Hh & H)%bind_ok_inv. split; [done|].
  destruct (Records b) as [rs|] eqn:Er.
  - apply bind_ok_inv in H as ([] & Hl%fail_if_ok_inv & H). apply bind_ok_inv in H as (l & Hc & H).
    destruct (marshal_payload _) as [t|] eqn:Em; [|done]. injection H as <- <-. bool_prop.
    exists rs, l. by split_and!.
  - exfalso. unfold validateBundleHeader in Hh. rewrite Er in Hh. repeat case_in Hh; try done.
Qed.

Lemma prepareBundle_intro b limits rs l payload :
  validateBundleHeader b = Ok tt → Records b = Some rs → Z.of_nat (length rs) ≤ MaxRecords limits →
  canonicalRecords rs limits = Ok l →
  marshal_payload {| Payload_Records := Some l |} = Some payload →
  prepareBundle b limits = Ok (prepared b l, payload).
Proof.
  intros Hh Hr Hl Hc Hm. unfold prepareBundle. rewrite Hh, Hr. cbn [from_option]. unfold id.
  rewrite bind_ok, (proj2 (Z.ltb_ge _ _)) by done. cbn [fail_if]. by rewrite bind_ok, Hc, bind_ok, Hm.
Qed.

(** Bundles that differ in the order of their records and in the zones of
    their times. *)
Record bundle_equiv (b b' : Bundle) : Prop := {
  eqv_header : prepared b [] = prepared b' [];
  eqv_records : option_Forall2 (≡ₚ) (Records b) (Records b');
}.

#[export] Instance bundle_equiv_equivalence : Equivalence bundle_equiv.
Proof.
  split.
  - intros b. split; [done|]. by destruct (Records b); constructor.
  - intros b b' [H1 H2]. split; [done|]. destruct H2; by constructor.
  - intros a b c [H1 H2] [H3 H4]. split; [by transitivity (prepared b [])|].
    destruct H2; inversion H4; subst; constructor. by etransitivity.
Qed.

Lemma validateBundleHeader_equiv b b' :
  bundle_equiv b b' → validateBundleHeader b = validateBundleHeader b'.
Proof.
  intros [Hh Hr]. unfold validateBundleHeader, prepared, utc, is_zero, after in *. injection Hh.
  intros. repeat match goal with E : ?x = _ |- context [?x] => rewrite E; clear E end. by destruct Hr.
Qed.

Lemma prepared_equiv b b' l : bundle_equiv b b' → prepared b l = prepared b' l.
Proof. intros [Hh _]. unfold prepared, utc in *. injection Hh. congruence. Qed.

Lemma prepareBundle_equiv b b' limits x :
  bundle_equiv b b' → prepareBundle b limits = Ok x → prepareBundle b' limits = Ok x.
Proof.
  destruct x as [p payload]. intros He (Hh & rs & l & Hr & Hl & Hc & -> & Hm)%prepareBundle_inv.
  pose proof (eqv_records _ _ He) as HR. rewrite Hr in HR. inversion HR as [? rs' HP|]; subst.
  rewrite (prepared_equiv b b' l He). apply (prepareBundle_intro _ _ rs').
  - by rewrite <-(validateBundleHeader_equiv b b').
  - done.
  - by rewrite <-HP.
  - by eapply canonicalRecords_order.
  - done.
Qed.

#[export] Instance prepareBundle_proper : Proper (bundle_equiv ==> eq ==> alike) prepareBundle.
Proof.
  intros b b' He limits _ <-. destruct (prepareBundle b limits) as [x|e] eqn:E1.
  - by rewrite (prepareBundle_equiv b b' limits x).
  - destruct (prepareBundle b' limits) as [x|e'] eqn:E2; [|done].
    apply (prepareBundle_equiv b' b) in E2; [|by symmetry]. congruence.
Qed.

Lemma prepare_again b limits p payload :
  prepareBundle b limits = Ok (p, payload) → prepareBundle p limits = Ok (p, payload).
Proof.
  intros (Hh & rs & l & Hr & Hl & Hc & -> & Hm)%prepareBundle_inv.
  change (prepareBundle (prepared b l) limits = Ok (prepared (prepared b l) l, payload)).
  apply (prepareBundle_intro _ _ l); [|done| |by eapply canonicalRecords_idem|done].
  - unfold validateBundleHeader in *. rewrite Hr in Hh. exact Hh.
  - by rewrite (canonicalRecords_length _ _ _ Hc).
Qed.

Lemma representable_utc u : time_in_range (utc u) = true → wf (utc u).
Proof. cbn. unfold representable, time_in_range. by intros ->. Qed.

(** A bundle that is prepared and can be written is a document. *)
Lemma prepared_wf `{!RegexpLaws} b limits p payload t :
  prepareBundle b limits = Ok (p, payload) → canonicalBundle p = Some t →
  valid_utf8 (PayloadSHA256 p) = true → valid_utf8 (Bundle_Signature p) = true →
  0 ≤ Sequence p ≤ max_uint64 → MinimumAgentSchema p ≤ max_int64 → wf p.
Proof.
  intros HP Hc Hu Hs Hq Hm. apply prepareBundle_inv in HP as (Hh & rs & l & Hr & _ & Hl & -> & _).
  assert (time_in_range (utc (IssuedAt b)) = true ∧ time_in_range (utc (ExpiresAt b)) = true) as [Hi He].
  { unfold canonicalBundle, Marshal in Hc. cbn [enc Bundle_codec] in Hc. unfold enc_struct, Bundle_parts, unsigned_parts in Hc.
    cbn [prepared IssuedAt ExpiresAt] in Hc. unfold f_req in Hc. cbn [enc time_codec] in Hc.
    destruct (time_in_range (utc (IssuedAt b))), (time_in_range (utc (ExpiresAt b))); done. }
  unfold validateBundleHeader in Hh. repeat case_in Hh; try done. bool_prop.
  split_and!; cbn [prepared Bundle_SchemaVersion Sequence MinimumAgentSchema IssuedAt ExpiresAt Records] in *.
  - repeat first [apply Forall_nil_2 | apply Forall_cons_2]; cbn [prepared Bundle_Schema BundleID KeyID].
    + match goal with E : Bundle_Schema b = _ |- _ => by rewrite E end.
    + by eapply is_ascii_valid, boundedIdentifier_ascii.
    + done.
    + by eapply is_ascii_valid, boundedIdentifier_ascii.
    + done.
  - match goal with E : Bundle_SchemaVersion b = _ |- _ => by rewrite E end.
  - match goal with E : Bundle_SchemaVersion b = _ |- _ => by rewrite E end.
  - lia.
  - lia.
  - by apply representable_utc.
  - by apply representable_utc.
  - lia.
  - lia.
  - exists l. split; [done|]. by eapply canonicalRecords_wf.
Qed.
End normal.
