(* ===== verification/IntelTrust.v ===== *)
(** * Package intel: trust stores

    [internal/intel/trust.go]: private files, and the pinned public keys read
    from one.  A file-system entry is a [node]; [Special] is a symbolic link, a
    device or whatever else is neither a file nor a directory.  The second look
    at an opened file is at the same file: files that are replaced while they
    are opened are not modelled. *)

From S2P Require Import Prelude GoString GoTime Json JsonCompact Model ModelJson StrictJson JsonSize.
From S2P Require Import GoCrypto Base64 IntelTypes IntelCanonical IntelNormal.
#[local] Open Scope Z_scope.

Inductive node :=
  | Regular (perm : Z) (content : string)
  | Directory (perm : Z)
  | Special.

(** The modes 0600 and 0700. *)
Definition private_file : Z := 384.
Definition private_directory : Z := 448.

Definition os_ErrNotExist : string := "fs.ErrNotExist".

Definition readSecureRegularFile (file : option node) (maxBytes : Z) : result string :=
  match file with
  | None => Err (Wrapf "intel: inspect local file: %w" (Sentinel os_ErrNotExist) [])
  | Some (Regular perm content) =>
      if negb (perm =? private_file) then Err ErrInsecurePermissions
      else if maxBytes <? slen content then Err ErrBundleTooLarge
      else Ok content
  | Some _ => Err ErrUnsafeFile
  end.

Definition maxTrustStoreBytes : Z := Z.shiftl 1 20.
Definition maxTrustStoreKeys : Z := 1024.

Definition TrustStore : Type := gmap string (list Z).

(** The key of 32 bytes whose one encoding the text is. *)
Definition decode_exact (n : Z) (text : string) : option (list Z) :=
  decoded ← std_decode text;
  if (Z.of_nat (length decoded) =? n) && String.eqb (std_encode decoded) text
  then Some decoded else None.

(** The loop over the entries of the document. *)
Fixpoint load_keys (keys : TrustStore) (entries : list trustStoreKey) : result TrustStore :=
  match entries with
  | [] => Ok keys
  | entry :: entries =>
      _ ← fail_if (negb (boundedIdentifier (Trust_KeyID entry) maxKeyIDBytes)) ErrInvalidTrustStore;
      _ ← fail_if (bool_decide (is_Some (keys !! Trust_KeyID entry))) ErrInvalidTrustStore;
      match decode_exact 32 (Trust_PublicKey entry) with
      | None => Err ErrInvalidTrustStore
      | Some decoded => load_keys (<[Trust_KeyID entry := decoded]> keys) entries
      end
  end.

Definition LoadTrustStore (file : option node) : result TrustStore :=
  encoded ← readSecureRegularFile file maxTrustStoreBytes;
  document ← map_err (λ _, ErrInvalidTrustStore) (decodeStrict encoded);
  _ ← fail_if (negb (String.eqb (Trust_Schema document) TrustStoreSchema)
               || negb (Trust_SchemaVersion document =? TrustStoreVersion)
               || (length (Trust_Keys document) =? 0)%nat
               || (maxTrustStoreKeys <? Z.of_nat (length (Trust_Keys document))))
        ErrInvalidTrustStore;
  load_keys ∅ (Trust_Keys document).

(** The method [key]; a nil store is [None]. *)
Definition trusted_key (store : option TrustStore) (keyID : string) : option (list Z) :=
  keys ← store; keys !! keyID.

Definition canonicalTrustStore (document : trustStoreFile) : result string :=
  match Marshal document with None => Err ErrInvalidTrustStore | Some encoded => Ok encoded end.

Definition trustStoreDocument (keyID : string) (publicKey : list Z) : result string :=
  if negb (boundedIdentifier keyID maxKeyIDBytes) || negb (Z.of_nat (length publicKey) =? 32) then
    Err (ErrorsNew "intel: invalid trust-store key")
  else canonicalTrustStore {|
    Trust_Schema := TrustStoreSchema; Trust_SchemaVersion := TrustStoreVersion;
    Trust_Keys := [{| Trust_KeyID := keyID; Trust_PublicKey := std_encode publicKey |}] |}.

(** ** Properties *)

Lemma decode_exact_encode n l :
  is_bytes l → Z.of_nat (length l) = n → decode_exact n (std_encode l) = Some l.
Proof.
  intros Hb Hl. unfold decode_exact. rewrite std_decode_encode by done. cbn [mbind option_bind].
  by rewrite (proj2 (Z.eqb_eq _ _) Hl), String.eqb_refl.
Qed.

Lemma decode_exact_inv n t l :
  decode_exact n t = Some l → t = std_encode l ∧ Z.of_nat (length l) = n.
Proof.
  unfold decode_exact. destruct (std_decode t) as [d|]; [|done]. cbn [mbind option_bind].
  destruct (_ && _) eqn:E; [|done]. intros [= <-]. by bool_prop.
Qed.

Lemma slen_padding n : slen (padding n) ≤ 2.
Proof. unfold padding. by destruct (n mod 3)%nat as [|[|[|]]]. Qed.

(** The document of one key stays far below the limit of the loader. *)
Lemma trust_document_size keyID publicKey t :
  boundedIdentifier keyID maxKeyIDBytes = true → length publicKey = 32%nat →
  Marshal {| Trust_Schema := TrustStoreSchema; Trust_SchemaVersion := TrustStoreVersion;
    Trust_Keys := [{| Trust_KeyID := keyID; Trust_PublicKey := std_encode publicKey |}] |} = Some t →
  slen t ≤ maxTrustStoreBytes.
Proof.
  intros [Hk _]%boundedMatch_inv Hl Ht. unfold maxKeyIDBytes in Hk.
  assert (slen (std_encode publicKey) ≤ 45) as Hp.
  { unfold std_encode. rewrite slen_app. unfold raw_std_encode. rewrite slen_encode, Hl.
    pose proof (slen_padding 32). change ((8 * Z.of_nat 32 + 5) / 6) with 43. lia. }
  etransitivity; [apply (slen_struct _ [("schema", 300); ("schema_version", 20);
    ("keys", 2 + (struct_bound [("key_id", 800); ("public_key", 300)] + 1) * 1)] t Ht)|by vm_compute].
  unfold trust_file_parts. cbn [Trust_Schema Trust_SchemaVersion Trust_Keys]. bounds; [done..|].
  apply Forall_singleton. intros v Hv. cbn [enc trust_key_codec] in Hv.
  eapply (slen_struct _ [("key_id", 800); ("public_key", 300)] _ Hv).
  unfold trust_key_parts. cbn [Trust_KeyID Trust_PublicKey].
  bounds; (etransitivity; [apply slen_quote_any|lia]).
Qed.

(** A document made for one key loads as the store that trusts exactly it,
    with its 32 bytes. *)
Theorem LoadTrustStore_document keyID publicKey :
  boundedIdentifier keyID maxKeyIDBytes = true → length publicKey = 32%nat → is_bytes publicKey →
  ∃ t, trustStoreDocument keyID publicKey = Ok t ∧
    LoadTrustStore (Some (Regular private_file t)) = Ok {[keyID := publicKey]}.
Proof.
  intros Hk Hl Hb. unfold trustStoreDocument. rewrite Hk, Hl. cbn [negb orb Z.of_nat Z.eqb Pos.eqb].
  set (document := {| Trust_Schema := TrustStoreSchema; Trust_SchemaVersion := TrustStoreVersion;
    Trust_Keys := [{| Trust_KeyID := keyID; Trust_PublicKey := std_encode publicKey |}] |}).
  assert (wf document) as Hw.
  { split_and!; [by repeat constructor|done|done|]. apply Forall_singleton.
    repeat first [apply Forall_nil_2 | apply Forall_cons_2]; apply is_ascii_valid;
      [by eapply boundedIdentifier_ascii|by apply std_encode_ascii]. }
  destruct (decode_strict_Marshal document Hw) as (t & Ht & Hd).
  exists t. unfold canonicalTrustStore. rewrite Ht. split; [done|].
  pose proof (trust_document_size keyID publicKey t Hk Hl Ht) as Hs.
  unfold LoadTrustStore, readSecureRegularFile. rewrite Z.eqb_refl. cbn [negb].
  rewrite (proj2 (Z.ltb_ge _ _)) by done. rewrite bind_ok. unfold decodeStrict. rewrite Hd.
  change (load_keys ∅ (Trust_Keys document) = Ok {[keyID := publicKey]}).
  unfold document. cbn [Trust_Keys load_keys Trust_KeyID Trust_PublicKey]. rewrite Hk. cbn [negb fail_if].
  rewrite bind_ok, bool_decide_eq_false_2 by (intros [x Hx]; by apply lookup_empty_Some in Hx).
  cbn [fail_if]. by rewrite bind_ok, decode_exact_encode by (done || by rewrite Hl).
Qed.

(** Every key of a store that loads has 32 bytes and an identifier for name. *)
Definition store_keys (keys : TrustStore) : Prop :=
  map_Forall (λ id k, boundedIdentifier id maxKeyIDBytes = true ∧ length k = 32%nat) keys.

Lemma load_keys_inv keys entries store :
  store_keys keys → load_keys keys entries = Ok store → store_keys store.
Proof.
  revert keys. induction entries as [|e es IH]; intros keys Hk; cbn [load_keys]; [by intros [= <-]|].
  intros ([] & Hi%fail_if_ok_inv & H)%bind_ok_inv. apply bind_ok_inv in H as ([] & _ & H).
  destruct (decode_exact 32 (Trust_PublicKey e)) as [d|] eqn:Ed; [|done].
  apply decode_exact_inv in Ed as [_ Hd]. bool_prop. refine (IH _ _ H).
  apply map_Forall_insert_2; [split; [done|lia]|done].
Qed.

Lemma LoadTrustStore_keys file store : LoadTrustStore file = Ok store → store_keys store.
Proof.
  unfold LoadTrustStore. intros (t & _ & (d & _ & (_ & _ & H)%bind_ok_inv)%bind_ok_inv)%bind_ok_inv.
  by apply (load_keys_inv ∅ _ _ (map_Forall_empty _)) in H.
Qed.
