(* ===== verification/IntelSign.v ===== *)
(** * Package intel: signing and verification

    [internal/intel/sign.go].  [authentic] says of a bundle and a text that the
    text is the bundle's one canonical form, within the limits, hashed and
    signed by a trusted key; [Verify] accepts exactly the authentic bundles
    that are in their time window, meant for this agent and not older than what
    was accepted before. *)

From S2P Require Import Prelude GoString GoTime Json JsonCompact Model ModelJson StrictJson JsonSize.
From S2P Require Import GoCrypto Base64 IntelTypes IntelCanonical IntelNormal IntelTrust.
#[local] Open Scope Z_scope.

(** The assignments to a copy of a bundle. *)
Definition with_key (b : Bundle) (keyID : string) : Bundle := {|
  Bundle_Schema := if String.eqb (Bundle_Schema b) "" then BundleSchema else Bundle_Schema b;
  Bundle_SchemaVersion :=
    if Bundle_SchemaVersion b =? 0 then BundleSchemaVersion else Bundle_SchemaVersion b;
  BundleID := BundleID b; Sequence := Sequence b; IssuedAt := IssuedAt b; ExpiresAt := ExpiresAt b;
  MinimumAgentSchema := MinimumAgentSchema b; Records := Records b; PayloadSHA256 := "";
  KeyID := keyID; Bundle_Signature := "" |}.

Definition sealed (b : Bundle) (hash signature : string) : Bundle := {|
  Bundle_Schema := Bundle_Schema b; Bundle_SchemaVersion := Bundle_SchemaVersion b;
  BundleID := BundleID b; Sequence := Sequence b; IssuedAt := IssuedAt b; ExpiresAt := ExpiresAt b;
  MinimumAgentSchema := MinimumAgentSchema b; Records := Records b; PayloadSHA256 := hash;
  KeyID := KeyID b; Bundle_Signature := signature |}.

Section sign.
Context `{RX : Regexp, HH : Hash, ED : Ed25519}.

Definition Sign (bundle : Bundle) (keyID : string) (privateKey : list Z) (limits : IntelLimits)
    : result (Bundle * string) :=
  resolvedLimits ← normalizeLimits limits;
  _ ← fail_if (negb (Z.of_nat (length privateKey) =? 64))
        (ErrorsNew "intel: invalid Ed25519 private key");
  '(prepared, payload) ← prepareBundle (with_key bundle keyID) resolvedLimits;
  let hash := hashBytes payload in
  match canonicalUnsigned (sealed prepared hash "") with
  | None => Err ErrInvalidBundle
  | Some unsigned =>
      let signed := sealed prepared hash (std_encode (ed_sign privateKey unsigned)) in
      match canonicalBundle signed with
      | None => Err ErrInvalidBundle
      | Some canonical =>
          _ ← fail_if (MaxBundleBytes resolvedLimits <? slen canonical) ErrBundleTooLarge;
          Ok (signed, canonical)
      end
  end.

Definition Canonicalize (bundle : Bundle) (limits : IntelLimits) : result string :=
  resolvedLimits ← normalizeLimits limits;
  '(prepared, _) ← prepareBundle bundle resolvedLimits;
  _ ← fail_if (negb (sha256Pattern (PayloadSHA256 prepared))
               || String.eqb (Bundle_Signature prepared) "") ErrInvalidBundle;
  match canonicalBundle prepared with
  | None => Err ErrInvalidBundle
  | Some canonical =>
      _ ← fail_if (MaxBundleBytes resolvedLimits <? slen canonical) ErrBundleTooLarge;
      Ok canonical
  end.

(** The switch over the last accepted state: whether this is a replay. *)
Definition check_sequence (last : option AcceptanceState) (prepared : Bundle) : result bool :=
  match last with
  | None => Ok false
  | Some previous =>
      if negb (0 <? Accepted_Sequence previous) then Ok false
      else if Sequence prepared <? Accepted_Sequence previous then Err ErrRollback
      else if (Sequence prepared =? Accepted_Sequence previous)
              && String.eqb (BundleID prepared) (Accepted_BundleID previous)
              && String.eqb (PayloadSHA256 prepared) (Accepted_PayloadSHA256 previous) then Ok true
      else if Sequence prepared =? Accepted_Sequence previous then Err ErrSequenceConflict
      else Ok false
  end.

(** The checks of [Verify] that do not depend on what was accepted before: the
    prepared bundle and its canonical form.  [clock] is what [time.Now]
    returns, for options without a time. *)
Definition verify_content (clock : Time) (encoded : string) (trustStore : option TrustStore)
    (options : VerifyOptions) : result (Bundle * string) :=
  resolvedLimits ← normalizeLimits (Verify_Limits options);
  _ ← fail_if (MaxBundleBytes resolvedLimits <? slen encoded) ErrBundleTooLarge;
  _ ← fail_if (bool_decide (trustStore = None)) ErrUnknownKey;
  decoded ← decodeStrict (A:=Bundle) encoded;
  _ ← fail_if (MaxRecords resolvedLimits <? Z.of_nat (length (default [] (Records decoded))))
        ErrTooManyRecords;
  '(prepared, payload) ← prepareBundle decoded resolvedLimits;
  match canonicalBundle prepared with
  | None => Err ErrInvalidBundle
  | Some canonical =>
      _ ← fail_if (negb (String.eqb encoded canonical)) ErrNonCanonical;
      _ ← fail_if (negb (sha256Pattern (PayloadSHA256 prepared))
                   || negb (String.eqb (PayloadSHA256 prepared) (hashBytes payload)))
            ErrPayloadHashMismatch;
      match trusted_key trustStore (KeyID prepared) with
      | None => Err ErrUnknownKey
      | Some publicKey =>
          match decode_exact 64 (Bundle_Signature prepared) with
          | None => Err ErrInvalidSignature
          | Some signature =>
              _ ← fail_if (negb (from_option (λ unsigned, ed_verify publicKey unsigned signature)
                     false (canonicalUnsigned prepared))) ErrInvalidSignature;
              let now := utc (if is_zero (Verify_Now options) then clock else Verify_Now options) in
              _ ← fail_if (ClockSkew options <? 0) ErrInvalidBundle;
              _ ← fail_if (before (add now (ClockSkew options)) (IssuedAt prepared)) ErrNotYetValid;
              _ ← fail_if (after (add now (- ClockSkew options)) (ExpiresAt prepared)) ErrExpired;
              let agentSchema := if AgentSchema options <=? 0 then 1 else AgentSchema options in
              _ ← fail_if (agentSchema <? MinimumAgentSchema prepared) ErrAgentSchema;
              Ok (prepared, canonical)
          end
      end
  end.

Definition Verify (clock : Time) (encoded : string) (trustStore : option TrustStore)
    (options : VerifyOptions) : result VerifiedBundle :=
  '(prepared, canonical) ← verify_content clock encoded trustStore options;
  replay ← check_sequence (LastAccepted options) prepared;
  Ok {| Verified_Bundle := prepared; Canonical := canonical; Verified_Replay := replay |}.

(** ** What verification establishes *)

Record authentic (limits : IntelLimits) (keys : TrustStore) (b : Bundle) (encoded : string)
    : Prop := {
  au_size : slen encoded ≤ MaxBundleBytes limits;
  au_canonical : canonicalBundle b = Some encoded;
  au_payload : ∃ payload, prepareBundle b limits = Ok (b, payload) ∧
    PayloadSHA256 b = hashBytes payload;
  au_signed : ∃ publicKey signature unsigned, keys !! KeyID b = Some publicKey ∧
    decode_exact 64 (Bundle_Signature b) = Some signature ∧
    canonicalUnsigned b = Some unsigned ∧ ed_verify publicKey unsigned signature = true;
}.

(** In the time window and meant for the agent. *)
Definition in_force (clock : Time) (options : VerifyOptions) (b : Bundle) : Prop :=
  let now := if is_zero (Verify_Now options) then clock else Verify_Now options in
  0 ≤ ClockSkew options ∧ ns (IssuedAt b) ≤ ns now + ClockSkew options ∧
  ns now - ClockSkew options ≤ ns (ExpiresAt b) ∧
  MinimumAgentSchema b ≤ Z.max 1 (AgentSchema options).

(** Not older than the last accepted bundle; of its age only as a replay. *)
Definition advances (last : option AcceptanceState) (b : Bundle) (replay : bool) : Prop :=
  match last with
  | Some a =>
      if 0 <? Accepted_Sequence a then
        if replay then
          Accepted_Sequence a = Sequence b ∧ Accepted_BundleID a = BundleID b ∧
          Accepted_PayloadSHA256 a = PayloadSHA256 b
        else Accepted_Sequence a < Sequence b
      else replay = false
  | None => replay = false
  end.

Lemma check_sequence_ok last b replay :
  check_sequence last b = Ok replay ↔ advances last b replay.
Proof.
  unfold check_sequence, advances. destruct last as [a|]; [|split; [by intros [= <-]|by intros ->]].
  destruct (0 <? Accepted_Sequence a); cbn [negb]; [|split; [by intros [= <-]|by intros ->]].
  destruct (Z.ltb_spec (Sequence b) (Accepted_Sequence a)).
  { split; [done|]. destruct replay; [|lia]. intros (E & _). lia. }
  destruct (Z.eqb_spec (Sequence b) (Accepted_Sequence a)) as [E|E]; cbn [andb].
  - destruct (String.eqb_spec (BundleID b) (Accepted_BundleID a)) as [E1|E1]; cbn [andb].
    + destruct (String.eqb_spec (PayloadSHA256 b) (Accepted_PayloadSHA256 a)) as [E2|E2]; cbn [andb].
      * split; [by intros [= <-]|]. destruct replay; [done|lia].
      * split; [done|]. destruct replay; [|lia]. intros (_ & _ & E3). congruence.
    + split; [done|]. destruct replay; [|lia]. intros (_ & E3 & _). congruence.
  - split; [intros [= <-]; lia|]. destruct replay; [|done]. intros (E1 & _). congruence.
Qed.

Lemma in_force_ok clock options b :
  in_force clock options b ↔
    let now := utc (if is_zero (Verify_Now options) then clock else Verify_Now options) in
    (ClockSkew options <? 0) = false ∧
    before (add now (ClockSkew options)) (IssuedAt b) = false ∧
    after (add now (- ClockSkew options)) (ExpiresAt b) = false ∧
    ((if AgentSchema options <=? 0 then 1 else AgentSchema options) <? MinimumAgentSchema b) = false.
Proof.
  unfold in_force, before, after, add, utc. cbn [ns]. rewrite !Z.ltb_ge.
  destruct (Z.leb_spec (AgentSchema options) 0); cbn zeta; split; intros; destruct_and!; split_and!; lia.
Qed.

Lemma lower_hex_char d : 0 ≤ d < 16 → lower_hex (byte (hex_char d)) = true.
Proof.
  intros H. assert (∃ n, d = Z.of_nat n ∧ (n < 16)%nat) as (n & -> & Hn)
    by (exists (Z.to_nat d); lia).
  do 16 (destruct n as [|n]; [reflexivity|]). lia.
Qed.

Lemma hashBytes_pattern `{HL : !HashLaws} t : sha256Pattern (hashBytes t) = true.
Proof.
  unfold sha256Pattern, hashBytes. pose proof (Sum256_length t) as Hl. pose proof (Sum256_bytes t) as Hb.
  apply andb_true_intro. split.
  - apply Z.eqb_eq. change 64 with (2 * Z.of_nat 32). rewrite <-Hl. clear.
    induction (Sum256 t) as [|b l IH]; [done|]. cbn [hex_encode length]. unfold slen in *. cbn [String.length]. lia.
  - clear Hl. induction Hb as [|b l Hb _ IH]; [done|]. cbn [hex_encode bytes forallb].
    rewrite IH. assert (0 ≤ b / 16 < 16 ∧ 0 ≤ b mod 16 < 16) as [H1 H2].
    { split; [|apply Z.mod_pos_bound; lia].
      split; [apply Z.div_pos; lia|apply Z.div_lt_upper_bound; lia]. }
    by rewrite !lower_hex_char.
Qed.

(** The checks of [Verify], in the words of the specification. *)
Lemma Verify_inv clock encoded store options v :
  Verify clock encoded store options = Ok v →
  ∃ limits keys d payload, normalizeLimits (Verify_Limits options) = Ok limits ∧ store = Some keys ∧
    decodeStrict encoded = Ok d ∧ prepareBundle d limits = Ok (Verified_Bundle v, payload) ∧
    authentic limits keys (Verified_Bundle v) encoded ∧
    in_force clock options (Verified_Bundle v) ∧
    advances (LastAccepted options) (Verified_Bundle v) (Verified_Replay v) ∧
    Canonical v = encoded.
Proof.
  unfold Verify. intros ([p c] & H1 & H2)%bind_ok_inv.
  apply bind_ok_inv in H2 as (replay & Hr%check_sequence_ok & [= <-]).
  unfold verify_content in H1. apply bind_ok_inv in H1 as (limits & Hlim & H1).
  apply bind_ok_inv in H1 as ([] & Hs%fail_if_ok_inv & H1).
  apply bind_ok_inv in H1 as ([] & Hst%fail_if_ok_inv & H1).
  apply bind_ok_inv in H1 as (d & Hd & H1). apply bind_ok_inv in H1 as ([] & _ & H1).
  apply bind_ok_inv in H1 as ([p' payload] & Hp & H1).
  destruct (canonicalBundle p') as [canonical|] eqn:Hc; [|done].
  apply bind_ok_inv in H1 as ([] & He%fail_if_ok_inv & H1).
  apply bind_ok_inv in H1 as ([] & Hh%fail_if_ok_inv & H1).
  destruct store as [keys|]; [|done]. cbn [trusted_key mbind option_bind] in H1.
  destruct (keys !! KeyID p') as [pk|] eqn:Hk; [|done].
  destruct (decode_exact 64 (Bundle_Signature p')) as [sg|] eqn:Hsg; [|done].
  apply bind_ok_inv in H1 as ([] & Hv%fail_if_ok_inv & H1).
  do 4 apply bind_ok_inv in H1 as ([] & ?%fail_if_ok_inv & H1).
  injection H1 as -> ->. bool_prop. subst encoded.
  cbn [Verified_Bundle Verified_Replay Canonical]. exists limits, keys, d, payload.
  split_and!; [done..| | |done|done];
    [|apply in_force_ok; cbv zeta; split_and!; [by apply Z.ltb_ge|done|done|by apply Z.ltb_ge]].
  split.
  - done.
  - done.
  - exists payload. split; [by apply (prepare_again d)|done].
  - destruct (canonicalUnsigned p) as [unsigned|] eqn:Hu; [|done].
    by exists pk, sg, unsigned.
Qed.

(** The last accepted state matters only for the sequence. *)
Lemma Verify_again clock encoded store options options' v replay :
  Verify clock encoded store options = Ok v →
  verify_content clock encoded store options' = verify_content clock encoded store options →
  advances (LastAccepted options') (Verified_Bundle v) replay →
  Verify clock encoded store options' =
    Ok {| Verified_Bundle := Verified_Bundle v; Canonical := Canonical v; Verified_Replay := replay |}.
Proof.
  unfold Verify. intros ([p c] & H1 & (r & _ & [= <-])%bind_ok_inv)%bind_ok_inv -> Ha%check_sequence_ok.
  rewrite H1, bind_ok. cbn [Verified_Bundle] in Ha. by rewrite Ha.
Qed.

(** What is authentic and in force is accepted. *)
Lemma Verify_intro `{HL : !HashLaws} clock encoded keys options limits b replay :
  normalizeLimits (Verify_Limits options) = Ok limits → decodeStrict encoded = Ok b →
  authentic limits keys b encoded → in_force clock options b →
  advances (LastAccepted options) b replay →
  Verify clock encoded (Some keys) options =
    Ok {| Verified_Bundle := b; Canonical := encoded; Verified_Replay := replay |}.
Proof.
  intros Hlim Hd [Hs Hc (payload & Hp & Hh) (pk & sg & u & Hk & Hsg & Hu & Hv)] Hf Ha.
  unfold Verify, verify_content. rewrite Hlim, bind_ok, (proj2 (Z.ltb_ge (MaxBundleBytes limits) _) Hs).
  rewrite bool_decide_eq_false_2 by done. cbn [fail_if]. rewrite !bind_ok, Hd, bind_ok.
  pose proof Hp as (_ & rs & l & Hr & Hlen & _ & _ & _)%prepareBundle_inv.
  rewrite Hr. cbn [from_option]. unfold id. rewrite (proj2 (Z.ltb_ge (MaxRecords limits) _) Hlen).
  cbn [fail_if]. rewrite bind_ok, Hp, bind_ok, Hc, String.eqb_refl. cbn [negb fail_if]. rewrite bind_ok.
  rewrite Hh, hashBytes_pattern, String.eqb_refl. cbn [negb orb fail_if]. rewrite bind_ok.
  cbn [trusted_key mbind option_bind]. rewrite Hk.
  rewrite Hsg, Hu. cbn [from_option]. rewrite Hv. cbn [negb fail_if]. rewrite bind_ok.
  apply in_force_ok in Hf as (F1 & F2 & F3 & F4). cbv zeta. rewrite F1, F2, F3, F4. cbn [fail_if].
  rewrite !bind_ok. apply check_sequence_ok in Ha. by rewrite Ha.
Qed.

Lemma prepared_sealed b limits p payload hash signature :
  prepareBundle b limits = Ok (p, payload) →
  prepareBundle (sealed p hash signature) limits = Ok (sealed p hash signature, payload).
Proof.
  intros H%prepare_again. apply prepareBundle_inv in H as (Hh & rs & l & Hr & Hl & Hc & He & Hm).
  assert (sealed p hash signature = prepared (sealed p hash signature) l) as Hs.
  { rewrite He. reflexivity. }
  rewrite Hs at 2. by apply (prepareBundle_intro _ _ rs).
Qed.

(** What [Sign] returns: the canonical form of a prepared bundle with its hash
    and its signature. *)
Lemma Sign_inv bundle keyID seed limits signed canonical :
  Sign bundle keyID (ed_private seed) limits = Ok (signed, canonical) →
  ∃ resolved p payload unsigned, normalizeLimits limits = Ok resolved ∧
    prepareBundle (with_key bundle keyID) resolved = Ok (p, payload) ∧
    signed = sealed p (hashBytes payload) (std_encode (ed_sign (ed_private seed) unsigned)) ∧
    canonicalUnsigned signed = Some unsigned ∧ canonicalBundle signed = Some canonical ∧
    slen canonical ≤ MaxBundleBytes resolved.
Proof.
  unfold Sign. intros (resolved & Hlim & H1)%bind_ok_inv. apply bind_ok_inv in H1 as (_ & _ & H1).
  apply bind_ok_inv in H1 as ([p payload] & Hp & H1). cbv zeta in H1.
  destruct (canonicalUnsigned _) as [unsigned|] eqn:Hu; [|done].
  destruct (canonicalBundle _) as [c|] eqn:Hc; [|done].
  apply bind_ok_inv in H1 as ([] & Hs%fail_if_ok_inv & [= <- <-]). bool_prop.
  exists resolved, p, payload, unsigned. by split_and!.
Qed.

(** ** Properties *)

(** C11. Whatever [Verify] accepts is authentic, that is within the limits, in
    canonical form, with the hash of its records and a signature by a key of
    the trust store over everything but itself; it is in force at the time of
    the check; and it is not older than the last accepted bundle, of the same
    sequence only when it is the accepted one. *)
Theorem Verify_sound clock encoded store options v :
  Verify clock encoded store options = Ok v →
  ∃ limits keys, normalizeLimits (Verify_Limits options) = Ok limits ∧ store = Some keys ∧
    authentic limits keys (Verified_Bundle v) encoded ∧ Canonical v = encoded ∧
    in_force clock options (Verified_Bundle v) ∧
    advances (LastAccepted options) (Verified_Bundle v) (Verified_Replay v).
Proof.
  intros (limits & keys & d & payload & Hl & Hs & _ & _ & Ha & Hf & Hr & Hc)%Verify_inv.
  by exists limits, keys.
Qed.

Lemma Sign_decodes `{RL : !RegexpLaws, EL : !Ed25519Laws, HL : !HashLaws}
    bundle keyID seed limits signed canonical :
  0 ≤ Sequence bundle ≤ max_uint64 → MinimumAgentSchema bundle ≤ max_int64 →
  Sign bundle keyID (ed_private seed) limits = Ok (signed, canonical) →
  decodeStrict canonical = Ok signed ∧ Sequence signed = Sequence bundle ∧ KeyID signed = keyID.
Proof.
  intros Hq Hm (resolved & p & payload & unsigned & Hlim & Hp & He & Hu & Hc & Hs)%Sign_inv.
  pose proof (prepared_sealed _ _ _ _ (hashBytes payload)
    (std_encode (ed_sign (ed_private seed) unsigned)) Hp) as Hps.
  apply prepareBundle_inv in Hp as (_ & rs & l & _ & _ & _ & Hpe & _). subst signed p.
  assert (wf (sealed (prepared (with_key bundle keyID) l) (hashBytes payload)
    (std_encode (ed_sign (ed_private seed) unsigned)))) as Hw.
  { eapply prepared_wf; [exact Hps|exact Hc|..]; try done.
    - apply is_ascii_valid, is_ascii_hex, Sum256_bytes.
    - apply is_ascii_valid, std_encode_ascii, ed_sign_bytes. }
  destruct (decode_strict_Marshal _ Hw) as (t & Ht & Hd).
  unfold canonicalBundle in Hc. rewrite Hc in Ht. injection Ht as <-.
  unfold decodeStrict. by rewrite Hd.
Qed.

(** C10. What [Sign] makes with the private key of a pair, [Verify] accepts
    within the same limits and under a trust store that binds the key's name to
    the public key, and returns as it was signed, when the bundle is in force
    at the time and its sequence is above the last accepted one; the sequence
    and the agent schema are in the range of their machine types. *)
Theorem Sign_Verify `{RL : !RegexpLaws, EL : !Ed25519Laws, HL : !HashLaws}
    bundle keyID seed signed canonical clock keys options :
  length seed = 32%nat → is_bytes seed →
  0 ≤ Sequence bundle ≤ max_uint64 → MinimumAgentSchema bundle ≤ max_int64 →
  Sign bundle keyID (ed_private seed) (Verify_Limits options) = Ok (signed, canonical) →
  keys !! keyID = Some (ed_public seed) → in_force clock options signed →
  advances (LastAccepted options) signed false →
  Verify clock canonical (Some keys) options =
    Ok {| Verified_Bundle := signed; Canonical := canonical; Verified_Replay := false |}.
Proof.
  intros Hsl Hsb Hq Hm HS Hk Hf Ha.
  destruct (Sign_decodes _ _ _ _ _ _ Hq Hm HS) as (Hd & _ & Hid).
  apply Sign_inv in HS as (resolved & p & payload & unsigned & Hlim & Hp & -> & Hu & Hc & Hs).
  apply (Verify_intro _ _ _ _ resolved); try done. split.
  - done.
  - done.
  - exists payload. split; [by eapply prepared_sealed|done].
  - exists (ed_public seed), (ed_sign (ed_private seed) unsigned), unsigned. split_and!.
    + by rewrite Hid.
    + apply decode_exact_encode; [apply ed_sign_bytes|]. by rewrite ed_sign_length.
    + done.
    + by apply ed_verify_sign.
Qed.
(** The signed bundle is canonical already. *)
Lemma Canonicalize_signed `{EL : !Ed25519Laws, HL : !HashLaws} bundle keyID seed limits signed canonical :
  Sign bundle keyID (ed_private seed) limits = Ok (signed, canonical) →
  Canonicalize signed limits = Ok canonical.
Proof.
  intros (resolved & p & payload & unsigned & Hlim & Hp & -> & Hu & Hc & Hs)%Sign_inv.
  unfold Canonicalize. rewrite Hlim, bind_ok, (prepared_sealed _ _ _ _ _ _ Hp), bind_ok.
  cbn [sealed PayloadSHA256 Bundle_Signature]. rewrite hashBytes_pattern. cbn [negb orb].
  assert (String.eqb (std_encode (ed_sign (ed_private seed) unsigned)) "" = false) as ->.
  { apply String.eqb_neq. intros E. apply (f_equal slen) in E.
    unfold std_encode, raw_std_encode in E. rewrite slen_app, slen_encode, ed_sign_length in E.
    pose proof (slen_nonneg (padding 64)). change (slen "") with 0 in E.
    change ((8 * Z.of_nat 64 + 5) / 6) with 86 in E. lia. }
  cbn [fail_if]. rewrite bind_ok, Hc. by rewrite (proj2 (Z.ltb_ge _ _)).
Qed.

Lemma with_key_equiv b b' keyID : bundle_equiv b b' → bundle_equiv (with_key b keyID) (with_key b' keyID).
Proof.
  intros [Hh Hr]. split; [|done]. unfold prepared, with_key, utc in *. cbn.
  injection Hh. intros. repeat match goal with E : ?x = _ |- context [?x] => rewrite E; clear E end. done.
Qed.

(** C12. The order in which records are given and the zones of the times do not
    matter: bundles that differ in nothing else are signed as the same bundle
    and the same text, or are both refused. *)
Theorem Sign_order b b' keyID privateKey limits :
  bundle_equiv b b' → alike (Sign b keyID privateKey limits) (Sign b' keyID privateKey limits).
Proof.
  intros He. unfold Sign. apply alike_bind; [by destruct (normalizeLimits limits)|]. intros resolved.
  apply alike_bind; [apply alike_fail|]. intros _.
  apply alike_bind; [by apply prepareBundle_proper; [apply with_key_equiv|]|].
  intros [p payload]. cbv zeta. case_match; [|done]. case_match; [|done].
  by apply alike_bind; [apply alike_fail|].
Qed.
End sign.
