(* ===== verification/IntelInstall.v ===== *)
(** * Package intel: the installed bundle

    [internal/intel/install.go].  The install directory is the value
    [InstallDir]: its own entry, its subdirectory [bundles] with the files in
    it, and [current.json], the commit pointer.  A change to it is one atomic
    step, as the code's temporary file and rename make it, and has a [fate]: it
    is done; or refused, when the context is cancelled, the operating system
    fails or the process ends; or it is done and an error is returned all the
    same, when the directory cannot be synced after the rename. *)

From S2P Require Import Prelude GoString GoTime Json JsonCompact Model ModelJson StrictJson JsonSize.
From S2P Require Import GoCrypto Base64.
From S2P Require Import IntelTypes IntelCanonical IntelNormal IntelTrust IntelSign.
#[local] Open Scope Z_scope.

Definition maxCurrentMetadataBytes : Z := Z.shiftl 64 10.

Record InstallDir := {
  dir_root : option node;
  dir_bundles : option node;
  dir_current : option node;
  bundle_files : gmap string node;
}.

Inductive fate := Done | Refused | Unsynced.

(** The directory, and the fates of the next changes to it; later ones are
    done. *)
Record Disk := { disk : InstallDir; fates : list fate }.

(** ** Directories *)

Inductive place := Root | Bundles.

Definition entry (p : place) (d : InstallDir) : option node :=
  match p with Root => dir_root d | Bundles => dir_bundles d end.

(** A directory that is created is empty. *)
Definition create (p : place) (d : InstallDir) : InstallDir :=
  match p with
  | Root => {| dir_root := Some (Directory private_directory); dir_bundles := None;
               dir_current := None; bundle_files := ∅ |}
  | Bundles => {| dir_root := dir_root d; dir_bundles := Some (Directory private_directory);
                  dir_current := dir_current d; bundle_files := ∅ |}
  end.

Definition interrupted : error := ErrorsNew "intel: write local file".
Definition not_synced : error := ErrorsNew "intel: sync directory".

Definition change (f : InstallDir → InstallDir) : eff Disk unit := λ s,
  match fates s with
  | [] => ({| disk := f (disk s); fates := [] |}, Ok tt)
  | Done :: fs => ({| disk := f (disk s); fates := fs |}, Ok tt)
  | Refused :: fs => ({| disk := disk s; fates := fs |}, Err interrupted)
  | Unsynced :: fs => ({| disk := f (disk s); fates := fs |}, Err not_synced)
  end.

Definition isNotExist (err : error) : bool := errors_is err os_ErrNotExist.

Definition inspectPrivateDirectory (n : option node) : result unit :=
  match n with
  | None => Err (Wrapf "intel: inspect private directory: %w" (Sentinel os_ErrNotExist) [])
  | Some (Directory perm) =>
      fail_if (negb (perm =? private_directory))
        (ErrorsNew "intel: directory permissions must be 0700")
  | Some _ => Err ErrUnsafeFile
  end.

Definition ensurePrivateDirectory (p : place) : eff Disk unit := λ s,
  match entry p (disk s) with
  | None => (change (create p) ≫= λ _, query (λ s, inspectPrivateDirectory (entry p (disk s)))) s
  | Some n => (s, inspectPrivateDirectory (Some n))
  end.

(** ** The current bundle *)

(** The submatch of [^bundle-([0-9a-f]{64})\.json$]. *)
Definition bundle_file_hash (name : string) : option string :=
  rest ← strip_prefix "bundle-" name;
  let hash := str_take 64 rest in
  if sha256Pattern hash && String.eqb rest (hash +:+ ".json") then Some hash else None.

Definition validCurrentMetadata (metadata : CurrentMetadata) : bool :=
  String.eqb (Current_Schema metadata) CurrentSchema
  && (Current_SchemaVersion metadata =? CurrentSchemaVersion)
  && bool_decide (bundle_file_hash (BundleFile metadata) = Some (BundleSHA256 metadata))
  && boundedIdentifier (Current_BundleID metadata) maxBundleIDBytes
  && (0 <? Current_Sequence metadata)
  && sha256Pattern (Current_PayloadSHA256 metadata)
  && boundedIdentifier (Current_KeyID metadata) maxKeyIDBytes.

Section install.
Context `{RX : Regexp, HH : Hash, ED : Ed25519}.

Definition ReadCurrent (d : InstallDir) (limits : IntelLimits) : result (CurrentMetadata * string) :=
  resolvedLimits ← normalizeLimits limits;
  _ ← map_err (λ err, if isNotExist err then ErrNoCurrentBundle else err)
        (inspectPrivateDirectory (dir_root d));
  _ ← map_err (λ _, ErrCurrentState) (inspectPrivateDirectory (dir_bundles d));
  currentJSON ← map_err (λ err, if isNotExist err then ErrNoCurrentBundle else err)
    (readSecureRegularFile (dir_current d) maxCurrentMetadataBytes);
  metadata ← map_err (λ _, ErrCurrentState) (decodeStrict (A:=CurrentMetadata) currentJSON);
  _ ← fail_if (negb (validCurrentMetadata metadata)) ErrCurrentState;
  bundleJSON ← map_err (λ _, ErrCurrentState)
    (readSecureRegularFile (bundle_files d !! BundleFile metadata) (MaxBundleBytes resolvedLimits));
  _ ← fail_if (negb (String.eqb (hashBytes bundleJSON) (BundleSHA256 metadata))) ErrCurrentState;
  bundle ← map_err (λ _, ErrCurrentState) (decodeStrict (A:=Bundle) bundleJSON);
  '(prepared, _) ← map_err (λ _, ErrCurrentState) (prepareBundle bundle resolvedLimits);
  _ ← fail_if (negb (bool_decide (canonicalBundle prepared = Some bundleJSON))
        || negb (String.eqb (BundleID bundle) (Current_BundleID metadata))
        || negb (Sequence bundle =? Current_Sequence metadata)
        || negb (String.eqb (PayloadSHA256 bundle) (Current_PayloadSHA256 metadata))
        || negb (String.eqb (KeyID bundle) (Current_KeyID metadata))) ErrCurrentState;
  Ok (metadata, bundleJSON).

(** [current] is never nil at the only call. *)
Definition strongerAcceptance (caller : option AcceptanceState) (current : AcceptanceState)
    : result AcceptanceState :=
  match caller with
  | None => Ok current
  | Some caller =>
      if Accepted_Sequence caller =? 0 then Ok current
      else if Accepted_Sequence current =? 0 then Ok caller
      else if Accepted_Sequence current <? Accepted_Sequence caller then Ok caller
      else if Accepted_Sequence caller <? Accepted_Sequence current then Ok current
      else if negb (String.eqb (Accepted_BundleID caller) (Accepted_BundleID current))
              || negb (String.eqb (Accepted_PayloadSHA256 caller) (Accepted_PayloadSHA256 current))
      then Err ErrSequenceConflict
      else Ok current
  end.

(** ** Publishing *)

Definition set_bundle (name content : string) (d : InstallDir) : InstallDir :=
  {| dir_root := dir_root d; dir_bundles := dir_bundles d; dir_current := dir_current d;
     bundle_files := <[name := Regular private_file content]> (bundle_files d) |}.

Definition set_current (content : string) (d : InstallDir) : InstallDir :=
  {| dir_root := dir_root d; dir_bundles := dir_bundles d;
     dir_current := Some (Regular private_file content); bundle_files := bundle_files d |}.

Definition writeImmutableFile (name content : string) : eff Disk unit := λ s,
  match readSecureRegularFile (bundle_files (disk s) !! name) (slen content) with
  | Ok existing => (s, fail_if (negb (String.eqb existing content)) ErrCurrentState)
  | Err err => if isNotExist err then change (set_bundle name content) s else (s, Err err)
  end.

Definition writeAtomicFile (content : string) : eff Disk unit := change (set_current content).

Definition metadata_of (verified : VerifiedBundle) : CurrentMetadata :=
  let bundleHash := hashBytes (Canonical verified) in
  {| Current_Schema := CurrentSchema; Current_SchemaVersion := CurrentSchemaVersion;
     BundleFile := "bundle-" +:+ bundleHash +:+ ".json";
     Current_BundleID := BundleID (Verified_Bundle verified);
     Current_Sequence := Sequence (Verified_Bundle verified);
     Current_PayloadSHA256 := PayloadSHA256 (Verified_Bundle verified);
     BundleSHA256 := bundleHash; Current_KeyID := KeyID (Verified_Bundle verified) |}.

Definition with_accepted (options : VerifyOptions) (last : option AcceptanceState) : VerifyOptions :=
  {| Verify_Limits := Verify_Limits options; Verify_Now := Verify_Now options;
     ClockSkew := ClockSkew options; AgentSchema := AgentSchema options; LastAccepted := last |}.

(** The switch over the outcome of [ReadCurrent]. *)
Definition accepted_so_far (options : VerifyOptions)
    (current : result (CurrentMetadata * string)) : result VerifyOptions :=
  match current with
  | Ok (currentMetadata, _) =>
      effective ← strongerAcceptance (LastAccepted options) (acceptance_state currentMetadata);
      Ok (with_accepted options (Some effective))
  | Err err => if errors_is err "intel.ErrNoCurrentBundle" then Ok options else Err err
  end.

(** The bundle is installed already, byte for byte. *)
Definition unchanged (current : result (CurrentMetadata * string)) (verified : VerifiedBundle)
    : bool :=
  match current with
  | Ok (currentMetadata, currentBytes) =>
      Verified_Replay verified && bool_decide (currentMetadata = metadata_of verified)
      && String.eqb currentBytes (Canonical verified)
  | Err _ => false
  end.

Definition Install (clock : Time) (encoded : string) (trustStore : option TrustStore)
    (options : VerifyOptions) : eff Disk InstallResult :=
  ensurePrivateDirectory Root;;
  ensurePrivateDirectory Bundles;;
  current ← (λ s, (s, Ok (ReadCurrent (disk s) (Verify_Limits options))));
  verifyOptions ← pure_ (accepted_so_far options current);
  verified ← pure_ (Verify clock encoded trustStore verifyOptions);
  let metadata := metadata_of verified in
  if unchanged current verified then
    mret {| Result_Metadata := metadata; Installed := false; Result_Replay := true |}
  else
    writeImmutableFile (BundleFile metadata) (Canonical verified);;
    currentJSON ← pure_ (match Marshal metadata with
                         | None => Err ErrCurrentState | Some t => Ok t end);
    writeAtomicFile currentJSON;;
    mret {| Result_Metadata := metadata; Installed := true;
            Result_Replay := Verified_Replay verified |}.
End install.
