(* ===== verification/IntelInstallFacts.v ===== *)
(** * Package intel: properties of installation

    What [ReadCurrent] accepts is the record [stored].  A change to the
    directory that is not the commit leaves it alone, whatever interrupts the
    call; the commit makes the new bundle current; and since [Install] verifies
    against the current bundle, the sequence of the current bundle never
    decreases. *)

From S2P Require Import Prelude GoString GoTime Json JsonCompact Model ModelJson StrictJson JsonSize.
From S2P Require Import GoCrypto Base64.
From S2P Require Import IntelTypes IntelCanonical IntelNormal IntelTrust IntelSign IntelInstall.
#[local] Open Scope Z_scope.

Section facts.
Context `{RX : Regexp, HH : Hash, ED : Ed25519}.

(** ** What [ReadCurrent] accepts *)

Definition is_private (n : option node) : Prop := n = Some (Directory private_directory).

(** A text of the commit pointer, and the metadata it holds. *)
Record pointer (t : string) (m : CurrentMetadata) : Prop := {
  pt_size : slen t ≤ maxCurrentMetadataBytes;
  pt_decodes : decodeStrict t = Ok m;
  pt_valid : validCurrentMetadata m = true;
}.

(** A canonical bundle that the metadata describes. *)
Record described (limits : IntelLimits) (m : CurrentMetadata) (c : string) : Prop := {
  ds_size : slen c ≤ MaxBundleBytes limits;
  ds_hash : hashBytes c = BundleSHA256 m;
  ds_bundle : ∃ b p payload, decodeStrict c = Ok b ∧ prepareBundle b limits = Ok (p, payload) ∧
    canonicalBundle p = Some c ∧ BundleID b = Current_BundleID m ∧
    Sequence b = Current_Sequence m ∧ PayloadSHA256 b = Current_PayloadSHA256 m ∧
    KeyID b = Current_KeyID m;
}.

Record stored (limits : IntelLimits) (d : InstallDir) (m : CurrentMetadata) (c : string) : Prop := {
  st_root : is_private (dir_root d);
  st_bundles : is_private (dir_bundles d);
  st_current : ∃ t, dir_current d = Some (Regular private_file t) ∧ pointer t m;
  st_file : bundle_files d !! BundleFile m = Some (Regular private_file c);
  st_described : described limits m c;
}.

Lemma inspect_ok n : inspectPrivateDirectory n = Ok tt ↔ is_private n.
Proof.
  unfold inspectPrivateDirectory, is_private. destruct n as [[p c|p|]|]; try done.
  destruct (Z.eqb_spec p private_directory) as [->|Hp]; cbn; [done|].
  split; [done|]. by intros [= ->].
Qed.

Lemma read_ok n max c :
  readSecureRegularFile n max = Ok c ↔ n = Some (Regular private_file c) ∧ slen c ≤ max.
Proof.
  unfold readSecureRegularFile. destruct n as [[p t|p|]|]; try (split; [done|by intros [[=] _]]).
  destruct (Z.eqb_spec p private_file) as [->|Hp]; cbn [negb].
  - destruct (Z.ltb_spec max (slen t)); (split; [|intros [[= ->] H']; done || lia]); [done|by intros [= ->]].
  - split; [done|]. by intros [[= ->] _].
Qed.

Lemma ReadCurrent_stored d limits m c :
  ReadCurrent d limits = Ok (m, c) ↔
    ∃ resolved, normalizeLimits limits = Ok resolved ∧ stored resolved d m c.
Proof.
  unfold ReadCurrent. split.
  - intros (resolved & Hl & H1)%bind_ok_inv. exists resolved. split; [done|].
    apply bind_ok_inv in H1 as ([] & Hr%map_err_ok_inv%inspect_ok & H1).
    apply bind_ok_inv in H1 as ([] & Hb%map_err_ok_inv%inspect_ok & H1).
    apply bind_ok_inv in H1 as (t & (Ht & Hs)%map_err_ok_inv%read_ok & H1).
    apply bind_ok_inv in H1 as (m' & Hm%map_err_ok_inv & H1).
    apply bind_ok_inv in H1 as ([] & Hv%fail_if_ok_inv & H1).
    apply bind_ok_inv in H1 as (c' & (Hf & Hc)%map_err_ok_inv%read_ok & H1).
    apply bind_ok_inv in H1 as ([] & Hh%fail_if_ok_inv & H1).
    apply bind_ok_inv in H1 as (b & Hd%map_err_ok_inv & H1).
    apply bind_ok_inv in H1 as ([p payload] & Hp%map_err_ok_inv & H1).
    apply bind_ok_inv in H1 as ([] & Hx%fail_if_ok_inv & [= -> ->]). bool_prop.
    split; [done|done|by exists t|done|]. split; [done|done|]. exists b, p, payload. by split_and!.
  - intros (resolved & Hl & [Hr Hb (t & Ht & [Hs Hm Hv]) Hf [Hc Hh (b & p & payload & Hd & Hp & Hx & H1 & H2 & H3 & H4)]]).
    rewrite Hl, bind_ok. apply inspect_ok in Hr, Hb. rewrite Hr, Hb. cbn [map_err]. rewrite !bind_ok.
    rewrite (proj2 (read_ok _ _ t)) by done. cbn [map_err]. rewrite bind_ok, Hm. cbn [map_err].
    rewrite bind_ok, Hv. cbn [negb fail_if]. rewrite bind_ok.
    rewrite (proj2 (read_ok _ _ c)) by done. cbn [map_err]. rewrite bind_ok, Hh, String.eqb_refl.
    cbn [negb fail_if]. rewrite bind_ok, Hd. cbn [map_err]. rewrite bind_ok, Hp. cbn [map_err].
    rewrite bind_ok, Hx, bool_decide_eq_true_2 by done.
    by rewrite H1, H2, H3, H4, !String.eqb_refl, Z.eqb_refl.
Qed.

(** An error that is not about a missing file. *)
Ltac other_error H He :=
  unfold map_err, fail_if in H;
  repeat case_in H; first [discriminate H | injection H as <-; discriminate He].

Lemma read_exists n max err :
  readSecureRegularFile (Some n) max = Err err →
  isNotExist err = false ∧ errors_is err "intel.ErrNoCurrentBundle" = false.
Proof. cbn. intros H. repeat case_in H; by first [discriminate H | injection H as <-]. Qed.

(** Where a directory is, nothing is current only when it has no pointer. *)
Lemma ReadCurrent_none d limits e :
  ReadCurrent d limits = Err e → errors_is e "intel.ErrNoCurrentBundle" = true →
  is_private (dir_root d) → dir_current d = None.
Proof.
  unfold ReadCurrent. intros H He Hr.
  apply bind_err_inv in H as [H|(resolved & _ & H)]; [unfold normalizeLimits in H; other_error H He|].
  apply inspect_ok in Hr. rewrite Hr in H. cbn [map_err] in H. rewrite bind_ok in H.
  apply bind_err_inv in H as [H|(? & _ & H)]; [other_error H He|].
  destruct (dir_current d) as [n|]; [|done]. exfalso.
  destruct (readSecureRegularFile (Some n) _) as [t|err] eqn:E; cbn [map_err] in H.
  - rewrite bind_ok in H.
    do 6 (apply bind_err_inv in H as [H|(? & _ & H)]; [other_error H He|]).
    case_match. apply bind_err_inv in H as [H|(? & _ & H)]; other_error H He.
  - apply read_exists in E as [E1 E2]. rewrite E1 in H. injection H as <-. congruence.
Qed.

(** ** The metadata of a verified bundle *)

Lemma str_take_app s1 s2 : str_take (String.length s1) (s1 +:+ s2) = s1.
Proof. induction s1 as [|c s1 IH]; [by destruct s2|]. rewrite app_str_cons. cbn. by rewrite IH. Qed.

Lemma bundle_file_hash_name h :
  sha256Pattern h = true → bundle_file_hash ("bundle-" +:+ h +:+ ".json") = Some h.
Proof.
  intros Hp. unfold bundle_file_hash.
  change (strip_prefix "bundle-" ("bundle-" +:+ h +:+ ".json")) with (Some (h +:+ ".json")).
  cbn [mbind option_bind]. assert (String.length h = 64%nat) as Hl.
  { pose proof Hp as Hq. unfold sha256Pattern, slen in Hq. bool_prop. lia. }
  assert (str_take 64 (h +:+ ".json") = h) as -> by (rewrite <-Hl; apply str_take_app).
  by rewrite Hp, String.eqb_refl.
Qed.

(** What the header check and decoding guarantee. *)
Lemma verified_header d limits p payload encoded :
  decodeStrict encoded = Ok d → prepareBundle d limits = Ok (p, payload) →
  boundedIdentifier (BundleID p) maxBundleIDBytes = true ∧
  boundedIdentifier (KeyID p) maxKeyIDBytes = true ∧ 0 < Sequence p ≤ max_uint64 ∧
  BundleID d = BundleID p ∧ Sequence d = Sequence p ∧ PayloadSHA256 d = PayloadSHA256 p ∧
  KeyID d = KeyID p.
Proof.
  intros Hd (Hh & rs & l & _ & _ & _ & -> & _)%prepareBundle_inv.
  cbn [prepared BundleID KeyID Sequence PayloadSHA256].
  unfold decodeStrict in Hd. destruct (decode_strict encoded) as [b|] eqn:E; [|done].
  injection Hd as ->. apply decode_strict_dec in E as [v Hv]. apply dec_bundle_typed in Hv.
  unfold uint64 in Hv. unfold validateBundleHeader in Hh. repeat case_in Hh; try done. bool_prop.
  split_and!; done || lia.
Qed.

Lemma metadata_valid `{HL : !HashLaws} v :
  boundedIdentifier (BundleID (Verified_Bundle v)) maxBundleIDBytes = true →
  boundedIdentifier (KeyID (Verified_Bundle v)) maxKeyIDBytes = true →
  0 < Sequence (Verified_Bundle v) → sha256Pattern (PayloadSHA256 (Verified_Bundle v)) = true →
  validCurrentMetadata (metadata_of v) = true.
Proof.
  intros Hb Hk Hs Hp. unfold validCurrentMetadata, metadata_of.
  cbn [Current_Schema Current_SchemaVersion BundleFile BundleSHA256 Current_BundleID Current_Sequence
    Current_PayloadSHA256 Current_KeyID].
  rewrite bundle_file_hash_name by apply hashBytes_pattern.
  rewrite bool_decide_eq_true_2 by done. rewrite Hb, Hk, Hp, (proj2 (Z.ltb_lt _ _)) by done. done.
Qed.

Lemma pattern_size h : sha256Pattern h = true → slen h = 64.
Proof. unfold sha256Pattern. intros H. by bool_prop. Qed.

(** The pointer to a verified bundle is a document within its limit. *)
Lemma metadata_pointer `{HL : !HashLaws} v :
  boundedIdentifier (BundleID (Verified_Bundle v)) maxBundleIDBytes = true →
  boundedIdentifier (KeyID (Verified_Bundle v)) maxKeyIDBytes = true →
  0 < Sequence (Verified_Bundle v) ≤ max_uint64 →
  sha256Pattern (PayloadSHA256 (Verified_Bundle v)) = true →
  ∃ t, Marshal (metadata_of v) = Some t ∧ pointer t (metadata_of v).
Proof.
  intros Hb Hk Hs Hp. pose proof (hashBytes_pattern (Canonical v)) as Hh.
  assert (is_ascii ("bundle-" +:+ hashBytes (Canonical v) +:+ ".json") = true) as Hf.
  { rewrite !is_ascii_app, (sha256Pattern_ascii _ Hh). done. }
  assert (wf (metadata_of v)) as Hw.
  { split_and!; cbn [metadata_of Current_SchemaVersion Current_Sequence]; try (unfold CurrentSchemaVersion; lia); [|done].
    repeat first [apply Forall_nil_2 | apply Forall_cons_2]; apply is_ascii_valid; try done;
      first [by eapply boundedIdentifier_ascii | by apply sha256Pattern_ascii | exact Hf]. }
  destruct (decode_strict_Marshal _ Hw) as (t & Ht & Hd). exists t. split; [done|]. split.
  - unfold Marshal in Ht. cbn [enc Current_codec] in Ht.
    etransitivity; [apply (slen_struct _ [("schema", 400); ("schema_version", 20); ("bundle_file", 500);
      ("bundle_id", 800); ("sequence", 20); ("payload_sha256", 400); ("bundle_sha256", 400);
      ("key_id", 800)] t Ht)|by vm_compute].
    apply boundedMatch_inv in Hb as [Hb _], Hk as [Hk _]. apply pattern_size in Hp, Hh.
    unfold maxBundleIDBytes, maxKeyIDBytes in *.
    unfold Current_parts. cbn [metadata_of Current_Schema Current_SchemaVersion BundleFile Current_BundleID
      Current_Sequence Current_PayloadSHA256 BundleSHA256 Current_KeyID].
    bounds; try (etransitivity; [apply slen_quote_any|]); try lia; try done.
    rewrite !slen_app, Hh. by vm_compute.
  - unfold decodeStrict. by rewrite Hd.
  - apply metadata_valid; try done; lia.
Qed.

(** ** Changes that are not the commit *)

(** Two states of the directory in which the same bundle is current. *)
Definition same_current (d d' : InstallDir) : Prop :=
  ∀ limits m c, stored limits d' m c ↔ stored limits d m c.

Lemma same_refl d : same_current d d.
Proof. done. Qed.

Lemma same_trans d1 d2 d3 : same_current d1 d2 → same_current d2 d3 → same_current d1 d3.
Proof. intros H1 H2 limits m c. by rewrite (H2 limits m c). Qed.

Lemma same_ReadCurrent d d' limits x :
  same_current d d' → ReadCurrent d' limits = Ok x ↔ ReadCurrent d limits = Ok x.
Proof.
  intros Hs. destruct x as [m c]. rewrite !ReadCurrent_stored.
  split; intros (resolved & Hl & Hst); exists resolved; (split; [done|by apply Hs]).
Qed.

Lemma change_disk f s s' r :
  change f s = (s', r) →
  (disk s' = disk s ∧ r = Err interrupted) ∨ (disk s' = f (disk s) ∧ (r = Ok tt ∨ r = Err not_synced)).
Proof. unfold change. destruct (fates s) as [|[] fs]; intros [= <- <-]; cbn; auto. Qed.

Lemma change_ok f s s' : change f s = (s', Ok tt) → disk s' = f (disk s).
Proof. intros [[_ [=]]|[H _]]%change_disk. exact H. Qed.

Lemma create_same p d : entry p d = None → same_current d (create p d).
Proof.
  intros Hn limits m c. split; intros [Hr Hb _ Hf _]; exfalso.
  - destruct p; [done|]. cbn in Hf. by apply lookup_empty_Some in Hf.
  - unfold is_private in *. destruct p; cbn in Hn; congruence.
Qed.

Lemma ensure_same p s s' r : ensurePrivateDirectory p s = (s', r) → same_current (disk s) (disk s').
Proof.
  unfold ensurePrivateDirectory. destruct (entry p (disk s)) as [n|] eqn:E; [by intros [= <- _]|].
  unfold mbind, eff_bind. destruct (change (create p) s) as [s1 [[]|e]] eqn:Ec; cbn; intros [= <- <-];
    apply change_disk in Ec as [[-> _]|[-> _]]; try done; by apply create_same.
Qed.

Lemma ensure_private p s s' : ensurePrivateDirectory p s = (s', Ok tt) → is_private (entry p (disk s')).
Proof.
  unfold ensurePrivateDirectory. destruct (entry p (disk s)) as [n|] eqn:E.
  - intros [= <- H]. rewrite E. by apply inspect_ok.
  - unfold mbind, eff_bind. destruct (change (create p) s) as [s1 [[]|e]]; [|done].
    intros [= <- H]. by apply inspect_ok.
Qed.

Lemma ensure_root p s s' :
  is_private (dir_root (disk s)) → ensurePrivateDirectory p s = (s', Ok tt) →
  is_private (dir_root (disk s')).
Proof.
  intros Hr. unfold ensurePrivateDirectory. destruct (entry p (disk s)) as [n|] eqn:E; [by intros [= <- _]|].
  unfold mbind, eff_bind. destruct (change (create p) s) as [s1 [[]|e]] eqn:Ec; [|done].
  intros [= <- _]. apply change_ok in Ec as ->. by destruct p.
Qed.

(** No pointer, or one to a bundle that is there. *)
Definition settled (d : InstallDir) : Prop :=
  dir_current d = None ∨ ∃ limits m c, stored limits d m c.

Lemma pointer_det t m m' : pointer t m → pointer t m' → m = m'.
Proof. intros [_ H1 _] [_ H2 _]. congruence. Qed.

Lemma set_bundle_same d name c :
  settled d → bundle_files d !! name = None → same_current d (set_bundle name c d).
Proof.
  intros Hset Hn limits m x. split; intros [Hr Hb (t & Ht & Hp) Hf Hd]; cbn in *.
  - destruct Hset as [Hc|(limits' & m' & c' & [_ _ (t' & Ht' & Hp') Hf' _])]; [congruence|].
    rewrite Ht in Ht'. injection Ht' as <-. assert (m' = m) as -> by by eapply pointer_det.
    rewrite lookup_insert_ne in Hf by congruence. split; [done..|by exists t|done|done].
  - split; cbn; [done..|by exists t| |done]. rewrite lookup_insert_ne; [done|congruence].
Qed.

Lemma read_missing n max err :
  readSecureRegularFile n max = Err err → isNotExist err = true → n = None.
Proof. destruct n as [n|]; [|done]. intros H He. apply read_exists in H as [H _]. congruence. Qed.

Lemma writeImmutable_same name c s s' r :
  settled (disk s) → writeImmutableFile name c s = (s', r) → same_current (disk s) (disk s').
Proof.
  intros Hset. unfold writeImmutableFile.
  destruct (readSecureRegularFile _ _) as [x|err] eqn:E; [by intros [= <- _]|].
  destruct (isNotExist err) eqn:En; [|by intros [= <- _]]. intros H.
  apply change_disk in H as [[-> _]|[-> _]]; [done|]. apply set_bundle_same; [done|].
  by eapply read_missing.
Qed.

Lemma writeImmutable_ok name c s s' :
  writeImmutableFile name c s = (s', Ok tt) →
  bundle_files (disk s') !! name = Some (Regular private_file c) ∧
  dir_root (disk s') = dir_root (disk s) ∧ dir_bundles (disk s') = dir_bundles (disk s).
Proof.
  unfold writeImmutableFile.
  destruct (readSecureRegularFile _ _) as [x|err] eqn:E.
  - intros [= <- H]. apply fail_if_ok_inv in H. bool_prop. subst x. by apply read_ok in E as [-> _].
  - destruct (isNotExist err); [|done]. intros ->%change_ok.
    cbn. by rewrite lookup_insert_eq.
Qed.

(** ** The outcomes of [Install] *)

(** What a call leaves behind: the same bundle current as before, after an
    error, or [v], the verified bundle; an error is returned for it, too, when
    the commit could not be synced. *)
Inductive outcome clock encoded store options (s s' : Disk) : result InstallResult → Prop :=
  | out_error e : same_current (disk s) (disk s') → outcome clock encoded store options s s' (Err e)
  | out_current s2 options' v r :
      same_current (disk s) (disk s2) →
      accepted_so_far options (ReadCurrent (disk s2) (Verify_Limits options)) = Ok options' →
      Verify clock encoded store options' = Ok v →
      ReadCurrent (disk s') (Verify_Limits options) = Ok (metadata_of v, Canonical v) →
      r = Err not_synced ∨ (∃ res, r = Ok res ∧ Result_Metadata res = metadata_of v ∧
        (Installed res = false → same_current (disk s) (disk s'))) →
      outcome clock encoded store options s s' r.

Lemma eff_bind_cases {S A B} (m : eff S A) (f : A → eff S B) s s' r :
  (m ≫= f) s = (s', r) →
  (∃ e, m s = (s', Err e) ∧ r = Err e) ∨ ∃ s1 a, m s = (s1, Ok a) ∧ f a s1 = (s', r).
Proof. unfold mbind, eff_bind. destruct (m s) as [s1 [a|e]]; [eauto|]. intros [= <- <-]. eauto. Qed.

Lemma accepted_limits options current options' :
  accepted_so_far options current = Ok options' → Verify_Limits options' = Verify_Limits options.
Proof.
  unfold accepted_so_far. destruct current as [[m c]|e].
  - by intros (a & _ & [= <-])%bind_ok_inv.
  - by destruct (errors_is e _); [intros [= <-]|].
Qed.

(** When the call goes on, the directory is settled. *)
Lemma accepted_settled options d options' :
  is_private (dir_root d) →
  accepted_so_far options (ReadCurrent d (Verify_Limits options)) = Ok options' → settled d.
Proof.
  intros Hr. unfold accepted_so_far. destruct (ReadCurrent d _) as [[m c]|e] eqn:E.
  - intros _. apply ReadCurrent_stored in E as (limits & _ & Hs). right. eauto.
  - destruct (errors_is e _) eqn:Ee; [|done]. intros _. left. by eapply ReadCurrent_none.
Qed.

(** The commit makes the verified bundle current. *)
Lemma commit_current `{HL : !HashLaws} clock encoded store options v s3 t :
  Verify clock encoded store options = Ok v →
  is_private (dir_root (disk s3)) → is_private (dir_bundles (disk s3)) →
  bundle_files (disk s3) !! BundleFile (metadata_of v) = Some (Regular private_file (Canonical v)) →
  Marshal (metadata_of v) = Some t →
  ReadCurrent (set_current t (disk s3)) (Verify_Limits options) = Ok (metadata_of v, Canonical v).
Proof.
  intros (limits & keys & d & payload & Hl & _ & Hd & Hp & [Hs Hc (pl & Hp' & Hh) _] & _ & _ & He)%Verify_inv
    Hr Hb Hf Ht.
  destruct (verified_header _ _ _ _ _ Hd Hp) as (H1 & H2 & H3 & E1 & E2 & E3 & E4).
  assert (sha256Pattern (PayloadSHA256 (Verified_Bundle v)) = true) as Hpat by (rewrite Hh; apply hashBytes_pattern).
  destruct (metadata_pointer v H1 H2 H3 Hpat) as (t' & Ht' & Hpt). rewrite Ht in Ht'. injection Ht' as <-.
  apply ReadCurrent_stored. exists limits. split; [done|]. split; cbn; [done|done|by exists t|done|].
  rewrite He. split; [done|cbn; by rewrite He|]. by exists d, (Verified_Bundle v), payload.
Qed.

Lemma Install_outcome `{HL : !HashLaws} clock encoded store options s s' r :
  Install clock encoded store options s = (s', r) → outcome clock encoded store options s s' r.
Proof.
  unfold Install. intros H.
  apply eff_bind_cases in H as [(e & H & ->)|(s1 & [] & Hroot & H)]; [constructor; by eapply ensure_same|].
  apply eff_bind_cases in H as [(e & H & ->)|(s2 & [] & Hbun & H)].
  { constructor. by eapply same_trans; eapply ensure_same. }
  assert (same_current (disk s) (disk s2)) as H12 by by eapply same_trans; eapply ensure_same.
  pose proof (ensure_root _ _ _ (ensure_private _ _ _ Hroot) Hbun) as Hr2.
  pose proof (ensure_private _ _ _ Hbun) as Hb2. cbn [entry] in Hb2.
  unfold mbind at 1, eff_bind at 1 in H. cbv beta iota in H.
  apply eff_bind_cases in H as [(e & H & ->)|(s2' & options' & Ho & H)]; [by injection H as <- _; constructor|].
  apply pure_ok_inv in Ho as [-> Ho].
  apply eff_bind_cases in H as [(e & H & ->)|(s2' & v & Hv & H)]; [by injection H as <- _; constructor|].
  apply pure_ok_inv in Hv as [-> Hv]. cbv zeta in H.
  destruct (unchanged _ v) eqn:Hu.
  - injection H as <- <-. unfold unchanged in Hu.
    destruct (ReadCurrent (disk s2) _) as [[m c]|e] eqn:Hc; [|done]. bool_prop. subst m c.
    eapply (out_current _ _ _ _ _ _ s2 options' v); rewrite ?Hc; try done. right. by eexists.
  - pose proof (accepted_settled _ _ _ Hr2 Ho) as Hset.
    apply eff_bind_cases in H as [(e & H & ->)|(s3 & [] & Hw & H)].
    { constructor. eapply same_trans; [exact H12|]. by eapply writeImmutable_same. }
    pose proof (writeImmutable_same _ _ _ _ _ Hset Hw) as H23.
    apply writeImmutable_ok in Hw as (Hf & Hr3 & Hb3).
    destruct (Marshal (metadata_of v)) as [t|] eqn:Ht.
    + rewrite pure_bind in H.
      assert (∀ s4, disk s4 = set_current t (disk s3) →
        ReadCurrent (disk s4) (Verify_Limits options) = Ok (metadata_of v, Canonical v)) as Hnew.
      { intros s4 ->. rewrite <-(accepted_limits _ _ _ Ho). eapply commit_current; try done; congruence. }
      apply eff_bind_cases in H as [(e & H & ->)|(s4 & [] & Hw & H)].
      * apply change_disk in H as [[Hd _]|[Hd [|[= ->]]]]; [|done|].
        { constructor. rewrite Hd. by eapply same_trans. }
        eapply (out_current _ _ _ _ _ _ s2 options' v); try done; [by apply Hnew|by left].
      * injection H as <- <-. apply change_ok in Hw.
        eapply (out_current _ _ _ _ _ _ s2 options' v); try done; [by apply Hnew|].
        right. by eexists.
    + injection H as <- <-. constructor. by eapply same_trans.
Qed.

(** ** The sequence of the current bundle *)

(** Bundles in the order of acceptance: by sequence, one content for each. *)
Definition no_older (a b : AcceptanceState) : Prop :=
  Accepted_Sequence a ≤ Accepted_Sequence b ∧
  (Accepted_Sequence a = Accepted_Sequence b →
     Accepted_BundleID a = Accepted_BundleID b ∧
     Accepted_PayloadSHA256 a = Accepted_PayloadSHA256 b).

#[export] Instance no_older_preorder : PreOrder no_older.
Proof.
  split; [by intros a|]. intros a b c [H1 H2] [H3 H4]. split; [lia|]. intros E.
  destruct (H2 ltac:(lia)) as [-> ->]. apply H4. lia.
Qed.

(** The stronger of two states is one of them and no older than either. *)
Lemma strongerAcceptance_ok caller current a :
  0 < Accepted_Sequence current → strongerAcceptance caller current = Ok a →
  no_older current a ∧
  ∀ k, caller = Some k → 0 < Accepted_Sequence k → no_older k a.
Proof.
  intros Hc. unfold strongerAcceptance, no_older. destruct caller as [k|]; [|by intros [= <-]].
  destruct (Z.eqb_spec (Accepted_Sequence k) 0).
  { intros [= <-]. split; [done|]. intros k' [= <-]. lia. }
  rewrite (proj2 (Z.eqb_neq _ _)) by lia.
  destruct (Z.ltb_spec (Accepted_Sequence current) (Accepted_Sequence k)).
  { intros [= <-]. split; [lia|]. by intros k' [= <-]. }
  destruct (Z.ltb_spec (Accepted_Sequence k) (Accepted_Sequence current)).
  { intros [= <-]. split; [done|]. intros k' [= <-]. lia. }
  destruct (_ || _) eqn:E; [done|]. intros [= <-]. bool_prop. split; [done|]. by intros k' [= <-].
Qed.

Lemma advances_no_older a v replay :
  0 < Accepted_Sequence a → advances (Some a) (Verified_Bundle v) replay →
  no_older a (acceptance_state (metadata_of v)).
Proof.
  intros Ha. unfold advances, no_older. rewrite (proj2 (Z.ltb_lt _ _) Ha). cbn.
  destruct replay; [|lia]. intros (-> & -> & ->). by split.
Qed.

Lemma stored_sequence limits d m c : stored limits d m c → 0 < Current_Sequence m.
Proof. intros [_ _ (t & _ & [_ _ Hv]) _ _]. unfold validCurrentMetadata in Hv. by bool_prop. Qed.

Lemma ReadCurrent_sequence d limits m c : ReadCurrent d limits = Ok (m, c) → 0 < Current_Sequence m.
Proof. intros (? & _ & Hst)%ReadCurrent_stored. by eapply stored_sequence. Qed.

(** The options that [Install] verifies with ask for a bundle no older than the
    current one and than the caller's. *)
Lemma accepted_no_older options current options' v :
  accepted_so_far options current = Ok options' →
  (∀ m c, current = Ok (m, c) → 0 < Current_Sequence m) →
  advances (LastAccepted options') (Verified_Bundle v) (Verified_Replay v) →
  (∀ m c, current = Ok (m, c) → no_older (acceptance_state m) (acceptance_state (metadata_of v))) ∧
  ∀ k, LastAccepted options = Some k → 0 < Accepted_Sequence k →
    no_older k (acceptance_state (metadata_of v)).
Proof.
  unfold accepted_so_far. intros Ho Hpos Ha. destruct current as [[m c]|e].
  - apply bind_ok_inv in Ho as (a & Hs & [= <-]). cbn in Ha.
    specialize (Hpos m c eq_refl).
    destruct (strongerAcceptance_ok _ (acceptance_state m) _ Hpos Hs) as [H1 H2].
    assert (0 < Accepted_Sequence a) as Hp by (destruct H1 as [H1 _]; cbn in H1; lia).
    pose proof (advances_no_older _ _ _ Hp Ha) as H3. split.
    + intros m' c' [= <- <-]. by etransitivity.
    + intros k Hk Hk0. etransitivity; [by apply H2|done].
  - destruct (errors_is e _); [|done]. injection Ho as <-. split; [done|].
    intros k Hk Hk0. rewrite Hk in Ha. by eapply advances_no_older.
Qed.

(** One call leaves a bundle current that is no older than before. *)
Lemma Install_no_older `{HL : !HashLaws} clock encoded store options s s' r m c :
  Install clock encoded store options s = (s', r) →
  ReadCurrent (disk s) (Verify_Limits options) = Ok (m, c) →
  ∃ m' c', ReadCurrent (disk s') (Verify_Limits options) = Ok (m', c') ∧
    no_older (acceptance_state m) (acceptance_state m').
Proof.
  intros H%Install_outcome Hc. destruct H as [e Hsame|s2 options' v r Hsame Ho Hv Hr _].
  - exists m, c. split; [by apply (proj2 (same_ReadCurrent _ _ _ _ Hsame))|done].
  - exists (metadata_of v), (Canonical v). split; [done|].
    apply (proj2 (same_ReadCurrent _ _ _ _ Hsame)) in Hc.
    apply Verify_inv in Hv as (? & ? & ? & ? & _ & _ & _ & _ & _ & _ & Ha & _).
    exact (proj1 (accepted_no_older _ _ _ _ Ho (ReadCurrent_sequence _ _) Ha) m c Hc).
Qed.

(** *** Life of an install directory *)

(** Under fixed limits: any call of [Install], with whatever text, trust store,
    time and last accepted state, and a new process, with other fates of its
    changes. *)
Inductive attempt (limits : IntelLimits) : Disk → Disk → Prop :=
  | attempt_install clock encoded store options s :
      Verify_Limits options = limits →
      attempt limits s (Install clock encoded store options s).1
  | attempt_restart s fs : attempt limits s {| disk := disk s; fates := fs |}.

(** C8. Over any run of installations, some of them refused or interrupted at
    any of their changes, the current bundle is never lost, its sequence never
    decreases, and a sequence keeps its content. *)
Theorem Install_never_rolls_back `{HL : !HashLaws} limits s s' m c :
  rtc (attempt limits) s s' → ReadCurrent (disk s) limits = Ok (m, c) →
  ∃ m' c', ReadCurrent (disk s') limits = Ok (m', c') ∧
    no_older (acceptance_state m) (acceptance_state m').
Proof.
  intros H. revert m c. induction H as [s|s s1 s' Ha _ IH]; intros m c Hc; [by exists m, c|].
  assert (∃ m1 c1, ReadCurrent (disk s1) limits = Ok (m1, c1) ∧
    no_older (acceptance_state m) (acceptance_state m1)) as (m1 & c1 & Hc1 & H1).
  { destruct Ha as [clock encoded store options s Hl|s n]; [|by exists m, c]. subst limits.
    eapply Install_no_older; [apply surjective_pairing|done]. }
  destruct (IH m1 c1 Hc1) as (m' & c' & Hc' & H2). exists m', c'. split; [done|by etransitivity].
Qed.

(** After a call that succeeds the given text is current, byte for byte,
    with the metadata that is returned; the text is an authentic bundle, in
    force, and no older than what the caller had accepted. *)
Theorem Install_current `{HL : !HashLaws} clock encoded store options s s' res :
  Install clock encoded store options s = (s', Ok res) →
  ReadCurrent (disk s') (Verify_Limits options) = Ok (Result_Metadata res, encoded) ∧
  ∃ b limits keys, normalizeLimits (Verify_Limits options) = Ok limits ∧ store = Some keys ∧
    authentic limits keys b encoded ∧ in_force clock options b ∧
    Current_BundleID (Result_Metadata res) = BundleID b ∧
    Current_Sequence (Result_Metadata res) = Sequence b ∧
    ∀ k, LastAccepted options = Some k → 0 < Accepted_Sequence k →
      no_older k (acceptance_state (Result_Metadata res)).
Proof.
  intros H%Install_outcome.
  inversion H as [|s2 options' v ? Hsame Ho Hv Hr [Hx|(x & Hx & Hm & _)]]; subst; [done|].
  injection Hx as <-.
  pose proof (accepted_limits _ _ _ Ho) as HL'.
  apply Verify_inv in Hv as (limits & keys & d & payload & Hl & Hs & _ & _ & Hau & Hf & Ha & Hc).
  rewrite Hm, <-Hc. split; [done|]. exists (Verified_Bundle v), limits, keys. rewrite Hc.
  split_and!; [by rewrite <-HL'|done|done| |done|done|].
  - unfold accepted_so_far in Ho. destruct (ReadCurrent (disk s2) _) as [[m c]|e].
    + by apply bind_ok_inv in Ho as (a & _ & [= <-]).
    + destruct (errors_is e _); [by injection Ho as <-|done].
  - apply (proj2 (accepted_no_older _ _ _ _ Ho (ReadCurrent_sequence _ _) Ha)).
Qed.

(** C9. A call is all or nothing, whatever the fate of its changes: afterwards
    the same bundle is current as before, under all limits, or the given text
    is, byte for byte.  A call that fails leaves the bundle as it was, unless
    the commit was done and could not be synced. *)
Theorem Install_atomic `{HL : !HashLaws} clock encoded store options s s' r :
  Install clock encoded store options s = (s', r) →
  (∀ limits x, ReadCurrent (disk s') limits = Ok x ↔ ReadCurrent (disk s) limits = Ok x) ∨
  (∃ m, ReadCurrent (disk s') (Verify_Limits options) = Ok (m, encoded)) ∧
  (is_ok r = true ∨ r = Err not_synced).
Proof.
  intros H%Install_outcome. destruct H as [e Hs|s2 options' v r _ _ Hv Hr Hc].
  - left. intros limits x. by apply same_ReadCurrent.
  - apply Verify_inv in Hv as (? & ? & ? & ? & _ & _ & _ & _ & _ & _ & _ & <-).
    right. split; [eauto|]. destruct Hc as [->|(res & -> & _)]; auto.
Qed.

Lemma stronger_current caller current :
  0 < Accepted_Sequence current →
  (∀ k, caller = Some k → 0 < Accepted_Sequence k → no_older k current) →
  strongerAcceptance caller current = Ok current.
Proof.
  intros Hc Hk. unfold strongerAcceptance. destruct caller as [k|]; [|done].
  destruct (Z.eqb_spec (Accepted_Sequence k) 0); [done|]. rewrite (proj2 (Z.eqb_neq _ _)) by lia.
  destruct (Z.ltb_spec (Accepted_Sequence current) (Accepted_Sequence k)) as [Hlt|Hle].
  { destruct (Hk k eq_refl ltac:(lia)) as [Hle _]. lia. }
  destruct (Z.ltb_spec (Accepted_Sequence k) (Accepted_Sequence current)); [done|].
  destruct (Hk k eq_refl ltac:(lia)) as [_ He]. destruct (He ltac:(lia)) as [-> ->].
  by rewrite !String.eqb_refl.
Qed.

Lemma ensure_again p s : is_private (entry p (disk s)) → ensurePrivateDirectory p s = (s, Ok tt).
Proof. unfold ensurePrivateDirectory. intros Hp. pose proof Hp as ->. by rewrite (proj2 (inspect_ok _) eq_refl). Qed.

Lemma accepted_content options current options' clock encoded store :
  accepted_so_far options current = Ok options' →
  verify_content clock encoded store options' = verify_content clock encoded store options.
Proof.
  unfold accepted_so_far. destruct current as [[m c]|e].
  - by intros (a & _ & [= <-])%bind_ok_inv.
  - by destruct (errors_is e _); [intros [= <-]|].
Qed.

(** Installing the same text once more changes nothing and is reported as
    a replay of the same metadata. *)
Theorem Install_twice `{HL : !HashLaws} clock encoded store options s s' res :
  Install clock encoded store options s = (s', Ok res) →
  Install clock encoded store options s' =
    (s', Ok {| Result_Metadata := Result_Metadata res; Installed := false; Result_Replay := true |}).
Proof.
  intros HI%Install_outcome. inversion HI as [|s2 options' v ? _ Ho Hv Hr [Hx|(x & Hx & Hm & _)]]; subst; [done|].
  injection Hx as <-.
  pose proof Hr as (limits & _ & Hst)%ReadCurrent_stored. pose proof (stored_sequence _ _ _ _ Hst) as Hpos.
  pose proof Hv as (? & ? & ? & ? & _ & _ & _ & _ & _ & _ & Ha & _)%Verify_inv.
  pose proof (proj2 (accepted_no_older _ _ _ _ Ho (ReadCurrent_sequence _ _) Ha)) as Hk.
  assert (verify_content clock encoded store
      (with_accepted options (Some (acceptance_state (metadata_of v)))) =
    verify_content clock encoded store options') as Hvc.
  { by rewrite (accepted_content _ _ _ clock encoded store Ho). }
  assert (advances (LastAccepted (with_accepted options (Some (acceptance_state (metadata_of v)))))
    (Verified_Bundle v) true) as Hadv.
  { cbn. by rewrite (proj2 (Z.ltb_lt 0 (Sequence (Verified_Bundle v)))). }
  pose proof (Verify_again _ _ _ _ _ _ _ Hv Hvc Hadv) as Hv'.
  unfold Install. destruct Hst as [Hroot Hbun _ _ _].
  rewrite (eff_bind_ok _ _ _ _ _ (ensure_again Root s' Hroot)).
  rewrite (eff_bind_ok _ _ _ _ _ (ensure_again Bundles s' Hbun)).
  unfold mbind at 1, eff_bind at 1. cbv beta iota. rewrite Hr.
  assert (accepted_so_far options (Ok (metadata_of v, Canonical v)) =
    Ok (with_accepted options (Some (acceptance_state (metadata_of v))))) as ->.
  { unfold accepted_so_far. by rewrite (stronger_current _ (acceptance_state (metadata_of v)) Hpos Hk). }
  rewrite pure_bind, Hv', pure_bind. cbv zeta. unfold unchanged.
  cbn [Verified_Replay Verified_Bundle Canonical].
  change (metadata_of {| Verified_Bundle := Verified_Bundle v; Canonical := Canonical v;
    Verified_Replay := true |}) with (metadata_of v).
  rewrite bool_decide_eq_true_2, String.eqb_refl by done. cbn [andb]. by rewrite Hm.
Qed.
End facts.
