(* ===== verification/IntelDemo.v ===== *)
(** * Intelligence bundles: a worked run

    A regexp engine for literals, a bundle of four records signed with the
    signatures of the worked runs, verified, installed, replayed and replaced;
    and the theorems of the package applied to it. *)

From S2P Require Import Prelude GoString GoTime Json Model ModelJson StrictJson.
From S2P Require Import GoCrypto Base64 DemoCrypto.
From S2P Require Import IntelTypes IntelCanonical IntelNormal IntelTrust IntelSign IntelInstall.
From S2P Require Import IntelInstallFacts.
#[local] Open Scope Z_scope.
#[local] Existing Instances checksum_hash checksum_laws toy toy_laws.

(** Patterns are literals: a text matches when it contains the pattern. *)
#[local] Instance literal : Regexp := {
  regex := string;
  regexp_Compile p := if valid_utf8 p then Some p else None;
  MatchString p s := contains s p;
}.

#[local] Instance literal_laws : RegexpLaws.
Proof. constructor. intros p r. cbn. by destruct (valid_utf8 p). Qed.

Definition seed : list Z := replicate 32 7.

Lemma seed_bytes : is_bytes seed.
Proof. apply Forall_replicate. lia. Qed.

Definition hash_record : IntelRecord := {|
  Record_Type := RecordMaliciousSHA256;
  MaliciousSHA256 := Some {| SHA256 := "AA00000000000000000000000000000000000000000000000000000000000000" |};
  RevokedSigner := None; VulnerablePackage := None; SecretPattern := None |}.
Definition signer_record : IntelRecord := {|
  Record_Type := RecordRevokedSigner; MaliciousSHA256 := None;
  RevokedSigner := Some {| Revoked_Kind := TeamID; Revoked_Identifier := "ABCDE12345" |};
  VulnerablePackage := None; SecretPattern := None |}.
Definition package_record : IntelRecord := {|
  Record_Type := RecordVulnerablePackage; MaliciousSHA256 := None; RevokedSigner := None;
  VulnerablePackage := Some {| Ecosystem := "NPM"; Package := "@scope/name";
    Constraints := [{| Operator := "lt"; Version := "2.0.0" |};
                    {| Operator := "gte"; Version := "1.0.0" |}] |};
  SecretPattern := None |}.
Definition pattern_record : IntelRecord := {|
  Record_Type := RecordSecretPattern; MaliciousSHA256 := None; RevokedSigner := None;
  VulnerablePackage := None;
  SecretPattern := Some {| Pattern_DetectorID := "github.token"; Pattern := "ghp_" |} |}.

Definition issued : Time := mkTime (unix_epoch * second + 10 ^ 9 * second) 0.
Definition expires : Time := add issued (24 * hour).
Definition now : Time := add issued hour.

Definition bundle (sequence : Z) (records : list IntelRecord) : Bundle := {|
  Bundle_Schema := ""; Bundle_SchemaVersion := 0; BundleID := "daily"; Sequence := sequence;
  IssuedAt := issued; ExpiresAt := expires; MinimumAgentSchema := 1; Records := Some records;
  PayloadSHA256 := ""; KeyID := ""; Bundle_Signature := "" |}.

Definition records : list IntelRecord := [pattern_record; package_record; signer_record; hash_record].

Definition sign_demo (sequence : Z) : result (Bundle * string) :=
  Sign (bundle sequence records) "release-key" (ed_private seed) zero_limits.

Definition ok_or {A} (default : A) (r : result A) : A :=
  match r with Ok x => x | Err _ => default end.

Definition text (sequence : Z) : string := (ok_or (zero_bundle, "") (sign_demo sequence)).2.
Definition signed (sequence : Z) : Bundle := (ok_or (zero_bundle, "") (sign_demo sequence)).1.

Definition trust : TrustStore := {["release-key" := ed_public seed]}.

Definition options (last : option AcceptanceState) : VerifyOptions := {|
  Verify_Limits := zero_limits; Verify_Now := zero_time; ClockSkew := minute; AgentSchema := 1;
  LastAccepted := last |}.

Definition empty_disk : Disk := {|
  disk := {| dir_root := None; dir_bundles := None; dir_current := None; bundle_files := ∅ |};
  fates := [] |}.

(** Keys in order, hash in lower case, constraints sorted. *)
Example canonical_records :
  fmap (M:=result) (fmap (M:=list) recordSortKey) (canonicalRecords records DefaultLimits) =
  Ok ["malicious_sha256:aa00000000000000000000000000000000000000000000000000000000000000";
      "revoked_signer:team_id:ABCDE12345"; "secret_detector_pattern:github.token";
      "vulnerable_package:npm:@scope/name"].
Proof. vm_compute. reflexivity. Qed.

(** The error of a duplicate is both sentinels. *)
Example duplicate_record :
  match canonicalRecords [hash_record; hash_record] DefaultLimits with
  | Err e => errors_is e "intel.ErrInvalidRecord" && errors_is e "intel.ErrDuplicateRecord"
  | Ok _ => false
  end = true.
Proof. vm_compute. reflexivity. Qed.

(** Two packages whose ecosystem and name join to the same identity are taken
    for one. *)
Example joined_identity :
  let pkg eco name := {| Record_Type := RecordVulnerablePackage; MaliciousSHA256 := None;
    RevokedSigner := None; SecretPattern := None;
    VulnerablePackage := Some {| Ecosystem := eco; Package := name;
      Constraints := [{| Operator := "lt"; Version := "1" |}] |} |} in
  is_ok (canonicalRecords [pkg "a:b" "c"] DefaultLimits) = true ∧
  is_ok (canonicalRecords [pkg "a" "b:c"] DefaultLimits) = true ∧
  is_ok (canonicalRecords [pkg "a:b" "c"; pkg "a" "b:c"] DefaultLimits) = false.
Proof. vm_compute. auto. Qed.

Definition run (s : Disk) (sequence : Z) : Disk * result InstallResult :=
  Install now (text sequence) (Some trust) (options None) s.

Definition outcome_of (r : Disk * result InstallResult) : option (Z * bool * bool) + error :=
  match r.2 with
  | Ok x => inl (Some (Current_Sequence (Result_Metadata x), Installed x, Result_Replay x))
  | Err e => inr e
  end.

(** A first bundle, its replay, a newer one, and a step back. *)
Example worked_run :
  let s1 := (run empty_disk 3).1 in
  let s2 := (run s1 5).1 in
  outcome_of (run empty_disk 3) = inl (Some (3, true, false)) ∧
  outcome_of (run s1 3) = inl (Some (3, false, true)) ∧
  outcome_of (run s1 5) = inl (Some (5, true, false)) ∧
  outcome_of (run s2 4) = inr ErrRollback.
Proof. vm_compute. auto. Qed.

(** ** The theorems, applied *)

Definition demo_verified : VerifiedBundle :=
  ok_or {| Verified_Bundle := zero_bundle; Canonical := ""; Verified_Replay := false |}
    (Verify now (text 3) (Some trust) (options None)).

Lemma verified_ok : Verify now (text 3) (Some trust) (options None) = Ok demo_verified.
Proof. vm_compute. reflexivity. Qed.

Lemma signed_ok :
  Sign (bundle 3 records) "release-key" (ed_private seed) (Verify_Limits (options None)) =
    Ok (signed 3, text 3).
Proof. vm_compute. reflexivity. Qed.

Lemma seed_trusted : trust !! "release-key" = Some (ed_public seed).
Proof. reflexivity. Qed.

Lemma demo_sequence : 0 ≤ Sequence (bundle 3 records) ≤ max_uint64.
Proof. split; [|unfold max_uint64]; cbn [bundle Sequence]; lia. Qed.

Lemma demo_schema : MinimumAgentSchema (bundle 3 records) ≤ max_int64.
Proof. unfold max_int64. cbn [bundle MinimumAgentSchema]. lia. Qed.

Lemma demo_in_force : in_force now (options None) (signed 3).
Proof. vm_compute. split_and!; congruence. Qed.

Lemma Verify_sound_witness :
  ∃ limits keys, normalizeLimits zero_limits = Ok limits ∧ Some trust = Some keys ∧
    authentic limits keys (Verified_Bundle demo_verified) (text 3) ∧
    Canonical demo_verified = text 3 ∧
    in_force now (options None) (Verified_Bundle demo_verified) ∧
    advances None (Verified_Bundle demo_verified) (Verified_Replay demo_verified).
Proof. exact (Verify_sound now (text 3) (Some trust) (options None) demo_verified verified_ok). Defined.

Lemma Sign_Verify_witness :
  Verify now (text 3) (Some trust) (options None) =
    Ok {| Verified_Bundle := signed 3; Canonical := text 3; Verified_Replay := false |}.
Proof.
  exact (Sign_Verify (bundle 3 records) "release-key" seed (signed 3) (text 3) now trust (options None)
    eq_refl seed_bytes demo_sequence demo_schema signed_ok seed_trusted demo_in_force eq_refl).
Defined.

Definition reordered : list IntelRecord := [hash_record; package_record; pattern_record; signer_record].

Lemma demo_equiv : bundle_equiv (bundle 3 records) (bundle 3 reordered).
Proof. split; [done|]. constructor. apply (bool_decide_unpack _). vm_compute. exact I. Qed.

Lemma Sign_order_witness :
  alike (Sign (bundle 3 records) "release-key" (ed_private seed) zero_limits)
        (Sign (bundle 3 reordered) "release-key" (ed_private seed) zero_limits).
Proof.
  exact (Sign_order (bundle 3 records) (bundle 3 reordered) "release-key" (ed_private seed) zero_limits
    demo_equiv).
Defined.

Lemma LoadTrustStore_document_witness :
  ∃ t, trustStoreDocument "release-key" (ed_public seed) = Ok t ∧
    LoadTrustStore (Some (Regular private_file t)) = Ok {["release-key" := ed_public seed]}.
Proof.
  apply LoadTrustStore_document; [vm_compute; reflexivity|reflexivity|apply ed_public_bytes].
Defined.

Definition disk3 : Disk := (run empty_disk 3).1.
Definition result3 : InstallResult :=
  ok_or {| Result_Metadata := zero_current; Installed := false; Result_Replay := false |}
    (run empty_disk 3).2.

Lemma installed :
  Install now (text 3) (Some trust) (options None) empty_disk = (disk3, Ok result3).
Proof. vm_compute. reflexivity. Qed.

Lemma Install_current_witness :
  ReadCurrent (disk disk3) zero_limits = Ok (Result_Metadata result3, text 3) ∧
  ∃ b limits keys, normalizeLimits zero_limits = Ok limits ∧ Some trust = Some keys ∧
    authentic limits keys b (text 3) ∧ in_force now (options None) b ∧
    Current_BundleID (Result_Metadata result3) = BundleID b ∧
    Current_Sequence (Result_Metadata result3) = Sequence b ∧
    ∀ k, None = Some k → 0 < Accepted_Sequence k →
      no_older k (acceptance_state (Result_Metadata result3)).
Proof.
  exact (Install_current now (text 3) (Some trust) (options None) empty_disk disk3 result3 installed).
Defined.

Lemma Install_twice_witness :
  Install now (text 3) (Some trust) (options None) disk3 =
    (disk3, Ok {| Result_Metadata := Result_Metadata result3; Installed := false; Result_Replay := true |}).
Proof.
  exact (Install_twice now (text 3) (Some trust) (options None) empty_disk disk3 result3 installed).
Defined.

(** The second bundle is published, its commit interrupted. *)
Definition dying : Disk := {| disk := disk disk3; fates := [Done; Refused] |}.
Definition dead : Disk := (run dying 5).1.

Lemma interrupted_commit :
  Install now (text 5) (Some trust) (options None) dying = (dead, Err interrupted).
Proof. vm_compute. reflexivity. Qed.

Example published : size (bundle_files (disk dead)) = 2%nat.
Proof. vm_compute. reflexivity. Qed.

Lemma Install_atomic_witness :
  (∀ limits x, ReadCurrent (disk dead) limits = Ok x ↔ ReadCurrent (disk dying) limits = Ok x) ∨
  (∃ m, ReadCurrent (disk dead) zero_limits = Ok (m, text 5)) ∧
  (is_ok (A:=InstallResult) (Err interrupted) = true ∨
   Err (A:=InstallResult) interrupted = Err not_synced).
Proof.
  exact (Install_atomic now (text 5) (Some trust) (options None) dying dead (Err interrupted)
    interrupted_commit).
Defined.

(** The process dies in the commit of the second bundle; the next one installs
    it. *)
Definition revived : Disk := {| disk := disk dead; fates := [] |}.

Lemma demo_life : rtc (attempt zero_limits) disk3 (run revived 5).1.
Proof.
  apply (rtc_l _ _ dying); [apply attempt_restart|].
  apply (rtc_l _ _ dead); [exact (attempt_install zero_limits now (text 5) (Some trust) (options None) _ eq_refl)|].
  apply (rtc_l _ _ revived); [apply attempt_restart|].
  apply (rtc_l _ _ (run revived 5).1); [exact (attempt_install zero_limits now (text 5) (Some trust) (options None) _ eq_refl)|].
  reflexivity.
Qed.

Lemma current3 : ReadCurrent (disk disk3) zero_limits = Ok (Result_Metadata result3, text 3).
Proof. vm_compute. reflexivity. Qed.

Lemma Install_never_rolls_back_witness :
  ∃ m' c', ReadCurrent (disk (run revived 5).1) zero_limits = Ok (m', c') ∧
    no_older (acceptance_state (Result_Metadata result3)) (acceptance_state m').
Proof.
  exact (Install_never_rolls_back zero_limits disk3 (run revived 5).1 (Result_Metadata result3) (text 3)
    demo_life current3).
Defined.
