(* ===== verification/GoRegexp.v ===== *)
(** * regexp

    Regular expressions of the syntax the program's own patterns use, over the
    runes of a text, each with the bytes it came from.  [run] is the
    backtracking matcher with its preferences (leftmost, first alternative,
    longest repetition), which is what package regexp promises; [matches] is
    the language with captures, and [run_sound] and [run_complete] relate the
    two.  Repetition is of a character class, as in all the patterns. *)

From S2P Require Import Prelude GoString JsonString Json.
#[local] Open Scope Z_scope.

(** ** Texts *)

Definition letter : Type := Z * string.

Fixpoint letters_from (skip : nat) (s : string) : list letter :=
  match s with
  | EmptyString => []
  | String _ s' =>
      match skip with
      | S k => letters_from k s'
      | O => let rw := decode_rune (bytes_n 4 s) in
             (rw.1, str_take rw.2 s) :: letters_from (pred rw.2) s'
      end
  end.
Definition letters (s : string) : list letter := letters_from 0 s.
Definition text (l : list letter) : string := foldr (λ a s, a.2 +:+ s) "" l.

(** ** Patterns *)

Inductive regex :=
  | Eps
  | Chr (f : Z → bool)
  | Rep (f : Z → bool) (low : nat) (high : option nat)
  | Seq (a b : regex)
  | Alt (a b : regex)
  | Opt (a : regex)
  | WordBoundary
  | Begin
  | End
  | Group (a : regex).

(** Where the matcher is: the rune before and what is left. *)
Record pos := { behind : option Z; ahead : list letter }.
Definition start (s : string) : pos := {| behind := None; ahead := letters s |}.

(** What the groups matched, the last one first. *)
Definition captures : Type := list (list letter).

Definition word_rune (r : Z) : bool := is_alnum r || (r =? 95).
Definition at_boundary (p : pos) : bool :=
  xorb (match behind p with Some r => word_rune r | None => false end)
       (match ahead p with (r, _) :: _ => word_rune r | [] => false end).

Definition between_pos (p q : pos) : list letter := take (length (ahead p) - length (ahead q)) (ahead p).

Section matcher.
Context {X : Type}.

Definition or_else (x : option X) (y : unit → option X) : option X :=
  match x with Some _ => x | None => y tt end.

Fixpoint rep (f : Z → bool) (low : nat) (high : option nat) (b : option Z) (l : list letter)
    (k : pos → option X) : option X :=
  let stop := λ _ : unit, match low with O => k {| behind := b; ahead := l |} | S _ => None end in
  match l with
  | (r, t) :: l' =>
      if f r && negb (bool_decide (high = Some O))
      then or_else (rep f (pred low) (pred <$> high) (Some r) l' k) stop
      else stop tt
  | [] => stop tt
  end.

Fixpoint run (r : regex) (p : pos) (c : captures) (k : pos → captures → option X) : option X :=
  match r with
  | Eps => k p c
  | Chr f =>
      match ahead p with
      | (a, _) :: l => if f a then k {| behind := Some a; ahead := l |} c else None
      | [] => None
      end
  | Rep f low high => rep f low high (behind p) (ahead p) (λ p, k p c)
  | Seq a b => run a p c (λ p c, run b p c k)
  | Alt a b => or_else (run a p c k) (λ _, run b p c k)
  | Opt a => or_else (run a p c k) (λ _, k p c)
  | WordBoundary => if at_boundary p then k p c else None
  | Begin => match behind p with None => k p c | Some _ => None end
  | End => match ahead p with [] => k p c | _ => None end
  | Group a => run a p c (λ q c, k q (between_pos p q :: c))
  end.
End matcher.

(** The leftmost match: where it starts, where it ends, what the groups hold. *)
Definition here (r : regex) (p : pos) : option (pos * captures) :=
  run r p [] (λ q c, Some (q, c)).

Fixpoint find (r : regex) (b : option Z) (l : list letter) : option (pos * pos * captures) :=
  let p := {| behind := b; ahead := l |} in
  match here r p with
  | Some (q, c) => Some (p, q, c)
  | None => match l with [] => None | (a, _) :: l' => find r (Some a) l' end
  end.

Definition MatchString (r : regex) (s : string) : bool :=
  bool_decide (is_Some (find r None (letters s))).

(** [FindStringSubmatch]: the groups in their order. *)
Definition FindStringSubmatch (r : regex) (s : string) : option (list string) :=
  '(_, _, c) ← find r None (letters s); Some (text <$> rev c).

(** [FindAllString(s, -1)] for a pattern that matches no empty text; there are
    no more matches than runes. *)
Fixpoint find_all (fuel : nat) (r : regex) (p : pos) : list string :=
  match fuel with
  | O => []
  | S n =>
      match find r (behind p) (ahead p) with
      | Some (p, q, _) => text (between_pos p q) :: find_all n r q
      | None => []
      end
  end.
Definition FindAllString (r : regex) (s : string) : list string :=
  find_all (S (length (letters s))) r (start s).

(** ** Notation of the patterns *)

Fixpoint lit (s : string) : regex :=
  match s with
  | EmptyString => Eps
  | String c EmptyString => Chr (Z.eqb (byte c))
  | String c s' => Seq (Chr (Z.eqb (byte c))) (lit s')
  end.

Fixpoint alts (l : list regex) : regex :=
  match l with [] => Chr (λ _, false) | [r] => r | r :: l => Alt r (alts l) end.

Definition one_of_chars (s : string) (r : Z) : bool := existsb (Z.eqb r) (bytes s).

(** [(?i)]: a letter stands for every rune of its folding orbit. *)
Definition fold_rune (r : Z) : Z :=
  if is_upper_alpha r then r + 32 else if r =? 0x17F then 115 else if r =? 0x212A then 107 else r.
Definition folded (f : Z → bool) (r : Z) : bool := f r || f (fold_rune r).

Fixpoint ilit (s : string) : regex :=
  match s with
  | EmptyString => Eps
  | String c EmptyString => Chr (folded (Z.eqb (byte c)))
  | String c s' => Seq (Chr (folded (Z.eqb (byte c)))) (ilit s')
  end.

(** ** The language *)

Inductive matches : regex → pos * captures → pos * captures → Prop :=
  | m_eps s : matches Eps s s
  | m_chr f b a t l c : f a = true →
      matches (Chr f) ({| behind := b; ahead := (a, t) :: l |}, c)
        ({| behind := Some a; ahead := l |}, c)
  | m_rep_stop f high p c : matches (Rep f 0 high) (p, c) (p, c)
  | m_rep_more f low high b a t l c s : f a = true → high ≠ Some O →
      matches (Rep f (pred low) (pred <$> high)) ({| behind := Some a; ahead := l |}, c) s →
      matches (Rep f low high) ({| behind := b; ahead := (a, t) :: l |}, c) s
  | m_seq a b s1 s2 s3 : matches a s1 s2 → matches b s2 s3 → matches (Seq a b) s1 s3
  | m_alt_l a b s t : matches a s t → matches (Alt a b) s t
  | m_alt_r a b s t : matches b s t → matches (Alt a b) s t
  | m_opt_some a s t : matches a s t → matches (Opt a) s t
  | m_opt_none a s : matches (Opt a) s s
  | m_boundary p c : at_boundary p = true → matches WordBoundary (p, c) (p, c)
  | m_begin p c : behind p = None → matches Begin (p, c) (p, c)
  | m_end p c : ahead p = [] → matches End (p, c) (p, c)
  | m_group a p c q c' : matches a (p, c) (q, c') →
      matches (Group a) (p, c) (q, between_pos p q :: c').

Section language.
Context {X : Type}.

Lemma or_else_some (x : option X) y z : or_else x y = Some z → x = Some z ∨ y tt = Some z.
Proof. destruct x; cbn; [intros [= ->]; by left|by right]. Qed.

Lemma or_else_left (x : option X) y : is_Some x → is_Some (or_else x y).
Proof. intros [z ->]. by eexists. Qed.

Lemma or_else_right (x : option X) y : is_Some (y tt) → is_Some (or_else x y).
Proof. intros H. destruct x; [by eexists|done]. Qed.

Lemma rep_sound f low high b l c (k : pos → option X) x :
  rep f low high b l k = Some x →
  ∃ q, matches (Rep f low high) ({| behind := b; ahead := l |}, c) (q, c) ∧ k q = Some x.
Proof.
  revert low high b. induction l as [|[a t] l IH]; intros low high b; cbn [rep].
  - destruct low; [|done]. intros H. eexists. split; [constructor|exact H].
  - assert (match low with O => k {| behind := b; ahead := (a, t) :: l |} | S _ => None end = Some x →
      ∃ q, matches (Rep f low high) ({| behind := b; ahead := (a, t) :: l |}, c) (q, c) ∧ k q = Some x) as Hstop.
    { destruct low; [|done]. intros H. eexists. split; [constructor|exact H]. }
    destruct (f a) eqn:Ha; [|exact Hstop]. cbn [andb]. case_bool_decide as Hh; [exact Hstop|].
    cbn [negb]. intros [H|H]%or_else_some; [|by apply Hstop].
    destruct (IH _ _ _ H) as (q & Hq & Hk). exists q. split; [by econstructor|done].
Qed.

Lemma rep_complete f low high s t (k : pos → option X) :
  matches (Rep f low high) s t → is_Some (k t.1) → is_Some (rep f low high (behind s.1) (ahead s.1) k).
Proof.
  remember (Rep f low high) as r eqn:E. intros H. revert low high E.
  induction H; intros low' high' E Hk; try discriminate; injection E; intros; subst; clear E.
  - destruct p as [b [|[a u] l]]; cbn; [done|]. case_match; [by apply or_else_right|done].
  - pose proof (IHmatches _ _ eq_refl Hk) as Hr. cbn [fst behind ahead rep].
    rewrite H, bool_decide_eq_false_2 by done. cbn [andb negb]. by apply or_else_left.
Qed.

Lemma rep_captures f low high s t : matches (Rep f low high) s t → t.2 = s.2.
Proof.
  remember (Rep f low high) as r eqn:E. intros H. revert low high E.
  induction H; intros low' high' E; try discriminate; [done|].
  injection E; intros; subst. by rewrite (IHmatches _ _ eq_refl).
Qed.

(** What the matcher finds is a match the continuation accepts, ... *)
Lemma run_sound r p c (k : pos → captures → option X) x :
  run r p c k = Some x → ∃ q c', matches r (p, c) (q, c') ∧ k q c' = Some x.
Proof.
  revert p c k x. induction r; intros p c k x; cbn [run].
  - intros H. do 2 eexists. split; [constructor|exact H].
  - destruct p as [b [|[a t] l]]; cbn [ahead]; [done|]. destruct (f a) eqn:Ha; [|done].
    intros H. do 2 eexists. split; [by constructor|exact H].
  - intros H. destruct (rep_sound _ _ _ _ _ c _ _ H) as (q & Hq & Hk). exists q, c.
    destruct p. by split.
  - intros (q & c' & H1 & H2)%IHr1. apply IHr2 in H2 as (q' & c'' & H2 & Hk).
    do 2 eexists. split; [by econstructor|exact Hk].
  - intros [(q & c' & H & Hk)%IHr1|(q & c' & H & Hk)%IHr2]%or_else_some;
      do 2 eexists; (split; [|exact Hk]); [by apply m_alt_l|by apply m_alt_r].
  - intros [(q & c' & H & Hk)%IHr|H]%or_else_some; do 2 eexists; [split; [|exact Hk]|split; [|exact H]];
      by constructor.
  - destruct (at_boundary p) eqn:E; [|done]. intros H. do 2 eexists. split; [by constructor|exact H].
  - destruct (behind p) eqn:E; [done|]. intros H. do 2 eexists. split; [by constructor|exact H].
  - destruct (ahead p) eqn:E; [|done]. intros H. do 2 eexists. split; [by constructor|exact H].
  - intros (q & c' & H & Hk)%IHr. do 2 eexists. split; [by constructor|exact Hk].
Qed.

(** ... and it finds one when there is one. *)
Lemma run_complete r s t (k : pos → captures → option X) :
  matches r s t → is_Some (k t.1 t.2) → is_Some (run r s.1 s.2 k).
Proof.
  intros H. revert k. induction H; intros k Hk; cbn [run fst snd ahead behind] in *; try done.
  - by rewrite H.
  - exact (rep_complete f 0 high (p, c) (p, c) (λ p, k p c) (m_rep_stop _ _ _ _) Hk).
  - pose proof (rep_captures _ _ _ _ _ H1) as Hc. cbn in Hc.
    apply (rep_complete f low high _ s (λ p, k p c) (m_rep_more _ _ _ b _ t _ _ _ H H0 H1)). by rewrite <-Hc.
  - apply IHmatches1. by apply IHmatches2.
  - apply or_else_left. by apply IHmatches.
  - apply or_else_right. by apply IHmatches.
  - apply or_else_left. by apply IHmatches.
  - by apply or_else_right.
  - by rewrite H.
  - by rewrite H.
  - by rewrite H.
  - by apply IHmatches.
Qed.
End language.

(** [MatchString] decides whether some part of the text matches. *)
Lemma here_spec r p : is_Some (here r p) ↔ ∃ q c, matches r (p, []) (q, c).
Proof.
  split.
  - intros [[q c] H]. apply run_sound in H as (q' & c' & Hm & [= -> ->]). by exists q, c.
  - intros (q & c & H). by apply (run_complete r _ _ _ H).
Qed.

(** A match takes letters off the front. *)
Lemma matches_ahead r s t : matches r s t → ∃ used, ahead s.1 = used ++ ahead t.1.
Proof.
  induction 1 as [s|f b a u l c _|f high p c|f low high b a u l c s _ _ _ IH|a b s1 s2 s3 _ IH1 _ IH2
    |a b s t _ IH|a b s t _ IH|a s t _ IH|a s|p c _|p c _|p c _|a p c q c' _ IH]; cbn [fst ahead] in *;
    try exact IH; try by exists [].
  - by exists [(a, u)].
  - destruct IH as [used ->]. by exists ((a, u) :: used).
  - destruct IH1 as [u1 ->], IH2 as [u2 ->]. exists (u1 ++ u2). by rewrite app_assoc.
Qed.

(** What [find] finds is a match that starts somewhere in the text. *)
Lemma find_sound r b l p q c :
  find r b l = Some (p, q, c) → ∃ k, ahead p = drop k l ∧ matches r (p, []) (q, c).
Proof.
  revert b. induction l as [|[a t] l IH]; intros b; cbn [find];
    destruct (here r _) as [[q' c']|] eqn:E.
  1,3: intros [= <- <- <-]; exists 0%nat; apply run_sound in E as (q'' & c'' & Hm & [= -> ->]); by split.
  - done.
  - intros H. destruct (IH _ H) as (k & Hk & Hm). by exists (S k).
Qed.

(** ** Texts and their letters *)

Lemma text_app l1 l2 : text (l1 ++ l2) = text l1 +:+ text l2.
Proof.
  induction l1 as [|a l1 IH]; [done|].
  change (a.2 +:+ text (l1 ++ l2) = (a.2 +:+ text l1) +:+ text l2). by rewrite IH, app_str_assoc.
Qed.

Definition digits5 : regex := Seq Begin (Seq (Rep is_digit 2 (Some 3%nat)) (Seq (Group (lit "ab")) End)).
Example regexp_1 : (λ s, (MatchString digits5 s, FindStringSubmatch digits5 s)) <$> ["12ab"; "1ab"; "1234ab"; "123abc"]
  = [(true, Some ["ab"]); (false, None); (false, None); (false, None)].
Proof. reflexivity. Qed.
Example regexp_2 : FindAllString (Seq WordBoundary (Seq (lit "k") (Seq (Rep is_digit 1 None) WordBoundary)))
    "k1 xk2 k33-k4 k5_ k" = ["k1"; "k33"; "k4"].
Proof. reflexivity. Qed.
Example regexp_3 : MatchString (ilit "key") (String "226" (String "132" (String "170" "EY"))) = true.
Proof. reflexivity. Qed.
