(* ===== verification/NotifierRegistry.v ===== *)
(** * Package notifier: notifications and the registry of channels

    [internal/notifier/registry.go].  A channel changes a world [W], the
    network, when it is asked to notify; the registry is its map of channels.
    Deliveries go to the distinct requested names, in the order of their first
    occurrence, whatever becomes of the others. *)

From S2P Require Import Prelude GoString GoTime Json JsonCompact Model ModelJson.
#[local] Open Scope Z_scope.

Definition Schema : string := "io.oh-my-safety/notification".
Definition SchemaVersion : Z := 1.

Definition ErrDuplicateChannel : error := Sentinel "notification channel already registered".
Definition ErrUnknownChannel : error := Sentinel "notification channel not registered".

Record Notification := {
  Notif_Schema : string;
  Notif_SchemaVersion : Z;
  Notif_ID : string;
  Notif_FindingID : string;
  Notif_Severity : string;
  Notif_Title : string;
  Notif_Body : string;
  CreatedAt : Time;
  Notif_Labels : Labels;
}.

Definition Notification_Validate (n : Notification) : result unit :=
  first_error [
    (negb (String.eqb (Notif_Schema n) Schema),
      Errorf "unsupported notification schema %q" [FStr (Notif_Schema n)]);
    (negb (Notif_SchemaVersion n =? SchemaVersion),
      Errorf "unsupported notification schema version %d" [FInt (Notif_SchemaVersion n)]);
    (blank (Notif_ID n), ErrorsNew "notification id is required");
    (negb (Severity_Valid (Notif_Severity n)),
      Errorf "invalid notification severity %q" [FStr (Notif_Severity n)]);
    (blank (Notif_Title n), ErrorsNew "notification title is required");
    (blank (Notif_Body n), ErrorsNew "notification body is required");
    (is_zero (CreatedAt n), ErrorsNew "notification created_at is required")].

(** ** Its document *)

Definition Notification_parts (n : Notification) : list part :=
  [("schema", f_str (Notif_Schema n)); ("schema_version", f_int (Notif_SchemaVersion n));
   ("id", f_str (Notif_ID n)); ("finding_id", f_str_omit (Notif_FindingID n));
   ("severity", f_str (Notif_Severity n)); ("title", f_str (Notif_Title n));
   ("body", f_str (Notif_Body n)); ("created_at", f_req (CreatedAt n));
   ("labels", f_labels_omit (Notif_Labels n))].

Definition zero_notification : Notification := {|
  Notif_Schema := ""; Notif_SchemaVersion := 0; Notif_ID := ""; Notif_FindingID := "";
  Notif_Severity := ""; Notif_Title := ""; Notif_Body := ""; CreatedAt := zero_time;
  Notif_Labels := ∅ |}.

#[export] Instance Notification_codec : Codec Notification := {
  enc n := enc_struct (Notification_parts n);
  dec := dec_struct zero_notification (λ ms,
    sc ← get_string ms "schema"; sv ← get_int ms "schema_version"; id ← get_string ms "id";
    fi ← get_string ms "finding_id"; se ← get_string ms "severity"; ti ← get_string ms "title";
    bo ← get_string ms "body"; cr ← get zero_time dec ms "created_at";
    la ← get ∅ dec_labels ms "labels";
    Some {| Notif_Schema := sc; Notif_SchemaVersion := sv; Notif_ID := id; Notif_FindingID := fi;
            Notif_Severity := se; Notif_Title := ti; Notif_Body := bo; CreatedAt := cr;
            Notif_Labels := la |});
  wf n := utf8 [Notif_Schema n; Notif_ID n; Notif_FindingID n; Notif_Severity n; Notif_Title n; Notif_Body n]
    ∧ 0 ≤ Notif_SchemaVersion n ≤ max_int64 ∧ wf (CreatedAt n) ∧ wf_labels (Notif_Labels n) = true;
}.

#[export] Instance Notification_laws : CodecLaws Notification.
Proof.
  constructor. intros n H. cbn [wf enc dec Notification_codec] in *. wf_split.
  struct_laws (Notification_parts n). by destruct n.
Qed.

(** ** The registry *)

Section registry.
Context {W : Type}.

(** [Notify], with the error it returns. *)
Record Channel := { Name : string; Notify : Notification → W → W * option error }.

Abbreviation Registry := (gmap string Channel).

Definition NewRegistry : Registry := ∅.

(** [None] is the nil channel. *)
Definition Register (channel : option Channel) (registry : Registry) : result Registry :=
  match channel with
  | None => Err (ErrorsNew "notification channel is required")
  | Some channel =>
      let name := trim_space (Name channel) in
      if String.eqb name "" then Err (ErrorsNew "notification channel name is required") else
      match registry !! name with
      | Some _ => Err (Wrapf "%w: %s" ErrDuplicateChannel [FStr name])
      | None => Ok (<[name := channel]> registry)
      end
  end.

Definition Get (name : string) (registry : Registry) : result Channel :=
  match registry !! name with
  | Some channel => Ok channel
  | None => Err (Wrapf "%w: %s" ErrUnknownChannel [FStr name])
  end.

Definition Names (registry : Registry) : list string :=
  sort_by str_ltb (map_to_list registry).*1.

(** [Error] is the text of the error in the code. *)
Record Delivery := { Delivery_Channel : string; Delivered : bool; Delivery_Error : option error }.

(** One round of the loop of [Deliver]. *)
Definition deliver_one (registry : Registry) (name : string) (n : Notification) (w : W) : W * Delivery :=
  match Get name registry with
  | Err e => (w, {| Delivery_Channel := name; Delivered := false; Delivery_Error := Some e |})
  | Ok channel =>
      let '(w', e) := Notify channel n w in
      (w', {| Delivery_Channel := name; Delivered := bool_decide (e = None); Delivery_Error := e |})
  end.

Fixpoint deliver_loop (registry : Registry) (n : Notification) (seen : gset string)
    (names : list string) (w : W) : W * list Delivery :=
  match names with
  | [] => (w, [])
  | requestedName :: names =>
      let name := trim_space requestedName in
      if bool_decide (name ∈ seen) then deliver_loop registry n seen names w
      else
        let '(w1, d) := deliver_one registry name n w in
        let '(w2, ds) := deliver_loop registry n ({[name]} ∪ seen) names w1 in
        (w2, d :: ds)
  end.

Definition Deliver (registry : Registry) (names : list string) (n : Notification)
    : eff W (list Delivery) :=
  _ ← pure_ (Notification_Validate n);
  (λ w, let '(w', ds) := deliver_loop registry n ∅ names w in (w', Ok ds)) : eff W (list Delivery).

(** ** What deliveries are *)

(** The elements of a list at their first occurrence. *)
Fixpoint distinct (seen : list string) (l : list string) : list string :=
  match l with
  | [] => []
  | x :: l => if bool_decide (x ∈ seen) then distinct seen l else x :: distinct (x :: seen) l
  end.

Lemma elem_of_distinct x seen l : x ∈ distinct seen l ↔ x ∈ l ∧ x ∉ seen.
Proof.
  revert seen. induction l as [|y l IH]; intros seen; cbn [distinct]; [set_solver|].
  case_bool_decide; set_unfold; rewrite IH; set_unfold; destruct (decide (x = y)); naive_solver.
Qed.

Lemma distinct_NoDup seen l : NoDup (distinct seen l).
Proof.
  revert seen. induction l as [|y l IH]; intros seen; cbn [distinct]; [constructor|].
  case_bool_decide; [apply IH|]. constructor; [|apply IH]. rewrite elem_of_distinct. set_solver.
Qed.

(** Asking the channels in turn: a name that is not registered is reported and
    leaves the world alone; the channel registered under a name is notified,
    once, in the world the names before it left, and its error is reported. *)
Inductive asked (registry : Registry) (n : Notification) : list string → W → W → list Delivery → Prop :=
  | asked_none w : asked registry n [] w w []
  | asked_unknown name names w w' ds :
      registry !! name = None → asked registry n names w w' ds →
      asked registry n (name :: names) w w'
        ({| Delivery_Channel := name; Delivered := false;
            Delivery_Error := Some (Wrapf "%w: %s" ErrUnknownChannel [FStr name]) |} :: ds)
  | asked_channel name names channel w w1 w' e ds :
      registry !! name = Some channel → Notify channel n w = (w1, e) → asked registry n names w1 w' ds →
      asked registry n (name :: names) w w'
        ({| Delivery_Channel := name; Delivered := bool_decide (e = None); Delivery_Error := e |} :: ds).

Lemma asked_names registry n names w w' ds : asked registry n names w w' ds → Delivery_Channel <$> ds = names.
Proof. induction 1; [done|cbn; by f_equal..]. Qed.

Lemma asked_delivered registry n names w w' ds :
  asked registry n names w w' ds → Forall (λ d, Delivered d = bool_decide (Delivery_Error d = None)) ds.
Proof. induction 1; by constructor. Qed.

Lemma deliver_one_asked registry n name names w w1 d w' ds :
  deliver_one registry name n w = (w1, d) → asked registry n names w1 w' ds →
  asked registry n (name :: names) w w' (d :: ds).
Proof.
  unfold deliver_one, Get. destruct (registry !! name) as [channel|] eqn:E.
  - destruct (Notify channel n w) as [w2 e] eqn:En. intros [= <- <-] Ha. by eapply asked_channel.
  - intros [= <- <-] Ha. by apply asked_unknown.
Qed.

Lemma deliver_loop_asked registry n names : ∀ seen seen' w w' ds,
  (∀ x, x ∈ seen ↔ x ∈ seen') → deliver_loop registry n seen names w = (w', ds) →
  asked registry n (distinct seen' (trim_space <$> names)) w w' ds.
Proof.
  induction names as [|x names IH]; intros seen seen' w w' ds Hs; cbn [deliver_loop fmap list_fmap distinct].
  { intros [= <- <-]. constructor. }
  rewrite (bool_decide_ext _ _ (Hs (trim_space x))). case_bool_decide; [by apply IH|].
  destruct (deliver_one _ _ _ _) as [w1 d] eqn:Ed.
  destruct (deliver_loop _ _ _ _ _) as [w2 ds'] eqn:El. intros [= <- <-].
  eapply deliver_one_asked; [exact Ed|]. eapply IH; [|exact El].
  intros y. rewrite elem_of_union, elem_of_singleton, elem_of_cons. by rewrite Hs.
Qed.

(** C29. A valid notification goes to each of the requested channels once, in
    the order they were first requested: the names asked are the distinct
    trimmed names; the channel registered under a name is notified exactly
    once, in the state of the network that those before it left, and its
    report says delivered exactly when it gave no error; a name that is not
    registered is reported as such and nothing is sent for it; and neither
    keeps the others from being asked. *)
Theorem Deliver_once registry names n w :
  Notification_Validate n = Ok tt →
  ∃ w' ds,
    Deliver registry names n w = (w', Ok ds) ∧
    asked registry n (distinct [] (trim_space <$> names)) w w' ds ∧
    NoDup (Delivery_Channel <$> ds) ∧
    (∀ name, name ∈ Delivery_Channel <$> ds ↔ name ∈ trim_space <$> names) ∧
    Forall (λ d, Delivered d = bool_decide (Delivery_Error d = None)) ds.
Proof.
  intros Hv. unfold Deliver. rewrite Hv, pure_bind.
  destruct (deliver_loop registry n ∅ names w) as [w' ds] eqn:E.
  apply (deliver_loop_asked _ _ _ _ []) in E as Ha; [|set_solver].
  exists w', ds. split_and!; [done..| | |by eapply asked_delivered].
  - rewrite (asked_names _ _ _ _ _ _ Ha). apply distinct_NoDup.
  - intros name. rewrite (asked_names _ _ _ _ _ _ Ha), elem_of_distinct. set_solver.
Qed.

(** *** Registered channels *)

(** A registry holds each channel under its trimmed, non-empty name. *)
Definition registry_ok (registry : Registry) : Prop :=
  ∀ name channel, registry !! name = Some channel → name = trim_space (Name channel) ∧ name ≠ "".

Lemma Register_ok channel registry registry' :
  registry_ok registry → Register channel registry = Ok registry' → registry_ok registry' ∧
  ∃ c, channel = Some c ∧ registry !! trim_space (Name c) = None ∧
       registry' = <[trim_space (Name c) := c]> registry.
Proof.
  intros Hr. unfold Register. destruct channel as [c|]; [|done].
  destruct (String.eqb (trim_space (Name c)) "") eqn:Hn; [done|].
  destruct (registry !! trim_space (Name c)) eqn:Hl; [done|]. intros [= <-]. split; [|by exists c].
  intros name channel [[<- <-]|[_ H]]%lookup_insert_Some; [|by apply Hr].
  split; [done|by apply String.eqb_neq].
Qed.

End registry.
#[global] Arguments Channel : clear implicits.
