(* ===== verification/NotifierHttp.v ===== *)
(** * Package notifier: delivery over HTTP

    [internal/notifier/http_delivery.go]: the request every channel makes,
    what becomes of its answer, and the checks of names, secrets and URLs.
    The reading of an HTTP date, which depends on the local time zone, is the
    class [HttpDate]. *)

From S2P Require Import Prelude GoString GoLib GoUrl GoHttp GoTime JsonString Json JsonCompact Model ModelJson.
From S2P Require Import NotifierRegistry.
#[local] Open Scope Z_scope.

(** [http.ParseTime] *)
Class HttpDate := ParseTime : string → option Time.

Definition defaultDeliveryTimeout : Z := 10 * second.
Definition maxDeliveryTimeout : Z := minute.
Definition maxRequestBodyBytes : Z := 1048576.
Definition maxResponseBodyBytes : Z := 65536.

Record ProviderDelivery := { Provider_Channel : string; Provider_ID : string; Provider_StatusCode : Z }.

Record DeliveryError := {
  Error_Channel : string;
  Error_StatusCode : Z;
  Retryable : bool;
  RetryAfter : Z;
  DeliveryID : string;
  kind : string;
  cause : option error;
}.

(** [DeliveryError.Error] *)
Definition delivery_error (e : DeliveryError) : error :=
  if String.eqb (kind e) "canceled" then ErrorsNew (Error_Channel e +:+ " notification delivery canceled")
  else if String.eqb (kind e) "timeout" then ErrorsNew (Error_Channel e +:+ " notification delivery timed out")
  else if String.eqb (kind e) "response-too-large" then
    ErrorsNew (Error_Channel e +:+ " notification response exceeded the size limit")
  else if String.eqb (kind e) "provider-rejected" then
    ErrorsNew (Error_Channel e +:+ " notification was rejected by the provider")
  else if 0 <? Error_StatusCode e then
    Errorf "%s notification delivery failed with HTTP status %d"
      [FStr (Error_Channel e); FInt (Error_StatusCode e)]
  else ErrorsNew (Error_Channel e +:+ " notification delivery failed").

Definition Canceled : error := Sentinel "context canceled".
Definition DeadlineExceeded : error := Sentinel "context deadline exceeded".

(** [newHTTPSender]: the timeout. *)
Definition newHTTPSender (timeout : Z) : result Z :=
  let timeout := if timeout =? 0 then defaultDeliveryTimeout else timeout in
  if (timeout <? 0) || (maxDeliveryTimeout <? timeout)
  then Err (Errorf "notification timeout must be between 1ns and %s" [FStr "1m0s"])
  else Ok timeout.

(** [errors.Is] of a context's error *)
Definition is_canceled (e : option error) : bool :=
  match e with Some e => errors_is e "context canceled" | None => false end.
Definition is_expired (e : option error) : bool :=
  match e with Some e => errors_is e "context deadline exceeded" | None => false end.

Definition safeContextCause (cause : option error) : option error :=
  if is_canceled cause then Some Canceled
  else if is_expired cause then Some DeadlineExceeded else None.

Definition safeDeliveryError (channel kind : string) (retryable : bool) (cause : option error)
    : DeliveryError := {|
  Error_Channel := channel; Error_StatusCode := 0; Retryable := retryable; RetryAfter := 0;
  DeliveryID := ""; kind := kind; cause := safeContextCause cause |}.

Definition transportDeliveryError (channel : string) (ctx_err : option error) (network : bool)
    : DeliveryError :=
  let failed retryable kind cause := {|
    Error_Channel := channel; Error_StatusCode := 0; Retryable := retryable; RetryAfter := 0;
    DeliveryID := ""; kind := kind; cause := cause |} in
  if is_canceled ctx_err then failed false "canceled" (Some Canceled)
  else if is_expired ctx_err then failed true "timeout" (Some DeadlineExceeded)
  else failed network "transport" None.

Definition isSuccess (statusCode : Z) : bool := (200 <=? statusCode) && (statusCode <? 300).

Definition isRetryableStatus (statusCode : Z) : bool :=
  (statusCode =? 408) || (statusCode =? 425) || (statusCode =? 429) || (500 <=? statusCode).

(** [strconv.ParseInt(value, 10, 32)] *)
Definition ParseInt32 (value : string) : option Z :=
  n ← match value with
      | String "-" digits => Z.opp <$> parse_dec digits
      | String "+" digits => parse_dec digits
      | _ => parse_dec value
      end;
  if (- 2 ^ 31 <=? n) && (n <? 2 ^ 31) then Some n else None.

Definition day : Z := 24 * hour.

Definition parseRetryAfter `{HttpDate} (value : string) (now : Time) : Z :=
  let value := trim_space value in
  if String.eqb value "" then 0 else
  match ParseInt32 value with
  | Some seconds =>
      if seconds <=? 0 then 0
      else let duration := seconds * second in
           if day <? duration then day else duration
  | None =>
      match ParseTime value with
      | Some retryAt =>
          if negb (after retryAt now) then 0
          else let duration := sub retryAt now in
               if day <? duration then day else duration
      | None => 0
      end
  end.

Definition firstDeliveryHeader (headers : gmap string string) : string :=
  default "" (head (filter (λ v, v ≠ "")
    ((λ name, header name headers) <$> ["X-Message-Id"; "X-Request-Id"; "X-Correlation-Id"]))).

Definition line_controls : list ascii := ["013"; "010"; "009"]%char.

Definition safeProviderID (value : string) (secrets : list string) : string :=
  let value := trim_space value in
  if String.eqb value "" || (256 <? slen value) || contains_any value line_controls then ""
  else if existsb (λ secret, negb (String.eqb secret "") && contains value secret) secrets then ""
  else if negb (valid_utf8 value) then "" else value.

Definition isLoopbackHost (host : string) : bool := field_match "localhost" host || ip_IsLoopback host.

Definition validateEndpoint (raw : string) (allowQuery : bool) : result URL :=
  if String.eqb raw "" || contains_any raw line_controls then
    Err (ErrorsNew "notification endpoint is required and must not contain control characters")
  else
    match url_Parse raw with
    | None =>
        Err (ErrorsNew "notification endpoint must be an absolute URL without user info or a fragment")
    | Some parsed =>
        if negb (IsAbs parsed) || negb (String.eqb (Opaque parsed) "")
           || String.eqb (url_Hostname parsed) "" || bool_decide (is_Some (User parsed))
           || negb (String.eqb (Fragment parsed) "")
        then Err (ErrorsNew "notification endpoint must be an absolute URL without user info or a fragment")
        else if negb allowQuery && (negb (String.eqb (RawQuery parsed) "") || ForceQuery parsed)
        then Err (ErrorsNew "notification base URL must not contain a query")
        else
          let scheme := to_lower (Scheme parsed) in
          if String.eqb scheme "https" then Ok parsed
          else if String.eqb scheme "http" then
            if negb (isLoopbackHost (url_Hostname parsed))
            then Err (ErrorsNew "notification endpoint must use HTTPS unless it targets loopback")
            else Ok parsed
          else Err (ErrorsNew "notification endpoint must use HTTP or HTTPS")
    end.

Definition appendURLPath (base : URL) (suffix : string) : string :=
  url_String {|
    Scheme := Scheme base; Opaque := Opaque base; User := User base; Host := Host base;
    URL_Path := trim_right_byte "/" (URL_Path base) +:+ suffix; RawPath := "";
    OmitHost := OmitHost base; ForceQuery := ForceQuery base; RawQuery := RawQuery base;
    Fragment := Fragment base; RawFragment := RawFragment base |}.

(** The first [n] runes, an ill-formed byte becoming U+FFFD. *)
Fixpoint take_runes (n skip : nat) (s : string) : string :=
  match s with
  | EmptyString => ""
  | String _ s' =>
      match skip with
      | S k => take_runes n k s'
      | O =>
          match n with
          | O => ""
          | S n =>
              let rw := decode_rune (bytes_n 4 s) in
              (if (rw.1 =? 0xFFFD) && (rw.2 =? 1)%nat
               then String "239" (String "191" (String "189" "")) else str_take rw.2 s)
              +:+ take_runes n (pred rw.2) s'
          end
      end
  end.

Definition truncateRunes (value : string) (maximum : Z) : string :=
  if maximum <=? 0 then ""
  else if Z.of_nat (length (runes value)) <=? maximum then value
  else take_runes (Z.to_nat maximum) 0 value.

Definition validSecret (value : string) : bool :=
  negb (String.eqb value "") && String.eqb value (trim_space value)
  && negb (contains_any value (" "%char :: line_controls)).

Definition validChannelName (value : string) : bool :=
  negb (String.eqb value "") && (slen value <=? 64)
  && all_runes (λ r, is_alnum r || existsb (Z.eqb r) (bytes "._-")) value.

Definition validHeaderName (value : string) : bool :=
  negb (String.eqb value "")
  && all_runes (λ r, is_alnum r || existsb (Z.eqb r) (bytes "!#$%&'*+-.^_`|~")) value.

(** ** One request *)

Section post.
Context `{HttpDate} {N : Type} `{TR : !Transport N}.

Definition base_headers : gmap string string :=
  {["Content-Type" := "application/json"; "Accept" := "application/json";
    "User-Agent" := "oh-my-safety-notifier/1"]}.

(** An error of a delivery, or its result. *)
Abbreviation attempt A := (DeliveryError + A)%type.

(** [payload] is the encoded payload, [None] when it does not encode.  The
    channels' own headers are never one of the three set here. *)
Definition postJSON (channel endpoint : string) (headers : gmap string string)
    (payload : option string) (secrets : list string) (now : Time) (net : N) : N * attempt Response :=
  match payload with
  | None => (net, inl (safeDeliveryError channel "request" false None))
  | Some requestBody =>
      if maxRequestBodyBytes <? slen requestBody then
        (net, inl (safeDeliveryError channel "request-too-large" false None))
      else if negb (bool_decide (is_Some (url_Parse endpoint))) then
        (net, inl (safeDeliveryError channel "request" false None))
      else
        let '(net, r) := Do {| Req_Method := "POST"; Req_URL := endpoint;
                               Req_Header := headers ∪ base_headers; Req_Body := requestBody |} net in
        (net,
          let received (response : Response) (broken : bool) :=
            if maxResponseBodyBytes <? slen (Content response) then
              inl {| Error_Channel := channel; Error_StatusCode := Status response;
                     Retryable := isRetryableStatus (Status response);
                     RetryAfter := parseRetryAfter (header "Retry-After" (Headers response)) now;
                     DeliveryID := safeProviderID (firstDeliveryHeader (Headers response)) secrets;
                     kind := "response-too-large"; cause := None |}
            else if broken then
              inl (safeDeliveryError channel "response" (isRetryableStatus (Status response)) None)
            else inr response in
          match r with
          | NotSent ctx_err network => inl (transportDeliveryError channel ctx_err network)
          | Interrupted response _ => received response true
          | Answered response => received response false
          end)
  end.

Definition providerStatusError (channel : string) (response : Response) (deliveryID : string)
    (retryAfter : Z) (now : Time) : DeliveryError := {|
  Error_Channel := channel; Error_StatusCode := Status response;
  Retryable := isRetryableStatus (Status response);
  RetryAfter := if retryAfter =? 0
                then parseRetryAfter (header "Retry-After" (Headers response)) now else retryAfter;
  DeliveryID := deliveryID; kind := "http-status"; cause := None |}.
End post.
#[global] Arguments safeProviderID : simpl never.

(** ** What they promise *)

(** A retry delay is never negative and never beyond a day. *)
Lemma parseRetryAfter_range `{HttpDate} value now : 0 ≤ parseRetryAfter value now ≤ day.
Proof.
  unfold parseRetryAfter. cbv zeta. assert (0 < day) by (by vm_compute).
  destruct (String.eqb _ ""); [lia|]. destruct (ParseInt32 _) as [n|].
  - destruct (n <=? 0) eqn:Hn; [lia|]. destruct (day <? n * second) eqn:Hd; [lia|].
    bool_prop. unfold second in *. nia.
  - destruct (ParseTime _) as [t|]; [|lia]. destruct (after t now) eqn:Ha; cbn [negb]; [|lia].
    destruct (day <? sub t now) eqn:Hd; [lia|]. bool_prop. unfold after, sub in *. bool_prop. lia.
Qed.

(** What identifies a delivery is short, on one line, well-formed, and holds
    none of the secrets. *)
Definition clean_id (secrets : list string) (id : string) : Prop :=
  slen id ≤ 256 ∧ contains_any id line_controls = false ∧ valid_utf8 id = true ∧
  ∀ secret, secret ∈ secrets → secret ≠ "" → contains id secret = false.

Lemma safeProviderID_clean value secrets : clean_id secrets (safeProviderID value secrets).
Proof.
  assert (clean_id secrets "") as Hempty.
  { split_and!; [by vm_compute..|]. intros [|c s] _ Hs; [done|by cbn]. }
  unfold safeProviderID. set (v := trim_space value). clearbody v.
  destruct (_ || _) eqn:E1; [exact Hempty|]. destruct (existsb _ _) eqn:E2; [exact Hempty|].
  destruct (valid_utf8 v) eqn:E3; cbn [negb]; [|exact Hempty].
  bool_prop. split_and!; [lia|done|done|]. intros secret Hin Hne.
  destruct (contains v secret) eqn:Ec; [|done].
  assert (existsb (λ secret, negb (String.eqb secret "") && contains v secret) secrets = true) as Hx; [|congruence].
  apply existsb_exists. exists secret. split; [by apply list_elem_of_In|].
  apply String.eqb_neq in Hne. by rewrite Hne, Ec.
Qed.

(** An endpoint is one that HTTPS protects, or this machine; its text begins
    with its scheme and host, since it has no opaque part. *)
Definition secure_url (u : URL) : Prop :=
  (to_lower (Scheme u) = "https" ∨ to_lower (Scheme u) = "http" ∧ isLoopbackHost (url_Hostname u) = true) ∧
  Opaque u = "" ∧ User u = None ∧ Fragment u = "" ∧ url_Hostname u ≠ "".

Lemma validateEndpoint_secure raw allow u :
  validateEndpoint raw allow = Ok u →
  url_Parse raw = Some u ∧ secure_url u ∧ (allow = false → RawQuery u = "" ∧ ForceQuery u = false).
Proof.
  unfold validateEndpoint. destruct (_ || _); [done|]. destruct (url_Parse raw) as [v|]; [|done].
  destruct (negb (IsAbs v) || _ || _ || _ || _) eqn:E; [done|]. cbv zeta.
  destruct (negb allow && _) eqn:Eq; [done|]. intros H.
  assert (v = u ∧ (to_lower (Scheme v) = "https" ∨
    to_lower (Scheme v) = "http" ∧ isLoopbackHost (url_Hostname v) = true)) as [<- Hs].
  { destruct (String.eqb (to_lower (Scheme v)) "https") eqn:E1.
    - injection H as <-. split; [done|]. left. by apply String.eqb_eq.
    - destruct (String.eqb (to_lower (Scheme v)) "http") eqn:E2; [|done].
      destruct (isLoopbackHost _) eqn:E3; [|done]. injection H as <-. split; [done|]. right.
      split; [by apply String.eqb_eq|done]. }
  split; [done|]. split.
  - bool_prop. split_and!; [exact Hs|done| |done..]. by apply eq_None_not_Some.
  - intros ->. cbn [negb andb] in Eq. by bool_prop.
Qed.
