(* ===== verification/NotifierChannels.v ===== *)
(** * Package notifier: the channels

    [internal/notifier/webhook.go], [discord.go], [telegram.go],
    [sendgrid.go]: what each accepts as configuration, the request it makes of
    a notification and what it makes of the answer.  A map of the
    configuration is a list in the order it is ranged over.  An address is
    checked by net/mail, the class [NetMail]; addresses are compared in lower
    case, the class [UnicodeLower]. *)

From S2P Require Import Prelude GoString GoLib GoUrl GoHttp GoRegexp GoTime Json JsonCompact Model ModelJson.
From S2P Require Import NotifierRegistry NotifierHttp.
#[local] Open Scope Z_scope.

(** [mail.ParseAddress]: the name and the address. *)
Class NetMail := ParseAddress : string → option (string * string).

(** The error of [Deliver]: the notification is refused, or the delivery
    failed. *)
Inductive failure :=
  | Invalid (e : error)
  | Failed (e : DeliveryError).

Definition failure_error (f : failure) : error :=
  match f with Invalid e => e | Failed e => delivery_error e end.

Section channels.
Context `{HttpDate} `{NetMail} `{UnicodeLower} {N : Type} `{TR : !Transport N}.

Abbreviation delivery := (N * (failure + ProviderDelivery))%type.

(** ** What the four have in common *)

(** A notification is validated, then posted; [finish] reads the answer. *)
Definition deliver (n : Notification) (post : N → N * (DeliveryError + Response))
    (finish : Response → DeliveryError + ProviderDelivery) (net : N) : delivery :=
  match Notification_Validate n with
  | Err e => (net, inl (Invalid e))
  | Ok _ =>
      let '(net, r) := post net in
      (net, match r with
            | inl e => inl (Failed e)
            | inr response =>
                match finish response with inl e => inl (Failed e) | inr d => inr d end
            end)
  end.

(** [Notify]: the error only. *)
Definition notify (d : delivery) : N * option error :=
  (d.1, match d.2 with inl f => Some (failure_error f) | inr _ => None end).

(** ** Webhooks *)

Record WebhookConfig := {
  Webhook_Name : string; Webhook_URL : string; BearerToken : string;
  Webhook_Headers : list (string * string); Webhook_Timeout : Z;
}.
Record WebhookChannel := {
  webhook_name : string; webhook_endpoint : string; webhook_headers : gmap string string;
  webhook_secrets : list string; webhook_timeout : Z;
}.

(** One round of the loop of [validateWebhookHeaders]. *)
Definition check_header (acc : gmap string string * list string * Z) (kv : string * string)
    : result (gmap string string * list string * Z) :=
  let '(headers, secrets, totalBytes) := acc in
  let '(name, value) := kv in
  if negb (validHeaderName name) then Err (ErrorsNew "webhook custom header name is invalid") else
  let canonicalName := CanonicalHeaderKey name in
  if negb (has_prefix canonicalName "X-") then
    Err (ErrorsNew "webhook custom headers must use an X- prefix")
  else if String.eqb value "" || contains_any value ["013"; "010"]%char then
    Err (ErrorsNew "webhook custom header value is empty or contains control characters")
  else
    let totalBytes := totalBytes + slen canonicalName + slen value in
    if (8192 <? slen value) || (16384 <? totalBytes) then
      Err (ErrorsNew "webhook custom headers exceed the size limit")
    else Ok (<[canonicalName := value]> headers, secrets ++ [value], totalBytes).

Fixpoint check_headers (acc : gmap string string * list string * Z) (values : list (string * string))
    : result (gmap string string * list string * Z) :=
  match values with
  | [] => Ok acc
  | kv :: values => acc ← check_header acc kv; check_headers acc values
  end.

Definition validateWebhookHeaders (values : list (string * string))
    : result (gmap string string * list string) :=
  if 32 <? Z.of_nat (length values) then Err (ErrorsNew "webhook supports at most 32 custom headers")
  else '(headers, secrets, _) ← check_headers (∅, [], 0) values; Ok (headers, secrets).

(** The last element of [strings.Split(strings.Trim(path, "/"), "/")] *)
Definition last_segment (path : string) : string :=
  List.last (split_on "/" (trim_right_byte "/" (trim_left_byte "/" path))) "".

Definition endpointSecretFragments (endpoint : URL) : list string :=
  filter (λ value, 6 ≤ slen value) (url_Query endpoint).*2
  ++ filter (λ value, 12 ≤ slen value) [last_segment (URL_Path endpoint)].

Definition NewWebhookChannel (config : WebhookConfig) : result WebhookChannel :=
  let name := if String.eqb (Webhook_Name config) "" then "webhook" else Webhook_Name config in
  if negb (validChannelName name) then
    Err (ErrorsNew "webhook channel name contains unsupported characters")
  else
    endpoint ← map_err (λ e, Wrapf "invalid webhook configuration: %w" e [])
                 (validateEndpoint (Webhook_URL config) true);
    _ ← fail_if (negb (String.eqb (BearerToken config) "") && negb (validSecret (BearerToken config)))
          (ErrorsNew "webhook bearer token contains whitespace or control characters");
    '(headers, headerSecrets) ← validateWebhookHeaders (Webhook_Headers config);
    let '(headers, headerSecrets) :=
      if String.eqb (BearerToken config) "" then (headers, headerSecrets)
      else (<["Authorization" := "Bearer " +:+ BearerToken config]> headers,
            headerSecrets ++ [BearerToken config]) in
    timeout ← newHTTPSender (Webhook_Timeout config);
    Ok {| webhook_name := name; webhook_endpoint := url_String endpoint; webhook_headers := headers;
          webhook_secrets := headerSecrets ++ endpointSecretFragments endpoint;
          webhook_timeout := timeout |}.

Definition webhook_finish (channel : WebhookChannel) (now : Time) (response : Response)
    : DeliveryError + ProviderDelivery :=
  let deliveryID := safeProviderID (firstDeliveryHeader (Headers response)) (webhook_secrets channel) in
  if negb (isSuccess (Status response))
  then inl (providerStatusError "webhook" response deliveryID 0 now)
  else inr {| Provider_Channel := webhook_name channel; Provider_ID := deliveryID;
              Provider_StatusCode := Status response |}.

Definition webhook_Deliver (channel : WebhookChannel) (n : Notification) (now : Time) : N → delivery :=
  deliver n
    (postJSON "webhook" (webhook_endpoint channel) (webhook_headers channel) (Marshal n)
       (webhook_secrets channel) now)
    (webhook_finish channel now).

Definition webhook_channel (channel : WebhookChannel) (now : Time) : Channel N :=
  {| Name := webhook_name channel; Notify n net := notify (webhook_Deliver channel n now net) |}.

(** ** Discord *)

Record DiscordConfig := { WebhookURL : string; Username : string; Discord_Timeout : Z }.
Record DiscordChannel := {
  discord_endpoint : string; discord_username : string; discord_secrets : list string;
  discord_timeout : Z }.

(** A query value set, the rest re-encoded. *)
Definition with_wait (endpoint : URL) : URL := {|
  Scheme := Scheme endpoint; Opaque := Opaque endpoint; User := User endpoint; Host := Host endpoint;
  URL_Path := URL_Path endpoint; RawPath := RawPath endpoint; OmitHost := OmitHost endpoint;
  ForceQuery := ForceQuery endpoint;
  RawQuery := values_Encode (values_Set "wait" "true" (url_Query endpoint));
  Fragment := Fragment endpoint; RawFragment := RawFragment endpoint |}.

Definition NewDiscordChannel (config : DiscordConfig) : result DiscordChannel :=
  endpoint ← map_err (λ _, ErrorsNew "invalid Discord webhook configuration")
               (validateEndpoint (WebhookURL config) true);
  _ ← fail_if ((80 <? Z.of_nat (length (runes (Username config))))
               || contains_any (Username config) ["013"; "010"]%char)
        (ErrorsNew "Discord username exceeds 80 characters or contains control characters");
  let endpoint := with_wait endpoint in
  timeout ← newHTTPSender (Discord_Timeout config);
  Ok {| discord_endpoint := url_String endpoint; discord_username := Username config;
        discord_secrets := endpointSecretFragments endpoint; discord_timeout := timeout |}.

Definition discordSeverityColor (severity : string) : Z :=
  if String.eqb severity SeverityCritical then 0xe74c3c
  else if String.eqb severity SeverityWarn then 0xf39c12 else 0x3498db.

(** A value written in place: a nested struct or list. *)
Definition f_text (t : option string) : option (option string) := Some <$> t.
Definition texts (ts : list (option string)) : option string := array_text <$> mapM id ts.

Definition discord_payload (username : string) (n : Notification) : option string :=
  let footer := if String.eqb (Notif_FindingID n) "" then Some None else
    f_text (enc_struct [("text", f_str ("Finding: " +:+ truncateRunes (Notif_FindingID n) 1900))]) in
  let embed := enc_struct
    [("title", f_str (truncateRunes (Notif_Title n) 256));
     ("description", f_str (truncateRunes (Notif_Body n) 4096));
     ("color", f_int (discordSeverityColor (Notif_Severity n))); ("footer", footer)] in
  enc_struct
    [("username", f_str_omit username); ("embeds", f_text (texts [embed]));
     ("allowed_mentions", f_text (enc_struct [("parse", f_text (texts []))]))].

(** [var message struct { ID string }] *)
Definition discord_message (body : string) : option string :=
  @Unmarshal string {| enc _ := None; dec := dec_struct "" (λ ms, get_string ms "id"); wf _ := False |} body.

Definition discord_finish (channel : DiscordChannel) (now : Time) (response : Response)
    : DeliveryError + ProviderDelivery :=
  let deliveryID := safeProviderID (firstDeliveryHeader (Headers response)) (discord_secrets channel) in
  if negb (isSuccess (Status response))
  then inl (providerStatusError "discord" response deliveryID 0 now)
  else
    let parsedID := match discord_message (Content response) with
                    | Some id => safeProviderID id (discord_secrets channel)
                    | None => ""
                    end in
    inr {| Provider_Channel := "discord";
           Provider_ID := if String.eqb parsedID "" then deliveryID else parsedID;
           Provider_StatusCode := Status response |}.

Definition discord_Deliver (channel : DiscordChannel) (n : Notification) (now : Time) : N → delivery :=
  deliver n
    (postJSON "discord" (discord_endpoint channel) ∅ (discord_payload (discord_username channel) n)
       (discord_secrets channel) now)
    (discord_finish channel now).

Definition discord_channel (channel : DiscordChannel) (now : Time) : Channel N :=
  {| Name := "discord"; Notify n net := notify (discord_Deliver channel n now net) |}.

(** ** Telegram *)

Definition defaultTelegramBaseURL : string := "https://api.telegram.org".

Definition token_rune (r : Z) : bool := is_alnum r || one_of_chars "_-" r.

Definition telegramBotTokenPattern : regex :=
  Seq Begin (Seq (Rep is_digit 5 None) (Seq (lit ":") (Seq (Rep token_rune 20 None) End))).

Definition telegramChatIDPattern : regex :=
  Seq Begin (Seq
    (Alt (Seq (Opt (lit "-")) (Rep is_digit 1 (Some 32%nat)))
         (Seq (lit "@") (Seq (Chr (λ r, is_lower_alpha r || is_upper_alpha r))
                             (Rep (λ r, is_alnum r || (r =? 95)) 4 (Some 31%nat))))) End).

Record TelegramConfig := {
  BotToken : string; Telegram_ChatID : string; Telegram_BaseURL : string; Telegram_Timeout : Z }.
Record TelegramChannel := {
  telegram_endpoint : string; telegram_chatID : string; telegram_token : string; telegram_timeout : Z }.

Definition NewTelegramChannel (config : TelegramConfig) : result TelegramChannel :=
  if negb (MatchString telegramBotTokenPattern (BotToken config)) then
    Err (ErrorsNew "Telegram bot token has an invalid format")
  else if negb (MatchString telegramChatIDPattern (Telegram_ChatID config)) then
    Err (ErrorsNew "Telegram chat ID has an invalid format")
  else
    let baseURL := if String.eqb (Telegram_BaseURL config) "" then defaultTelegramBaseURL
                   else Telegram_BaseURL config in
    base ← map_err (λ _, ErrorsNew "invalid Telegram base URL") (validateEndpoint baseURL false);
    timeout ← newHTTPSender (Telegram_Timeout config);
    Ok {| telegram_endpoint := appendURLPath base ("/bot" +:+ BotToken config +:+ "/sendMessage");
          telegram_chatID := Telegram_ChatID config; telegram_token := BotToken config;
          telegram_timeout := timeout |}.

Definition telegram_payload (chatID : string) (n : Notification) : option string :=
  let two_lines := String "010" (String "010" "") in
  enc_struct
    [("chat_id", f_str chatID);
     ("text", f_str (truncateRunes (Notif_Title n +:+ two_lines +:+ Notif_Body n) 4096));
     ("protect_content", f_bool true);
     ("link_preview_options", f_text (enc_struct [("is_disabled", f_bool true)]))].

(** [Result] and [Parameters] are pointers. *)
Record telegramResponse := {
  OK : bool; ErrorCode : Z; MessageID : option Z; Parameters_RetryAfter : option Z }.

Definition dec_member (name : string) (t : string) : option Z :=
  dec_struct 0 (λ ms, get_int ms name) t.

Definition telegram_response (body : string) : option telegramResponse :=
  @Unmarshal telegramResponse {|
    enc _ := None;
    dec := dec_struct {| OK := false; ErrorCode := 0; MessageID := None; Parameters_RetryAfter := None |}
      (λ ms, ok ← get_bool ms "ok"; code ← get_int ms "error_code";
             result ← get_opt (dec_member "message_id") ms "result";
             parameters ← get_opt (dec_member "retry_after") ms "parameters";
             Some {| OK := ok; ErrorCode := code; MessageID := result;
                     Parameters_RetryAfter := parameters |});
    wf _ := False |} body.

(** [time.Duration(seconds) * time.Second], in int64, then cut at a day. *)
Definition telegram_retry_after (response : option telegramResponse) : Z :=
  match response with
  | Some {| Parameters_RetryAfter := Some seconds |} =>
      if 0 <? seconds then
        let retryAfter := to_int64 (seconds * second) in
        if day <? retryAfter then day else retryAfter
      else 0
  | _ => 0
  end.

Definition telegram_finish (now : Time) (response : Response) : DeliveryError + ProviderDelivery :=
  let parsed := telegram_response (Content response) in
  let retryAfter := telegram_retry_after parsed in
  let rejected retryable := inl {|
    Error_Channel := "telegram"; Error_StatusCode := Status response; Retryable := retryable;
    RetryAfter := retryAfter; DeliveryID := ""; kind := "provider-rejected"; cause := None |} in
  if negb (isSuccess (Status response))
  then inl (providerStatusError "telegram" response "" retryAfter now)
  else match parsed with
  | None => rejected false
  | Some r =>
      if negb (OK r) then rejected (isRetryableStatus (ErrorCode r))
      else inr {| Provider_Channel := "telegram";
                  Provider_ID := match MessageID r with
                                 | Some id => if 0 <? id then format_int id else ""
                                 | None => ""
                                 end;
                  Provider_StatusCode := Status response |}
  end.

Definition telegram_Deliver (channel : TelegramChannel) (n : Notification) (now : Time) : N → delivery :=
  deliver n
    (postJSON "telegram" (telegram_endpoint channel) ∅ (telegram_payload (telegram_chatID channel) n)
       [telegram_token channel] now)
    (telegram_finish now).

Definition telegram_channel (channel : TelegramChannel) (now : Time) : Channel N :=
  {| Name := "telegram"; Notify n net := notify (telegram_Deliver channel n now net) |}.

(** ** SendGrid *)

Definition defaultSendGridBaseURL : string := "https://api.sendgrid.com".

Definition sendGridAPIKeyPattern : regex :=
  Seq Begin (Seq (lit "SG.") (Seq (Rep token_rune 10 None)
    (Seq (lit ".") (Seq (Rep token_rune 10 None) End)))).

Record EmailAddress := { Email : string; Email_Name : string }.
Record SendGridConfig := {
  APIKey : string; From : EmailAddress; To : list EmailAddress; SendGrid_BaseURL : string;
  SendGrid_Timeout : Z }.
Record SendGridChannel := {
  sendgrid_apiKey : string; sendgrid_endpoint : string; sendgrid_from : EmailAddress;
  sendgrid_to : list EmailAddress; sendgrid_timeout : Z }.

Definition validateEmailAddress (address : EmailAddress) : result unit :=
  if String.eqb (Email address) "" || (254 <? slen (Email address))
     || negb (String.eqb (Email address) (trim_space (Email address)))
     || contains_any (Email address) line_controls
  then Err (ErrorsNew "invalid email address")
  else if negb (bool_decide (ParseAddress (Email address) = Some ("", Email address)))
  then Err (ErrorsNew "invalid email address")
  else fail_if ((256 <? Z.of_nat (length (runes (Email_Name address))))
                || contains_any (Email_Name address) ["013"; "010"]%char)
         (ErrorsNew "invalid email display name").

Fixpoint check_recipients (seen : gset string) (recipients : list EmailAddress) : result unit :=
  match recipients with
  | [] => Ok tt
  | recipient :: recipients =>
      _ ← map_err (λ _, ErrorsNew "SendGrid recipient address is invalid") (validateEmailAddress recipient);
      let normalized := ToLower (Email recipient) in
      if bool_decide (normalized ∈ seen)
      then Err (ErrorsNew "SendGrid recipient addresses must be unique")
      else check_recipients ({[normalized]} ∪ seen) recipients
  end.

Definition NewSendGridChannel (config : SendGridConfig) : result SendGridChannel :=
  if negb (MatchString sendGridAPIKeyPattern (APIKey config)) then
    Err (ErrorsNew "SendGrid API key has an invalid format")
  else
    _ ← map_err (λ _, ErrorsNew "SendGrid sender address is invalid") (validateEmailAddress (From config));
    _ ← fail_if (bool_decide (To config = []) || (100 <? Z.of_nat (length (To config))))
          (ErrorsNew "SendGrid requires between 1 and 100 recipients");
    _ ← check_recipients ∅ (To config);
    let baseURL := if String.eqb (SendGrid_BaseURL config) "" then defaultSendGridBaseURL
                   else SendGrid_BaseURL config in
    base ← map_err (λ _, ErrorsNew "invalid SendGrid base URL") (validateEndpoint baseURL false);
    timeout ← newHTTPSender (SendGrid_Timeout config);
    Ok {| sendgrid_apiKey := APIKey config; sendgrid_endpoint := appendURLPath base "/v3/mail/send";
          sendgrid_from := From config; sendgrid_to := To config; sendgrid_timeout := timeout |}.

Definition enc_email (a : EmailAddress) : option string :=
  enc_struct [("email", f_str (Email a)); ("name", f_str_omit (Email_Name a))].

Definition sendgrid_payload (channel : SendGridChannel) (n : Notification) : option string :=
  enc_struct
    [("personalizations",
        f_text (texts [enc_struct [("to", f_text (texts (enc_email <$> sendgrid_to channel)))]]));
     ("from", f_text (enc_email (sendgrid_from channel)));
     ("subject", f_str (truncateRunes (Notif_Title n) 998));
     ("content", f_text (texts [enc_struct [("type", f_str "text/plain"); ("value", f_str (Notif_Body n))]]))].

Definition sendgrid_finish (channel : SendGridChannel) (now : Time) (response : Response)
    : DeliveryError + ProviderDelivery :=
  let deliveryID := safeProviderID (firstDeliveryHeader (Headers response)) [sendgrid_apiKey channel] in
  if negb (isSuccess (Status response))
  then inl (providerStatusError "sendgrid" response deliveryID 0 now)
  else inr {| Provider_Channel := "sendgrid"; Provider_ID := deliveryID;
              Provider_StatusCode := Status response |}.

Definition sendgrid_Deliver (channel : SendGridChannel) (n : Notification) (now : Time) : N → delivery :=
  deliver n
    (postJSON "sendgrid" (sendgrid_endpoint channel)
       {["Authorization" := "Bearer " +:+ sendgrid_apiKey channel]} (sendgrid_payload channel n)
       [sendgrid_apiKey channel] now)
    (sendgrid_finish channel now).

Definition sendgrid_channel (channel : SendGridChannel) (now : Time) : Channel N :=
  {| Name := "sendgrid"; Notify n net := notify (sendgrid_Deliver channel n now net) |}.
End channels.
