(* ===== verification/NotifierFacts.v ===== *)
(** * Package notifier: what a delivery reveals and where it goes

    One request at most, to the configured endpoint, over HTTPS or to this
    machine; an outcome that carries none of the credentials of [secret_of],
    whatever the provider answers; and delays a caller can wait for. *)

From S2P Require Import Prelude GoString GoLib GoUrl GoHttp GoRegexp GoTime JsonString Json JsonCompact Model.
From S2P Require Import ModelJson StrictJson JsonSize NotifierRegistry NotifierHttp NotifierChannels.
#[local] Open Scope Z_scope.

(** ** The four channels as one *)

Section facts.
Context `{HD : HttpDate} `{NM : NetMail} `{UL : UnicodeLower} {N : Type} `{TR : !Transport N}.

Inductive configured :=
  | Webhook (config : WebhookConfig) (channel : WebhookChannel)
  | Discord (config : DiscordConfig) (channel : DiscordChannel)
  | Telegram (config : TelegramConfig) (channel : TelegramChannel)
  | SendGrid (config : SendGridConfig) (channel : SendGridChannel).

(** The channel is what its constructor makes of the configuration. *)
Definition made (c : configured) : Prop :=
  match c with
  | Webhook config channel => NewWebhookChannel config = Ok channel
  | Discord config channel => NewDiscordChannel config = Ok channel
  | Telegram config channel => NewTelegramChannel config = Ok channel
  | SendGrid config channel => NewSendGridChannel config = Ok channel
  end.

Definition send (c : configured) (n : Notification) (now : Time) (net : N)
    : N * (failure + ProviderDelivery) :=
  match c with
  | Webhook _ channel => webhook_Deliver channel n now net
  | Discord _ channel => discord_Deliver channel n now net
  | Telegram _ channel => telegram_Deliver channel n now net
  | SendGrid _ channel => sendgrid_Deliver channel n now net
  end.

Definition endpoint_of (c : configured) : string :=
  match c with
  | Webhook _ channel => webhook_endpoint channel
  | Discord _ channel => discord_endpoint channel
  | Telegram _ channel => telegram_endpoint channel
  | SendGrid _ channel => sendgrid_endpoint channel
  end.

Definition payload_of (c : configured) (n : Notification) : option string :=
  match c with
  | Webhook _ channel => Marshal n
  | Discord _ channel => discord_payload (discord_username channel) n
  | Telegram _ channel => telegram_payload (telegram_chatID channel) n
  | SendGrid _ channel => sendgrid_payload channel n
  end.

(** The URL a configuration names, which for two providers has a default. *)
Definition configured_url (c : configured) : string :=
  match c with
  | Webhook config _ => Webhook_URL config
  | Discord config _ => WebhookURL config
  | Telegram config _ =>
      if String.eqb (Telegram_BaseURL config) "" then "https://api.telegram.org" else Telegram_BaseURL config
  | SendGrid config _ =>
      if String.eqb (SendGrid_BaseURL config) "" then "https://api.sendgrid.com" else SendGrid_BaseURL config
  end.

(** The path of the request, below that of the URL for the two providers with
    a base URL. *)
Definition requested_path (c : configured) (base : URL) : string :=
  match c with
  | Webhook _ _ | Discord _ _ => URL_Path base
  | Telegram config _ =>
      trim_right_byte "/" (URL_Path base) +:+ "/bot" +:+ BotToken config +:+ "/sendMessage"
  | SendGrid _ _ => trim_right_byte "/" (URL_Path base) +:+ "/v3/mail/send"
  end.

(** The query is that of the URL; Discord is asked to wait for its answer. *)
Definition requested_query (c : configured) (u base : URL) : Prop :=
  match c with
  | Discord _ _ =>
      ∀ key value, (key, value) ∈ url_Query u ↔
        (key = "wait" ∧ value = "true") ∨ (key ≠ "wait" ∧ (key, value) ∈ url_Query base)
  | _ => RawQuery u = RawQuery base
  end.

Definition same_origin (u base : URL) : Prop :=
  Scheme u = Scheme base ∧ User u = User base ∧ Host u = Host base.

(** The last segment of a path is what stands behind a slash, or begins it,
    with only slashes after it. *)
Definition ends_path (path secret : string) : Prop :=
  ∃ before slashes, path = before +:+ secret +:+ slashes ∧ free_of "/" secret ∧
    Forall (λ c, c = "/"%char) (chars slashes) ∧ (before = "" ∨ (∃ parent, before = parent +:+ "/")).

(** A part of a URL that is a credential: the value of a query parameter, but
    for a parameter [except], when it has at least six bytes, or the last
    segment of the path, when it has at least twelve. *)
Definition url_secret (raw : string) (except : list string) (secret : string) : Prop :=
  ∃ u, url_Parse raw = Some u ∧
    ((∃ key, (key, secret) ∈ url_Query u ∧ (key ∉ except) ∧ 6 ≤ slen secret) ∨
     (ends_path (URL_Path u) secret ∧ 12 ≤ slen secret)).

(** The credentials of a configuration: custom header values and the bearer
    token, the bot token, the API key, and such a part of a webhook's URL.
    Discord's parameter [wait] is replaced. *)
Definition secret_of (c : configured) (secret : string) : Prop :=
  match c with
  | Webhook config channel =>
      secret ∈ (Webhook_Headers config).*2 ∨ secret = BearerToken config ∨ url_secret (Webhook_URL config) [] secret
  | Discord config channel => url_secret (WebhookURL config) ["wait"] secret
  | Telegram config channel => secret = BotToken config
  | SendGrid config channel => secret = APIKey config
  end.

(** ** One request *)

Lemma postJSON_sends channel endpoint headers payload secrets now (net : N) net' r :
  postJSON channel endpoint headers payload secrets now net = (net', r) →
  net' = net ∨ ∃ body, payload = Some body ∧ slen body ≤ maxRequestBodyBytes ∧
    net' = (Do {| Req_Method := "POST"; Req_URL := endpoint; Req_Header := headers ∪ base_headers;
                  Req_Body := body |} net).1.
Proof.
  unfold postJSON. destruct payload as [body|]; [|intros [= <- _]; by left].
  destruct (maxRequestBodyBytes <? slen body) eqn:Hs; [intros [= <- _]; by left|].
  destruct (negb _); [intros [= <- _]; by left|].
  destruct (Do _ net) as [net1 x] eqn:E. intros [= <- _]. right. exists body.
  bool_prop. split_and!; [done|lia|]. by rewrite E.
Qed.

Lemma deliver_sends n post finish (net : N) :
  (deliver n post finish net).1 = net ∨
  Notification_Validate n = Ok tt ∧ (deliver n post finish net).1 = (post net).1.
Proof.
  unfold deliver. destruct (Notification_Validate n) as [[]|e]; [|by left].
  destruct (post net) as [net' r]. by right.
Qed.

(** *** Where it goes *)

Lemma secure_with_path u path raw :
  secure_url u → secure_url {|
    Scheme := Scheme u; Opaque := Opaque u; User := User u; Host := Host u; URL_Path := path; RawPath := raw;
    OmitHost := OmitHost u; ForceQuery := ForceQuery u; RawQuery := RawQuery u; Fragment := Fragment u;
    RawFragment := RawFragment u |}.
Proof. done. Qed.

(** What a request of the channel is sent to, of what was configured. *)
Definition target (c : configured) (u : URL) : Prop :=
  ∃ base, url_Parse (configured_url c) = Some base ∧ secure_url u ∧ same_origin u base ∧
    URL_Path u = requested_path c base ∧ requested_query c u base.

Lemma with_wait_query config channel u : requested_query (Discord config channel) (with_wait u) u.
Proof.
  intros key value. unfold url_Query at 1. cbn [with_wait RawQuery].
  rewrite ParseQuery_Encode, elem_of_sort_by. unfold values_Set.
  rewrite elem_of_app, list_elem_of_filter, list_elem_of_singleton. cbn [fst]. naive_solver.
Qed.

Lemma made_endpoint c : made c → ∃ u, target c u ∧ endpoint_of c = url_String u.
Proof.
  destruct c as [config channel|config channel|config channel|config channel]; cbn [made endpoint_of].
  - unfold NewWebhookChannel. destruct (negb _); [done|]. intros H. ok_inv.
    match goal with H : validateEndpoint _ _ = Ok _ |- _ => apply validateEndpoint_secure in H as (Hp & Hu & _) end.
    match goal with H : (match ?x with _ => _ end) = Ok _ |- _ => destruct x as [headers secrets] end.
    destruct (String.eqb (BearerToken config) ""); ok_inv; eexists; (split; [|reflexivity]);
      by eexists; split; [exact Hp|].
  - unfold NewDiscordChannel. intros H. ok_inv.
    match goal with H : validateEndpoint _ _ = Ok _ |- _ => apply validateEndpoint_secure in H as (Hp & Hu & _) end.
    eexists. split; [|reflexivity]. eexists. split; [exact Hp|]. split; [exact Hu|].
    split; [done|]. split; [done|]. apply with_wait_query.
  - unfold NewTelegramChannel. do 2 (destruct (negb _); [done|]). intros H. ok_inv.
    match goal with H : validateEndpoint _ _ = Ok _ |- _ => apply validateEndpoint_secure in H as (Hp & Hu & _) end.
    eexists. split; [|reflexivity]. eexists. split; [exact Hp|]. split; [by apply secure_with_path|done].
  - unfold NewSendGridChannel. destruct (negb _); [done|]. intros H. ok_inv.
    match goal with H : validateEndpoint _ _ = Ok _ |- _ => apply validateEndpoint_secure in H as (Hp & Hu & _) end.
    eexists. split; [|reflexivity]. eexists. split; [exact Hp|]. split; [by apply secure_with_path|done].
Qed.

(** C28. A delivery is at most one request: nothing is sent for a notification
    that is not valid; otherwise what is sent is the encoded payload, within
    the size limit, posted to the scheme, host, path and query that the
    configuration names, or the provider's own when it names none: a URL
    without user information or an opaque part that HTTPS protects or whose
    host is this machine; Discord is asked to wait for its answer. *)
Theorem send_once c n now net net' r :
  made c → send c n now net = (net', r) →
  net' = net ∨
  Notification_Validate n = Ok tt ∧
  ∃ u request, target c u ∧ net' = (Do request net).1 ∧
    Req_Method request = "POST" ∧ Req_URL request = url_String u ∧
    payload_of c n = Some (Req_Body request) ∧ slen (Req_Body request) ≤ maxRequestBodyBytes.
Proof.
  intros (u & Hu & He)%made_endpoint Hsend. apply (f_equal fst) in Hsend. cbn [fst] in Hsend. subst net'.
  assert (∃ channel headers secrets finish,
    send c n now net =
      deliver n (postJSON channel (endpoint_of c) headers (payload_of c n) secrets now) finish net) as
    (channel & headers & secrets & finish & ->) by (destruct c; by do 4 eexists).
  destruct (deliver_sends n (postJSON channel (endpoint_of c) headers (payload_of c n) secrets now) finish net)
    as [->|[Hv ->]]; [by left|].
  destruct (postJSON channel _ headers _ secrets now net) as [net' x] eqn:E.
  apply postJSON_sends in E as [->|(body & Hp & Hl & ->)]; [by left|]. right. split; [done|].
  exists u. eexists. split; [exact Hu|]. split; [reflexivity|]. by rewrite He, Hp.
Qed.
(** ** What comes back *)

Lemma clean_empty secrets : clean_id secrets "".
Proof. split_and!; [by vm_compute..|]. intros [|c s] _ Hs; [done|by cbn]. Qed.

(** A fact about errors and deliveries that holds of the post and of what
    [finish] makes of an answer holds of the delivery. *)
Lemma deliver_outcome n post finish (net : N) (P : DeliveryError → Prop) (Q : ProviderDelivery → Prop) :
  (∀ e, (post net).2 = inl e → P e) →
  (∀ response, match finish response with inl e => P e | inr d => Q d end) →
  match (deliver n post finish net).2 with
  | inl (Invalid _) => True | inl (Failed e) => P e | inr d => Q d
  end.
Proof.
  intros Hp Hf. unfold deliver. destruct (Notification_Validate n); [|done].
  destruct (post net) as [net' [e|response]]; [by apply Hp|]. cbn [snd].
  specialize (Hf response). by destruct (finish response).
Qed.

Lemma postJSON_error channel endpoint headers payload secrets now (net : N) e :
  (postJSON channel endpoint headers payload secrets now net).2 = inl e →
  clean_id secrets (DeliveryID e) ∧ 0 ≤ RetryAfter e ≤ day.
Proof.
  assert (∀ channel kind retryable cause, clean_id secrets (DeliveryID (safeDeliveryError channel kind retryable cause))
    ∧ 0 ≤ RetryAfter (safeDeliveryError channel kind retryable cause) ≤ day) as Hsafe
    by (intros; split; [apply clean_empty|by vm_compute]).
  unfold postJSON. destruct payload as [body|]; [|intros [= <-]; apply Hsafe].
  destruct (_ <? _); [intros [= <-]; apply Hsafe|]. destruct (negb _); [intros [= <-]; apply Hsafe|].
  destruct (Do _ net) as [net1 [response|response ctx|ctx network]]; cbn [snd].
  1,2: destruct (maxResponseBodyBytes <? _); [intros [= <-]; split; [apply safeProviderID_clean|
         apply parseRetryAfter_range]|]; intros [= <-]; apply Hsafe.
  intros [= <-]. unfold transportDeliveryError.
  destruct (is_canceled ctx); [|destruct (is_expired ctx)]; (split; [apply clean_empty|by vm_compute]).
Qed.

(** *** Delays *)

Definition delay_of (r : failure + ProviderDelivery) : Z :=
  match r with inl (Failed e) => RetryAfter e | _ => 0 end.

(** The delay a Telegram answer asks for, in seconds. *)
Definition asked_delay (body : string) : Z :=
  match telegram_response body with
  | Some {| Parameters_RetryAfter := Some seconds |} => seconds
  | _ => 0
  end.

Lemma providerStatusError_delay channel response id delay now :
  delay ≤ day → RetryAfter (providerStatusError channel response id delay now) ≤ day ∧
  (0 ≤ delay → 0 ≤ RetryAfter (providerStatusError channel response id delay now)).
Proof.
  intros Hd. cbn [providerStatusError RetryAfter]. destruct (delay =? 0); [|by split].
  pose proof (parseRetryAfter_range (header "Retry-After" (Headers response)) now). lia.
Qed.

Lemma telegram_delay body :
  telegram_retry_after (telegram_response body) ≤ day ∧
  (asked_delay body ≤ max_int64 / second → 0 ≤ telegram_retry_after (telegram_response body)).
Proof.
  assert (0 < day) by (by vm_compute). unfold asked_delay, telegram_retry_after.
  destruct (telegram_response body) as [[ok code id [seconds|]]|]; [|lia..].
  destruct (0 <? seconds) eqn:Hs; [|lia]. cbv zeta.
  destruct (day <? _) eqn:Hd; [lia|]. bool_prop. split; [lia|]. intros Hle.
  change (max_int64 / second) with 9223372036 in Hle.
  unfold to_int64, second in *. rewrite Z.mod_small by lia. lia.
Qed.

Definition nonnegative_delay (e : DeliveryError) : Prop := 0 ≤ RetryAfter e ≤ day.

Lemma telegram_finish_delay now response :
  match telegram_finish now response with
  | inl e => RetryAfter e ≤ day ∧ (asked_delay (Content response) ≤ max_int64 / second → 0 ≤ RetryAfter e)
  | inr _ => True
  end.
Proof.
  pose proof (telegram_delay (Content response)) as [H1 H2]. unfold telegram_finish. cbv zeta.
  destruct (isSuccess (Status response)); cbn [negb].
  - destruct (telegram_response (Content response)) as [r|] eqn:E; [|by split].
    destruct (OK r); cbn [negb]; [done|by split].
  - pose proof (providerStatusError_delay "telegram" response "" _ now H1) as [Ha Hb]. split; [exact Ha|auto].
Qed.

Lemma status_delay channel response id now :
  nonnegative_delay (providerStatusError channel response id 0 now).
Proof.
  pose proof (providerStatusError_delay channel response id 0 now) as [H1 H2]; [by vm_compute|].
  split; [by apply H2|done].
Qed.

(** A failed delivery asks for a delay of at most a day, and of at least
    nothing, except that of Telegram: there the seconds of the answer are
    multiplied to nanoseconds in 64 bits, so that an answer which asks for
    9223372037 seconds or more can give a negative delay. *)
Theorem retry_delay c n now net :
  delay_of (send c n now net).2 ≤ day ∧
  match c with
  | Telegram _ channel =>
      delay_of (send c n now net).2 < 0 → ∃ response e, 9223372037 ≤ asked_delay (Content response) ∧
        telegram_finish now response = inl e ∧ (send c n now net).2 = inl (Failed e)
  | _ => 0 ≤ delay_of (send c n now net).2
  end.
Proof.
  assert (0 < day) as Hday by (by vm_compute).
  assert (∀ r : failure + ProviderDelivery,
    match r with inl (Invalid _) => True | inl (Failed e) => nonnegative_delay e | inr _ => True end →
    delay_of r ≤ day ∧ 0 ≤ delay_of r) as Hcalm.
  { intros [[e|e]|d]; cbn [delay_of]; [lia| |lia]. unfold nonnegative_delay. lia. }
  destruct c as [config channel|config channel|config channel|config channel]; cbn [send].
  1,2,4: apply Hcalm, (deliver_outcome _ _ _ _ nonnegative_delay (λ _, True)); [intros e He;
    by apply postJSON_error in He as [_ He]|intros response].
  - unfold webhook_finish. cbv zeta. destruct (negb _); [apply status_delay|done].
  - unfold discord_finish. cbv zeta. destruct (negb _); [apply status_delay|done].
  - unfold sendgrid_finish. cbv zeta. destruct (negb _); [apply status_delay|done].
  - set (P e := RetryAfter e ≤ day ∧ (RetryAfter e < 0 → ∃ response,
      9223372037 ≤ asked_delay (Content response) ∧ telegram_finish now response = inl e)).
    pose proof (deliver_outcome n
      (postJSON "telegram" (telegram_endpoint channel) ∅ (telegram_payload (telegram_chatID channel) n)
         [telegram_token channel] now) (telegram_finish now) net P (λ _, True)) as Ho.
    fold (telegram_Deliver channel n now net) in Ho.
    destruct (telegram_Deliver channel n now net) as [net' [[e|e]|d]]; cbn [snd delay_of] in *;
      [split; [lia|lia]| |split; [lia|lia]].
    destruct Ho as [Hle Hneg]; [| |split; [exact Hle|]].
    + intros e' He. apply postJSON_error in He as [_ He]. split; [lia|lia].
    + intros response. pose proof (telegram_finish_delay now response) as Hf.
      destruct (telegram_finish now response) as [e'|] eqn:E; [|done]. destruct Hf as [Hf1 Hf2].
      split; [exact Hf1|]. intros Hn. exists response. split; [|exact E].
      change (max_int64 / second) with 9223372036 in Hf2. lia.
    + intros Hn. destruct (Hneg Hn) as (response & Ha & Hf). by exists response, e.
Qed.

(** *** Secrets *)

(** What an outcome reports of the provider. *)
Definition id_of (r : failure + ProviderDelivery) : string :=
  match r with inl (Invalid _) => "" | inl (Failed e) => DeliveryID e | inr d => Provider_ID d end.

Lemma clean_outcome secrets (r : failure + ProviderDelivery) :
  match r with
  | inl (Invalid _) => True | inl (Failed e) => clean_id secrets (DeliveryID e)
  | inr d => clean_id secrets (Provider_ID d)
  end → clean_id secrets (id_of r).
Proof. destruct r as [[e|e]|d]; [intros _; apply clean_empty|done..]. Qed.

(** The headers checked, and their values kept as secrets. *)
Lemma check_headers_secrets values : ∀ acc acc',
  check_headers acc values = Ok acc' → acc'.1.2 = acc.1.2 ++ values.*2.
Proof.
  induction values as [|[name value] values IH]; intros [[headers secrets] total] acc'; cbn [check_headers].
  - intros [= <-]. by rewrite app_nil_r.
  - intros H. apply bind_ok_inv in H as ([[h' s'] t'] & H1 & H2). apply IH in H2 as ->. unfold check_header in H1.
    repeat (destruct (negb _) in H1; [done|]). do 2 (destruct (_ || _) in H1; [done|]).
    injection H1 as _ <- _. cbn [fst snd fmap list_fmap]. by rewrite <-app_assoc.
Qed.

(** *** Credentials in a URL *)

Lemma trim_left_slashes s t :
  Forall (λ c, c = "/"%char) (chars s) → trim_left_byte "/" (s +:+ t) = trim_left_byte "/" t.
Proof.
  induction s as [|c s IH]; [done|]. intros [-> Hs]%Forall_cons. rewrite app_str_cons. cbn [trim_left_byte].
  rewrite Ascii.eqb_refl. by apply IH.
Qed.

Lemma trim_left_keep before s :
  s ≠ "" → free_of "/" s → ∃ before', trim_left_byte "/" (before +:+ s) = before' +:+ s ∧
    ((before = "" ∨ ∃ parent, before = parent +:+ "/") → before' = "" ∨ ∃ parent, before' = parent +:+ "/").
Proof.
  intros Hne Hf. induction before as [|c before IH].
  - exists "". rewrite !app_str_nil_l. split; [|auto]. destruct s as [|d s]; [done|]. cbn [trim_left_byte].
    apply free_of_cons in Hf as [Hd _]. by rewrite (proj2 (Ascii.eqb_neq _ _)) by done.
  - rewrite app_str_cons. cbn [trim_left_byte]. destruct (Ascii.eqb c "/") eqn:E.
    + destruct IH as (before' & -> & Hb). exists before'. split; [done|]. intros [?|[parent Hp]]; [done|].
      apply Hb. destruct parent as [|d parent]; [left; by injection Hp|].
      rewrite app_str_cons in Hp. injection Hp as _ ->. right. by exists parent.
    + exists (String c before). by rewrite app_str_cons.
Qed.

Lemma slashes_rev s : Forall (λ c, c = "/"%char) (chars s) → Forall (λ c, c = "/"%char) (chars (str_rev s)).
Proof.
  induction s as [|c s IH]; [done|]. intros [-> Hs]%Forall_cons. rewrite str_rev_cons, chars_app.
  apply Forall_app_2; [by apply IH|by constructor].
Qed.

Lemma free_of_rev c s : free_of c s → free_of c (str_rev s).
Proof.
  induction s as [|d s IH]; [done|]. intros [Hd Hs]%free_of_cons. rewrite str_rev_cons, free_of_app.
  split; [by apply IH|]. apply free_of_cons. split; [done|apply not_elem_of_nil].
Qed.

Lemma last_segment_ends path secret : ends_path path secret → secret ≠ "" → last_segment path = secret.
Proof.
  intros (before & slashes & -> & Hf & Hsl & Hb) Hne. unfold last_segment.
  assert (trim_left_byte "/" (before +:+ secret +:+ slashes) =
    trim_left_byte "/" (before +:+ secret) +:+ slashes) as ->.
  { clear Hb Hsl. induction before as [|c before IH].
    - rewrite !app_str_nil_l. destruct secret as [|d s]; [done|]. rewrite app_str_cons. cbn [trim_left_byte].
      apply free_of_cons in Hf as [Hd _]. by rewrite (proj2 (Ascii.eqb_neq _ _)) by done.
    - rewrite !app_str_cons. cbn [trim_left_byte]. destruct (Ascii.eqb c "/"); [done|]. by rewrite app_str_cons, app_str_assoc. }
  destruct (trim_left_keep before secret Hne Hf) as (before' & -> & Hb'). specialize (Hb' Hb).
  unfold trim_right_byte. rewrite str_rev_app, trim_left_slashes by (by apply slashes_rev). rewrite str_rev_app.
  assert (trim_left_byte "/" (str_rev secret +:+ str_rev before') = str_rev secret +:+ str_rev before') as ->.
  { apply free_of_rev in Hf. destruct (str_rev secret) as [|d s] eqn:E.
    - apply (f_equal str_rev) in E. rewrite str_rev_involutive in E. by subst.
    - rewrite app_str_cons. cbn [trim_left_byte]. apply free_of_cons in Hf as [Hd _].
      by rewrite (proj2 (Ascii.eqb_neq _ _)) by done. }
  rewrite str_rev_app, !str_rev_involutive. destruct Hb' as [->|[parent ->]].
  - rewrite app_str_nil_l, split_on_free by done. done.
  - rewrite app_str_assoc. change ("/" +:+ secret) with (String "/" secret). rewrite split_on_app by done.
    by rewrite last_last.
Qed.

(** Every such part is one the code calls a secret. *)
Lemma url_secret_fragment raw u secret :
  url_Parse raw = Some u → url_secret raw [] secret → secret ∈ endpointSecretFragments u.
Proof.
  intros Hu (u' & Hu' & Hs). assert (u' = u) as -> by congruence. clear Hu'.
  unfold endpointSecretFragments. apply elem_of_app. destruct Hs as [(key & Hq & _ & Hl)|[He Hl]].
  - left. apply list_elem_of_filter. split; [done|]. by apply (list_elem_of_fmap_2 snd _ (key, secret)).
  - right. assert (secret ≠ "") as Hne by (intros ->; by apply Hl).
    rewrite (last_segment_ends _ _ He Hne). apply list_elem_of_filter. split; [done|left].
Qed.

(** Setting the parameter [wait] keeps the other parts. *)
Lemma url_secret_wait raw u secret :
  url_Parse raw = Some u → url_secret raw ["wait"] secret → secret ∈ endpointSecretFragments (with_wait u).
Proof.
  intros Hu (u' & Hu' & Hs). assert (u' = u) as -> by congruence. clear Hu'.
  unfold endpointSecretFragments. apply elem_of_app. destruct Hs as [(key & Hq & Hk & Hl)|[He Hl]].
  - left. apply list_elem_of_filter. split; [done|]. apply (list_elem_of_fmap_2 snd _ (key, secret)).
    apply (with_wait_query {| WebhookURL := ""; Username := ""; Discord_Timeout := 0 |}
      {| discord_endpoint := ""; discord_username := ""; discord_secrets := []; discord_timeout := 0 |}).
    right. split; [set_solver|done].
  - right. assert (secret ≠ "") as Hne by (intros ->; by apply Hl). cbn [with_wait URL_Path].
    rewrite (last_segment_ends _ _ He Hne). apply list_elem_of_filter. split; [done|left].
Qed.

Lemma webhook_secrets_kept config channel secret :
  NewWebhookChannel config = Ok channel → secret ≠ "" →
  secret_of (Webhook config channel) secret → secret ∈ webhook_secrets channel.
Proof.
  unfold NewWebhookChannel. destruct (negb _); [done|]. intros H Hne Hs.
  apply bind_ok_inv in H as (u & Hu & H). apply map_err_ok_inv, validateEndpoint_secure in Hu as (Hu & _).
  apply bind_ok_inv in H as ([] & _ & H). apply bind_ok_inv in H as ([headers secrets] & Hh & H).
  assert (secrets = (Webhook_Headers config).*2) as ->.
  { unfold validateWebhookHeaders in Hh. destruct (_ <? _); [done|].
    apply bind_ok_inv in Hh as ([[h s] t] & Hc & [= _ <-]). by apply check_headers_secrets in Hc. }
  cbn [secret_of] in Hs.
  destruct (String.eqb (BearerToken config) "") eqn:Hb; apply bind_ok_inv in H as (t & _ & [= <-]);
    cbn [webhook_secrets]; rewrite !elem_of_app; destruct Hs as [Hs|[->|Hs%(url_secret_fragment _ u)]]; try done.
  - by left.
  - by apply String.eqb_eq in Hb.
  - by right.
  - by do 2 left.
  - left. right. by apply list_elem_of_singleton.
  - by right.
Qed.

(** A bot token has a colon, a message number has none. *)
Lemma elem_text (a : letter) l c : a ∈ l → c ∈ chars a.2 → c ∈ chars (text l).
Proof.
  induction l as [|b l IH]; [by intros ?%elem_of_nil|].
  change (text (b :: l)) with (b.2 +:+ text l). rewrite chars_app, elem_of_app.
  intros [->|Ha]%elem_of_cons Hc; [by left|right; auto].
Qed.

Lemma letters_ascii s : ∀ skip r t, (r, t) ∈ letters_from skip s → r < 128 → chr r ∈ chars s.
Proof.
  induction s as [|c s IH]; intros skip r t; cbn [letters_from]; [by intros ?%elem_of_nil|].
  destruct skip as [|k]; [|intros H Hr; right; by eapply IH].
  intros [E|H]%elem_of_cons Hr; [|right; by eapply IH].
  injection E as Er _. revert Er. cbn [chars]. rewrite elem_of_cons.
  change (bytes_n 4 (String c s)) with (byte c :: bytes_n 3 s) in *.
  destruct (ascii_byte (byte c)) eqn:Ha.
  - unfold decode_rune. unfold ascii_byte in Ha. rewrite Ha. cbn [fst]. intros ->. left. apply chr_byte.
  - intros Er. pose proof (byte_range c). assert (128 ≤ r); [|lia]. rewrite Er. by apply decode_rune_high; [lia|].
Qed.

Lemma token_colon token : MatchString telegramBotTokenPattern token = true → ":"%char ∈ chars token.
Proof.
  unfold MatchString. intros [[[p q] c] (k & Hk & Hm)%find_sound]%bool_decide_eq_true.
  assert (∃ t, (58, t) ∈ ahead p) as (t & Ht).
  { unfold telegramBotTokenPattern in Hm. inversion Hm as [| | | |? ? ? s1 ? H0 H1| | | | | | | |]; subst.
    inversion H1 as [| | | |? ? ? s2 ? H2 H3| | | | | | | |]; subst.
    inversion H3 as [| | | |? ? ? s3 ? H4 _| | | | | | | |]; subst.
    apply matches_ahead in H0 as [u1 E1], H2 as [u2 E2]. cbn [fst] in E1.
    inversion H4 as [|f b a u l c0 Ha| | | | | | | | | | |]; subst. cbn [fst ahead] in E2.
    change (byte ":") with 58 in Ha. apply Z.eqb_eq in Ha as <-.
    exists u. rewrite E1, E2, !elem_of_app, elem_of_cons. auto. }
  change ":"%char with (chr 58). apply (letters_ascii token 0 58 t); [|lia].
  rewrite Hk in Ht. by apply (subseteq_drop k).
Qed.

Lemma digits_no_colon s : all_digits s = true → ":"%char ∉ chars s.
Proof.
  induction s as [|c s IH]; [intros _; apply not_elem_of_nil|]. cbn [all_digits chars].
  intros [Hc Hs]%andb_true_iff. rewrite not_elem_of_cons. split; [intros <-; discriminate Hc|auto].
Qed.

Lemma digits_no_controls s : all_digits s = true → contains_any s line_controls = false.
Proof.
  induction s as [|c s IH]; [done|]. cbn [all_digits contains_any]. intros [Hc Hs]%andb_true_iff.
  rewrite IH, orb_false_r by done. apply bool_decide_eq_false_2. unfold line_controls.
  intros Hin. repeat (apply elem_of_cons in Hin as [->|Hin]; [discriminate Hc|]). by apply elem_of_nil in Hin.
Qed.

Lemma contains_elem id secret c : contains id secret = true → c ∈ chars secret → c ∈ chars id.
Proof.
  induction id as [|d id IH]; cbn [contains].
  - unfold has_prefix. destruct secret; [intros _ H; exact H|done].
  - intros [H|H]%orb_true_iff Hc; [|right; by apply IH].
    unfold has_prefix in H. destruct (strip_prefix secret (String d id)) as [r|] eqn:E; [|done].
    apply strip_prefix_inv in E as ->. rewrite chars_app. set_solver.
Qed.

Lemma format_int_clean token id :
  MatchString telegramBotTokenPattern token = true → 0 < id ≤ max_int64 → clean_id [token] (format_int id).
Proof.
  intros Htoken Hid. unfold format_int. rewrite (proj2 (Z.ltb_ge id 0)) by lia.
  pose proof (dec_nonneg_digits id ltac:(lia)) as Hd. pose proof (all_digits_ascii _ Hd) as Ha.
  split_and!.
  - pose proof (slen_int_text id) as H. rewrite int_text_nonneg in H by lia. unfold max_uint64, max_int64 in *. lia.
  - by apply digits_no_controls.
  - by apply is_ascii_valid.
  - intros secret ->%list_elem_of_singleton _. destruct (contains _ token) eqn:E; [|done].
    exfalso. apply (digits_no_colon _ Hd). eapply contains_elem; [exact E|]. by apply token_colon.
Qed.

Lemma dec_member_max name t z : dec_member name t = Some z → z ≤ max_int64.
Proof.
  unfold dec_member. apply (dec_struct_inv 0 _ _ _ (λ z, z ≤ max_int64)); [by vm_compute|].
  intros ms y. apply get_int_max.
Qed.

Lemma telegram_id_range body r id :
  telegram_response body = Some r → MessageID r = Some id → id ≤ max_int64.
Proof.
  unfold telegram_response, Unmarshal. intros H.
  destruct (value_text (skip_ws body)) as [[v rest]|]; [|done]. cbn [mbind option_bind] in H.
  destruct (String.eqb (skip_ws rest) ""); [|done]. revert id.
  cbn [dec] in H. revert H.
  apply (dec_struct_inv _ _ _ _ (λ r, ∀ id, MessageID r = Some id → id ≤ max_int64)); [done|].
  intros ms y H id. dec_inv. injection H as <-. cbn [MessageID]. intros ->.
  match goal with H : get_opt _ _ "result" = Some _ |- _ => revert H end. unfold get_opt.
  intros H. revert id H. assert (∀ o, get None (λ t, Some <$> dec_member "message_id" t) ms "result" = Some o →
    ∀ id, o = Some id → id ≤ max_int64) as Hall; [|by intros id H; apply (Hall _ H)].
  intros o'. apply (get_inv None _ _ _ _ (λ o, ∀ id, o = Some id → id ≤ max_int64)); [done|].
  intros t o''. destruct (dec_member "message_id" t) as [z'|] eqn:E'; [|done].
  intros [= <-] id [= <-]. by apply dec_member_max in E'.
Qed.

(** C27. What a delivery reports of the provider carries none of these
    credentials: for every channel as its constructor makes it, whatever the
    provider answers, the identifier in the result or in the error is at most
    256 bytes on one line of valid UTF-8 in which no custom header value,
    bearer token, bot token or API key occurs, and of a webhook URL neither the
    value of a query parameter of at least six bytes nor the last segment of
    the path of at least twelve.  Other segments are not protected, as
    [discord_slack_leaks] shows. *)
Theorem outcome_clean c n now net secret :
  made c → secret_of c secret → secret ≠ "" →
  clean_id [secret] (id_of (send c n now net).2).
Proof.
  intros Hm Hs Hne.
  assert (∀ secrets id, secret ∈ secrets → clean_id secrets id → clean_id [secret] id) as Hweak.
  { intros secrets id Hin (H1 & H2 & H3 & H4). split_and!; [done..|].
    intros x ->%list_elem_of_singleton Hx. by apply H4. }
  destruct c as [config channel|config channel|config channel|config channel]; cbn [send made] in *.
  - apply (Hweak (webhook_secrets channel)); [by eapply webhook_secrets_kept|].
    apply clean_outcome, (deliver_outcome _ _ _ _ _ (λ d, clean_id (webhook_secrets channel) (Provider_ID d)));
      [by intros e [He _]%postJSON_error|intros response].
    unfold webhook_finish. cbv zeta. destruct (negb _); apply safeProviderID_clean.
  - apply (Hweak (discord_secrets channel)).
    { unfold NewDiscordChannel in Hm. apply bind_ok_inv in Hm as (u & Hu & Hm).
      apply map_err_ok_inv, validateEndpoint_secure in Hu as (Hu & _).
      ok_inv. cbn [discord_secrets]. by eapply url_secret_wait. }
    apply clean_outcome, (deliver_outcome _ _ _ _ _ (λ d, clean_id (discord_secrets channel) (Provider_ID d)));
      [by intros e [He _]%postJSON_error|intros response].
    unfold discord_finish. cbv zeta. destruct (negb _); [apply safeProviderID_clean|]. cbn [Provider_ID].
    destruct (String.eqb _ ""); [apply safeProviderID_clean|]. case_match; [apply safeProviderID_clean|apply clean_empty].
  - assert (MatchString telegramBotTokenPattern (BotToken config) = true ∧ telegram_token channel = BotToken config)
      as [Hp Ht].
    { unfold NewTelegramChannel in Hm. destruct (MatchString telegramBotTokenPattern _); [|done].
      cbn [negb] in Hm. destruct (negb _); [done|]. by ok_inv. }
    rewrite Hs. apply clean_outcome,
      (deliver_outcome _ _ _ _ _ (λ d, clean_id [BotToken config] (Provider_ID d)));
      [rewrite Ht; by intros e [He _]%postJSON_error|intros response].
    unfold telegram_finish. cbv zeta. destruct (negb _); [apply clean_empty|].
    destruct (telegram_response (Content response)) as [r|] eqn:E; [|apply clean_empty].
    destruct (negb (OK r)); [apply clean_empty|]. cbn [Provider_ID].
    destruct (MessageID r) as [id|] eqn:Eid; [|apply clean_empty].
    destruct (0 <? id) eqn:Hid; [|apply clean_empty]. bool_prop. apply format_int_clean; [done|].
    pose proof (telegram_id_range _ _ _ E Eid). lia.
  - assert (sendgrid_apiKey channel = APIKey config) as Hk.
    { unfold NewSendGridChannel in Hm. destruct (negb _); [done|]. by ok_inv. }
    rewrite Hs, <-Hk.
    apply clean_outcome, (deliver_outcome _ _ _ _ _ (λ d, clean_id [sendgrid_apiKey channel] (Provider_ID d)));
      [by intros e [He _]%postJSON_error|intros response].
    unfold sendgrid_finish. cbv zeta. destruct (negb _); apply safeProviderID_clean.
Qed.
End facts.
