(* ===== verification/NotifierDemo.v ===== *)
(** * Package notifier: a worked delivery

    A webhook and a Telegram bot against a network that records requests and
    answers as it is told; the theorems about deliveries applied to them; and a
    Discord webhook whose token is not taken for a credential. *)

From S2P Require Import Prelude GoString GoLib GoUrl GoHttp GoRegexp GoTime JsonString Json JsonCompact Model.
From S2P Require Import ModelJson NotifierRegistry NotifierHttp NotifierChannels NotifierFacts.
#[local] Open Scope Z_scope.

#[local] Instance no_dates : HttpDate := λ _, None.
#[local] Instance plain_mail : NetMail := λ address, Some ("", address).
#[local] Instance ascii_lower : UnicodeLower := to_lower.

(** What was sent, and the answer to everything. *)
Record recorder := { sent : list HTTPRequest; answer : Response }.
#[local] Instance record_requests : Transport recorder := λ request net,
  ({| sent := sent net ++ [request]; answer := answer net |}, Answered (answer net)).

(** A text in which single quotes stand for double quotes. *)
Fixpoint q (s : string) : string :=
  match s with
  | EmptyString => ""
  | String c s' => String (if Ascii.eqb c "'" then "034"%char else c) (q s')
  end.

Definition alert : Notification := {|
  Notif_Schema := Schema; Notif_SchemaVersion := SchemaVersion; Notif_ID := "n-1"; Notif_FindingID := "f-1";
  Notif_Severity := SeverityCritical; Notif_Title := "Listener on 0.0.0.0"; Notif_Body := "port 4444";
  CreatedAt := mkTime (63838368000 * second) 0; Notif_Labels := {["host" := "a"]} |}.

Definition hook_config : WebhookConfig := {|
  Webhook_Name := "ops"; Webhook_URL := "https://hooks.example/T0/abcdefghijkl?key=sesame1";
  BearerToken := "open-sesame"; Webhook_Headers := [("x-tenant", "acme")]; Webhook_Timeout := 0 |}.

Definition hook : WebhookChannel :=
  match NewWebhookChannel hook_config with
  | Ok channel => channel
  | Err _ => {| webhook_name := ""; webhook_endpoint := ""; webhook_headers := ∅; webhook_secrets := [];
                webhook_timeout := 0 |}
  end.

Definition bot_config : TelegramConfig := {|
  BotToken := "12345:abcdefghijklmnopqrstu"; Telegram_ChatID := "-100"; Telegram_BaseURL := "";
  Telegram_Timeout := second |}.

Definition bot : TelegramChannel :=
  match NewTelegramChannel bot_config with
  | Ok channel => channel
  | Err _ => {| telegram_endpoint := ""; telegram_chatID := ""; telegram_token := ""; telegram_timeout := 0 |}
  end.

Definition hooked : configured := Webhook hook_config hook.
Definition messaged : configured := Telegram bot_config bot.

Lemma hook_made : made hooked.
Proof. vm_compute. reflexivity. Qed.

Example hook_1 : (webhook_endpoint hook, webhook_headers hook, webhook_secrets hook) =
  ("https://hooks.example/T0/abcdefghijkl?key=sesame1",
   {["Authorization" := "Bearer open-sesame"; "X-Tenant" := "acme"]},
   ["acme"; "open-sesame"; "sesame1"; "abcdefghijkl"]).
Proof. vm_compute. reflexivity. Qed.
Example bot_1 : telegram_endpoint bot =
  "https://api.telegram.org/bot12345:abcdefghijklmnopqrstu/sendMessage".
Proof. vm_compute. reflexivity. Qed.

(** The provider sends the bearer token back; it is not passed on. *)
Definition echo : recorder := {| sent := [];
  answer := {| Status := 200; Headers := {["X-Request-Id" := "r-open-sesame"]}; Content := "" |} |}.

Definition slow : recorder := {| sent := [];
  answer := {| Status := 429; Headers := ∅;
               Content := q "{'ok':false,'parameters':{'retry_after':9223372037}}" |} |}.

Definition now : Time := mkTime (63838368001 * second) 0.

Example telegram_1 : Req_Body <$> sent (telegram_Deliver bot alert now slow).1 =
  [q "{'chat_id':'-100','text':'Listener on 0.0.0.0\n\nport 4444','protect_content':true,'link_preview_options':{'is_disabled':true}}"].
Proof. vm_compute. reflexivity. Qed.

Example discord_1 : discord_payload "" alert =
  Some (q "{'embeds':[{'title':'Listener on 0.0.0.0','description':'port 4444','color':15158332,'footer':{'text':'Finding: f-1'}}],'allowed_mentions':{'parse':[]}}").
Proof. vm_compute. reflexivity. Qed.

Definition hook_sent : recorder * (failure + ProviderDelivery) := send hooked alert now echo.
Definition bot_sent : recorder * (failure + ProviderDelivery) := send messaged alert now slow.

Lemma hook_sends : send hooked alert now echo = (hook_sent.1, hook_sent.2).
Proof. unfold hook_sent. apply surjective_pairing. Qed.

Lemma send_once_witness :
  ∃ u request, target hooked u ∧ hook_sent.1 = (Do request echo).1 ∧
    Req_URL request = url_String u ∧ payload_of hooked alert = Some (Req_Body request).
Proof.
  destruct (send_once hooked alert now echo hook_sent.1 hook_sent.2 hook_made hook_sends)
    as [H|(_ & u & request & Hu & Hn & _ & He & Hp & _)].
  - exfalso. assert (length (sent hook_sent.1) = 1%nat) as H' by (vm_compute; reflexivity).
    rewrite H in H'. discriminate H'.
  - exists u, request. exact (conj Hu (conj Hn (conj He Hp))).
Defined.

Lemma bearer_secret : secret_of hooked "open-sesame".
Proof. right. left. reflexivity. Qed.

Lemma segment_secret : secret_of hooked "abcdefghijkl".
Proof.
  right. right. destruct (url_Parse (Webhook_URL hook_config)) as [u|] eqn:E; [|vm_compute in E; discriminate E].
  exists u. split; [exact E|]. right. vm_compute in E. injection E as <-. split; [|vm_compute; discriminate].
  exists "/T0/", "". split; [reflexivity|]. split; [|split; [by constructor|right; by exists "/T0"]].
  apply (proj1 (bool_decide_eq_true (byte "/" ∉ bytes "abcdefghijkl"))). vm_compute. reflexivity.
Qed.

Lemma open_sesame : "open-sesame" ≠ "".
Proof. discriminate. Qed.
Lemma segment_text : "abcdefghijkl" ≠ "".
Proof. discriminate. Qed.

Lemma outcome_clean_witness :
  clean_id ["open-sesame"] (id_of (send hooked alert now echo).2) ∧
  clean_id ["abcdefghijkl"] (id_of (send hooked alert now echo).2).
Proof.
  exact (conj (outcome_clean hooked alert now echo "open-sesame" hook_made bearer_secret open_sesame)
              (outcome_clean hooked alert now echo "abcdefghijkl" hook_made segment_secret segment_text)).
Defined.

(** Only the last segment of a path is taken for a credential.  Discord serves
    a webhook under [/slack], too: its token is then the segment before, and
    is passed on when the provider sends it back. *)
Definition slack_token : string := "abcdefghijklmnopqrstuvwxyz".
Definition slack_config : DiscordConfig := {|
  WebhookURL := "https://discord.com/api/webhooks/123/" +:+ slack_token +:+ "/slack"; Username := "";
  Discord_Timeout := 0 |}.
Definition slack_echo : recorder := {| sent := [];
  answer := {| Status := 200; Headers := {["X-Request-Id" := slack_token]}; Content := "" |} |}.

Example discord_slack_leaks :
  (λ channel, (discord_secrets channel, id_of (send (Discord slack_config channel) alert now slack_echo).2))
    <$> NewDiscordChannel slack_config = Ok ([], slack_token).
Proof. vm_compute. reflexivity. Qed.

Lemma bot_delay : delay_of bot_sent.2 = -9223372036709551616.
Proof. vm_compute. reflexivity. Qed.

Lemma bot_delay_negative : delay_of (send messaged alert now slow).2 < 0.
Proof. fold bot_sent. rewrite bot_delay. reflexivity. Qed.

(** The delay the Telegram channel reports for that answer is negative. *)
Lemma retry_delay_witness :
  ∃ response e, 9223372037 ≤ asked_delay (Content response) ∧
    telegram_finish now response = inl e ∧ (send messaged alert now slow).2 = inl (Failed e).
Proof. exact (proj2 (retry_delay messaged alert now slow) bot_delay_negative). Defined.

(** ** The registry *)

Definition both : gmap string (Channel recorder) :=
  {["ops" := webhook_channel hook now; "telegram" := telegram_channel bot now]}.

Example deliver_1 : (Deliver both ["ops"; " ops "; "pager"; "telegram"] alert echo).2 = Ok [
  {| Delivery_Channel := "ops"; Delivered := true; Delivery_Error := None |};
  {| Delivery_Channel := "pager"; Delivered := false;
     Delivery_Error := Some (Wrapf "%w: %s" ErrUnknownChannel [FStr "pager"]) |};
  {| Delivery_Channel := "telegram"; Delivered := false;
     Delivery_Error := Some (ErrorsNew "telegram notification was rejected by the provider") |}].
Proof. vm_compute. reflexivity. Qed.

(** Two channels are notified, one after the other, and the unknown one is
    reported. *)
Lemma Deliver_once_witness : ∃ w' ds,
  Deliver both ["ops"; " ops "; "pager"; "telegram"] alert echo = (w', Ok ds) ∧
  asked both alert ["ops"; "pager"; "telegram"] echo w' ds ∧ NoDup (Delivery_Channel <$> ds) ∧
  length (sent w') = 2%nat.
Proof.
  destruct (Deliver_once both ["ops"; " ops "; "pager"; "telegram"] alert echo) as (w' & ds & H1 & Ha & H2 & _).
  - vm_compute. reflexivity.
  - exists w', ds. split; [exact H1|]. split; [exact Ha|]. split; [exact H2|].
    apply (f_equal (λ r, length (sent r.1))) in H1. cbn [fst] in H1. rewrite <-H1. vm_compute. reflexivity.
Defined.
