(* ===== verification/Exposure.v ===== *)
(** * Package exposure: queries to breach services

    [internal/exposure/contract.go], [http.go], [pwned_passwords.go],
    [breached_account.go]: the gate of the access policy, the request of each
    adapter and the reading of its answer.  The network is the class
    [Transport], the reading of an HTTP date the class [HttpDate]. *)

From S2P Require Import Prelude GoString GoLib GoUrl GoHttp GoTime JsonString Json JsonCompact Model ModelJson.
From S2P Require Import GoCrypto NotifierHttp.
#[local] Open Scope Z_scope.

Module Adapter.

Definition AdapterPwnedPasswords : string := "hibp-pwned-passwords".
Definition AdapterBreachedAccount : string := "hibp-breached-account".

(** ** contract.go *)

Record DisclosureItem := { Item_Field : string; Item_Form : string; Item_Location : string }.
Record CredentialDisclosure := { Required : bool; Scope : string; Location : string }.
Record OfflineBehavior := { Supported : bool; Behavior : string }.

Record AdapterContract := {
  ID : string; Endpoint : string; Contract_Method : string;
  DisclosedData : list DisclosureItem; Credential : CredentialDisclosure;
  RetentionAssumption : string; OfflineB : OfflineBehavior;
}.

Definition AdapterContract_Validate (contract : AdapterContract) : result unit :=
  first_error [
    (blank (ID contract), ErrorsNew "adapter contract id is required");
    (match url_Parse (Endpoint contract) with
     | None => true
     | Some endpoint => String.eqb (Scheme endpoint) "" || String.eqb (Host endpoint) ""
     end, ErrorsNew "adapter contract endpoint is invalid");
    (negb (String.eqb (Contract_Method contract) "GET"), ErrorsNew "adapter contract method must be GET");
    (bool_decide (DisclosedData contract = []), ErrorsNew "adapter contract must declare disclosed data");
    (blank (Scope (Credential contract)), ErrorsNew "adapter contract credential scope is required");
    (blank (Location (Credential contract)), ErrorsNew "adapter contract credential location is required");
    (blank (RetentionAssumption contract), ErrorsNew "adapter contract retention assumption is required");
    (blank (Behavior (OfflineB contract)), ErrorsNew "adapter contract offline behavior is required");
    (existsb (λ item, blank (Item_Field item) || blank (Item_Form item) || blank (Item_Location item))
       (DisclosedData contract), ErrorsNew "adapter contract has incomplete disclosure metadata")].

Record AccessPolicy := { Enabled : bool; Offline : bool }.

Inductive UnsupportedReason := UnsupportedDisabled | UnsupportedOffline.
Record UnsupportedResult := { Unsupported_Adapter : string; Reason : UnsupportedReason; Message : string }.

Definition gate (policy : AccessPolicy) (adapter : string) : option UnsupportedResult :=
  if Offline policy then Some {|
    Unsupported_Adapter := adapter; Reason := UnsupportedOffline;
    Message := "external exposure lookup is unavailable in offline mode" |}
  else if negb (Enabled policy) then Some {|
    Unsupported_Adapter := adapter; Reason := UnsupportedDisabled;
    Message := "external exposure adapter is not enabled" |}
  else None.

Inductive ErrorKind :=
  ErrorConfiguration | ErrorInput | ErrorRequest | ErrorCanceled | ErrorResponse | ErrorStatus.

Record AdapterError := {
  Adapter : string; Kind : ErrorKind; StatusCode : Z; Adapter_Retryable : bool; Adapter_RetryAfter : Z;
  Adapter_cause : option error;
}.

Definition plain_error (adapter : string) (kind : ErrorKind) (retryable : bool) : AdapterError := {|
  Adapter := adapter; Kind := kind; StatusCode := 0; Adapter_Retryable := retryable;
  Adapter_RetryAfter := 0; Adapter_cause := None |}.

Definition configurationError (adapter : string) : AdapterError := plain_error adapter ErrorConfiguration false.
Definition inputError (adapter : string) : AdapterError := plain_error adapter ErrorInput false.

(** A failed attempt, or its result. *)
Abbreviation attempt A := (AdapterError + A)%type.

(** ** http.go *)

Definition defaultRequestTimeout : Z := 10 * second.
Definition maxRequestTimeout : Z := minute.
Definition defaultMaxResponseBytes : Z := 2097152.
Definition absoluteMaxResponseBytes : Z := 16777216.
Definition maxRetryAfter : Z := 24 * hour.

Record HTTPOptions := { BaseURL : string; Timeout : Z; MaxResponseBytes : Z }.
Record httpRuntime := { adapter : string; baseURL : URL; timeout : Z; maxResponseBytes : Z }.

Definition loopbackHost (host : string) : bool := field_match "localhost" host || ip_IsLoopback host.

Definition with_path (u : URL) (path raw : string) : URL := {|
  Scheme := Scheme u; Opaque := Opaque u; User := User u; Host := Host u; URL_Path := path; RawPath := raw;
  OmitHost := OmitHost u; ForceQuery := ForceQuery u; RawQuery := RawQuery u; Fragment := Fragment u;
  RawFragment := RawFragment u |}.

Definition newHTTPRuntime (adapter defaultBaseURL : string) (options : HTTPOptions) : attempt httpRuntime :=
  let failed := inl (configurationError adapter) in
  let rawBaseURL := trim_space (BaseURL options) in
  let rawBaseURL := if String.eqb rawBaseURL "" then defaultBaseURL else rawBaseURL in
  match url_Parse rawBaseURL with
  | None => failed
  | Some u =>
      if String.eqb (Host u) ""
         || negb (String.eqb (Scheme u) "https") && negb (String.eqb (Scheme u) "http")
         || bool_decide (is_Some (User u)) || negb (String.eqb (RawQuery u) "")
         || negb (String.eqb (Fragment u) "")
      then failed
      else if String.eqb (Scheme u) "http" && negb (loopbackHost (url_Hostname u)) then failed
      else
        let timeout := if Timeout options =? 0 then defaultRequestTimeout else Timeout options in
        let maxResponseBytes :=
          if MaxResponseBytes options =? 0 then defaultMaxResponseBytes else MaxResponseBytes options in
        if (timeout <? 0) || (maxRequestTimeout <? timeout) then failed
        else if (maxResponseBytes <? 1) || (absoluteMaxResponseBytes <? maxResponseBytes) then failed
        else inr {| adapter := adapter; baseURL := with_path u (trim_right_byte "/" (URL_Path u)) "";
                    timeout := timeout; maxResponseBytes := maxResponseBytes |}
  end.

Definition endpoint (runtime : httpRuntime) : string := url_String (baseURL runtime).

(** The URL of the request, as [http.NewRequest] parses it again; [ctx] says
    whether there is a context. *)
Definition newGETRequest (runtime : httpRuntime) (ctx : bool) (segment : string) : attempt URL :=
  let failed := inl (inputError (adapter runtime)) in
  if negb ctx then failed else
  let u := baseURL runtime in
  let escapedPath := trim_right_byte "/" (EscapedPath u) +:+ "/" +:+ escape segment encodeQueryComponent in
  match unescape escapedPath encodePath with
  | None => failed
  | Some path =>
      match url_Parse (url_String (with_path u path escapedPath)) with
      | None => failed
      | Some u => inr u
      end
  end.

Section requests.
Context `{HttpDate} {N : Type} `{TR : !Transport N}.

(** An error of a context, of the transport or of a body that breaks off. *)
Definition context_error (adapter : string) (ctx_err : option error) (otherwise : AdapterError) : AdapterError :=
  let canceled retryable cause := {|
    Adapter := adapter; Kind := ErrorCanceled; StatusCode := 0; Adapter_Retryable := retryable;
    Adapter_RetryAfter := 0; Adapter_cause := Some cause |} in
  if is_canceled ctx_err then canceled false Canceled
  else if is_expired ctx_err then canceled true DeadlineExceeded
  else otherwise.

(** [do]: the answer, and how its body breaks off, if it does. *)
Definition do (runtime : httpRuntime) (request : HTTPRequest) (net : N)
    : N * attempt (Response * option (option error)) :=
  let '(net, r) := Do request net in
  (net, match r with
        | Answered response => inr (response, None)
        | Interrupted response ctx_err => inr (response, Some ctx_err)
        | NotSent ctx_err _ =>
            inl (context_error (adapter runtime) ctx_err (plain_error (adapter runtime) ErrorRequest true))
        end).

Definition readResponse (runtime : httpRuntime) (received : Response * option (option error)) : attempt string :=
  let '(response, broken) := received in
  if maxResponseBytes runtime <? slen (Content response) then
    inl (plain_error (adapter runtime) ErrorResponse false)
  else match broken with
  | Some ctx_err =>
      inl (context_error (adapter runtime) ctx_err (plain_error (adapter runtime) ErrorResponse true))
  | None => inr (Content response)
  end.

Definition retryableStatus (statusCode : Z) : bool :=
  existsb (Z.eqb statusCode) [408; 425; 429; 500; 502; 503; 504].

(** [strconv.ParseUint(value, 10, 31)] *)
Definition ParseUint31 (value : string) : option Z :=
  n ← parse_dec value; if n <? 2 ^ 31 then Some n else None.

Definition parseRetryAfter (value : string) (now : Time) : Z :=
  let value := trim_space value in
  if String.eqb value "" then 0 else
  match ParseUint31 value with
  | Some seconds => let delay := seconds * second in if delay <=? maxRetryAfter then delay else 0
  | None =>
      match ParseTime value with
      | Some retryAt =>
          if negb (after retryAt now) then 0
          else let delay := sub retryAt now in if maxRetryAfter <? delay then 0 else delay
      | None => 0
      end
  end.

Definition statusError (adapter : string) (response : Response) (now : Time) : AdapterError :=
  let retryable := retryableStatus (Status response) in {|
    Adapter := adapter; Kind := ErrorStatus; StatusCode := Status response; Adapter_Retryable := retryable;
    Adapter_RetryAfter :=
      if retryable then parseRetryAfter (header "Retry-After" (Headers response)) now else 0;
    Adapter_cause := None |}.

(** The request is sent, the answer checked and its body read. *)
Definition failed_status (response : Response) : bool := (Status response <? 200) || (300 <=? Status response).

(** ** pwned_passwords.go *)

Definition defaultPwnedPasswordsURL : string := "https://api.pwnedpasswords.com/range".

(** [Client] is one of both adapters. *)
Record PwnedPasswordsClient := { Pwned_policy : AccessPolicy; Pwned_runtime : httpRuntime; Pwned_contract : AdapterContract }.

Definition offline_behavior : OfflineBehavior := {|
  Supported := false;
  Behavior := "returns a typed offline_mode unsupported result without making a network request" |}.

Definition pwned_contract (endpoint : string) : AdapterContract := {|
  ID := AdapterPwnedPasswords; Endpoint := endpoint; Contract_Method := "GET";
  DisclosedData := [{|
    Item_Field := "password_sha1_prefix";
    Item_Form := "first 5 uppercase hexadecimal characters of SHA-1(password); the password and remaining 35 characters are not sent";
    Item_Location := "URL path" |}];
  Credential := {| Required := false; Scope := "none"; Location := "none" |};
  RetentionAssumption := "HIBP may retain request metadata under its published policies; this adapter does not write the password, hash, prefix, suffix, or response to local storage";
  OfflineB := offline_behavior |}.

Definition NewPwnedPasswordsClient (policy : AccessPolicy) (options : HTTPOptions)
    : attempt PwnedPasswordsClient :=
  match newHTTPRuntime AdapterPwnedPasswords defaultPwnedPasswordsURL options with
  | inl e => inl e
  | inr runtime =>
      let contract := pwned_contract (endpoint runtime) in
      if negb (is_ok (AdapterContract_Validate contract)) then inl (configurationError AdapterPwnedPasswords)
      else inr {| Pwned_policy := policy; Pwned_runtime := runtime; Pwned_contract := contract |}
  end.

Definition is_hex (c : ascii) : bool :=
  is_digit (byte c) || between 97 102 (byte c) || between 65 70 (byte c).
Definition validHex (value : string) : bool := forallb is_hex (chars value).

(** The digest in upper case: forty digits. *)
Definition upper_hex_digest (password : string) : string :=
  of_chars ((λ c, if between 97 102 (byte c) then chr (byte c - 32) else c)
              <$> chars (hex_encode (sha1 password))).

(** [bytes.EqualFold] *)
Definition EqualFold (s t : string) : bool := String.eqb (fold_key s) (fold_key t).

(** One line that is not empty: whether it is the suffix looked for, and the
    count. *)
Definition pwned_line (targetSuffix line : string) : option (bool * Z) :=
  match cut ":" line with
  | (suffix, Some countText) =>
      if negb (slen suffix =? 35) || contains countText ":" || negb (validHex suffix) then None
      else count ← parse_uint64 (trim_space countText); Some (EqualFold suffix targetSuffix, count)
  | (_, None) => None
  end.

(** The loop: what was found, and how many lines were valid. *)
Fixpoint pwned_lines (targetSuffix : string) (lines : list string) (found : option Z) (validLines : Z)
    : option (option Z * Z) :=
  match lines with
  | [] => Some (found, validLines)
  | rawLine :: lines =>
      let line := trim_space rawLine in
      if String.eqb line "" then pwned_lines targetSuffix lines found validLines
      else
        match pwned_line targetSuffix line with
        | None => None
        | Some (false, _) => pwned_lines targetSuffix lines found (validLines + 1)
        | Some (true, count) =>
            match found with
            | Some _ => None
            | None => pwned_lines targetSuffix lines (Some count) (validLines + 1)
            end
        end
  end.

(** The count, [Some None] when the suffix is not listed; [None] is the error. *)
Definition parsePwnedPasswordResponse (body targetSuffix : string) : option (option Z) :=
  if String.eqb body "" then None else
  '(found, validLines) ← pwned_lines targetSuffix (split_on "010" body) None 0;
  if validLines =? 0 then None else Some found.

Inductive PasswordResult :=
  | PasswordUnsupported (u : UnsupportedResult)
  | PasswordNotFound
  | PasswordFound (count : Z).

Definition pwned_headers : gmap string string :=
  {["Accept" := "text/plain"; "Add-Padding" := "true"; "User-Agent" := "oh-my-safety"]}.

(** What is made of an answer, given the thirty-five digits not sent. *)
Definition pwned_answer (client : PwnedPasswordsClient) (targetSuffix : string) (now : Time)
    (received : Response * option (option error)) : attempt PasswordResult :=
  if failed_status received.1 then inl (statusError AdapterPwnedPasswords received.1 now) else
  match readResponse (Pwned_runtime client) received with
  | inl e => inl e
  | inr body =>
      match parsePwnedPasswordResponse body targetSuffix with
      | None => inl (plain_error AdapterPwnedPasswords ErrorResponse false)
      | Some found =>
          match found with
          | Some count => if count =? 0 then inr PasswordNotFound else inr (PasswordFound count)
          | None => inr PasswordNotFound
          end
      end
  end.

(** [PwnedPasswordsClient.Check] *)
Definition pwned_Check (client : PwnedPasswordsClient) (ctx : bool) (password : string) (now : Time)
    (net : N) : N * attempt PasswordResult :=
  match gate (Pwned_policy client) AdapterPwnedPasswords with
  | Some unsupported => (net, inr (PasswordUnsupported unsupported))
  | None =>
      let encoded := upper_hex_digest password in
      let prefix := String.substring 0 5 encoded in
      let targetSuffix := String.substring 5 35 encoded in
      match newGETRequest (Pwned_runtime client) ctx prefix with
      | inl e => (net, inl e)
      | inr u =>
          let '(net, r) := do (Pwned_runtime client)
            {| Req_Method := "GET"; Req_URL := url_String u; Req_Header := pwned_headers; Req_Body := "" |} net in
          (net, match r with
                | inl e => inl e
                | inr received => pwned_answer client targetSuffix now received
                end)
      end
  end.

(** ** breached_account.go *)

Definition defaultBreachedAccountURL : string := "https://haveibeenpwned.com/api/v3/breachedaccount".

Record BreachedAccountConfig := {
  Breached_Policy : AccessPolicy; Breached_HTTP : HTTPOptions; Breached_APIKey : string; UserAgent : string }.
Record BreachedAccountClient := {
  breached_policy : AccessPolicy; breached_runtime : httpRuntime; breached_apiKey : string;
  breached_userAgent : string; breached_contract : AdapterContract }.

Definition breached_account_contract (endpoint : string) : AdapterContract := {|
  ID := AdapterBreachedAccount; Endpoint := endpoint; Contract_Method := "GET";
  DisclosedData := [{|
    Item_Field := "monitored_email";
    Item_Form := "complete caller-provided email address, URL-escaped in transit";
    Item_Location := "URL path" |}];
  Credential := {|
    Required := true;
    Scope := "HIBP subscription scope granted to the supplied key; this adapter uses it only for breached-account reads";
    Location := "hibp-api-key request header" |};
  RetentionAssumption := "HIBP may retain the email, API request metadata, and credential metadata under its published policies; this adapter does not write the email or API key to local storage";
  OfflineB := offline_behavior |}.

Definition validAPIKey (value : string) : bool := (slen value =? 32) && validHex value.

Definition NewBreachedAccountClient (config : BreachedAccountConfig) : attempt BreachedAccountClient :=
  let failed := inl (configurationError AdapterBreachedAccount) in
  if negb (validAPIKey (Breached_APIKey config)) then failed else
  let userAgent := trim_space (UserAgent config) in
  let userAgent := if String.eqb userAgent "" then "oh-my-safety" else userAgent in
  if contains_any userAgent ["013"; "010"]%char || (256 <? slen userAgent) then failed else
  match newHTTPRuntime AdapterBreachedAccount defaultBreachedAccountURL (Breached_HTTP config) with
  | inl e => inl e
  | inr runtime =>
      let contract := breached_account_contract (endpoint runtime) in
      if negb (is_ok (AdapterContract_Validate contract)) then failed
      else inr {| breached_policy := Breached_Policy config; breached_runtime := runtime;
                  breached_apiKey := Breached_APIKey config; breached_userAgent := userAgent;
                  breached_contract := contract |}
  end.

Definition count_byte (c : ascii) (s : string) : nat := length (filter (λ d, d = c) (chars s)).

Definition validEmail (value : string) : bool :=
  if negb (String.eqb (trim_space value) value) || (slen value <? 3) || (254 <? slen value)
     || contains_any value ["/"; "\"; "?"; "#"; "013"; "010"; "009"; " "]%char
     || negb (count_byte "@" value =? 1)%nat
  then false
  else let '(local, domain) := cut "@" value in
       negb (String.eqb local "") && negb (String.eqb (default "" domain) "")
       && contains (default "" domain) ".".

Record Breach := {
  Breach_Name : string; Breach_Title : string; Domain : string; BreachDate : string; AddedDate : string;
  ModifiedDate : string; PwnCount : Z; DataClasses : list string; IsVerified : bool; IsFabricated : bool;
  IsSensitive : bool; IsRetired : bool; IsSpamList : bool; IsMalware : bool; IsStealerLog : bool;
  IsSubscriptionFree : bool;
}.

Definition zero_breach : Breach := {|
  Breach_Name := ""; Breach_Title := ""; Domain := ""; BreachDate := ""; AddedDate := ""; ModifiedDate := "";
  PwnCount := 0; DataClasses := []; IsVerified := false; IsFabricated := false; IsSensitive := false;
  IsRetired := false; IsSpamList := false; IsMalware := false; IsStealerLog := false;
  IsSubscriptionFree := false |}.

Definition dec_string (t : string) : option string := if is_null t then Some "" else read_string t.

Definition dec_breach (t : string) : option Breach :=
  dec_struct zero_breach (λ ms,
    na ← get_string ms "Name"; ti ← get_string ms "Title"; dm ← get_string ms "Domain";
    bd ← get_string ms "BreachDate"; ad ← get_string ms "AddedDate"; md ← get_string ms "ModifiedDate";
    pc ← get_uint ms "PwnCount"; dc ← get_list dec_string ms "DataClasses";
    ve ← get_bool ms "IsVerified"; fa ← get_bool ms "IsFabricated"; se ← get_bool ms "IsSensitive";
    re ← get_bool ms "IsRetired"; sp ← get_bool ms "IsSpamList"; ma ← get_bool ms "IsMalware";
    st ← get_bool ms "IsStealerLog"; sf ← get_bool ms "IsSubscriptionFree";
    Some {| Breach_Name := na; Breach_Title := ti; Domain := dm; BreachDate := bd; AddedDate := ad;
            ModifiedDate := md; PwnCount := pc; DataClasses := dc; IsVerified := ve; IsFabricated := fa;
            IsSensitive := se; IsRetired := re; IsSpamList := sp; IsMalware := ma; IsStealerLog := st;
            IsSubscriptionFree := sf |}) t.

(** [json.Unmarshal(body, &breaches)]; [Some None] is the nil slice of null. *)
Definition decode_breaches (body : string) : option (option (list Breach)) :=
  @Unmarshal (option (list Breach)) {|
    enc _ := None;
    dec t := if is_null t then Some None else vs ← read_array t; Some <$> mapM dec_breach vs;
    wf _ := False |} body.

Inductive BreachedAccountResult :=
  | AccountUnsupported (u : UnsupportedResult)
  | AccountNotFound
  | AccountFound (breaches : list Breach).

Definition breached_answer (client : BreachedAccountClient) (now : Time)
    (received : Response * option (option error)) : attempt BreachedAccountResult :=
  let failed := inl (plain_error AdapterBreachedAccount ErrorResponse false) in
  if Status received.1 =? 404 then inr AccountNotFound
  else if failed_status received.1 then inl (statusError AdapterBreachedAccount received.1 now) else
  match readResponse (breached_runtime client) received with
  | inl e => inl e
  | inr body =>
      match decode_breaches body with
      | None | Some None => failed
      | Some (Some []) => inr AccountNotFound
      | Some (Some breaches) =>
          if existsb (λ b, blank (Breach_Name b)) breaches then failed else inr (AccountFound breaches)
      end
  end.

(** The URL with the query of the code. *)
Definition with_query (u : URL) : URL := {|
  Scheme := Scheme u; Opaque := Opaque u; User := User u; Host := Host u; URL_Path := URL_Path u;
  RawPath := RawPath u; OmitHost := OmitHost u; ForceQuery := ForceQuery u;
  RawQuery := values_Encode (values_Set "truncateResponse" "false" (url_Query u));
  Fragment := Fragment u; RawFragment := RawFragment u |}.

(** [BreachedAccountClient.Check] *)
Definition breached_Check (client : BreachedAccountClient) (ctx : bool) (email : string) (now : Time)
    (net : N) : N * attempt BreachedAccountResult :=
  match gate (breached_policy client) AdapterBreachedAccount with
  | Some unsupported => (net, inr (AccountUnsupported unsupported))
  | None =>
      if negb (validEmail email) then (net, inl (inputError AdapterBreachedAccount)) else
      match newGETRequest (breached_runtime client) ctx email with
      | inl e => (net, inl e)
      | inr u =>
          let '(net, r) := do (breached_runtime client)
            {| Req_Method := "GET"; Req_URL := url_String (with_query u);
               Req_Header := {["Accept" := "application/json"; "Hibp-Api-Key" := breached_apiKey client;
                               "User-Agent" := breached_userAgent client]};
               Req_Body := "" |} net in
          (net, match r with
                | inl e => inl e
                | inr received => breached_answer client now received
                end)
      end
  end.
End requests.
End Adapter.
