(* ===== verification/ExposureFacts.v ===== *)
(** * Package exposure: what the adapters disclose and report

    Nothing is sent unless the policy allows it; of a password the network
    learns five of the forty digits of its hash; and what the password service
    lists is what is reported. *)

From S2P Require Import Prelude GoString GoTime JsonString Json JsonCompact Model ModelJson GoHttp.
From S2P Require Import GoLib GoUrl GoCrypto NotifierHttp NotifierDemo Exposure.
#[local] Open Scope Z_scope.
Import Adapter.

Section facts.
Context `{HD : HttpDate} {N : Type} `{TR : !Transport N}.

(** ** The gate *)

(** An adapter that is not enabled, or any in offline mode, makes no
    request: the network is left as it was, and the result says why, offline
    mode first; an enabled one is not held back. *)
Theorem gated pwned breached ctx password email now (net : N) :
  (∀ adapter policy, gate policy adapter = None ↔ Enabled policy = true ∧ Offline policy = false) ∧
  (Enabled (Pwned_policy pwned) = false ∨ Offline (Pwned_policy pwned) = true →
   ∃ message, pwned_Check pwned ctx password now net = (net, inr (PasswordUnsupported {|
     Unsupported_Adapter := AdapterPwnedPasswords;
     Reason := if Offline (Pwned_policy pwned) then UnsupportedOffline else UnsupportedDisabled;
     Message := message |}))) ∧
  (Enabled (breached_policy breached) = false ∨ Offline (breached_policy breached) = true →
   ∃ message, breached_Check breached ctx email now net = (net, inr (AccountUnsupported {|
     Unsupported_Adapter := AdapterBreachedAccount;
     Reason := if Offline (breached_policy breached) then UnsupportedOffline else UnsupportedDisabled;
     Message := message |}))).
Proof.
  split; [|split].
  - intros adapter [[] []]; unfold gate; cbn; naive_solver.
  - unfold pwned_Check, gate. destruct (Pwned_policy pwned) as [[] []]; cbn;
      intros [H|H]; try discriminate H; by eexists.
  - unfold breached_Check, gate. destruct (breached_policy breached) as [[] []]; cbn;
      intros [H|H]; try discriminate H; by eexists.
Qed.

(** ** What a password check discloses *)

Definition sent_prefix (password : string) : string := String.substring 0 5 (upper_hex_digest password).
Definition kept_suffix (password : string) : string := String.substring 5 35 (upper_hex_digest password).

Lemma length_hex_encode l : String.length (hex_encode l) = (2 * length l)%nat.
Proof. induction l as [|b l IH]; [done|]. cbn [hex_encode String.length length]. rewrite IH. lia. Qed.

Lemma length_of_chars l : String.length (of_chars l) = length l.
Proof.
  induction l as [|c l IH]; [done|]. change (S (String.length (of_chars l)) = S (length l)). by rewrite IH.
Qed.

Lemma length_chars s : length (chars s) = String.length s.
Proof. induction s as [|c s IH]; [done|]. cbn. by rewrite IH. Qed.

Lemma length_upper_hex_digest password : String.length (upper_hex_digest password) = 40%nat.
Proof.
  unfold upper_hex_digest. by rewrite length_of_chars, length_fmap, length_chars, length_hex_encode, sha1_length.
Qed.

Lemma substring_length n m s : (n + m ≤ String.length s)%nat → String.length (String.substring n m s) = m.
Proof.
  revert n m. induction s as [|c s IH]; intros [|n] [|m] H; cbn in *; try lia; try done.
  - by rewrite (IH 0%nat m) by lia.
  - rewrite IH by lia. done.
  - rewrite IH by lia. done.
Qed.

(** C23. What the network learns of a password is five of the forty digits of
    its SHA-1 digest: two passwords with the same first five digits are checked
    by the same requests, whatever the network answers, so that no answer and
    no state of the network can tell them apart. *)
Theorem pwned_private client ctx p q now now' (net : N) :
  String.length (sent_prefix p) = 5%nat ∧ String.length (kept_suffix p) = 35%nat ∧
  (sent_prefix p = sent_prefix q →
   (pwned_Check client ctx p now net).1 = (pwned_Check client ctx q now' net).1).
Proof.
  split_and!.
  - apply substring_length. rewrite length_upper_hex_digest. lia.
  - apply substring_length. rewrite length_upper_hex_digest. lia.
  - unfold sent_prefix. intros H. unfold pwned_Check. cbv zeta.
    destruct (gate (Pwned_policy client) AdapterPwnedPasswords); [done|]. rewrite H.
    destruct (newGETRequest _ _ _) as [e|u]; [done|]. unfold do. by destruct (Do _ net).
Qed.
End facts.

(** ** What the service lists *)

Definition pwned_entry (e : string * Z) : Prop :=
  slen e.1 = 35 ∧ validHex e.1 = true ∧ 0 ≤ e.2 ≤ max_uint64.

Definition entry_line (e : string * Z) : string := e.1 +:+ ":" +:+ dec_nonneg e.2.

Definition crlf : string := String "013" (String "010" "").

Definition listing (entries : list (string * Z)) : string := join crlf (entry_line <$> entries).

(** The entry of a suffix, in whatever case it is written. *)
Definition listed (entries : list (string * Z)) (suffix : string) : option Z :=
  snd <$> head (filter (λ e, EqualFold e.1 suffix = true) entries).

Lemma hex_solid c : is_hex c = true → solid c = true ∧ c ≠ ":"%char ∧ c ≠ "010"%char.
Proof.
  intros H. assert (∀ c, implb (is_hex c) (solid c && negb (Ascii.eqb c ":") && negb (Ascii.eqb c "010")) = true) as Hall.
  { intros [[] [] [] [] [] [] [] []]; vm_compute; reflexivity. }
  specialize (Hall c). rewrite H in Hall. cbn [implb] in Hall. bool_prop.
  split_and!; [done|by apply Ascii.eqb_neq..].
Qed.

Lemma digit_hex c : is_digit (byte c) = true → is_hex c = true.
Proof. intros H. unfold is_hex. by rewrite H. Qed.

Lemma digits_hex s : all_digits s = true → validHex s = true.
Proof.
  induction s as [|c s IH]; [done|]. cbn [all_digits]. intros [Hc Hs]%andb_true_iff.
  unfold validHex in *. cbn [chars forallb]. rewrite digit_hex, IH by done. done.
Qed.

Lemma validHex_solid s : validHex s = true → forallb solid (chars s) = true.
Proof.
  unfold validHex. intros H. apply forallb_forall. intros c Hc.
  apply (proj1 (forallb_forall _ _) H) in Hc. by apply hex_solid in Hc as (? & _).
Qed.

Lemma cut_hex s t : validHex s = true → cut ":" (s +:+ String ":" t) = (s, Some t).
Proof.
  unfold validHex. induction s as [|c s IH]; [done|]. cbn [chars forallb]. intros [Hc Hs]%andb_true_iff.
  rewrite app_str_cons. cbn [cut]. apply hex_solid in Hc as (_ & Hc & _).
  apply Ascii.eqb_neq in Hc. rewrite Hc. by rewrite IH.
Qed.

Lemma contains_colon s : validHex s = true → contains s ":" = false.
Proof.
  unfold validHex. induction s as [|c s IH]; [done|]. cbn [chars forallb contains].
  intros [Hc Hs]%andb_true_iff. rewrite IH, orb_false_r by done.
  apply hex_solid in Hc as (_ & Hc & _). unfold has_prefix. cbn [strip_prefix].
  destruct (Ascii.eqb ":" c) eqn:E; [|done]. by apply Ascii.eqb_eq in E as <-.
Qed.

Lemma entry_solid e : pwned_entry e → forallb solid (chars (entry_line e)) = true ∧ entry_line e ≠ "".
Proof.
  intros (Hl & Hh & Hc). unfold entry_line. split.
  - rewrite !chars_app, !forallb_app, (validHex_solid _ Hh). cbn [chars forallb andb].
    by rewrite (validHex_solid _ (digits_hex _ (dec_nonneg_digits _ (proj1 Hc)))).
  - intros H. apply (f_equal slen) in H. unfold slen in *. rewrite length_app_str in H. cbn in H. lia.
Qed.

(** A line is read as its entry, with or without its carriage return. *)
Lemma entry_trim e : pwned_entry e →
  trim_space (entry_line e) = entry_line e ∧ trim_space (entry_line e +:+ String "013" "") = entry_line e.
Proof.
  intros [Hs Hne]%entry_solid. split.
  - rewrite <-(app_str_nil_r (entry_line e)) at 1. apply trim_space_solid; [done..|].
    change (str_rev "") with "". rewrite app_str_nil_l. by apply trim_left_rev_solid.
  - apply trim_space_solid; [done..|]. change (str_rev (String "013" "")) with (String "013" "").
    rewrite app_str_cons, app_str_nil_l. by apply trim_left_rev_solid.
Qed.

Lemma pwned_line_entry e target : pwned_entry e → pwned_line target (entry_line e) = Some (EqualFold e.1 target, e.2).
Proof.
  intros (Hl & Hh & Hc). unfold pwned_line, entry_line.
  change (e.1 +:+ ":" +:+ dec_nonneg e.2) with (e.1 +:+ String ":" (dec_nonneg e.2)).
  rewrite cut_hex, Hl, Z.eqb_refl, Hh by done. cbn [negb orb].
  pose proof (dec_nonneg_digits e.2 (proj1 Hc)) as Hd. pose proof (digits_hex _ Hd) as Hx.
  rewrite contains_colon by done. cbn [orb].
  assert (trim_space (dec_nonneg e.2) = dec_nonneg e.2) as ->.
  { rewrite <-(app_str_nil_r (dec_nonneg e.2)) at 1. apply trim_space_solid; [by apply validHex_solid|by apply dec_digits_nonempty|].
    change (str_rev "") with "". rewrite app_str_nil_l.
    apply trim_left_rev_solid; [by apply validHex_solid|by apply dec_digits_nonempty]. }
  by rewrite parse_uint64_dec.
Qed.

(** The lines of a listing. *)
Lemma listing_lines entries : entries ≠ [] → Forall pwned_entry entries →
  Forall2 (λ e raw, trim_space raw = entry_line e) entries (split_on "010" (listing entries)).
Proof.
  intros Hne H. induction H as [|e l He Hl IH]; [done|].
  assert (free_of "010" (entry_line e)) as Hfree.
  { apply entry_solid in He as [Hs _]. revert Hs. generalize (entry_line e). clear.
    induction s as [|c s IH]; [intros _; apply not_elem_of_nil|]. cbn [chars forallb].
    intros [Hc Hs]%andb_true_iff. apply free_of_cons. split; [by intros ->|auto]. }
  destruct l as [|e' l].
  - unfold listing. cbn [fmap list_fmap join]. rewrite split_on_free by done.
    repeat constructor. by apply entry_trim.
  - unfold listing. cbn [fmap list_fmap]. rewrite join_cons2. unfold crlf.
    change (entry_line e +:+ String "013" (String "010" "") +:+ join (String "013" (String "010" ""))
      (entry_line e' :: (entry_line <$> l)))
      with (entry_line e +:+ String "013" "" +:+ String "010" (listing (e' :: l))).
    rewrite <-app_str_assoc, split_on_cut.
    + constructor; [by apply entry_trim|]. by apply IH.
    + apply free_of_app. split; [done|]. by apply free_of_cons; split; [|apply not_elem_of_nil].
Qed.

Lemma pwned_lines_listed entries raws target found n :
  Forall2 (λ e raw, trim_space raw = entry_line e) entries raws → Forall pwned_entry entries →
  NoDup (fold_key <$> entries.*1) → (is_Some found → listed entries target = None) →
  pwned_lines target raws found n =
    Some (match found with Some c => Some c | None => listed entries target end, n + Z.of_nat (length entries)).
Proof.
  intros Hr. revert found n. induction Hr as [|e raw entries raws He Hr IH]; intros found n Hg Hd Hf.
  - cbn [pwned_lines length]. rewrite Z.add_0_r. by destruct found.
  - apply Forall_cons in Hg as [Hge Hg]. cbn [fmap list_fmap] in Hd. apply NoDup_cons in Hd as [Hnew Hd].
    cbn [pwned_lines]. rewrite He. pose proof (entry_solid e Hge) as [_ Hne]. apply String.eqb_neq in Hne.
    rewrite Hne, pwned_line_entry by done. unfold listed in *. cbn [filter list_filter].
    assert (∀ c, n + 1 + Z.of_nat (length entries) = n + Z.of_nat (length (c :: entries))) as Hn by (intros; cbn [length]; lia).
    destruct (EqualFold e.1 target) eqn:Em.
    + cbn [filter list_filter] in Hf. rewrite decide_True in Hf by done. cbn [head fmap option_fmap option_map] in Hf.
      destruct found as [c|]; [by discriminate (Hf ltac:(by eexists))|].
      rewrite decide_True by done. cbn [head fmap option_fmap option_map].
      rewrite (IH (Some e.2) (n + 1) Hg Hd), (Hn e); [done|]. intros _.
      assert (filter (λ e, EqualFold e.1 target = true) entries = []) as ->; [|done].
      destruct (filter (λ e, EqualFold e.1 target = true) entries) as [|e' l] eqn:El; [done|].
      assert (e' ∈ filter (λ e, EqualFold e.1 target = true) entries) as [Hm He']%list_elem_of_filter
        by (rewrite El; by left).
      exfalso. apply Hnew. apply list_elem_of_fmap. exists e'.1.
      unfold EqualFold in *. bool_prop. split; [congruence|]. apply list_elem_of_fmap. by exists e'.
    + cbn [filter list_filter] in Hf. rewrite decide_False in Hf by (by rewrite Em).
      rewrite decide_False by done.
      by rewrite (IH found (n + 1) Hg Hd Hf), (Hn e).
Qed.

Lemma parse_listing entries target :
  entries ≠ [] → Forall pwned_entry entries → NoDup (fold_key <$> entries.*1) →
  parsePwnedPasswordResponse (listing entries) target = Some (listed entries target).
Proof.
  intros Hne Hg Hd. unfold parsePwnedPasswordResponse.
  assert (String.eqb (listing entries) "" = false) as ->.
  { apply String.eqb_neq. destruct entries as [|e l]; [done|]. apply Forall_cons in Hg as [[_ Hx]%entry_solid _].
    unfold listing. cbn [fmap list_fmap]. destruct (entry_line e) as [|c s]; [done|]. by destruct l. }
  rewrite (pwned_lines_listed entries _ target None 0 (listing_lines entries Hne Hg) Hg Hd); [|by intros [? [=]]].
  cbn [mbind option_bind]. destruct entries as [|e l]; [done|].
  rewrite (proj2 (Z.eqb_neq _ _)) by (cbn [length]; lia). done.
Qed.

(** What the password service lists is what is reported: when it answers
    with a listing, one entry per line in any letter case, within the size
    limit, the check reports the count of the entry of the password's suffix,
    and that the password was not found when there is none or its count is
    zero, as in the entries added as padding. *)
Theorem pwned_counts `{HD : HttpDate} {N : Type} `{TR : !Transport N} client ctx password now (net net' : N)
    u headers entries :
  gate (Pwned_policy client) AdapterPwnedPasswords = None →
  newGETRequest (Pwned_runtime client) ctx (sent_prefix password) = inr u →
  Do {| Req_Method := "GET"; Req_URL := url_String u; Req_Header := pwned_headers; Req_Body := "" |} net =
    (net', Answered {| Status := 200; Headers := headers; Content := listing entries |}) →
  slen (listing entries) ≤ maxResponseBytes (Pwned_runtime client) →
  entries ≠ [] → Forall pwned_entry entries → NoDup (fold_key <$> entries.*1) →
  pwned_Check client ctx password now net =
    (net', inr match listed entries (kept_suffix password) with
               | Some count => if count =? 0 then PasswordNotFound else PasswordFound count
               | None => PasswordNotFound
               end).
Proof.
  intros Hg Hu Hdo Hs Hne He Hd. unfold pwned_Check. cbv zeta. rewrite Hg. unfold sent_prefix in Hu.
  rewrite Hu. unfold do. rewrite Hdo. unfold pwned_answer, failed_status, readResponse. cbn [fst Status Content].
  change ((200 <? 200) || (300 <=? 200)) with false. cbv iota. rewrite (proj2 (Z.ltb_ge _ _)) by done.
  fold (kept_suffix password). rewrite parse_listing by done.
  by destruct (listed entries (kept_suffix password)) as [c|]; [destruct (c =? 0)|].
Qed.

(** ** Package exposure: worked queries

    Both adapters against a network that records requests and answers as it is
    told; the theorems applied to them. *)

#[local] Existing Instances no_dates record_requests.

Definition default_options : HTTPOptions := {| BaseURL := ""; Timeout := 0; MaxResponseBytes := 0 |}.
Definition allowed : AccessPolicy := {| Enabled := true; Offline := false |}.
Definition offline : AccessPolicy := {| Enabled := true; Offline := true |}.

Definition no_runtime : httpRuntime := {|
  adapter := ""; baseURL := make_URL "" "" None "" ("", "") false false ""; timeout := 0; maxResponseBytes := 0 |}.

Definition pwned (policy : AccessPolicy) : PwnedPasswordsClient :=
  match NewPwnedPasswordsClient policy default_options with
  | inr client => client
  | inl _ => {| Pwned_policy := policy; Pwned_runtime := no_runtime; Pwned_contract := pwned_contract "" |}
  end.

Definition breached_config (policy : AccessPolicy) : BreachedAccountConfig := {|
  Breached_Policy := policy; Breached_HTTP := default_options;
  Breached_APIKey := "0123456789abcdef0123456789abcdef"; UserAgent := "" |}.

Definition breached (policy : AccessPolicy) : BreachedAccountClient :=
  match NewBreachedAccountClient (breached_config policy) with
  | inr client => client
  | inl _ => {| breached_policy := policy; breached_runtime := no_runtime; breached_apiKey := "";
                breached_userAgent := ""; breached_contract := pwned_contract "" |}
  end.

(** The suffix of "password", in lower case, with a count; one of another; one
    added as padding. *)
Definition entries : list (string * Z) :=
  [("0018A45C4D1DEF81644B54AB7F969B88D65", 10);
   ("1e4c9b93f3f0682250b6cf8331b7ee68fd8", 9545824);
   ("00D4F6E8FA6EECAD2A3AA415EEC418D38EC", 0)].

Definition answers (status : Z) (content : string) : recorder :=
  {| sent := []; answer := {| Status := status; Headers := ∅; Content := content |} |}.

Example prefix_1 : (sent_prefix "password", kept_suffix "password") =
  ("5BAA6", "1E4C9B93F3F0682250B6CF8331B7EE68FD8").
Proof. vm_compute. reflexivity. Qed.

Example pwned_1 :
  let '(net, r) := pwned_Check (pwned allowed) true "password" now (answers 200 (listing entries)) in
  (Req_URL <$> sent net, r) = (["https://api.pwnedpasswords.com/range/5BAA6"], inr (PasswordFound 9545824)).
Proof. vm_compute. reflexivity. Qed.

Example breached_1 :
  let '(net, r) := breached_Check (breached allowed) true "a+b@example.org" now
    (answers 200 (q "[{'Name':'Adobe','PwnCount':152445165}]")) in
  (Req_URL <$> sent net, match r with inr (AccountFound [b]) => Some (Breach_Name b, PwnCount b) | _ => None end) =
  (["https://haveibeenpwned.com/api/v3/breachedaccount/a%2Bb%40example.org?truncateResponse=false"],
   Some ("Adobe", 152445165)).
Proof. vm_compute. reflexivity. Qed.

Example breached_2 : (λ a, (breached_Check (breached allowed) true "a@example.org" now (answers a.1 a.2)).2) <$>
    [(404, "x"); (200, "[]"); (200, "null"); (429, "")] =
  [inr AccountNotFound; inr AccountNotFound;
   inl (plain_error AdapterBreachedAccount ErrorResponse false);
   inl {| Adapter := AdapterBreachedAccount; Kind := ErrorStatus; StatusCode := 429; Adapter_Retryable := true;
          Adapter_RetryAfter := 0; Adapter_cause := None |}].
Proof. vm_compute. reflexivity. Qed.

Lemma offline_policy : Offline (Pwned_policy (pwned offline)) = true.
Proof. vm_compute. reflexivity. Qed.

Lemma gated_witness : ∃ message,
  pwned_Check (pwned offline) true "password" now (answers 200 "") =
    (answers 200 "", inr (PasswordUnsupported {|
       Unsupported_Adapter := AdapterPwnedPasswords;
       Reason := if Offline (Pwned_policy (pwned offline)) then UnsupportedOffline else UnsupportedDisabled;
       Message := message |})).
Proof.
  exact (proj1 (proj2 (gated (pwned offline) (breached offline) true "password" "" now (answers 200 "")))
    (or_intror offline_policy)).
Defined.

(** Two passwords whose digests begin with the same five digits and differ in
    the sixth. *)
Lemma same_prefix : sent_prefix "password" = sent_prefix "pw222568".
Proof. vm_compute. reflexivity. Qed.

Lemma other_suffix : kept_suffix "password" ≠ kept_suffix "pw222568".
Proof. vm_compute. discriminate. Qed.

Lemma pwned_private_witness :
  kept_suffix "password" ≠ kept_suffix "pw222568" ∧
  (pwned_Check (pwned allowed) true "password" now (answers 200 "")).1 =
  (pwned_Check (pwned allowed) true "pw222568" zero_time (answers 200 "")).1.
Proof.
  exact (conj other_suffix
    (proj2 (proj2 (pwned_private (pwned allowed) true "password" "pw222568" now zero_time (answers 200 "")))
      same_prefix)).
Defined.

Definition password_url : URL :=
  match newGETRequest (Pwned_runtime (pwned allowed)) true (sent_prefix "password") with
  | inr u => u
  | inl _ => make_URL "" "" None "" ("", "") false false ""
  end.

Definition password_request : HTTPRequest := {|
  Req_Method := "GET"; Req_URL := url_String password_url; Req_Header := pwned_headers; Req_Body := "" |}.

Definition asked : recorder :=
  {| sent := [password_request]; answer := answer (answers 200 (listing entries)) |}.

Lemma asked_sent : Do password_request (answers 200 (listing entries)) =
  (asked, Answered {| Status := 200; Headers := ∅; Content := listing entries |}).
Proof. reflexivity. Qed.

Lemma password_parsed :
  newGETRequest (Pwned_runtime (pwned allowed)) true (sent_prefix "password") = inr password_url.
Proof. vm_compute. reflexivity. Qed.

Lemma pwned_allowed : gate (Pwned_policy (pwned allowed)) AdapterPwnedPasswords = None.
Proof. vm_compute. reflexivity. Qed.

Lemma listing_fits : slen (listing entries) ≤ maxResponseBytes (Pwned_runtime (pwned allowed)).
Proof. by vm_compute. Qed.

Lemma entries_ok : Forall pwned_entry entries.
Proof. repeat first [apply Forall_nil_2 | apply Forall_cons_2]; split_and!; by vm_compute. Qed.

Lemma entries_distinct : NoDup (fold_key <$> entries.*1).
Proof. apply (bool_decide_unpack _). by vm_compute. Qed.

Lemma entries_listed : entries ≠ [].
Proof. discriminate. Qed.

Lemma pwned_counts_witness :
  pwned_Check (pwned allowed) true "password" now (answers 200 (listing entries)) =
    (asked, inr match listed entries (kept_suffix "password") with
                | Some count => if count =? 0 then PasswordNotFound else PasswordFound count
                | None => PasswordNotFound
                end).
Proof.
  exact (pwned_counts (pwned allowed) true "password" now (answers 200 (listing entries)) asked password_url ∅
    entries pwned_allowed password_parsed asked_sent listing_fits entries_listed entries_ok entries_distinct).
Defined.
