(* ===== verification/GoFile.v ===== *)
(** * os and path/filepath

    Paths of package path/filepath on Unix, the bits of a file mode, and the
    operating system as the class [FileSystem]: every call acts on a world
    that other processes may change between two calls.  What a file gave to a
    run is told by its calls ([read_between]).  [StillSystem] is the instance
    in which nobody else changes anything. *)

From S2P Require Import Prelude GoString Json GoLib.
#[local] Open Scope Z_scope.

(** ** path/filepath *)

Definition IsAbs (path : string) : bool := has_prefix path "/".

(** [filepath.Join] of two elements *)
Definition path_Join (dir name : string) : string :=
  if String.eqb dir "" then (if String.eqb name "" then "" else path_Clean name)
  else if String.eqb name "" then path_Clean dir else path_Clean (dir +:+ "/" +:+ name).

(** [filepath.Base] *)
Definition path_Base (path : string) : string :=
  if String.eqb path "" then "." else
  let path := trim_right_byte "/" path in
  if String.eqb path "" then "/" else List.last (split_on "/" path) "".

(** The elements of a clean path: the root is one empty element, the current
    directory as a base is none. *)
Definition path_elements (path : string) : list string :=
  if String.eqb path "/" then [""] else if String.eqb path "" then [] else split_on "/" path.

Fixpoint relative (base targ : list string) : option string :=
  match base, targ with
  | [], _ => Some (join "/" targ)
  | _ :: _, [] => Some (join "/" (replicate (length base) ".."))
  | b :: base', t :: targ' =>
      if String.eqb b t then relative base' targ'
      else if String.eqb b ".." then None
      else Some (join "/" (replicate (length base) ".." ++ targ))
  end.

(** [filepath.Rel] *)
Definition path_Rel (basepath targpath : string) : option string :=
  let base := path_Clean basepath in
  let targ := path_Clean targpath in
  if String.eqb targ base then Some "." else
  let base := if String.eqb base "." then "" else base in
  if negb (eqb (IsAbs base) (IsAbs targ)) then None
  else relative (path_elements base) (path_elements targ).

Example path_Rel_1 :
  (λ p, path_Rel p.1 p.2) <$> [("a/b", "a/b/c"); ("a/b/c", "a/d/e"); ("/", "/tmp/x"); (".", "x/y"); ("/tmp", "x");
     ("..", "a"); ("/a", "/"); ("../../a", "../b"); ("/tmp", "/tmpx"); ("..", "../x")] =
  [Some "c"; Some "../../d/e"; Some "tmp/x"; Some "x/y"; None; None; Some ".."; None; Some "../tmpx"; Some "x"].
Proof. reflexivity. Qed.

(** The working directory and [os.TempDir]. *)
Class Environment := { Getwd : result string; TempDir : string }.

(** [filepath.Abs] *)
Definition path_Abs `{Environment} (path : string) : result string :=
  if IsAbs path then Ok (path_Clean path) else wd ← Getwd; Ok (path_Join wd path).

(** ** Modes *)

Definition ModeDir : Z := 2 ^ 31.
Definition ModeSymlink : Z := 2 ^ 27.
Definition ModeSetuid : Z := 2 ^ 23.
Definition ModeSetgid : Z := 2 ^ 22.
Definition ModeSticky : Z := 2 ^ 20.
(** Directory, symbolic link, named pipe, socket, device, character device,
    irregular. *)
Definition ModeType : Z := ModeDir + ModeSymlink + 2 ^ 25 + 2 ^ 24 + 2 ^ 26 + 2 ^ 21 + 2 ^ 19.

Definition mode_has (mode bits : Z) : bool := negb (Z.land mode bits =? 0).
Definition IsRegular (mode : Z) : bool := negb (mode_has mode ModeType).
Definition IsDir (mode : Z) : bool := mode_has mode ModeDir.
Definition Perm (mode : Z) : Z := Z.land mode 511.

(** ** Files *)

(** [syscall.Stat_t] *)
Record Stat := { Dev : Z; Ino : Z; Uid : Z; Gid : Z }.
Record FileInfo := { Info_Mode : Z; Info_Size : Z; Sys : option Stat }.

Definition SameFile (a b : FileInfo) : bool :=
  match Sys a, Sys b with
  | Some x, Some y => (Dev x =? Dev y) && (Ino x =? Ino y)
  | _, _ => false
  end.

(** What [File.Read] gives: at least one byte, or the end, or an error. *)
Inductive chunk :=
  | Bytes (c : ascii) (s : string)
  | EndOfFile
  | Broken (e : error).

(** An entry of a directory: its name, the type bits of its mode, and what
    [Info] says if that is known already. *)
Record DirEntry := { Entry_Name : string; Entry_Type : Z; Entry_Info : option FileInfo }.

(** [ctx.Err] is polled as a file is: a context is canceled from outside. *)
Class FileSystem (W : Type) := {
  ctx_Err : W → W * option error;
  Lstat : string → W → W * result FileInfo;
  Open : string → W → W * result Z;
  Fstat : Z → W → W * result FileInfo;
  Read : Z → Z → W → W * chunk;
  Close : Z → W → W;
  ReadDir : string → W → W * (list DirEntry * option error);
}.

(** A name in a directory. *)
Definition is_name (s : string) : Prop := s ≠ "" ∧ s ≠ "." ∧ s ≠ ".." ∧ free_of "/" s.

(** A read fills at most its buffer, and a directory lists names. *)
Class FileLaws W `{FileSystem W} : Prop := {
  Read_bound fd n w w' c s : Read fd n w = (w', Bytes c s) → slen (String c s) ≤ n;
  ReadDir_names path w d : d ∈ (ReadDir path w).2.1 → is_name (Entry_Name d);
}.

Definition isNotExist (e : error) : bool := errors_is e "fs.ErrNotExist".

(** ** Reading a file within a bound *)

Section reading.
Context {W : Type} `{FileSystem W}.

Inductive reading :=
  | Complete
  | Beyond
  | Stopped (e : error).

Definition at_bound (stat_failed : error → error) (fd : Z) (content : string) (w : W) : W * (string * reading) :=
  let '(w, current) := Fstat fd w in
  (w, (content, match current with
                | Err e => Stopped (stat_failed e)
                | Ok current => if slen content <? Info_Size current then Beyond else Complete
                end)).

(** Reads of at most [size] bytes until the end of the file or until [limit]
    bytes are read.  Every read that goes on adds a byte, so that as much fuel
    as there are bytes to read is enough. *)
Fixpoint bounded_loop (fuel : nat) (size limit : Z) (stat_failed read_failed : error → error) (fd : Z)
    (content : string) (w : W) : W * (string * reading) :=
  let '(w, e) := ctx_Err w in
  match e with
  | Some e => (w, (content, Stopped e))
  | None =>
      if limit - slen content <=? 0 then at_bound stat_failed fd content w
      else match fuel with
      | O => at_bound stat_failed fd content w
      | S fuel =>
          let '(w, c) := Read fd (Z.min (limit - slen content) size) w in
          match c with
          | Bytes c s => bounded_loop fuel size limit stat_failed read_failed fd (content +:+ String c s) w
          | EndOfFile => (w, (content, Complete))
          | Broken e => (w, (content, Stopped (read_failed e)))
          end
      end
  end.

Definition read_bounded (size limit : Z) (stat_failed read_failed : error → error) (fd : Z) (w : W) :
    W * (string * reading) :=
  bounded_loop (Z.to_nat limit) size limit stat_failed read_failed fd "" w.

(** More fuel changes nothing. *)
Lemma bounded_loop_fuel fuel fuel' size limit sf rf fd content w :
  limit - slen content ≤ Z.of_nat fuel → limit - slen content ≤ Z.of_nat fuel' →
  bounded_loop fuel size limit sf rf fd content w = bounded_loop fuel' size limit sf rf fd content w.
Proof.
  revert fuel' content w. induction fuel as [|fuel IH]; intros fuel' content w H1 H2.
  - destruct fuel' as [|fuel']; [done|]. cbn [bounded_loop]. destruct (ctx_Err w) as [w1 [e|]]; [done|].
    by rewrite (proj2 (Z.leb_le _ _)) by lia.
  - destruct fuel' as [|fuel']; cbn [bounded_loop]; destruct (ctx_Err w) as [w1 [e|]]; try done.
    + by rewrite (proj2 (Z.leb_le _ _)) by lia.
    + destruct (_ <=? 0) eqn:E; [done|]. destruct (Read _ _ _) as [w2 [c s| |e]]; try done.
      apply IH; unfold slen in *; rewrite length_app_str; cbn [String.length]; lia.
Qed.

Lemma bounded_loop_bound `{!FileLaws W} fuel size limit sf rf fd content w :
  slen content ≤ limit → slen (bounded_loop fuel size limit sf rf fd content w).2.1 ≤ limit.
Proof.
  revert content w. induction fuel as [|fuel IH]; intros content w Hc; cbn [bounded_loop];
    destruct (ctx_Err w) as [w1 [e|]]; try done;
    (destruct (_ <=? 0) eqn:E; [unfold at_bound; by destruct (Fstat _ _)|]).
  - unfold at_bound. by destruct (Fstat _ _).
  - destruct (Read _ _ _) as [w2 [c s| |e]] eqn:Er; try done. apply IH.
    apply Read_bound in Er. unfold slen in *. rewrite length_app_str. bool_prop. lia.
Qed.
End reading.

(** ** What a run has read

    A run is a sequence of calls, each of which leaves another world; what a
    file gave is said by the calls that read it.  [others] is what else the
    run calls, the lookup of a package for example. *)

Section runs.
Context {W : Type} `{FileSystem W}.

Inductive call (others : relation W) : relation W :=
  | call_ctx_Err w : call others w (ctx_Err w).1
  | call_Lstat path w : call others w (Lstat path w).1
  | call_Open path w : call others w (Open path w).1
  | call_Fstat fd w : call others w (Fstat fd w).1
  | call_Read fd n w : call others w (Read fd n w).1
  | call_Close fd w : call others w (Close fd w)
  | call_ReadDir path w : call others w (ReadDir path w).1
  | call_other w w' : others w w' → call others w w'.

Definition later (others : relation W) : relation W := rtc (call others).

(** [text] is what the reads of [fd] give, one after the other, with nothing
    but polls of the context in between. *)
Inductive reads (fd : Z) : W → string → W → Prop :=
  | reads_none w : reads fd w "" w
  | reads_poll w text w' : reads fd (ctx_Err w).1 text w' → reads fd w text w'
  | reads_bytes n w w1 c s text w' :
      Read fd n w = (w1, Bytes c s) → reads fd w1 text w' → reads fd w (String c s +:+ text) w'.

(** The file has no more than [text]: a read into a buffer says so, or the
    file's size. *)
Inductive at_end (fd : Z) (text : string) : relation W :=
  | end_Read n w w' : 0 < n → Read fd n w = (w', EndOfFile) → at_end fd text w w'
  | end_Fstat w w' info : Fstat fd w = (w', Ok info) → Info_Size info ≤ slen text → at_end fd text w w'.

(** The file at a path is opened, found to be regular, and read to its end. *)
Inductive read_whole (path text : string) : relation W :=
  | whole fd info w w1 w2 w3 w4 :
      Open path w = (w1, Ok fd) → Fstat fd w1 = (w2, Ok info) → IsRegular (Info_Mode info) = true →
      reads fd w2 text w3 → at_end fd text w3 w4 → read_whole path text w w4.

Definition nothing_else : relation W := λ _ _, False.

(** Among the calls from [w] to [w'], the file was read and gave [text]. *)
Definition read_between (others : relation W) (path text : string) (w w' : W) : Prop :=
  ∃ w1 w2, later others w w1 ∧ read_whole path text w1 w2 ∧ later others w2 w'.

Lemma read_between_later others path text w w1 w2 :
  read_between others path text w w1 → later others w1 w2 → read_between others path text w w2.
Proof. intros (v1 & v2 & ? & ? & ?) Hl. exists v1, v2. split_and!; [done..|]. by etrans. Qed.

Section later_lemmas.
Context {others : relation W}.

Lemma later_call w w' : call others w w' → later others w w'.
Proof. apply rtc_once. Qed.
Lemma later_ctx_Err w w' r : ctx_Err w = (w', r) → later others w w'.
Proof. intros E. apply later_call. pose proof (call_ctx_Err others w) as Hc. by rewrite E in Hc. Qed.
Lemma later_Lstat path w w' r : Lstat path w = (w', r) → later others w w'.
Proof. intros E. apply later_call. pose proof (call_Lstat others path w) as Hc. by rewrite E in Hc. Qed.
Lemma later_Open path w w' r : Open path w = (w', r) → later others w w'.
Proof. intros E. apply later_call. pose proof (call_Open others path w) as Hc. by rewrite E in Hc. Qed.
Lemma later_Fstat fd w w' r : Fstat fd w = (w', r) → later others w w'.
Proof. intros E. apply later_call. pose proof (call_Fstat others fd w) as Hc. by rewrite E in Hc. Qed.
Lemma later_Read fd n w w' r : Read fd n w = (w', r) → later others w w'.
Proof. intros E. apply later_call. pose proof (call_Read others fd n w) as Hc. by rewrite E in Hc. Qed.
Lemma later_Close fd w : later others w (Close fd w).
Proof. apply later_call, call_Close. Qed.
Lemma later_ReadDir path w w' r : ReadDir path w = (w', r) → later others w w'.
Proof. intros E. apply later_call. pose proof (call_ReadDir others path w) as Hc. by rewrite E in Hc. Qed.

Lemma reads_later fd w text w' : reads fd w text w' → later others w w'.
Proof.
  induction 1 as [w|w text w' _ IH|n w w1 c s text w' Hr _ IH]; [done| |].
  - etrans; [|exact IH]. apply later_call, call_ctx_Err.
  - etrans; [|exact IH]. by eapply later_Read.
Qed.

Lemma at_end_later fd text w w' : at_end fd text w w' → later others w w'.
Proof. intros []; [by eapply later_Read|by eapply later_Fstat]. Qed.

(** What the bounded loop adds to [content] was read, and a file it calls
    complete was read to its end. *)
Lemma bounded_loop_reads fuel size limit sf rf fd content w w' text r :
  0 < size → bounded_loop fuel size limit sf rf fd content w = (w', (text, r)) →
  ∃ more w1, text = content +:+ more ∧ reads fd w more w1 ∧ later others w1 w' ∧
    (r = Complete → at_end fd text w1 w').
Proof.
  intros Hs. revert content w.
  assert (∀ content w v, ctx_Err w = (v, None) → at_bound sf fd content v = (w', (text, r)) →
    ∃ more w1, text = content +:+ more ∧ reads fd w more w1 ∧ later others w1 w' ∧
      (r = Complete → at_end fd text w1 w')) as Hbound.
  { intros content w v Ec. unfold at_bound. destruct (Fstat fd v) as [v1 info] eqn:Ef. intros [= <- <- <-].
    exists "", v. split_and!; [by rewrite app_str_nil_r| |by eapply later_Fstat|].
    - apply reads_poll. rewrite Ec. constructor.
    - destruct info as [info|]; [|done]. destruct (_ <? _) eqn:E; [done|]. intros _.
      eapply end_Fstat; [exact Ef|]. by bool_prop. }
  induction fuel as [|fuel IH]; intros content w; cbn [bounded_loop];
    destruct (ctx_Err w) as [v [e|]] eqn:Ec.
  1, 3: intros [= <- <- <-]; exists "", w; rewrite app_str_nil_r; split_and!;
    [done|constructor|by eapply later_ctx_Err|done].
  - destruct (_ <=? 0); by apply Hbound.
  - destruct (_ <=? 0) eqn:El; [by apply Hbound|]. bool_prop.
    destruct (Read _ _ v) as [v1 [c s| |e]] eqn:Er.
    + intros (more & w1 & -> & Hm & Hl & He)%IH. exists (String c s +:+ more), w1.
      split_and!; [by rewrite app_str_assoc| |done|done]. apply reads_poll. rewrite Ec. by eapply reads_bytes.
    + intros [= <- <- <-]. exists "", v. rewrite app_str_nil_r. split_and!; [done| |by eapply later_Read|].
      * apply reads_poll. rewrite Ec. constructor.
      * intros _. eapply end_Read; [|exact Er]. lia.
    + intros [= <- <- <-]. exists "", v. rewrite app_str_nil_r. split_and!; [done| |by eapply later_Read|done].
      apply reads_poll. rewrite Ec. constructor.
Qed.

Lemma bounded_reads size limit sf rf fd w w' text r :
  0 < size → read_bounded size limit sf rf fd w = (w', (text, r)) →
  ∃ w1, reads fd w text w1 ∧ later others w1 w' ∧ (r = Complete → at_end fd text w1 w').
Proof. intros Hs (more & w1 & -> & H1)%bounded_loop_reads; [|done]. by exists w1. Qed.
End later_lemmas.
End runs.

(** ** filepath.WalkDir *)

Section walking.
Context {W : Type} `{FileSystem W} {S : Type}.

(** What the callback and the walk return; [Deeper] is that of a walk that
    runs out of fuel. *)
Inductive walked := WalkOk | SkipDir | WalkErr (e : error) | Deeper.

(** The callback: a path, its entry, the error of looking at it. *)
Variable fn : string → option DirEntry → option error → S → W → W * (S * walked).

Definition skipped_dir (d : DirEntry) (r : walked) : walked :=
  match r with SkipDir => if IsDir (Entry_Type d) then WalkOk else SkipDir | r => r end.

(** The entries of a directory, [walk] being the walk of one. *)
Fixpoint walk_entries (walk : string → DirEntry → S → W → W * (S * walked)) (path : string)
    (dirs : list DirEntry) (st : S) (w : W) : W * (S * walked) :=
  match dirs with
  | [] => (w, (st, WalkOk))
  | d :: dirs =>
      let '(w, (st, r)) := walk (path_Join path (Entry_Name d)) d st w in
      match r with
      | WalkOk => walk_entries walk path dirs st w
      | SkipDir => (w, (st, WalkOk))
      | r => (w, (st, r))
      end
  end.

Fixpoint walkDir (fuel : nat) (path : string) (d : DirEntry) (st : S) (w : W) : W * (S * walked) :=
  let '(w, (st, r)) := fn path (Some d) None st w in
  match r with
  | WalkOk =>
      if negb (IsDir (Entry_Type d)) then (w, (st, WalkOk)) else
      match fuel with
      | O => (w, (st, Deeper))
      | Datatypes.S fuel =>
          let '(w, (dirs, e)) := ReadDir path w in
          match e with
          | None => walk_entries (walkDir fuel) path dirs st w
          | Some _ =>
              let '(w, (st, r)) := fn path (Some d) e st w in
              match r with
              | WalkOk => walk_entries (walkDir fuel) path dirs st w
              | r => (w, (st, skipped_dir d r))
              end
          end
      end
  | r => (w, (st, skipped_dir d r))
  end.

Definition WalkDir (fuel : nat) (root : string) (st : S) (w : W) : W * (S * walked) :=
  let '(w, info) := Lstat root w in
  let '(w, (st, r)) :=
    match info with
    | Err e => fn root None (Some e) st w
    | Ok info => walkDir fuel root {| Entry_Name := path_Base root; Entry_Type := Z.land (Info_Mode info) ModeType;
                                      Entry_Info := Some info |} st w
    end in
  (w, (st, match r with SkipDir => WalkOk | r => r end)).

(** An invariant [P] of the callback and of looking at a path or directory,
    weakened to [Q] when the walk is broken off. *)
Definition goes_on (r : walked) : Prop := r = WalkOk ∨ r = SkipDir.

Definition keeps (P Q : W → S → Prop) (r : W * (S * walked)) : Prop :=
  (goes_on r.2.2 → P r.1 r.2.1) ∧ Q r.1 r.2.1.

Context (P Q : W → S → Prop) (HPQ : ∀ w st, P w st → Q w st).
Context (HLstat : ∀ path w st, P w st → P (Lstat path w).1 st).
Context (HReadDir : ∀ path w st, P w st → P (ReadDir path w).1 st).
Context (Hfn : ∀ path d e st w, P w st → keeps P Q (fn path d e st w)).

Lemma keeps_skipped d st r w : keeps P Q (w, (st, r)) → keeps P Q (w, (st, skipped_dir d r)).
Proof.
  intros [H1 H2]. split; [|done]. intros Hg. apply H1. destruct r; cbn in *; [by left|by right|done|done].
Qed.

Lemma walk_entries_keeps walk path dirs st w :
  (∀ path d st w, P w st → keeps P Q (walk path d st w)) → P w st → keeps P Q (walk_entries walk path dirs st w).
Proof.
  intros Hw. revert st w. induction dirs as [|d dirs IH]; intros st w Hp; cbn [walk_entries]; [by split; auto|].
  pose proof (Hw (path_Join path (Entry_Name d)) d st w Hp) as Hk.
  destruct (walk _ d st w) as [w1 [st1 r]]. destruct Hk as [H1 H2]. cbn [fst snd] in *.
  destruct r; [apply IH; apply H1; by left| | |]; split; cbn [fst snd]; auto; intros [?|?]; try done.
  apply H1. by right.
Qed.

Lemma walkDir_keeps fuel path d st w : P w st → keeps P Q (walkDir fuel path d st w).
Proof.
  revert path d st w. induction fuel as [|fuel IH]; intros path d st w Hp; cbn [walkDir];
    pose proof (Hfn path (Some d) None st w Hp) as Hk; destruct (fn _ _ _ st w) as [w1 [st1 r]];
    (destruct r; [|by apply keeps_skipped..]); destruct Hk as [H1 H2]; cbn [fst snd] in *;
    specialize (H1 (or_introl eq_refl)); (destruct (negb _); [by split; auto|]).
  - split; [|done]. intros [?|?]; done.
  - pose proof (HReadDir path w1 st1 H1) as Hd.
    destruct (ReadDir path w1) as [w2 [dirs [e|]]]; [|by apply walk_entries_keeps].
    pose proof (Hfn path (Some d) (Some e) st1 w2 Hd) as Hk. destruct (fn _ _ _ st1 w2) as [w3 [st2 r]].
    destruct r; [|by apply keeps_skipped..]. destruct Hk as [H3 _]. apply walk_entries_keeps; [done|].
    apply H3. by left.
Qed.

Lemma WalkDir_keeps fuel root st w : P w st → keeps P Q (WalkDir fuel root st w).
Proof.
  intros Hp. unfold WalkDir. pose proof (HLstat root w st Hp) as Hl. destruct (Lstat root w) as [w1 [info|e]].
  - pose proof (walkDir_keeps fuel root {| Entry_Name := path_Base root;
      Entry_Type := Z.land (Info_Mode info) ModeType; Entry_Info := Some info |} st w1 Hl) as [H1 H2].
    destruct (walkDir _ _ _ _ _) as [w2 [st2 r]]. split; [|done]. cbn [fst snd] in *. intros Hg. apply H1.
    destruct r; [by left|by right|done..].
  - pose proof (Hfn root None (Some e) st w1 Hl) as [H1 H2].
    destruct (fn _ _ _ _ _) as [w2 [st2 r]]. split; [|done]. cbn [fst snd] in *. intros Hg. apply H1.
    destruct r; [by left|by right|done..].
Qed.
End walking.

(** ** A system nobody else writes to *)

Record Still := {
  still_files : gmap string (FileInfo * string);
  still_dirs : gmap string (list DirEntry);
  still_open : gmap Z (FileInfo * string);
  still_next : Z;
}.

Definition with_open (open : gmap Z (FileInfo * string)) (s : Still) : Still := {|
  still_files := still_files s; still_dirs := still_dirs s; still_open := open; still_next := still_next s |}.

Fixpoint str_drop (n : nat) (s : string) : string :=
  match n, s with S n, String _ s => str_drop n s | _, _ => s end.

Definition no_file {A} (o : option A) : result A :=
  match o with Some a => Ok a | None => Err (Sentinel "fs.ErrNotExist") end.

Definition proper_name (s : string) : bool :=
  negb (String.eqb s "" || String.eqb s "." || String.eqb s ".." || in_chars "/" s).

Lemma proper_name_spec s : proper_name s = true → is_name s.
Proof.
  unfold proper_name, is_name, free_of. intros H. bool_prop. split_and!; try done.
  intros Hin. match goal with H : in_chars _ _ = false |- _ => unfold in_chars in H; bool_prop end.
  match goal with H : _ ∉ _ |- _ => apply H end. clear -Hin.
  induction s as [|c s IH]; cbn in *; [by apply not_elem_of_nil in Hin|].
  apply elem_of_cons in Hin as [E|Hin]; [|right; auto]. apply byte_inj in E as <-. left.
Qed.

#[export] Instance StillSystem : FileSystem Still := {|
  ctx_Err s := (s, None);
  Lstat path s := (s, fst <$> no_file (still_files s !! path));
  Open path s :=
    match still_files s !! path with
    | None => (s, no_file None)
    | Some f => ({| still_files := still_files s; still_dirs := still_dirs s;
                    still_open := <[still_next s := f]> (still_open s);
                    still_next := still_next s + 1 |}, Ok (still_next s))
    end;
  Fstat fd s := (s, fst <$> no_file (still_open s !! fd));
  Read fd n s :=
    match still_open s !! fd with
    | Some (info, String c rest) =>
        if n <=? 0 then (s, EndOfFile)
        else (with_open (<[fd := (info, str_drop (pred (Z.to_nat n)) rest)]> (still_open s)) s,
              Bytes c (str_take (pred (Z.to_nat n)) rest))
    | _ => (s, EndOfFile)
    end;
  Close fd s := with_open (delete fd (still_open s)) s;
  ReadDir path s := (s, match still_dirs s !! path with
                        | Some l => (filter (λ d, proper_name (Entry_Name d)) l, None)
                        | None => ([], Some (Sentinel "fs.ErrNotExist"))
                        end);
|}.

Lemma str_take_length n s : (String.length (str_take n s) ≤ n)%nat.
Proof. revert s. induction n as [|n IH]; intros [|c s]; cbn; try lia. specialize (IH s). lia. Qed.

Lemma str_take_drop n s : str_take n s +:+ str_drop n s = s.
Proof. revert s. induction n as [|n IH]; intros [|c s]; try done. cbn [str_take str_drop]. by rewrite app_str_cons, IH. Qed.

#[export] Instance still_laws : FileLaws Still.
Proof.
  split; [|intros path w d; cbn; destruct (still_dirs w !! path); cbn;
    [intros [Hn _]%list_elem_of_filter; by apply proper_name_spec, Is_true_true|set_solver]].
  intros fd n w w' c s. cbn. destruct (still_open w !! fd) as [[info [|a t]]|]; try done.
  destruct (n <=? 0) eqn:E; [done|]. intros [= <- -> <-].
  pose proof (str_take_length (pred (Z.to_nat n)) t). unfold slen. cbn [String.length]. bool_prop. lia.
Qed.

(** The loop reads what is left of the file, if that is within the limit. *)
Lemma bounded_loop_still fuel size limit sf rf fd content rest info s :
  0 < size → slen (content +:+ rest) = Info_Size info → Info_Size info ≤ limit →
  slen rest ≤ Z.of_nat fuel → still_open s !! fd = Some (info, rest) →
  bounded_loop fuel size limit sf rf fd content s =
    (with_open (<[fd := (info, "")]> (still_open s)) s, (content +:+ rest, Complete)).
Proof.
  intros Hs Hi Hl. revert content rest s Hi. induction fuel as [|fuel IH]; intros content rest s Hi Hf Ho.
  - assert (rest = "") as -> by (destruct rest as [|c r]; [done|unfold slen in Hf; cbn [String.length] in Hf; lia]).
    rewrite app_str_nil_r in *. rewrite insert_id by done.
    assert (at_bound sf fd content s = (s, (content, Complete))) as Ha.
    { unfold at_bound. cbn [Fstat StillSystem]. rewrite Ho. cbn [no_file fmap result_fmap fst].
      by rewrite (proj2 (Z.ltb_ge _ _)) by lia. }
    cbn [bounded_loop ctx_Err StillSystem]. rewrite Ha. destruct s. by destruct (_ <=? 0).
  - cbn [bounded_loop ctx_Err StillSystem]. destruct (limit - slen content <=? 0) eqn:E.
    + bool_prop. assert (rest = "") as ->.
      { destruct rest as [|c r]; [done|]. unfold slen in *. rewrite length_app_str in Hi. cbn [String.length] in Hi. lia. }
      rewrite app_str_nil_r in *. rewrite insert_id by done. unfold at_bound. cbn [Fstat StillSystem].
      rewrite Ho. cbn [no_file fmap result_fmap fst]. rewrite (proj2 (Z.ltb_ge _ _)) by lia. by destruct s.
    + bool_prop. cbn [Read StillSystem]. rewrite Ho. destruct rest as [|c r].
      * rewrite app_str_nil_r, insert_id by done. by destruct s.
      * rewrite (proj2 (Z.leb_gt _ _)) by lia. set (k := pred (Z.to_nat (Z.min (limit - slen content) size))).
        assert ((content +:+ String c (str_take k r)) +:+ str_drop k r = content +:+ String c r) as Hc.
        { by rewrite app_str_assoc, app_str_cons, str_take_drop. }
        rewrite (IH _ (str_drop k r)); [..|cbn; by rewrite lookup_insert_eq].
        -- cbn. rewrite Hc, insert_insert_eq. done.
        -- by rewrite Hc.
        -- apply (f_equal String.length) in Hc. unfold slen in *. rewrite !length_app_str in Hc.
           cbn [String.length] in *. lia.
Qed.

Lemma read_bounded_still size limit sf rf fd content info s :
  0 < size → slen content = Info_Size info → Info_Size info ≤ limit →
  still_open s !! fd = Some (info, content) →
  read_bounded size limit sf rf fd s =
    (with_open (<[fd := (info, "")]> (still_open s)) s, (content, Complete)).
Proof. intros Hs Hc Hl Ho. apply (bounded_loop_still _ _ _ _ _ _ "" content); try done. unfold slen in *. lia. Qed.

(** ** Clean paths

    The normal form of a cleaned path: rooted or not, with its elements.
    [path_Clean] gives it and keeps it; joining a name adds an element;
    [path_Rel] of a path below another gives the elements in between. *)

(** The elements of a relative path may go up first. *)
Definition normal (rooted : bool) (es : list string) : Prop :=
  ∃ k names, es = replicate k ".." ++ names ∧ Forall is_name names ∧ (rooted = true → k = O).

Definition render (rooted : bool) (es : list string) : string :=
  if rooted then "/" +:+ join "/" es else match es with [] => "." | _ => join "/" es end.

(** ** Elements of clean paths *)

Lemma free_of_dots : free_of "/" "..".
Proof. unfold free_of. cbn. set_solver. Qed.

Lemma normal_free rooted es : normal rooted es → Forall (free_of "/") es.
Proof.
  intros (k & names & -> & Hn & _). apply Forall_app. split.
  - apply Forall_replicate, free_of_dots.
  - eapply Forall_impl; [exact Hn|]. by intros s (_ & _ & _ & ?).
Qed.

Lemma normal_snoc rooted es name : normal rooted es → is_name name → normal rooted (es ++ [name]).
Proof.
  intros (k & names & -> & Hn & Hk) Hname. exists k, (names ++ [name]). split_and!; [by rewrite app_assoc| |done].
  apply Forall_app_2; [done|by constructor].
Qed.

Lemma normal_app rooted es names : normal rooted es → Forall is_name names → normal rooted (es ++ names).
Proof.
  intros (k & ns & -> & Hn & Hk) Hnames. exists k, (ns ++ names). split_and!; [by rewrite app_assoc| |done].
  by apply Forall_app_2.
Qed.

Lemma normal_nonempty rooted es e : normal rooted es → e ∈ es → e ≠ "".
Proof.
  intros (k & names & -> & Hn & _) [He|He]%elem_of_app.
  - by apply elem_of_replicate in He as [-> _].
  - rewrite Forall_forall in Hn. by destruct (Hn e He).
Qed.

Lemma split_render rooted es :
  normal rooted es →
  split_on "/" (render rooted es) =
    (if rooted then [""] else []) ++ match es with [] => [if rooted then "" else "."] | _ => es end.
Proof.
  intros Hn. pose proof (normal_free _ _ Hn) as Hf. unfold render. destruct rooted.
  - change ("/" +:+ join "/" es) with ("" +:+ String "/" (join "/" es)).
    rewrite split_on_cut by (unfold free_of; cbn; set_solver). destruct es as [|e es]; [done|].
    cbn [app]. f_equal. by apply (split_join "/").
  - destruct es as [|e es]; [done|]. by apply (split_join "/").
Qed.

Lemma render_rooted rooted es : normal rooted es → has_prefix (render rooted es) "/" = rooted.
Proof.
  intros Hn. unfold render. destruct rooted; [done|]. destruct es as [|e es]; [done|].
  pose proof (normal_nonempty _ _ e Hn ltac:(left)) as He. pose proof (normal_free _ _ Hn) as [Hf _]%Forall_cons.
  destruct e as [|c e]; [done|]. assert (join "/" (String c e :: es) = String c (e +:+ match es with [] => "" | _ => "/" +:+ join "/" es end)) as ->.
  { destruct es; [cbn [join]; by rewrite app_str_nil_r|done]. }
  apply free_of_cons in Hf as [Hc _]. unfold has_prefix. cbn [strip_prefix].
  by rewrite (proj2 (Ascii.eqb_neq _ _)) by done.
Qed.

Lemma render_nonempty rooted es : normal rooted es → render rooted es ≠ "".
Proof.
  intros Hn. unfold render. destruct rooted; [done|]. destruct es as [|e es]; [done|].
  pose proof (normal_nonempty _ _ e Hn ltac:(left)) as He. destruct e; [done|]. by destruct es.
Qed.

(** ** Cleaning *)

Lemma clean_stack_app rooted stack es es' :
  clean_stack rooted stack (es ++ es') = clean_stack rooted (clean_stack rooted stack es) es'.
Proof.
  revert stack. induction es as [|e es IH]; intros stack; [done|]. cbn [app clean_stack].
  destruct (_ || _); [done|]. destruct (String.eqb e ".."); [|done].
  destruct stack as [|top stack]; [done|]. by destruct (String.eqb top "..").
Qed.

Lemma clean_stack_name rooted stack name : is_name name → clean_stack rooted stack [name] = name :: stack.
Proof.
  intros (H1 & H2 & H3 & _). cbn [clean_stack].
  by rewrite !(proj2 (String.eqb_neq _ _)) by done.
Qed.

Lemma clean_stack_names rooted stack names :
  Forall is_name names → clean_stack rooted stack names = reverse names ++ stack.
Proof.
  revert stack. induction names as [|n names IH]; intros stack; [done|]. intros [Hn Hns]%Forall_cons.
  change (n :: names) with ([n] ++ names). rewrite clean_stack_app, clean_stack_name, IH by done.
  by rewrite reverse_app, <-app_assoc.
Qed.

Lemma clean_stack_ups k j :
  clean_stack false (replicate j "..") (replicate k "..") = replicate (k + j) "..".
Proof.
  revert j. induction k as [|k IH]; intros j; [done|]. cbn [replicate].
  change (clean_stack false (replicate j "..") (".." :: replicate k ".."))
    with (match replicate j ".." with
          | [] => clean_stack false [".."] (replicate k "..")
          | top :: stack' => if String.eqb top ".." then clean_stack false (".." :: replicate j "..") (replicate k "..")
                             else clean_stack false stack' (replicate k "..") end).
  destruct j as [|j]; cbn [replicate].
  - etrans; [exact (IH 1%nat)|]. by rewrite Nat.add_1_r, Nat.add_0_r.
  - rewrite String.eqb_refl. etrans; [exact (IH (S (S j)))|]. by rewrite !Nat.add_succ_r.
Qed.

Lemma clean_stack_normal rooted es : normal rooted es → clean_stack rooted [] es = reverse es.
Proof.
  intros (k & names & -> & Hn & Hk). rewrite clean_stack_app, reverse_app.
  rewrite clean_stack_names by done. f_equal. destruct rooted; [by rewrite (Hk eq_refl)|].
  etrans; [exact (clean_stack_ups k 0)|]. rewrite Nat.add_0_r. clear. induction k as [|k IH]; [done|].
  cbn [replicate]. rewrite reverse_cons, <-IH. by rewrite <-replicate_S_end.
Qed.

Lemma clean_render rooted es : normal rooted es → clean_stack rooted [] (split_on "/" (render rooted es)) = reverse es.
Proof.
  intros Hn. rewrite split_render by done. rewrite clean_stack_app.
  assert (clean_stack rooted [] (if rooted then [""] else []) = []) as -> by (by destruct rooted).
  destruct es as [|e es]; [by destruct rooted|]. by apply clean_stack_normal.
Qed.

(** What is left on the stack has the normal form. *)
Lemma normal_reverse_cons rooted top stack :
  normal rooted (reverse (top :: stack)) →
  normal rooted (reverse stack) ∧ (top ≠ ".." → is_name top) ∧ (top = ".." → ∀ e, e ∈ stack → e = "..").
Proof.
  rewrite reverse_cons. intros (k & names & He & Hn & Hk).
  induction names as [|x names' _] using rev_ind.
  - rewrite app_nil_r in He. destruct k as [|k]; [by destruct (reverse stack)|].
    rewrite replicate_S_end in He. apply app_inj_tail in He as [He ->]. split_and!.
    + exists k, []. rewrite app_nil_r. split_and!; [done|done|]. intros Hr. by specialize (Hk Hr).
    + done.
    + intros _ e Hin. assert (e ∈ reverse stack) as Hin' by (by rewrite elem_of_reverse).
      rewrite He in Hin'. by apply elem_of_replicate in Hin' as [-> _].
  - rewrite app_assoc in He. apply app_inj_tail in He as [He ->].
    apply Forall_app in Hn as [Hn [Hx _]%Forall_cons]. split_and!; [by exists k, names'|done|].
    intros ->. by destruct Hx as (_ & _ & ? & _).
Qed.

Lemma clean_stack_ok rooted stack es :
  Forall (free_of "/") es → normal rooted (reverse stack) → normal rooted (reverse (clean_stack rooted stack es)).
Proof.
  revert stack. induction es as [|e es IH]; intros stack Hf Hs; [done|].
  apply Forall_cons in Hf as [He Hf]. cbn [clean_stack]. destruct (_ || _) eqn:E1; [by apply IH|].
  destruct (String.eqb e "..") eqn:E2.
  - bool_prop. subst e. destruct stack as [|top stack].
    + apply IH; [done|]. destruct rooted; [done|]. by exists 1%nat, [].
    + apply normal_reverse_cons in Hs as Hs'. destruct Hs' as (Hs' & H1 & H2).
      destruct (String.eqb top "..") eqn:E3; [|by apply IH]. bool_prop. subst top. apply IH; [done|].
      destruct Hs as (k & names & He' & Hn & Hk). exists (S k), []. rewrite app_nil_r.
      assert (∀ e, e ∈ reverse (".." :: stack) → e = "..") as Hall.
      { intros e Hin. rewrite elem_of_reverse in Hin. apply elem_of_cons in Hin as [->|Hin]; [done|auto]. }
      rewrite He' in Hall. assert (names = []) as ->.
      { destruct names as [|n names]; [done|]. apply Forall_cons in Hn as [(_ & _ & Hn & _) _].
        by destruct Hn; apply Hall; set_solver. }
      rewrite app_nil_r in He'. split_and!; [|done|].
      * rewrite reverse_cons, He'. by rewrite <-replicate_S_end.
      * intros Hr. rewrite (Hk Hr) in He'. rewrite reverse_cons in He'. by destruct (reverse stack).
  - apply IH; [done|]. rewrite reverse_cons. apply normal_snoc; [done|]. bool_prop. done.
Qed.

Lemma split_free c s : Forall (free_of c) (split_on c s).
Proof.
  assert (free_of c "") as H0 by (unfold free_of; cbn; set_solver).
  induction s as [|a s IH]; cbn [split_on]; [by constructor|].
  destruct (Ascii.eqb_spec a c) as [->|Hn]; [by constructor|].
  destruct (split_on c s) as [|x l]; [constructor; [by apply free_of_cons|done]|].
  apply Forall_cons in IH as [Hx Hl]. constructor; [by apply free_of_cons|done].
Qed.

(** The result of [path_Clean] has the normal form. *)
Lemma path_Clean_rooted p :
  ∃ es, path_Clean p = render (has_prefix p "/") es ∧ normal (has_prefix p "/") es.
Proof.
  set (es := reverse (clean_stack (has_prefix p "/") [] (split_on "/" p))).
  assert (normal (has_prefix p "/") es) as Hn.
  { apply clean_stack_ok; [apply split_free|]. by exists O, []. }
  exists es. split; [|done]. unfold path_Clean, render. fold es.
  destruct (has_prefix p "/"); [done|]. destruct es as [|e es'] eqn:E; [done|].
  destruct (String.eqb _ "") eqn:Ej; [|done]. bool_prop. exfalso.
  apply (render_nonempty _ _ Hn). done.
Qed.

Lemma path_Clean_normal p :
  ∃ rooted es, path_Clean p = render rooted es ∧ normal rooted es.
Proof. destruct (path_Clean_rooted p) as (es & H). by exists (has_prefix p "/"), es. Qed.

Lemma path_Clean_id rooted es : normal rooted es → path_Clean (render rooted es) = render rooted es.
Proof.
  intros Hn. unfold path_Clean. rewrite render_rooted, clean_render, reverse_involutive by done.
  unfold render. destruct rooted; [done|]. destruct es as [|e es]; [done|].
  destruct (String.eqb _ "") eqn:Ej; [|done]. bool_prop. by destruct (render_nonempty _ _ Hn).
Qed.

(** ** Joining and comparing *)

Lemma render_prefix rooted es name :
  normal rooted es → has_prefix (render rooted es +:+ "/" +:+ name) "/" = rooted.
Proof.
  intros Hn. pose proof (render_rooted rooted es Hn) as Hr. pose proof (render_nonempty _ _ Hn) as He.
  destruct (render rooted es) as [|c t]; [done|]. rewrite <-Hr. unfold has_prefix. rewrite app_str_cons. cbn [strip_prefix]. by destruct (Ascii.eqb "/" c).
Qed.

Lemma path_Join_name rooted es name :
  normal rooted es → is_name name → path_Join (render rooted es) name = render rooted (es ++ [name]).
Proof.
  intros Hn Hname. pose proof Hname as (H1 & _ & _ & Hf). unfold path_Join.
  rewrite (proj2 (String.eqb_neq _ _) (render_nonempty _ _ Hn)), (proj2 (String.eqb_neq _ _) H1).
  rewrite <-(path_Clean_id rooted (es ++ [name])) by (by apply normal_snoc).
  unfold path_Clean. rewrite render_prefix, render_rooted by (try apply normal_snoc; done).
  rewrite clean_render by (by apply normal_snoc).
  change ("/" +:+ name) with (String "/" name). rewrite split_on_app by done.
  rewrite clean_stack_app, clean_render, clean_stack_name by done. by rewrite reverse_app.
Qed.

Lemma relative_prefix es names : relative es (es ++ names) = Some (join "/" names).
Proof. induction es as [|e es IH]; [done|]. cbn [relative app]. by rewrite String.eqb_refl. Qed.

Lemma elements_render rooted es :
  normal rooted es → es ≠ [] ∨ rooted = true →
  path_elements (render rooted es) = (if rooted then [""] else []) ++ es.
Proof.
  intros Hn Hr. unfold path_elements. pose proof (split_render _ _ Hn) as Hs.
  rewrite (proj2 (String.eqb_neq _ "") (render_nonempty _ _ Hn)).
  destruct (String.eqb (render rooted es) "/") eqn:E.
  - bool_prop. rewrite E in Hs. cbn in Hs. destruct rooted.
    + destruct es as [|e es]; [done|]. injection Hs as <- <-. pose proof (normal_nonempty _ _ "" Hn ltac:(left)). done.
    + destruct es as [|e es]; [by destruct Hr|]. injection Hs as <- <-.
      pose proof (normal_nonempty _ _ "" Hn ltac:(left)). done.
  - rewrite Hs. destruct es as [|e es]; [|done]. destruct rooted; [|by destruct Hr].
    unfold render in E. cbn in E. done.
Qed.

Lemma path_Rel_below rooted es names :
  normal rooted es → Forall is_name names →
  path_Rel (render rooted es) (render rooted (es ++ names)) =
    Some (match names with [] => "." | _ => join "/" names end).
Proof.
  intros Hn Hnames. pose proof (normal_app _ _ _ Hn Hnames) as Hn'. unfold path_Rel. cbv zeta.
  rewrite !path_Clean_id by done. destruct names as [|name names]; [by rewrite app_nil_r, String.eqb_refl|].
  assert (es ++ name :: names ≠ []) as Hne by (by destruct es).
  assert (String.eqb (render rooted (es ++ name :: names)) (render rooted es) = false) as ->.
  { apply String.eqb_neq. intros He. apply (f_equal (split_on "/")) in He.
    rewrite !split_render in He by done. apply app_inv_head in He.
    apply Forall_cons in Hnames as [(H1 & H2 & _) _]. destruct es as [|e es].
    - destruct rooted; by injection He as ->.
    - apply (f_equal length) in He. cbn [app length] in He. rewrite length_app in He. cbn [length] in He. lia. }
  assert (IsAbs (render rooted (es ++ name :: names)) = rooted) as -> by (by apply render_rooted).
  destruct (String.eqb (render rooted es) ".") eqn:E; bool_prop.
  - assert (es = [] ∧ rooted = false) as [-> ->].
    { pose proof (split_render _ _ Hn) as Hs. rewrite E in Hs. destruct rooted; [done|].
      destruct es as [|e es]; [done|]. injection Hs as <- <-. destruct Hn as (k & ns & He & Hns & _).
      destruct k as [|k]; [|done]. cbn in He. subst ns. apply Forall_cons in Hns as [(_ & H2 & _) _]. done. }
    cbn [app negb eqb IsAbs has_prefix strip_prefix]. rewrite elements_render by (done || by left).
    apply (relative_prefix []).
  - assert (IsAbs (render rooted es) = rooted) as -> by (by apply render_rooted).
    rewrite eqb_reflx. cbn [negb].
    assert (es ≠ [] ∨ rooted = true) as Hr.
    { destruct es; [|by left]. destruct rooted; [by right|done]. }
    rewrite !elements_render by (done || by left). rewrite app_assoc. apply relative_prefix.
Qed.

Lemma relative_depth names :
  Forall is_name names →
  (let relative := match names with [] => "." | _ => join "/" names end in
   if String.eqb relative "." then 0 else Z.of_nat (length (split_on "/" relative))) = Z.of_nat (length names).
Proof.
  intros Hn. destruct names as [|n names]; [done|]. cbv zeta.
  assert (split_on "/" (join "/" (n :: names)) = n :: names) as Hs.
  { apply (split_join "/"); [done|]. eapply Forall_impl; [exact Hn|]. by intros s (_ & _ & _ & ?). }
  destruct (String.eqb _ ".") eqn:E; [|by rewrite Hs]. bool_prop. rewrite E in Hs. injection Hs as <- <-.
  apply Forall_cons in Hn as [(_ & ? & _) _]. done.
Qed.
