(* ===== verification/ScannerContract.v ===== *)
(** * Package scanner: the coverage report

    [internal/scanner/contract.go]: what a scan left out, one summary for each
    limit it reached.  The accumulator is a map by limit code; the theorem
    relates its report to the sequence of calls of [add]. *)

From S2P Require Import Prelude GoString.
#[local] Open Scope Z_scope.

Definition SecretResultSchema : string := "io.oh-my-safety/secret-scan".
Definition SecretResultSchemaVersion : Z := 1.
Definition ExecutableResultSchema : string := "io.oh-my-safety/executable-triage".
Definition ExecutableResultSchemaVersion : Z := 1.
Definition SecretScannerID : string := "local-secret-scanner".
Definition ExecutableScannerID : string := "changed-executable-triage".

Definition CoverageFindingLimit : string := "coverage_limit".
Definition CoverageMaxFileBytes : string := "max_file_bytes".
Definition CoverageMaxTotalBytes : string := "max_total_bytes".
Definition CoverageMaxDepth : string := "max_depth".
Definition CoverageMaxFiles : string := "max_files".
Definition CoverageMaxFindings : string := "max_findings".

Record CoverageLimitFinding := {
  Coverage_Kind : string; Coverage_ScannerID : string; Code : string; Coverage_Path : string;
  Limit : Z; Observed : Z; Occurrences : Z;
}.

Record coverageAccumulator := { scannerID : string; byCode : gmap string CoverageLimitFinding }.

Definition newCoverageAccumulator (scannerID : string) : coverageAccumulator :=
  {| scannerID := scannerID; byCode := ∅ |}.

Definition add (code path : string) (limit observed : Z) (a : coverageAccumulator) : coverageAccumulator :=
  let finding := match byCode a !! code with
    | None => {|
        Coverage_Kind := CoverageFindingLimit; Coverage_ScannerID := scannerID a; Code := code;
        Coverage_Path := path; Limit := limit; Observed := observed; Occurrences := 1 |}
    | Some finding => {|
        Coverage_Kind := Coverage_Kind finding; Coverage_ScannerID := Coverage_ScannerID finding;
        Code := Code finding;
        Coverage_Path := if negb (String.eqb path "")
                            && (String.eqb (Coverage_Path finding) "" || str_ltb path (Coverage_Path finding))
                         then path else Coverage_Path finding;
        Limit := Limit finding;
        Observed := if Observed finding <? observed then observed else Observed finding;
        Occurrences := Occurrences finding + 1 |}
    end in
  {| scannerID := scannerID a; byCode := <[code := finding]> (byCode a) |}.

Definition finding_less : CoverageLimitFinding → CoverageLimitFinding → bool :=
  lex_by Code String.eqb str_ltb (λ a b, str_ltb (Coverage_Path a) (Coverage_Path b)).

Definition findings (a : coverageAccumulator) : list CoverageLimitFinding :=
  sort_by finding_less (map_to_list (byCode a)).*2.

(** ** What is reported *)

(** One call of [add]. *)
Record limit_hit := { hit_code : string; hit_path : string; hit_limit : Z; hit_observed : Z }.

Definition add_hit (a : coverageAccumulator) (h : limit_hit) : coverageAccumulator :=
  add (hit_code h) (hit_path h) (hit_limit h) (hit_observed h) a.
Definition reported (id : string) (hits : list limit_hit) : coverageAccumulator :=
  foldl add_hit (newCoverageAccumulator id) hits.

(** What the calls with one code amount to. *)
Record summary_of (id : string) (hits : list limit_hit) (f : CoverageLimitFinding) : Prop := {
  summary_kind : Coverage_Kind f = CoverageFindingLimit;
  summary_scanner : Coverage_ScannerID f = id;
  summary_code h : h ∈ hits → hit_code h = Code f;
  summary_limit : head (hit_limit <$> hits) = Some (Limit f);
  summary_occurrences : Occurrences f = Z.of_nat (length hits);
  summary_observed : Observed f ∈ hit_observed <$> hits;
  summary_most h : h ∈ hits → hit_observed h ≤ Observed f;
  summary_path : Coverage_Path f ∈ hit_path <$> hits;
  summary_first h : h ∈ hits → hit_path h ≠ "" →
    Coverage_Path f ≠ "" ∧ str_ltb (hit_path h) (Coverage_Path f) = false;
}.

Definition of_code (code : string) (hits : list limit_hit) : list limit_hit :=
  filter (λ h, hit_code h = code) hits.

Lemma summary_snoc id hits f h a :
  summary_of id hits f → byCode a !! hit_code h = Some f → hit_code h = Code f →
  ∃ f', byCode (add_hit a h) !! hit_code h = Some f' ∧ summary_of id (hits ++ [h]) f'.
Proof.
  intros [Hk Hi Hc Hl Ho Hm1 Hm2 Hp1 Hp2] Ha Hcode. unfold add_hit, add. rewrite Ha. cbn [byCode].
  eexists. split; [by rewrite lookup_insert_eq|].
  assert (hits ≠ []) as Hne by (intros ->; done).
  split; cbn [Coverage_Kind Coverage_ScannerID Code Limit Occurrences Observed Coverage_Path]; try done.
  - intros h' [?| ->%list_elem_of_singleton]%elem_of_app; auto.
  - by destruct hits.
  - rewrite length_app. cbn. lia.
  - rewrite fmap_app, elem_of_app. destruct (_ <? _); set_solver.
  - intros h' [Hin| ->%list_elem_of_singleton]%elem_of_app; [apply Hm2 in Hin|];
      destruct (_ <? _) eqn:E; bool_prop; lia.
  - rewrite fmap_app, elem_of_app. destruct (negb _ && _); set_solver.
  - intros h' Hin Hne'. destruct (negb (String.eqb (hit_path h) "") && _) eqn:E.
    + bool_prop. split; [done|].
      apply elem_of_app in Hin as [Hin| ->%list_elem_of_singleton]; [|apply str_ltb_irrefl].
      destruct (Hp2 h' Hin Hne') as [Hn Hlt]. rewrite (proj2 (String.eqb_neq _ _) Hn) in *. cbn [orb] in *.
      destruct (str_ltb (hit_path h') (hit_path h)) eqn:E'; [|done].
      pose proof (str_ltb_trans _ _ _ E' ltac:(eassumption)). congruence.
    + apply elem_of_app in Hin as [Hin| ->%list_elem_of_singleton]; [auto|].
      rewrite (proj2 (String.eqb_neq _ _) Hne') in E. cbn [negb andb] in E. by bool_prop.
Qed.

Lemma reported_scanner id hits : scannerID (reported id hits) = id.
Proof. induction hits as [|h hits IH] using rev_ind; [done|]. unfold reported in *. by rewrite foldl_snoc. Qed.

Lemma summary_lookup id hits code :
  match byCode (reported id hits) !! code with
  | Some f => Code f = code ∧ of_code code hits ≠ [] ∧ summary_of id (of_code code hits) f
  | None => of_code code hits = []
  end.
Proof.
  induction hits as [|h hits IH] using rev_ind; [done|].
  unfold reported, of_code in *. rewrite foldl_snoc, filter_app. set (a := foldl add_hit _ hits) in *.
  destruct (decide (hit_code h = code)) as [<-|Hn].
  - rewrite filter_cons_True, filter_nil by done.
    destruct (byCode a !! hit_code h) as [f|] eqn:E.
    + destruct IH as (Hc & Hne & Hs). destruct (summary_snoc _ _ _ h a Hs E ltac:(done)) as (f' & -> & Hs').
      split_and!; [|by destruct (filter _ _)|done]. symmetry. apply (summary_code _ _ _ Hs'). set_solver.
    + rewrite IH. unfold add_hit, add. rewrite E. cbn [byCode]. rewrite lookup_insert_eq. cbn.
      split_and!; [done..|]. rewrite (reported_scanner id hits : scannerID a = id). split; cbn; try done; try set_solver.
      * intros h' ->%list_elem_of_singleton. split; [done|]. apply str_ltb_irrefl.
  - rewrite filter_cons_False, filter_nil, app_nil_r by done.
    unfold add_hit, add. destruct (byCode a !! hit_code h); cbn [byCode]; by rewrite lookup_insert_ne.
Qed.

#[export] Instance finding_less_strict : StrictLess finding_less.
Proof.
  apply lex_by_strict; [apply str_eqb_eq| |apply str_ltb_strict|apply (less_on_strict Coverage_Path), str_ltb_strict].
  intros x y Hx Hy. destruct (decide (x = y)) as [|Hn]; [done|]. destruct (str_ltb_total x y); congruence.
Qed.

Lemma elem_of_findings a f :
  f ∈ findings a ↔ ∃ code, byCode a !! code = Some f.
Proof.
  unfold findings. rewrite elem_of_sort_by, list_elem_of_fmap. split.
  - intros ([code f'] & -> & H). apply elem_of_map_to_list in H. by exists code.
  - intros (code & H). exists (code, f). split; [done|]. by apply elem_of_map_to_list.
Qed.

Lemma report_code id hits code f :
  byCode (reported id hits) !! code = Some f →
  Code f = code ∧ of_code code hits ≠ [] ∧ summary_of id (of_code code hits) f.
Proof. intros H. pose proof (summary_lookup id hits code) as Hl. by rewrite H in Hl. Qed.

Lemma report_codes id hits : NoDup (Code <$> findings (reported id hits)).
Proof.
  unfold findings. rewrite (sort_by_perm finding_less).
  assert (Code <$> (map_to_list (byCode (reported id hits))).*2 =
    (map_to_list (byCode (reported id hits))).*1) as ->; [|apply NoDup_fst_map_to_list].
  rewrite <-list_fmap_compose. apply list_fmap_ext. intros i [code f] H%list_elem_of_lookup_2.
  apply elem_of_map_to_list in H. by apply report_code in H as [? _].
Qed.

Lemma sorted_by_code l : StronglySorted (le_by finding_less) l → NoDup (Code <$> l) →
  StronglySorted (λ f g, str_ltb (Code f) (Code g) = true) l.
Proof.
  induction 1 as [|f l Hl IH Hf]; cbn; [constructor|]. intros [Hn Hnd]%NoDup_cons.
  constructor; [by apply IH|]. rewrite Forall_forall in *. intros g Hg. specialize (Hf g Hg).
  unfold le_by, finding_less, lex_by in Hf.
  destruct (String.eqb (Code g) (Code f)) eqn:E.
  - apply String.eqb_eq in E. destruct Hn. rewrite <-E. by apply list_elem_of_fmap_2.
  - apply String.eqb_neq in E. destruct (str_ltb (Code f) (Code g)) eqn:E2; [done|].
    by destruct (str_ltb_total _ _ E2 Hf).
Qed.

(** The coverage report of a scan has one entry for each limit that was
    reached, in the order of the codes: it counts the reports of that limit,
    keeps its first bound, the largest amount observed and the least path that
    is not empty. *)
Theorem findings_summary id hits :
  let report := findings (reported id hits) in
  StronglySorted (λ f g, str_ltb (Code f) (Code g) = true) report ∧
  (∀ code, code ∈ Code <$> report ↔ code ∈ hit_code <$> hits) ∧
  ∀ f, f ∈ report → summary_of id (of_code (Code f) hits) f.
Proof.
  intros report. subst report. split_and!.
  - apply sorted_by_code; [apply sort_by_sorted, _|apply report_codes].
  - intros code. rewrite !list_elem_of_fmap. split.
    + intros (f & -> & (code0 & H)%elem_of_findings). apply report_code in H as (Hc & Hne & _). subst code0.
      unfold of_code in Hne. destruct (filter _ hits) as [|h l] eqn:E; [done|].
      assert (h ∈ filter (λ h, hit_code h = Code f) hits) as [? ?]%list_elem_of_filter by (rewrite E; set_solver).
      by exists h.
    + intros (h & -> & Hin). pose proof (summary_lookup id hits (hit_code h)) as Hl.
      destruct (_ !! hit_code h) as [f|] eqn:E.
      * exists f. split; [by destruct Hl|]. apply elem_of_findings. by exists (hit_code h).
      * assert (h ∈ of_code (hit_code h) hits) as Hin' by (by apply list_elem_of_filter). rewrite Hl in Hin'. set_solver.
  - intros f (code & H)%elem_of_findings. by apply report_code in H as (-> & _ & ?).
Qed.
