(* ===== verification/ScannerExecutable.v ===== *)
(** * Package scanner: triage of executables

    [internal/scanner/executable.go], [ownership_unix.go]: the candidates of a
    change collector are looked at in the order of their paths, within bounds
    on files and bytes.  The file system and the context are the class
    [FileSystem]; the lookup of the owning package, which the caller supplies,
    acts on the same world.  A call that fails returns what it has so far. *)

From S2P Require Import Prelude GoString GoLib GoTime Json Model GoCrypto GoFile ScannerContract.
#[local] Open Scope Z_scope.

Record ExecutableLimits := { MaxFileBytes : Z; MaxTotalBytes : Z; MaxFiles : Z }.

Definition DefaultExecutableLimits : ExecutableLimits :=
  {| MaxFileBytes := 268435456; MaxTotalBytes := 1073741824; MaxFiles := 2000 |}.

Record ExecutableCandidate := { Path : string; New : bool }.

Definition PackageOwnershipUnknown : string := "unknown".
Definition PackageOwnershipOwned : string := "owned".
Definition PackageOwnershipUnowned : string := "unowned".
Record PackageOwnership := { Status : string; Package : string }.

Definition AssessmentSuspicious : string := "suspicious".
Definition AssessmentUnknown : string := "unknown".
Record TriageSignal := { Signal_ID : string; Assessment : string }.

Record FileOwnership := { Known : bool; UID : Z; GID : Z }.

Record ExecutableRecord := {
  Record_Path : string; SHA256 : string; Mode : string; Size : Z; Ownership : FileOwnership;
  Record_Package : PackageOwnership; Signals : list TriageSignal;
}.

Record ExecutableStats := {
  FilesConsidered : Z; FilesTriaged : Z; BytesHashed : Z; MissingSkipped : Z; SymlinksSkipped : Z;
  NonRegularSkipped : Z; NonExecutableSkipped : Z; OversizeSkipped : Z;
}.

Record ExecutableResult := {
  Schema : string; SchemaVersion : Z; ScannerID : string; Executables : list ExecutableRecord;
  Coverage : list CoverageLimitFinding; Stats : ExecutableStats;
}.

#[export] Instance limits_eq_dec : EqDecision ExecutableLimits.
Proof. solve_decision. Defined.

(** ** Paths and modes *)

(** [ownershipFromFileInfo] on Linux and macOS *)
Definition ownershipFromFileInfo (info : FileInfo) : FileOwnership :=
  match Sys info with
  | None => {| Known := false; UID := 0; GID := 0 |}
  | Some stat => {| Known := true; UID := Uid stat; GID := Gid stat |}
  end.

(** Four octal digits. *)
Definition octal4 (value : Z) : string :=
  of_chars (digit <$> [value / 512 mod 8; value / 64 mod 8; value / 8 mod 8; value mod 8]).

Definition normalizedMode (mode : Z) : string :=
  let value := Perm mode in
  let value := if mode_has mode ModeSetuid then Z.lor value 2048 else value in
  let value := if mode_has mode ModeSetgid then Z.lor value 1024 else value in
  let value := if mode_has mode ModeSticky then Z.lor value 512 else value in
  if 511 <? value then "0" +:+ octal4 value else octal4 value.

Example normalizedMode_1 :
  normalizedMode <$> [493; 493 + ModeSetuid; 511 + ModeSticky + ModeDir] = ["0755"; "04755"; "01777"].
Proof. reflexivity. Qed.

Definition withinPath `{Environment} (root path : string) : bool :=
  match path_Abs root, path_Abs path with
  | Ok root, Ok path =>
      match path_Rel root path with
      | Some relative =>
          String.eqb relative "."
          || negb (String.eqb relative "..") && negb (has_prefix relative "../")
      | None => false
      end
  | _, _ => false
  end.

Definition riskyExecutableLocation `{Environment} (path : string) : bool :=
  let absolute := match path_Abs path with Ok absolute => absolute | Err _ => path_Clean path end in
  existsb (λ root, withinPath root absolute)
    [TempDir; "/tmp"; "/var/tmp"; "/private/tmp"; "/private/var/tmp"; "/private/var/folders"]
  || existsb (field_match "Downloads") (split_on "/" (path_Clean path)).

Definition signal_less (a b : TriageSignal) : bool := str_ltb (Signal_ID a) (Signal_ID b).

Definition executableSignals `{Environment} (candidate : ExecutableCandidate) (mode : Z)
    (packageSignal : TriageSignal) : list TriageSignal :=
  let suspicious (c : bool) id :=
    if c then [{| Signal_ID := id; Assessment := AssessmentSuspicious |}] else [] in
  let base := path_Base (Path candidate) in
  sort_by signal_less
    (suspicious (New candidate && riskyExecutableLocation (Path candidate)) "new-executable-in-temp-or-downloads"
     ++ suspicious (mode_has mode ModeSetuid) "setuid-executable"
     ++ suspicious (mode_has mode ModeSetgid) "setgid-executable"
     ++ suspicious (has_prefix base "." && negb (String.eqb base ".") && negb (String.eqb base ".."))
          "hidden-executable"
     ++ if String.eqb (Signal_ID packageSignal) "" then [] else [packageSignal]).

(** ** Candidates *)

Definition candidate_less (a b : ExecutableCandidate) : bool := str_ltb (Path a) (Path b).

Definition add_candidate (byPath : gmap string ExecutableCandidate) (candidate : ExecutableCandidate)
    : gmap string ExecutableCandidate :=
  if blank (Path candidate) then byPath else
  let path := path_Clean (Path candidate) in
  match byPath !! path with
  | Some existing => <[path := {| Path := Path existing; New := New existing || New candidate |}]> byPath
  | None => <[path := {| Path := path; New := New candidate |}]> byPath
  end.

Definition normalizeCandidates (candidates : list ExecutableCandidate) : list ExecutableCandidate :=
  sort_by candidate_less (map_to_list (foldl add_candidate ∅ candidates)).*2.

(** ** The scanner *)

Section triage.
Context `{Hash} `{Environment} {W : Type} `{FileSystem W}.

Definition PackageOwnershipLookup : Type := string → W → W * result PackageOwnership.

Record ExecutableScanner := { limits : ExecutableLimits; packageOwnership : option PackageOwnershipLookup }.

Definition NewExecutableScanner (given : ExecutableLimits) (lookup : option PackageOwnershipLookup)
    : result ExecutableScanner :=
  let limits := if bool_decide (given = {| MaxFileBytes := 0; MaxTotalBytes := 0; MaxFiles := 0 |})
                then DefaultExecutableLimits else given in
  if MaxFileBytes limits <=? 0 then Err (ErrorsNew "max file bytes must be positive")
  else if MaxTotalBytes limits <=? 0 then Err (ErrorsNew "max total bytes must be positive")
  else if MaxFiles limits <=? 0 then Err (ErrorsNew "max files must be positive")
  else Ok {| limits := limits; packageOwnership := lookup |}.

Definition lookupPackageOwnership (s : ExecutableScanner) (path : string) (w : W)
    : W * (PackageOwnership * TriageSignal) :=
  let unknown id := ({| Status := PackageOwnershipUnknown; Package := "" |},
                     {| Signal_ID := id; Assessment := AssessmentUnknown |}) in
  match packageOwnership s with
  | None => (w, unknown "package-ownership-not-checked")
  | Some lookup =>
      let '(w, r) := lookup path w in
      (w, match r with
          | Err _ => unknown "package-ownership-lookup-failed"
          | Ok ownership =>
              let cleared := {| Status := Status ownership; Package := "" |} in
              if String.eqb (Status ownership) PackageOwnershipOwned then
                if blank (Package ownership) then unknown "package-ownership-invalid-result"
                else (ownership, {| Signal_ID := ""; Assessment := "" |})
              else if String.eqb (Status ownership) PackageOwnershipUnowned then
                (cleared, (unknown "package-ownership-unowned").2)
              else if String.eqb (Status ownership) PackageOwnershipUnknown then
                (cleared, (unknown "package-ownership-unknown").2)
              else unknown "package-ownership-invalid-result"
          end)
  end.

(** What hashing a file gives, apart from the bytes it read. *)
Inductive hashed :=
  | Failed (e : error)
  | Replaced
  | Exceeded
  | Hashed (digest : string) (info : FileInfo).

Definition hash_loop (path : string) (limit fd : Z) (w : W) : W * (string * reading) :=
  read_bounded 65536 limit (λ e, Wrapf "inspect bounded executable %q: %w" e [FStr path])
    (λ e, Wrapf "hash %q: %w" e [FStr path]) fd w.

(** What [hashExecutableBounded] does with the open file. *)
Definition hash_opened (path : string) (before : FileInfo) (limit fd : Z) (w : W) : W * (Z * hashed) :=
  let '(w, after) := Fstat fd w in
  match after with
  | Err e => (w, (0, Failed (Wrapf "inspect opened file %q: %w" e [FStr path])))
  | Ok after =>
      if negb (IsRegular (Info_Mode after)) || (Z.land (Perm (Info_Mode after)) 73 =? 0)
         || negb (SameFile before after)
      then (w, (0, Replaced))
      else
        let '(w, (content, r)) := hash_loop path limit fd w in
        let total := slen content in
        match r with
        | Stopped e => (w, (total, Failed e))
        | Beyond => (w, (total, Exceeded))
        | Complete =>
            let '(w, finalInfo) := Fstat fd w in
            (w, (total, match finalInfo with
                        | Err e => Failed (Wrapf "inspect hashed executable %q: %w" e [FStr path])
                        | Ok finalInfo =>
                            if negb (Info_Size finalInfo =? total) then Exceeded
                            else Hashed (hex_encode (Sum256 content)) finalInfo
                        end))
        end
  end.

Definition hashExecutableBounded (path : string) (before : FileInfo) (limit : Z) (w : W) : W * (Z * hashed) :=
  let '(w, fd) := Open path w in
  match fd with
  | Err e => (w, (0, Failed (Wrapf "open %q: %w" e [FStr path])))
  | Ok fd => let '(w, r) := hash_opened path before limit fd w in (Close fd w, r)
  end.

(** ** One candidate *)

Record triage := {
  stats : ExecutableStats; records : list ExecutableRecord; coverage : coverageAccumulator }.

Inductive skipped := Missing | Symlink | NonRegular | NonExecutable | Oversize.

Definition skip (why : skipped) (t : triage) : triage :=
  let st := stats t in
  let one k := match why, k with
    | Missing, Missing | Symlink, Symlink | NonRegular, NonRegular | NonExecutable, NonExecutable
    | Oversize, Oversize => 1 | _, _ => 0 end in {|
  stats := {| FilesConsidered := FilesConsidered st; FilesTriaged := FilesTriaged st;
              BytesHashed := BytesHashed st; MissingSkipped := MissingSkipped st + one Missing;
              SymlinksSkipped := SymlinksSkipped st + one Symlink;
              NonRegularSkipped := NonRegularSkipped st + one NonRegular;
              NonExecutableSkipped := NonExecutableSkipped st + one NonExecutable;
              OversizeSkipped := OversizeSkipped st + one Oversize |};
  records := records t; coverage := coverage t |}.

(** The counters of the files considered, triaged and of the bytes hashed. *)
Definition count (considered triaged bytes : Z) (t : triage) : triage :=
  let st := stats t in {|
  stats := {| FilesConsidered := FilesConsidered st + considered; FilesTriaged := FilesTriaged st + triaged;
              BytesHashed := BytesHashed st + bytes; MissingSkipped := MissingSkipped st;
              SymlinksSkipped := SymlinksSkipped st; NonRegularSkipped := NonRegularSkipped st;
              NonExecutableSkipped := NonExecutableSkipped st; OversizeSkipped := OversizeSkipped st |};
  records := records t; coverage := coverage t |}.

Definition cover (code path : string) (limit observed : Z) (t : triage) : triage :=
  {| stats := stats t; records := records t; coverage := add code path limit (to_int64 observed) (coverage t) |}.

Definition append (r : ExecutableRecord) (t : triage) : triage :=
  {| stats := stats t; records := records t ++ [r]; coverage := coverage t |}.

(** How the loop goes on. *)
Inductive verdict := Continue | Break | Return (e : error).

(** After the file was hashed. *)
Definition triage_hashed (s : ExecutableScanner) (candidate : ExecutableCandidate) (remaining : Z)
    (bytesHashed : Z) (r : hashed) (t : triage) (w : W) : W * (triage * verdict) :=
  let path := Path candidate in
  match r with
  | Failed e => (w, (t, Return e))
  | Replaced => (w, (skip NonRegular t, Continue))
  | Exceeded =>
      if remaining <? MaxFileBytes (limits s) then
        (w, (cover CoverageMaxTotalBytes path (MaxTotalBytes (limits s)) (BytesHashed (stats t) + 1) t, Break))
      else
        (w, (skip Oversize (cover CoverageMaxFileBytes path (MaxFileBytes (limits s)) (bytesHashed + 1) t), Continue))
  | Hashed digest openedInfo =>
      let '(w, (owner, packageSignal)) := lookupPackageOwnership s path w in
      let '(w, e) := ctx_Err w in
      match e with
      | Some e => (w, (t, Return e))
      | None =>
          let record := {|
            Record_Path := path; SHA256 := "sha256:" +:+ digest;
            Mode := normalizedMode (Info_Mode openedInfo); Size := Info_Size openedInfo;
            Ownership := ownershipFromFileInfo openedInfo; Record_Package := owner;
            Signals := executableSignals candidate (Info_Mode openedInfo) packageSignal |} in
          (w, (count 0 1 0 (append record t), Continue))
      end
  end.

(** A regular executable file is hashed if the bounds allow. *)
Definition triage_executable (s : ExecutableScanner) (candidate : ExecutableCandidate) (info : FileInfo)
    (t : triage) (w : W) : W * (triage * verdict) :=
  let path := Path candidate in
  if MaxFileBytes (limits s) <? Info_Size info then
    (w, (cover CoverageMaxFileBytes path (MaxFileBytes (limits s)) (Info_Size info) (skip Oversize t), Continue))
  else
    let remaining := MaxTotalBytes (limits s) - BytesHashed (stats t) in
    if (remaining <=? 0) || (remaining <? Info_Size info) then
      (w, (cover CoverageMaxTotalBytes path (MaxTotalBytes (limits s))
             (BytesHashed (stats t) + Info_Size info) t, Break))
    else
      let '(w, (bytesHashed, r)) :=
        hashExecutableBounded path info (Z.min (MaxFileBytes (limits s)) remaining) w in
      triage_hashed s candidate remaining bytesHashed r (count 0 0 bytesHashed t) w.

(** The body of the loop of [Triage], after the context was polled. *)
Definition triage_file (s : ExecutableScanner) (candidate : ExecutableCandidate) (t : triage) (w : W)
    : W * (triage * verdict) :=
  let path := Path candidate in
  if MaxFiles (limits s) <=? FilesConsidered (stats t) then
    (w, (cover CoverageMaxFiles path (MaxFiles (limits s)) (FilesConsidered (stats t) + 1) t, Break))
  else
    let t := count 1 0 0 t in
    let '(w, info) := Lstat path w in
    match info with
    | Err e =>
        if isNotExist e then (w, (skip Missing t, Continue))
        else (w, (t, Return (Wrapf "inspect %q: %w" e [FStr path])))
    | Ok info =>
        let mode := Info_Mode info in
        if mode_has mode ModeSymlink then (w, (skip Symlink t, Continue))
        else if negb (IsRegular mode) then (w, (skip NonRegular t, Continue))
        else if Z.land (Perm mode) 73 =? 0 then (w, (skip NonExecutable t, Continue))
        else triage_executable s candidate info t w
    end.

Fixpoint triage_loop (s : ExecutableScanner) (candidates : list ExecutableCandidate) (t : triage) (w : W)
    : W * (triage * option error) :=
  match candidates with
  | [] => (w, (t, None))
  | candidate :: candidates =>
      let '(w, e) := ctx_Err w in
      match e with
      | Some e => (w, (t, Some e))
      | None =>
          let '(w, (t, v)) := triage_file s candidate t w in
          match v with
          | Continue => triage_loop s candidates t w
          | Break => (w, (t, None))
          | Return e => (w, (t, Some e))
          end
      end
  end.

Definition zero_stats : ExecutableStats := {|
  FilesConsidered := 0; FilesTriaged := 0; BytesHashed := 0; MissingSkipped := 0; SymlinksSkipped := 0;
  NonRegularSkipped := 0; NonExecutableSkipped := 0; OversizeSkipped := 0 |}.

Definition initial : triage :=
  {| stats := zero_stats; records := []; coverage := newCoverageAccumulator ExecutableScannerID |}.

Definition record_less (a b : ExecutableRecord) : bool := str_ltb (Record_Path a) (Record_Path b).

Definition result_of (t : triage) : ExecutableResult := {|
  Schema := ExecutableResultSchema; SchemaVersion := ExecutableResultSchemaVersion;
  ScannerID := ExecutableScannerID; Executables := records t; Coverage := findings (coverage t);
  Stats := stats t |}.

Definition Triage (s : ExecutableScanner) (candidates : list ExecutableCandidate) (w : W)
    : W * (ExecutableResult * option error) :=
  let '(w, e) := ctx_Err w in
  match e with
  | Some e => (w, (result_of initial, Some e))
  | None =>
      let '(w, (t, e)) := triage_loop s (normalizeCandidates candidates) initial w in
      match e with
      | Some e => (w, (result_of t, Some e))
      | None =>
          (w, (result_of {| stats := stats t; records := sort_by record_less (records t);
                            coverage := coverage t |}, None))
      end
  end.
End triage.
#[global] Arguments ExecutableScanner _ : clear implicits.
