(* ===== verification/ScannerExecutableFacts.v ===== *)
(** * Triage of executables: what a report says

    The bounds and the bookkeeping hold whatever the file system does, as long
    as a read fills at most its buffer; on a file system that nobody else
    writes to the report is that of a reference over the table of files. *)

From S2P Require Import Prelude GoString GoLib GoTime Json Model GoCrypto GoFile ScannerContract ScannerExecutable.
#[local] Open Scope Z_scope.
#[local] Arguments Z.add : simpl never.

Section facts.
Context `{Hash} `{Environment} {W : Type} `{FS : FileSystem W}.

(** ** Candidates *)

Lemma candidates_paths cs p d : foldl add_candidate ∅ cs !! p = Some d → Path d = p.
Proof.
  revert p d. induction cs as [|c cs IH] using rev_ind; [done|]. intros p d. rewrite foldl_snoc.
  revert IH. generalize (foldl add_candidate ∅ cs). intros m IH. unfold add_candidate.
  destruct (blank _); [apply IH|]. cbv zeta.
  destruct (m !! path_Clean (Path c)) as [e|] eqn:E; rewrite lookup_insert_Some;
    (intros [[<- <-]|[_ Hd]]; [|by apply IH]); [exact (IH _ _ E)|done].
Qed.

(** The candidates are looked at in the order of their paths, each path once. *)
Lemma normalizeCandidates_sorted cs :
  StronglySorted (λ p q, str_ltb p q = true) (Path <$> normalizeCandidates cs).
Proof.
  apply (sort_by_keys Path).
  assert (Path <$> (map_to_list (foldl add_candidate ∅ cs)).*2 = (map_to_list (foldl add_candidate ∅ cs)).*1)
    as ->; [|apply NoDup_fst_map_to_list].
  rewrite <-list_fmap_compose. apply list_fmap_ext. intros i [p c] Hc%list_elem_of_lookup_2.
  apply elem_of_map_to_list in Hc. by eapply candidates_paths.
Qed.

(** ** The invariant of the loop *)

Definition skips (st : ExecutableStats) : Z :=
  MissingSkipped st + SymlinksSkipped st + NonRegularSkipped st + NonExecutableSkipped st + OversizeSkipped st.

Definition total_size (rs : list ExecutableRecord) : Z := foldr (λ r n, Size r + n) 0 rs.
#[local] Arguments total_size : simpl never.

(** What a run calls besides the file system: the lookup of the owning
    package. *)
Definition lookups (s : ExecutableScanner W) : relation W :=
  λ w w', ∃ lookup path, packageOwnership s = Some lookup ∧ w' = (lookup path w).1.

(** A record is of a file that was opened and read to its end during the run
    from [w] to [w']. *)
Definition record_ok (s : ExecutableScanner W) (w w' : W) (r : ExecutableRecord) : Prop :=
  Size r ≤ MaxFileBytes (limits s) ∧
  ∃ content, read_between (lookups s) (Record_Path r) content w w' ∧ slen content = Size r ∧
    SHA256 r = "sha256:" +:+ hex_encode (Sum256 content).

Definition covered (t : triage) : Prop := byCode (coverage t) ≠ ∅.

(** [k] files are being looked at, in the world [w] of a run from [w0]. *)
Record triage_ok (s : ExecutableScanner W) (w0 : W) (k : Z) (w : W) (t : triage) : Prop := {
  ok_later : later (lookups s) w0 w;
  ok_considered : FilesConsidered (stats t) = FilesTriaged (stats t) + skips (stats t) + k;
  ok_files : FilesConsidered (stats t) ≤ MaxFiles (limits s);
  ok_triaged : FilesTriaged (stats t) = Z.of_nat (length (records t));
  ok_bytes : 0 ≤ BytesHashed (stats t) ≤ MaxTotalBytes (limits s);
  ok_sizes : total_size (records t) ≤ BytesHashed (stats t);
  ok_records : Forall (record_ok s w0 w) (records t);
  ok_covered : OversizeSkipped (stats t) = 0 ∨ covered t;
}.

Context (s : ExecutableScanner W) (w0 : W).
Abbreviation ok := (triage_ok s w0).
Abbreviation since := (later (lookups s)).

Lemma total_size_app rs r : total_size (rs ++ [r]) = total_size rs + Size r.
Proof. unfold total_size. induction rs as [|a rs IH]; cbn [app foldr]; [lia|rewrite IH; lia]. Qed.

Lemma cover_covered code path limit observed t : covered (cover code path limit observed t).
Proof. unfold covered, cover, add. cbn. apply insert_non_empty. Qed.

Lemma triage_ok_later k w w' t : since w w' → ok k w t → ok k w' t.
Proof.
  intros Hl [Hw ? ? ? ? ? Hs ?]. split; try done; [by etrans|].
  eapply Forall_impl; [exact Hs|]. intros r [? (content & ? & ?)]. split; [done|].
  exists content. split; [|done]. by eapply read_between_later.
Qed.

Lemma ok_cover k w t code path limit observed : ok k w t → ok k w (cover code path limit observed t).
Proof. intros [? ? ? ? ? ? ? ?]. split; try done. right. apply cover_covered. Qed.

Lemma ok_skip why w t : ok 1 w t → (why = Oversize → covered t) → ok 0 w (skip why t).
Proof.
  intros [? H1 ? ? ? ? ? H7] Hc. unfold skips in H1.
  assert (covered (skip why t) = covered t) as Hk by done.
  split; try done; [unfold skips; destruct why; cbn; lia|]. rewrite Hk.
  destruct H7 as [H7|H7]; [|by right]. destruct why; try (right; by apply Hc); left; cbn; lia.
Qed.

Lemma ok_consider w t : ok 0 w t → FilesConsidered (stats t) < MaxFiles (limits s) → ok 1 w (count 1 0 0 t).
Proof. intros [? H1 ? ? ? ? ? H7] ?. split; unfold skips, covered in *; cbn in *; try done; lia. Qed.

Lemma ok_hash w t n :
  ok 1 w t → 0 ≤ n → BytesHashed (stats t) + n ≤ MaxTotalBytes (limits s) → ok 1 w (count 0 0 n t).
Proof. intros [? H1 ? ? ? ? ? H7] ? ?. split; unfold skips, covered in *; cbn in *; try done; lia. Qed.

Lemma ok_append w t r :
  ok 1 w t → record_ok s w0 w r → total_size (records t) + Size r ≤ BytesHashed (stats t) →
  ok 0 w (count 0 1 0 (append r t)).
Proof.
  intros [? H1 ? ? ? ? ? H7] ? ?. split; unfold skips, covered in *; cbn in *; try done; try lia.
  - rewrite length_app. cbn. lia.
  - rewrite total_size_app. lia.
  - apply Forall_app_2; [done|]. by constructor.
Qed.
(** ** One candidate *)

Context `{!FileLaws W}.

(** What hashing a file says of it: it was read to its end in the run from
    [w] to [w']. *)
Definition hashed_ok (path : string) (w w' : W) (n : Z) (r : hashed) : Prop :=
  ∀ digest info, r = Hashed digest info →
    ∃ content, read_between (lookups s) path content w w' ∧ slen content = n ∧ Info_Size info = n ∧
      digest = hex_encode (Sum256 content).

Lemma hash_opened_facts path before limit fd v w w' n r :
  0 ≤ limit → Open path v = (w, Ok fd) → hash_opened path before limit fd w = (w', (n, r)) →
  0 ≤ n ≤ limit ∧ since v w' ∧ hashed_ok path v w' n r.
Proof.
  intros Hl Ho. pose proof (later_Open (others := lookups s) _ _ _ _ Ho) as Hv. unfold hash_opened, hashed_ok.
  destruct (Fstat fd w) as [w1 after] eqn:Ef.
  pose proof (later_Fstat (others := lookups s) _ _ _ _ Ef) as Hw. assert (since v w1) as Hv1 by (by etrans).
  destruct after as [after|e]; [|by intros [= <- <- <-]].
  destruct (_ || _ || _) eqn:Eg; [by intros [= <- <- <-]|].
  unfold hash_loop. destruct (read_bounded _ _ _ _ _ _) as [w2 [content e]] eqn:Er.
  assert (0 ≤ slen content ≤ limit) as Hc.
  { pose proof (bounded_loop_bound (Z.to_nat limit) 65536 limit
      (λ e, Wrapf "inspect bounded executable %q: %w" e [FStr path]) (λ e, Wrapf "hash %q: %w" e [FStr path])
      fd "" w1 Hl) as Hb. unfold read_bounded in Er. rewrite Er in Hb. split; [apply slen_nonneg|done]. }
  apply (bounded_reads (others := lookups s)) in Er as (w3 & Hreads & Hl3 & Hend); [|done].
  pose proof (reads_later (others := lookups s) _ _ _ _ Hreads) as Hl1.
  assert (since v w2) as Hv2 by (etrans; [exact Hv1|]; by etrans).
  destruct e as [| |e]; [|by intros [= <- <- <-]..].
  destruct (Fstat fd w2) as [w4 info] eqn:Ef2.
  pose proof (later_Fstat (others := lookups s) _ _ _ _ Ef2) as Hl4. intros [= <- <- <-].
  split_and!; [apply Hc|apply Hc|by etrans|]. intros digest info'. destruct info as [info|e]; [|done].
  destruct (negb (Info_Size info =? slen content)) eqn:E; [done|]. intros [= <- <-]. bool_prop.
  exists content. split_and!; [|done..]. exists v, w2. split_and!; [done| |done].
  eapply whole; try done. by apply Hend.
Qed.

Lemma hash_facts path before limit w w' n r :
  0 ≤ limit → hashExecutableBounded path before limit w = (w', (n, r)) →
  0 ≤ n ≤ limit ∧ since w w' ∧ hashed_ok path w w' n r.
Proof.
  intros Hl. unfold hashExecutableBounded. destruct (Open path w) as [w1 fd] eqn:Eo.
  destruct fd as [fd|e]; [|intros [= <- <- <-]; split_and!; [done..|by eapply later_Open|done]].
  destruct (hash_opened path before limit fd w1) as [w2 [n2 r']] eqn:E. intros [= <- <- <-].
  destruct (hash_opened_facts _ _ _ _ _ _ _ _ _ Hl Eo E) as (Hn & Hw & Hr).
  pose proof (later_Close (others := lookups s) fd w2) as Hclose. split_and!; [apply Hn..|by etrans|].
  intros digest info Hd. destruct (Hr _ _ Hd) as (content & Hb & ?). exists content. split; [|done].
  by eapply read_between_later.
Qed.

Lemma lookupPackageOwnership_later path w w' r : lookupPackageOwnership s path w = (w', r) → since w w'.
Proof.
  unfold lookupPackageOwnership. destruct (packageOwnership s) as [lookup|] eqn:E; [|by intros [= <- _]].
  cbv zeta. destruct (lookup path w) as [w1 o] eqn:El. intros [= <- _]. apply later_call, call_other.
  exists lookup, path. by rewrite El.
Qed.

(** What the body of the loop did to the state [t] for the candidate [c], with
    the world [w] after it. *)
Record advanced (c : ExecutableCandidate) (t t' : triage) (w : W) (v : verdict) : Prop := {
  adv_ok : ∃ k, (k = 0 ∨ k = 1) ∧ (v = Continue → k = 0) ∧ ok k w t';
  adv_break : v = Break → covered t';
  adv_records : ∃ rs, records t' = records t ++ rs ∧ (Record_Path <$> rs) `sublist_of` [Path c];
  adv_considered : v = Continue → FilesConsidered (stats t') = FilesConsidered (stats t) + 1;
}.

Lemma advanced_same c k t t' w v :
  ok k w t' → k = 0 ∨ k = 1 → (v = Continue → k = 0) → (v = Break → covered t') →
  records t' = records t → (v = Continue → FilesConsidered (stats t') = FilesConsidered (stats t) + 1) →
  advanced c t t' w v.
Proof.
  intros. split; [by exists k|done| |done]. exists []. rewrite app_nil_r. split; [done|]. apply sublist_nil_l.
Qed.

Abbreviation l := (limits s).

Lemma triage_hashed_advanced c t n r t' v w1 w w' :
  ok 0 w t → since w1 w → since w0 w1 → FilesConsidered (stats t) < MaxFiles l →
  0 ≤ n ≤ Z.min (MaxFileBytes l) (MaxTotalBytes l - BytesHashed (stats t)) →
  hashed_ok (Path c) w1 w n r →
  triage_hashed s c (MaxTotalBytes l - BytesHashed (stats t)) n r (count 0 0 n (count 1 0 0 t)) w = (w', (t', v)) →
  advanced c t t' w' v.
Proof.
  intros Ht Hw1 Hw0 Hf Hn Hr. assert (ok 1 w (count 0 0 n (count 1 0 0 t))) as Ht1.
  { apply ok_hash; [by apply ok_consider|lia|]. cbn. lia. }
  set (t1 := count 0 0 n (count 1 0 0 t)) in *. unfold triage_hashed. cbv zeta. destruct r as [e| | |digest info].
  - intros [= <- <- <-]. by apply (advanced_same c 1); auto.
  - intros [= <- <- <-]. apply (advanced_same c 0); auto; [by apply ok_skip|done|cbn; lia].
  - destruct (_ <? _); intros [= <- <- <-].
    + apply (advanced_same c 1); auto; [by apply ok_cover|done|intros _; apply cover_covered|done].
    + apply (advanced_same c 0); auto; [|done|cbn; lia]. apply ok_skip; [by apply ok_cover|].
      intros _. apply cover_covered.
  - destruct (lookupPackageOwnership s (Path c) w) as [w2 [owner packageSignal]] eqn:El.
    apply lookupPackageOwnership_later in El.
    destruct (ctx_Err w2) as [w3 e] eqn:Ec. apply (later_ctx_Err (others := lookups s)) in Ec.
    assert (since w w3) as Hw3 by (by etrans). apply (triage_ok_later _ _ _ _ Hw3) in Ht1.
    destruct e as [e|]; intros [= <- <- <-]; [by apply (advanced_same c 1); auto|].
    destruct (Hr digest info eq_refl) as (content & (v1 & v2 & ? & ? & ?) & Hc & Hi & ->). split.
    + exists 0. split_and!; [by left|done|]. apply ok_append; [done| |].
      * split; cbn; [lia|]. exists content. rewrite Hi. split_and!; [|done..].
        exists v1, v2. split_and!; [by etrans|done|by etrans].
      * cbn. destruct Ht. cbn in *. lia.
    + done.
    + eexists. split; [done|]. cbn. by apply sublist_skip.
    + cbn. lia.
Qed.

Lemma triage_executable_advanced c info t t' v w w' :
  0 ≤ MaxFileBytes l → ok 0 w t → FilesConsidered (stats t) < MaxFiles l →
  triage_executable s c info (count 1 0 0 t) w = (w', (t', v)) → advanced c t t' w' v.
Proof.
  intros Hm Ht Hf. pose proof (ok_consider w t Ht Hf) as Ht1. unfold triage_executable. cbv zeta.
  assert (∀ u, BytesHashed (stats (count 1 0 0 u)) = BytesHashed (stats u)) as Hb by (intros; cbn; lia).
  destruct (MaxFileBytes (limits s) <? Info_Size info).
  - intros [= <- <- <-]. apply (advanced_same c 0); auto; [|done].
    apply (ok_skip Oversize w (cover _ _ _ _ (count 1 0 0 t))); [by apply ok_cover|].
    intros _. apply cover_covered.
  - rewrite !Hb. destruct (_ || _) eqn:E.
    + intros [= <- <- <-]. apply (advanced_same c 1); auto; [by apply ok_cover|done|].
      intros _. apply cover_covered.
    + bool_prop. destruct (hashExecutableBounded _ _ _ _) as [w1 [n r]] eqn:Eh.
      apply hash_facts in Eh as (Hn & Hw & Hr); [|lia]. intros Hv.
      apply (triage_hashed_advanced c t n r t' v w w1 w'); try done; [by eapply triage_ok_later|by destruct Ht].
Qed.

Lemma triage_file_advanced c t t' v w w' :
  0 ≤ MaxFileBytes l → ok 0 w t → triage_file s c t w = (w', (t', v)) → advanced c t t' w' v.
Proof.
  intros Hm Ht. unfold triage_file. cbv zeta. destruct (MaxFiles _ <=? _) eqn:E.
  - intros [= <- <- <-]. apply (advanced_same c 0); auto; [by apply ok_cover|intros _; apply cover_covered|done].
  - bool_prop. destruct (Lstat (Path c) w) as [w1 info] eqn:El.
    apply (later_Lstat (others := lookups s)) in El. apply (triage_ok_later _ _ _ _ El) in Ht.
    pose proof (ok_consider w1 t Ht E) as Ht1.
    assert (∀ why, why ≠ Oversize → advanced c t (skip why (count 1 0 0 t)) w1 Continue) as Hskip.
    { intros why Hw. apply (advanced_same c 0); auto; [by apply ok_skip|done]. }
    destruct info as [info|e].
    + destruct (mode_has _ _); [intros [= <- <- <-]; by apply Hskip|].
      destruct (negb _); [intros [= <- <- <-]; by apply Hskip|].
      destruct (_ =? 0); [intros [= <- <- <-]; by apply Hskip|].
      by apply triage_executable_advanced.
    + destruct (isNotExist e); intros [= <- <- <-]; [by apply Hskip|].
      by apply (advanced_same c 1); auto.
Qed.

(** ** The loop *)

(** The state [t'] the loop ends with in the world [w] when it starts with
    [t]; the first part says that every candidate was considered. *)
Record looped (cs : list ExecutableCandidate) (t t' : triage) (w : W) (e : option error) : Prop := {
  loop_ok : ∃ k, (k = 0 ∨ k = 1) ∧ ok k w t' ∧
    (e = None → ¬ covered t' →
     k = 0 ∧ FilesConsidered (stats t') = FilesConsidered (stats t) + Z.of_nat (length cs));
  loop_records : ∃ rs, records t' = records t ++ rs ∧ (Record_Path <$> rs) `sublist_of` (Path <$> cs);
}.

Lemma looped_here cs t t' w e k c :
  ok k w t' → k = 0 ∨ k = 1 → (e = None → covered t') →
  (∃ rs, records t' = records t ++ rs ∧ (Record_Path <$> rs) `sublist_of` [Path c]) →
  looped (c :: cs) t t' w e.
Proof.
  intros Ht Hk He (rs & Hr & Hs). split; [exists k; naive_solver|]. exists rs. split; [done|].
  cbn. etrans; [exact Hs|]. apply sublist_skip, sublist_nil_l.
Qed.

Lemma triage_loop_looped cs t t' e w w' :
  0 ≤ MaxFileBytes l → ok 0 w t → triage_loop s cs t w = (w', (t', e)) → looped cs t t' w' e.
Proof.
  intros Hm. revert t w. induction cs as [|c cs IH]; intros t w Ht; cbn [triage_loop].
  { intros [= <- <- <-]. split; [|exists []; by rewrite app_nil_r].
    exists 0. split_and!; [by left|done|]. cbn. lia. }
  destruct (ctx_Err w) as [w1 e1] eqn:Ec. apply (later_ctx_Err (others := lookups s)) in Ec.
  apply (triage_ok_later _ _ _ _ Ec) in Ht. destruct e1 as [e1|].
  { intros [= <- <- <-]. apply (looped_here cs t t _ _ 0); auto; [done|]. exists []. rewrite app_nil_r.
    split; [done|]. apply sublist_nil_l. }
  destruct (triage_file s c t w1) as [w2 [t1 v]] eqn:E.
  apply triage_file_advanced in E as [(k & Hk & Hk0 & Ht1) Hb Hr Hc]; [|done..].
  destruct v as [| |e2].
  - rewrite (Hk0 eq_refl) in Ht1. intros [(k' & ? & ? & Hall) (rs' & Hr' & Hs')]%IH; [|done].
    destruct Hr as (rs & Hr & Hs). split.
    + exists k'. split_and!; [done..|]. intros He Hn. destruct (Hall He Hn) as [-> ->].
      rewrite Hc by done. cbn [length]. lia.
    + exists (rs ++ rs'). split; [by rewrite Hr', Hr, app_assoc|]. rewrite fmap_app.
      change (Path <$> c :: cs) with ([Path c] ++ (Path <$> cs)). by apply sublist_app.
  - intros [= <- <- <-]. by apply (looped_here cs t t1 _ _ k c); auto.
  - intros [= <- <- <-]. by apply (looped_here cs t t1 _ _ k c).
Qed.

Lemma initial_ok w : later (lookups s) w0 w → 0 ≤ MaxFiles l → 0 ≤ MaxTotalBytes l → ok 0 w initial.
Proof. intros. split; cbn; try done; try lia. Qed.
End facts.

Section reports.
Context `{Hash} `{Environment} {W : Type} `{FS : FileSystem W} `{!FileLaws W}.

(** ** What a report says *)

Lemma NewExecutableScanner_limits given lookup s :
  NewExecutableScanner (W := W) given lookup = Ok s →
  0 < MaxFileBytes (limits s) ∧ 0 < MaxTotalBytes (limits s) ∧ 0 < MaxFiles (limits s).
Proof.
  unfold NewExecutableScanner. cbv zeta. intros H1. repeat (case_in H1; [done|]).
  injection H1 as <-. bool_prop. done.
Qed.

Lemma sublist_sorted {A} (R : A → A → Prop) k l : k `sublist_of` l → StronglySorted R l → StronglySorted R k.
Proof.
  induction 1 as [|x k l Hs IH|x k l Hs IH]; intros Hl; [done| |].
  - apply StronglySorted_inv in Hl as [Hl Hx]. constructor; [by apply IH|].
    rewrite Forall_forall in *. intros y Hy. apply Hx. by eapply elem_of_sublist.
  - apply StronglySorted_inv in Hl as [Hl _]. by apply IH.
Qed.
#[local] Instance record_less_strict : StrictLess record_less.
Proof. apply (less_on_strict Record_Path), str_ltb_strict. Qed.

(** The records come in the order of the candidates, so that sorting them
    changes nothing. *)
Lemma sort_records cs rs :
  (Record_Path <$> rs) `sublist_of` (Path <$> normalizeCandidates cs) → sort_by record_less rs = rs.
Proof.
  intros Hs. apply sort_by_id; [apply _|].
  pose proof (sublist_sorted _ _ _ Hs (normalizeCandidates_sorted cs)) as Hp. clear Hs.
  induction rs as [|x l IH]; [constructor|]. rewrite fmap_cons in Hp.
  apply StronglySorted_inv in Hp as [Hp Hx]. constructor; [by apply IH|].
  apply (Forall_fmap Record_Path) in Hx. eapply Forall_impl; [exact Hx|].
  intros y Hy. cbn in Hy. unfold le_by, record_less. by apply (less_asym str_ltb).
Qed.

Lemma Triage_looped s cs w w' r e :
  0 < MaxFileBytes (limits s) ∧ 0 < MaxTotalBytes (limits s) ∧ 0 < MaxFiles (limits s) →
  Triage s cs w = (w', (r, e)) →
  ∃ t, r = result_of t ∧ looped s w (normalizeCandidates cs) initial t w' e ∧
    (Record_Path <$> records t) `sublist_of` (Path <$> normalizeCandidates cs).
Proof.
  intros (H1 & H2 & H3). unfold Triage. destruct (ctx_Err w) as [w1 e1] eqn:Ec.
  apply (later_ctx_Err (others := lookups s)) in Ec.
  pose proof (initial_ok s w w1 Ec ltac:(lia) ltac:(lia)) as Hi. destruct e1 as [e1|].
  { intros [= <- <- <-]. exists initial. split_and!; [done| |apply sublist_nil_l].
    split; [exists 0; naive_solver|]. exists []. split; [done|]. apply sublist_nil_l. }
  destruct (triage_loop _ _ _ _) as [w2 [t e2]] eqn:E.
  apply (triage_loop_looped s w) in E as Hl; [|lia|done]. pose proof (loop_records _ _ _ _ _ _ _ Hl) as (rs & Hr & Hs).
  cbn [records initial app] in Hr. subst rs.
  destruct e2 as [e2|]; intros [= <- <- <-]; exists t; [done|]. split; [|done].
  rewrite (sort_records cs) by done. by destruct t.
Qed.

(** C22. A report stays within the bounds of its scanner, whatever the files
    and the context do, also when it comes with an error: at most so many
    files considered and bytes read, one record per path in the order of the
    paths, each of a candidate; the file at a record's path was opened during
    the triage and read to its end, its size is that of the bytes read, which
    are within the bound, and its digest is theirs; the records' sizes are
    part of the bytes counted. *)
Theorem Triage_bounded given lookup s cs w w' r e :
  NewExecutableScanner given lookup = Ok s → Triage s cs w = (w', (r, e)) →
  FilesConsidered (Stats r) ≤ MaxFiles (limits s) ∧
  0 ≤ BytesHashed (Stats r) ≤ MaxTotalBytes (limits s) ∧
  total_size (Executables r) ≤ BytesHashed (Stats r) ∧
  FilesTriaged (Stats r) = Z.of_nat (length (Executables r)) ∧
  Forall (record_ok s w w') (Executables r) ∧
  StronglySorted (λ p q, str_ltb p q = true) (Record_Path <$> Executables r) ∧
  (Record_Path <$> Executables r) `sublist_of` (Path <$> normalizeCandidates cs).
Proof.
  intros Hl%NewExecutableScanner_limits (t & -> & [(k & _ & [] & _) _] & Hs)%Triage_looped; [|done].
  split_and!; cbn; try done; try (by destruct ok_bytes0).
  eapply sublist_sorted; [exact Hs|]. apply normalizeCandidates_sorted.
Qed.

Lemma findings_nil a : findings a = [] → byCode a = ∅.
Proof.
  intros Hn. apply map_empty. intros code. destruct (byCode a !! code) as [f|] eqn:E; [|done].
  assert (f ∈ findings a) as Hin by (apply elem_of_findings; by exists code). rewrite Hn in Hin. set_solver.
Qed.

(** Nothing is left out in silence: when a triage ends without an error
    and its coverage report is empty, every candidate was considered, none was
    over the size limit, and each is in the report or counted as missing, as a
    symbolic link, as not regular or as not executable. *)
Theorem Triage_accounted given lookup s cs w w' r :
  NewExecutableScanner given lookup = Ok s → Triage s cs w = (w', (r, None)) → Coverage r = [] →
  FilesConsidered (Stats r) = Z.of_nat (length (normalizeCandidates cs)) ∧
  OversizeSkipped (Stats r) = 0 ∧
  FilesConsidered (Stats r) =
    Z.of_nat (length (Executables r)) + MissingSkipped (Stats r) + SymlinksSkipped (Stats r)
    + NonRegularSkipped (Stats r) + NonExecutableSkipped (Stats r).
Proof.
  intros Hl%NewExecutableScanner_limits (t & -> & [(k & _ & [] & Hall) _] & _)%Triage_looped Hc; [|done].
  apply findings_nil in Hc. cbn in Hc. destruct Hall as [-> Hn]; [done|by intros []|].
  destruct ok_covered0 as [Ho|[]]; [|done]. unfold skips in *. cbn in *. lia.
Qed.
End reports.
