(* ===== verification/ScannerStill.v ===== *)
(** * Triage of executables on files that nobody changes

    On the file system [StillSystem] a triage that reaches no bound on files
    or bytes is equal to a reference over the table of files: what becomes of
    a candidate is decided by its entry alone. *)

From S2P Require Import Prelude GoString GoLib GoTime Json Model GoCrypto GoFile ScannerContract ScannerExecutable.
From S2P Require Import ScannerExecutableFacts.
#[local] Open Scope Z_scope.
#[local] Arguments Z.add : simpl never.

#[export] Instance skipped_eq_dec : EqDecision skipped.
Proof. solve_decision. Defined.

Section still.
Context `{Hash} `{Environment}.

(** ** The reference *)

(** Why a candidate is not hashed. *)
Definition look (l : ExecutableLimits) (f : option (FileInfo * string)) : option skipped :=
  match f with
  | None => Some Missing
  | Some (info, _) =>
      let mode := Info_Mode info in
      if mode_has mode ModeSymlink then Some Symlink
      else if negb (IsRegular mode) then Some NonRegular
      else if Z.land (Perm mode) 73 =? 0 then Some NonExecutable
      else if MaxFileBytes l <? Info_Size info then Some Oversize else None
  end.

(** A scanner whose package lookup answers from a table. *)
Definition still_scanner (l : ExecutableLimits) (packages : option (string → result PackageOwnership))
    : ExecutableScanner Still :=
  {| limits := l; packageOwnership := (λ g path w, (w, g path)) <$> packages |}.

Definition empty_system : Still :=
  {| still_files := ∅; still_dirs := ∅; still_open := ∅; still_next := 0 |}.

Definition record_of (s : ExecutableScanner Still) (c : ExecutableCandidate) (f : FileInfo * string)
    : ExecutableRecord :=
  let '(owner, packageSignal) := (lookupPackageOwnership s (Path c) empty_system).2 in {|
  Record_Path := Path c; SHA256 := "sha256:" +:+ hex_encode (Sum256 f.2);
  Mode := normalizedMode (Info_Mode f.1); Size := Info_Size f.1; Ownership := ownershipFromFileInfo f.1;
  Record_Package := owner; Signals := executableSignals c (Info_Mode f.1) packageSignal |}.

Context (s : ExecutableScanner Still) (files : gmap string (FileInfo * string)).

Definition triaged (c : ExecutableCandidate) : option ExecutableRecord :=
  match look (limits s) (files !! Path c) with
  | Some _ => None
  | None => record_of s c <$> files !! Path c
  end.

Definition oversize (c : ExecutableCandidate) : option limit_hit :=
  match look (limits s) (files !! Path c), files !! Path c with
  | Some Oversize, Some (info, _) => Some {|
      hit_code := CoverageMaxFileBytes; hit_path := Path c; hit_limit := MaxFileBytes (limits s);
      hit_observed := to_int64 (Info_Size info) |}
  | _, _ => None
  end.

Definition skipped_for (why : skipped) (cs : list ExecutableCandidate) : Z :=
  Z.of_nat (length (filter (λ c, look (limits s) (files !! Path c) = Some why) cs)).

(** A regular file holds as many bytes as its size says. *)
Definition files_ok : Prop := ∀ path info content,
  files !! path = Some (info, content) →
  is_Some (Sys info) ∧ (IsRegular (Info_Mode info) = true → slen content = Info_Size info).

(** ** One candidate *)

Definition still_step (t : triage) (c : ExecutableCandidate) : triage :=
  let t := count 1 0 0 t in
  match look (limits s) (files !! Path c), files !! Path c with
  | Some Oversize, Some (info, _) =>
      cover CoverageMaxFileBytes (Path c) (MaxFileBytes (limits s)) (Info_Size info) (skip Oversize t)
  | Some why, _ => skip why t
  | None, Some f => count 0 1 0 (append (record_of s c f) (count 0 0 (Info_Size f.1) t))
  | None, None => t
  end.

Definition quiet_lookup : Prop := ∀ path w,
  lookupPackageOwnership s path w = (w, (lookupPackageOwnership s path empty_system).2).

Lemma still_scanner_quiet l packages path w :
  lookupPackageOwnership (still_scanner l packages) path w =
    (w, (lookupPackageOwnership (still_scanner l packages) path empty_system).2).
Proof. unfold lookupPackageOwnership. cbn. by destruct packages. Qed.

Lemma still_hash path info content limit w :
  still_files w = files → files_ok → files !! path = Some (info, content) →
  IsRegular (Info_Mode info) = true → (Z.land (Perm (Info_Mode info)) 73 =? 0) = false →
  Info_Size info ≤ limit →
  ∃ w', hashExecutableBounded path info limit w =
      (w', (Info_Size info, Hashed (hex_encode (Sum256 content)) info)) ∧ still_files w' = files.
Proof.
  intros Hw Hok Hf Hr Hx Hl. destruct (Hok _ _ _ Hf) as [[stat Hs] Hc]. specialize (Hc Hr).
  unfold hashExecutableBounded. cbn [Open StillSystem]. rewrite Hw, Hf. cbn beta iota.
  set (w1 := {| still_files := files |}). unfold hash_opened.
  assert (still_open w1 !! still_next w = Some (info, content)) as Ho by (cbn; apply lookup_insert_eq).
  cbn [Fstat StillSystem]. rewrite Ho. cbn [no_file fmap result_fmap fst].
  rewrite Hr, Hx. cbn [negb orb]. unfold SameFile. rewrite Hs, !Z.eqb_refl. cbn [negb andb].
  unfold hash_loop. rewrite (read_bounded_still _ _ _ _ _ content info) by (done || lia).
  cbn [Fstat StillSystem with_open still_open]. rewrite lookup_insert_eq. cbn [no_file fmap result_fmap fst].
  rewrite Hc, Z.eqb_refl. cbn [negb]. by eexists.
Qed.

Lemma still_file t c w :
  still_files w = files → files_ok → quiet_lookup →
  FilesConsidered (stats t) < MaxFiles (limits s) →
  (∀ r, triaged c = Some r → BytesHashed (stats t) + Size r < MaxTotalBytes (limits s)) →
  ∃ w', triage_file s c t w = (w', (still_step t c, Continue)) ∧ still_files w' = files.
Proof.
  intros Hw Hok Hq Hf Hb. unfold triage_file, still_step, triaged in *. cbv zeta.
  rewrite (proj2 (Z.leb_gt _ _) Hf). cbn [Lstat StillSystem]. rewrite Hw.
  destruct (files !! Path c) as [[info content]|] eqn:E; cbn [no_file fmap result_fmap fst look] in *; [|by exists w].
  destruct (mode_has _ _); [by exists w|]. destruct (IsRegular _) eqn:Er; cbn [negb] in *; [|by exists w].
  destruct (_ =? 0) eqn:Ex; [by exists w|]. unfold triage_executable. cbv zeta.
  destruct (MaxFileBytes (limits s) <? Info_Size info) eqn:Em; [by exists w|].
  bool_prop. set (t1 := count 1 0 0 t). assert (BytesHashed (stats t1) = BytesHashed (stats t)) as Ht1 by (cbn; lia).
  destruct (Hok _ _ _ E) as [_ Hc]. specialize (Hc Er). pose proof (slen_nonneg content).
  cbn [fmap option_fmap option_map] in Hb. specialize (Hb _ eq_refl).
  assert (Size (record_of s c (info, content)) = Info_Size info) as Hsz by (unfold record_of; by repeat case_match).
  rewrite Hsz in Hb. rewrite Ht1.
  rewrite (proj2 (Z.leb_gt _ _)), (proj2 (Z.ltb_ge _ _)) by lia. cbn [orb].
  destruct (still_hash (Path c) info content (Z.min (MaxFileBytes (limits s)) (MaxTotalBytes (limits s) - BytesHashed (stats t))) w)
    as (w1 & -> & Hw1); [done|done|exact E|done|by apply Z.eqb_neq|lia|].
  unfold triage_hashed. cbv zeta. rewrite Hq. unfold record_of.
  destruct (lookupPackageOwnership s (Path c) empty_system).2 as [owner packageSignal].
  cbn [ctx_Err StillSystem fst snd]. by exists w1.
Qed.
(** ** All candidates *)

Lemma still_step_considered t c : FilesConsidered (stats (still_step t c)) = FilesConsidered (stats t) + 1.
Proof. unfold still_step. repeat case_match; cbn; lia. Qed.

Lemma still_step_records t c : records (still_step t c) = records t ++ option_list (triaged c).
Proof.
  unfold still_step, triaged. destruct (look _ _) as [[]|], (files !! Path c) as [[info content]|];
    cbn; by rewrite ?app_nil_r.
Qed.

Lemma record_of_size c f : Size (record_of s c f) = Info_Size f.1.
Proof. unfold record_of. by destruct (lookupPackageOwnership s (Path c) empty_system).2. Qed.

Lemma still_step_bytes t c :
  BytesHashed (stats (still_step t c)) = BytesHashed (stats t) + total_size (option_list (triaged c)).
Proof.
  unfold still_step, triaged, total_size. destruct (look _ _) as [[]|], (files !! Path c) as [[info content]|];
    cbn; rewrite ?record_of_size; cbn; lia.
Qed.

(** The counter of the reason [why]. *)
Definition skip_count (why : skipped) (st : ExecutableStats) : Z :=
  match why with
  | Missing => MissingSkipped st | Symlink => SymlinksSkipped st | NonRegular => NonRegularSkipped st
  | NonExecutable => NonExecutableSkipped st | Oversize => OversizeSkipped st
  end.

Lemma still_step_skips t c why :
  skip_count why (stats (still_step t c)) = skip_count why (stats t) + skipped_for why [c].
Proof.
  assert (skipped_for why [c] = if decide (look (limits s) (files !! Path c) = Some why) then 1 else 0) as ->.
  { unfold skipped_for. rewrite filter_cons. by destruct (decide _). }
  unfold still_step. destruct (look (limits s) (files !! Path c)) as [w|] eqn:El.
  - assert (∀ u, skip_count why (stats (skip w u)) = skip_count why (stats u) +
      if decide (Some w = Some why) then 1 else 0) as Hs.
    { intros u. destruct w, why; cbn; destruct (decide _); try done; lia. }
    assert (∀ u, skip_count why (stats (count 1 0 0 u)) = skip_count why (stats u)) as Hc by (by destruct why).
    destruct w, (files !! Path c) as [[info content]|]; rewrite <-(Hc t), <-Hs; by destruct why.
  - destruct (decide _); [done|]. rewrite Z.add_0_r. by destruct (files !! Path c), why.
Qed.

Lemma still_step_coverage t c :
  coverage (still_step t c) = foldl add_hit (coverage t) (option_list (oversize c)).
Proof.
  unfold still_step, oversize. destruct (look _ _) as [[]|], (files !! Path c) as [[info content]|]; done.
Qed.

Lemma total_size_app_all r1 r2 : total_size (r1 ++ r2) = total_size r1 + total_size r2.
Proof. unfold total_size. induction r1 as [|a r1 IH]; cbn [app foldr]; [lia|rewrite IH; lia]. Qed.

Lemma omap_cons_app {A B} (f : A → option B) x l : omap f (x :: l) = option_list (f x) ++ omap f l.
Proof. cbn. by destruct (f x). Qed.

Lemma total_size_nonneg cs : files_ok → 0 ≤ total_size (omap triaged cs).
Proof.
  intros Hok. induction cs as [|c cs IH]; [done|]. rewrite omap_cons_app, total_size_app_all.
  assert (0 ≤ total_size (option_list (triaged c))); [|lia]. unfold triaged.
  destruct (files !! Path c) as [[info content]|] eqn:E; [|by destruct (look _ _)].
  destruct (look _ _) as [|] eqn:El; [done|]. cbn. unfold total_size. cbn. rewrite record_of_size. cbn.
  destruct (Hok _ _ _ E) as [_ Hc]. cbn in El. destruct (mode_has _ _); [done|].
  destruct (IsRegular _) eqn:Er; [|done]. rewrite <-Hc by done. pose proof (slen_nonneg content). lia.
Qed.

Lemma still_loop t cs w :
  still_files w = files → files_ok → quiet_lookup →
  FilesConsidered (stats t) + Z.of_nat (length cs) ≤ MaxFiles (limits s) →
  BytesHashed (stats t) + total_size (omap triaged cs) < MaxTotalBytes (limits s) →
  ∃ w', triage_loop s cs t w = (w', (foldl still_step t cs, None)) ∧ still_files w' = files.
Proof.
  revert t w. induction cs as [|c cs IH]; intros t w Hw Hok Hq Hf Hb; [by exists w|].
  rewrite omap_cons_app, total_size_app_all in Hb. pose proof (total_size_nonneg cs Hok).
  cbn [triage_loop ctx_Err StillSystem length] in *.
  destruct (still_file t c w) as (w1 & -> & Hw1); [done..|lia| |].
  { intros r Hr. rewrite Hr in Hb. unfold total_size in Hb at 1. cbn in Hb. lia. }
  cbn [foldl]. apply IH; [done..| |].
  - rewrite still_step_considered. lia.
  - rewrite still_step_bytes. lia.
Qed.

(** What the steps add up to. *)
Lemma still_run cs t :
  let t' := foldl still_step t cs in
  records t' = records t ++ omap triaged cs ∧
  FilesConsidered (stats t') = FilesConsidered (stats t) + Z.of_nat (length cs) ∧
  BytesHashed (stats t') = BytesHashed (stats t) + total_size (omap triaged cs) ∧
  (∀ why, skip_count why (stats t') = skip_count why (stats t) + skipped_for why cs) ∧
  coverage t' = foldl add_hit (coverage t) (omap oversize cs).
Proof.
  cbv zeta. revert t. induction cs as [|c cs IH]; intros t.
  { cbn. rewrite app_nil_r. split_and!; try done; try lia. intros why. unfold skipped_for. cbn. lia. }
  cbn [foldl length]. destruct (IH (still_step t c)) as (-> & -> & -> & Hs & ->).
  rewrite !omap_cons_app, total_size_app_all, foldl_app. split_and!.
  - by rewrite still_step_records, app_assoc.
  - rewrite still_step_considered. lia.
  - rewrite still_step_bytes. lia.
  - intros why. rewrite Hs, still_step_skips. unfold skipped_for. rewrite !filter_cons. cbn.
    destruct (decide _); cbn [length]; lia.
  - by rewrite still_step_coverage.
Qed.
End still.

(** C21. On files that nobody changes a triage within its bounds is what a
    reference says of the table of files: it does not fail, there is a record
    for exactly the candidates that are regular executable files within the
    size limit, with the digest of the content, each other candidate is
    counted under the first reason that applies, and the coverage report is
    about the files over the limit. *)
Theorem Triage_still `{Hash} `{Environment} given packages s cs w w' r e :
  NewExecutableScanner given ((λ g path w, (w, g path)) <$> packages) = Ok s →
  let files := still_files w in
  let candidates := normalizeCandidates cs in
  files_ok files →
  Z.of_nat (length candidates) ≤ MaxFiles (limits s) →
  total_size (omap (triaged s files) candidates) < MaxTotalBytes (limits s) →
  Triage s cs w = (w', (r, e)) →
  e = None ∧ still_files w' = files ∧
  Executables r = omap (triaged s files) candidates ∧
  FilesConsidered (Stats r) = Z.of_nat (length candidates) ∧
  BytesHashed (Stats r) = total_size (Executables r) ∧
  (∀ why, skip_count why (Stats r) = skipped_for s files why candidates) ∧
  Coverage r = findings (reported ExecutableScannerID (omap (oversize s files) candidates)).
Proof.
  intros Hn files candidates Hok Hf Hb Ht.
  pose proof (NewExecutableScanner_limits given _ s Hn) as Hl.
  assert (quiet_lookup s) as Hq.
  { assert (s = still_scanner (limits s) packages) as ->; [|intros path u; apply still_scanner_quiet].
    unfold NewExecutableScanner in Hn. cbv zeta in Hn. repeat (case_in Hn; [done|]). by injection Hn as <-. }
  unfold Triage in Ht. cbn [ctx_Err StillSystem] in Ht. fold candidates in Ht.
  destruct (still_loop s files initial candidates w) as (w1 & Hloop & Hw1); [done..|].
  destruct (still_run s files candidates initial) as (Hr & Hc & Hn' & Hs & Hcov).
  pose proof (loop_records _ _ _ _ _ _ _ (triage_loop_looped s w candidates initial _ _ w w1 ltac:(lia)
    (initial_ok s w w (rtc_refl _ _) ltac:(lia) ltac:(lia)) Hloop)) as (rs & Hrs & Hsub).
  cbn [records initial app] in Hrs, Hr. rewrite Hrs in Hr. subst rs.
  rewrite Hloop in Ht. injection Ht as <- <- <-. cbn [Executables Stats Coverage result_of stats records coverage].
  rewrite Hrs. rewrite (sort_records cs) by done.
  split_and!; [done..| | | |].
  - rewrite Hc. cbn. lia.
  - rewrite Hn'. cbn. lia.
  - intros why. rewrite Hs. by destruct why.
  - by rewrite Hcov.
Qed.
