(* ===== verification/ScannerSecret.v ===== *)
(** * Package scanner: the secret scan, one text

    [internal/scanner/secret.go]: the patterns, what counts as a secret, and
    what is found in one text.  Lower case of any text is the class
    [UnicodeLower].  The comparison of the Shannon entropy with 3 is exact
    here; in the code it is a sum of float64 in the order of a map, which can
    differ from it by rounding. *)

From S2P Require Import Prelude GoString Json Model GoHttp GoLib GoCrypto GoRegexp.
#[local] Open Scope Z_scope.

(** ** Patterns *)

Definition posix_space : Z → bool := one_of_chars (String "009" (String "010" (String "011" (String "012" (String "013" " "))))).
Definition spaces (low : nat) : regex := Rep posix_space low None.

Definition privateKeyBegin : regex :=
  Seq Begin (Seq (lit "-----BEGIN ") (Seq (Group (alts (lit <$>
    ["RSA PRIVATE KEY"; "EC PRIVATE KEY"; "DSA PRIVATE KEY"; "OPENSSH PRIVATE KEY"; "PRIVATE KEY";
     "ENCRYPTED PRIVATE KEY"; "PGP PRIVATE KEY BLOCK"]))) (Seq (lit "-----") (Seq (spaces 0) End)))).

Definition quote : regex := Opt (Chr (one_of_chars (String "034" "'"))).
Definition key_rune (r : Z) : bool := is_alnum r || one_of_chars "_.-" r.
Definition joint : regex := Opt (Chr (folded (one_of_chars "_-"))).

Definition assignmentLine : regex :=
  Seq Begin (Seq (spaces 0) (Seq
    (Opt (Seq (alts (ilit <$> ["export"; "const"; "let"; "var"])) (spaces 1))) (Seq
    quote (Seq
    (Group (Seq (Rep (folded key_rune) 0 None)
      (alts [ilit "password"; ilit "passwd"; ilit "pwd"; ilit "secret";
             Seq (ilit "api") (Seq joint (ilit "key")); Seq (ilit "access") (Seq joint (ilit "token"));
             Seq (ilit "auth") (Seq joint (ilit "token"))]))) (Seq
    quote (Seq (spaces 0) (Seq
    (Group (alts [lit ":="; lit "="; lit ":"])) (Seq (spaces 0) (Seq
    (Group (Rep (λ r, negb (r =? 10)) 0 None)) End))))))))).

Definition word (r : regex) : regex := Seq WordBoundary (Seq r WordBoundary).
Definition upper_or_digit (r : Z) : bool := is_digit r || is_upper_alpha r.
Definition or_chars (s : string) (r : Z) : bool := is_alnum r || one_of_chars s r.

Definition aws_pattern : regex := word (Seq (alts [lit "AKIA"; lit "ASIA"]) (Rep upper_or_digit 16 (Some 16%nat))).
Definition github_pattern : regex := word (alts
  [Seq (lit "gh") (Seq (Chr (one_of_chars "pousr")) (Seq (lit "_") (Rep is_alnum 36 (Some 255%nat))));
   Seq (lit "github_pat_") (Rep (or_chars "_") 82 (Some 255%nat))]).
Definition gitlab_pattern : regex := word (Seq (lit "glpat-") (Rep (or_chars "_-") 20 (Some 255%nat))).
Definition google_pattern : regex := word (Seq (lit "AIza") (Rep (or_chars "_-") 35 (Some 35%nat))).
Definition slack_pattern : regex :=
  word (Seq (lit "xox") (Seq (Chr (one_of_chars "baprs")) (Seq (lit "-") (Rep (or_chars "-") 20 (Some 255%nat))))).
Definition stripe_pattern : regex := word (Seq (lit "sk_live_") (Rep is_alnum 16 (Some 255%nat))).

(** ** What is random enough *)

(** [strings.ToUpper] of a token, which its pattern keeps within ASCII. *)
Definition upper_token (s : string) : string := of_chars (upper_byte <$> chars s).

Definition allSame (value : string) : bool :=
  match value with
  | EmptyString => false
  | String c s => forallb (Ascii.eqb c) (chars s)
  end.

(** [strings.Repeat] *)
Fixpoint repeat (n : nat) (s : string) : string :=
  match n with O => "" | S n => s +:+ repeat n s end.

Definition repeatedPattern (value : string) : bool :=
  let n := String.length value in
  existsb (λ width, (width * 3 <=? n)%nat && (n mod width =? 0)%nat
                    && String.eqb (repeat (n / width) (str_take width value)) value) [1; 2; 3; 4]%nat.

Fixpoint steps (by_one : Z → Z → bool) (l : list Z) : bool :=
  match l with
  | a :: (b :: _) as l' => by_one a b && steps by_one l'
  | _ => true
  end.

Definition sequentialASCII (value : string) : bool :=
  if slen value <? 8 then false
  else steps (λ a b, b =? (a + 1) mod 256) (bytes value) || steps (λ a b, (b + 1) mod 256 =? a) (bytes value).

Definition byte_counts (value : string) : gmap Z Z :=
  foldl (λ m b, <[b := default 0 (m !! b) + 1]> m) ∅ (bytes value).

(** [shannonEntropy(value) >= 3.0]: with the counts c of the n bytes, the sum
    of c/n * log2(n/c) is at least 3 when 8^n times the product of the c^c is
    at most n^n. *)
Definition entropy_at_least_3 (value : string) : bool :=
  let n := slen value in
  if n =? 0 then false
  else 8 ^ n * map_fold (λ _ c acc, c ^ c * acc) 1 (byte_counts value) <=? n ^ n.

Definition validateFormattedToken (value : string) : bool :=
  let upper := upper_token value in
  if contains upper "EXAMPLE" || contains upper "PLACEHOLDER" || contains upper "REDACTED"
     || allSame value || repeatedPattern value
  then false else entropy_at_least_3 value.

Record tokenDetector := { detector_id : string; pattern : regex; validate : string → bool }.

Definition tokenDetectors : list tokenDetector :=
  (λ d, {| detector_id := d.1; pattern := d.2; validate := validateFormattedToken |}) <$>
  [("token.aws-access-key-id", aws_pattern); ("token.github", github_pattern); ("token.gitlab", gitlab_pattern);
   ("token.google-api-key", google_pattern); ("token.slack", slack_pattern);
   ("token.stripe-live-secret", stripe_pattern)].

(** The text up to the closing quote, if there is one. *)
Fixpoint closed (q : ascii) (escaped : bool) (s : string) : option string :=
  match s with
  | EmptyString => None
  | String c s =>
      if escaped then String c <$> closed q false s
      else if Ascii.eqb c "\" then String c <$> closed q true s
      else if Ascii.eqb c q then Some "" else String c <$> closed q false s
  end.

(** Up to the first of the bytes [cs]. *)
Fixpoint before_any (cs : list ascii) (s : string) : string :=
  match s with
  | EmptyString => ""
  | String c s => if bool_decide (c ∈ cs) then "" else String c (before_any cs s)
  end.

Definition assignedValue (raw : string) : string :=
  match trim_space raw with
  | EmptyString => ""
  | String q s =>
      if bool_decide (q ∈ ["'"; "034"; "`"]%char) then
        match closed q false s with Some value => value | None => trim_space s end
      else trim_space (before_any [" "; "009"; "013"; "010"; ","; ";"; "#"]%char (String q s))
  end.

Section one_text.
Context `{Hash} `{UnicodeLower}.

Definition fixed_words : list string :=
  [""; "password"; "password123"; "changeme"; "change_me"; "change-me"; "secret"; "example"; "example-secret";
   "example_password"; "dummy"; "placeholder"; "redacted"; "[redacted]"; "not-a-real-secret"].

Definition highEntropyAssignment (value : string) : bool :=
  if (slen value <? 16) || (4096 <? slen value) then false else
  let lower := ToLower (trim_space value) in
  if bool_decide (lower ∈ fixed_words) then false
  else if existsb (has_prefix lower) ["${"; "{{"; "<"; "your_"; "your-"; "process.env"; "os.environ"]
          || allSame value || repeatedPattern value || sequentialASCII value
  then false else entropy_at_least_3 value.

(** ** Fingerprints *)

Definition byte_text (l : list Z) : string := of_chars (chr <$> l).

(** [hmac.New(sha256.New, key)] of a text *)
Definition hmac_sha256 (key msg : string) : list Z :=
  let key := if 64 <? slen key then Sum256 key else bytes key in
  let key := key ++ replicate (64 - length key) 0 in
  let pad b := byte_text (Z.lxor b <$> key) in
  Sum256 (pad 0x5C +:+ byte_text (Sum256 (pad 0x36 +:+ msg))).

Definition fingerprint (key detectorID value : string) : string :=
  "hmac-sha256:" +:+ hex_encode (take 16 (hmac_sha256 key (detectorID +:+ String "000" value))).

(** ** Findings *)

Record SecretFinding := {
  DetectorID : string; Path : string; Line : Z; Fingerprint : string; RedactedExcerpt : string }.

Definition secret_less : SecretFinding → SecretFinding → bool :=
  lex_by Path String.eqb str_ltb (lex_by Line Z.eqb Z.ltb (lex_by DetectorID String.eqb str_ltb
    (λ a b, str_ltb (Fingerprint a) (Fingerprint b)))).

Definition sortSecretFindings : list SecretFinding → list SecretFinding := sort_by secret_less.

(** [strings.TrimSuffix(line, "\r")] *)
Definition trim_cr (line : string) : string :=
  match str_rev line with String "013" s => str_rev s | _ => line end.

(** The lines of a private key after its first one, to the end marker or to
    the end of the text. *)
Fixpoint key_block (endMarker : string) (lines : list string) : list string :=
  match lines with
  | [] => []
  | line :: lines =>
      if String.eqb (trim_space (trim_cr line)) endMarker then [line]
      else line :: key_block endMarker lines
  end.

Definition isComment (line : string) : bool :=
  existsb (has_prefix (trim_space line)) ["#"; "//"; ";"].

(** [append_until]: a loop of [appendFinding] that breaks at the limit. *)
Fixpoint append_until (limit : Z) (findings new : list SecretFinding) : list SecretFinding :=
  match new with
  | [] => findings
  | f :: new =>
      let findings := findings ++ [f] in
      if limit <=? Z.of_nat (length findings) then findings else append_until limit findings new
  end.

Definition token_findings (key path line : string) (number : Z) (d : tokenDetector) : list SecretFinding :=
  (λ token, {| DetectorID := detector_id d; Path := path; Line := number;
               Fingerprint := fingerprint key (detector_id d) token; RedactedExcerpt := "[REDACTED TOKEN]" |})
  <$> filter (λ token, validate d token = true) (FindAllString (pattern d) line).

Fixpoint scan_detectors (key path line : string) (number limit : Z) (ds : list tokenDetector)
    (findings : list SecretFinding) : list SecretFinding :=
  match ds with
  | [] => findings
  | d :: ds =>
      let findings := append_until limit findings (token_findings key path line number d) in
      if limit <=? Z.of_nat (length findings) then findings
      else scan_detectors key path line number limit ds findings
  end.

Definition assignment_finding (key path line : string) (number : Z) : list SecretFinding :=
  match FindStringSubmatch assignmentLine line with
  | Some [name; operator; raw] =>
      let value := assignedValue raw in
      if highEntropyAssignment value then [{|
        DetectorID := "secret.assignment"; Path := path; Line := number;
        Fingerprint := fingerprint key "secret.assignment" value;
        RedactedExcerpt := ToLower name +:+ " " +:+ operator +:+ " [REDACTED]" |}]
      else []
  | _ => []
  end.

(** A line that begins no private key. *)
Definition inspect_line (key path line : string) (number limit : Z) (findings : list SecretFinding)
    : list SecretFinding :=
  if isComment line then findings else
  let findings := scan_detectors key path line number limit tokenDetectors findings in
  if Z.of_nat (length findings) <? limit
  then append_until limit findings (assignment_finding key path line number) else findings.

Definition key_finding (key path : string) (number : Z) (block : list string) : SecretFinding := {|
  DetectorID := "private-key.pem"; Path := path; Line := number;
  Fingerprint := fingerprint key "private-key.pem" (join (String "010" "") block);
  RedactedExcerpt := "[REDACTED PRIVATE KEY BLOCK]" |}.

(** The key a line begins: the end marker of its block. *)
Definition key_marker (line : string) : option string :=
  match FindStringSubmatch privateKeyBegin line with
  | Some [label] => Some ("-----END " +:+ label +:+ "-----")
  | _ => None
  end.

Context {W : Type} (ctx_Err : W → W * option error).

(** The loop over the lines: [skip] of them belong to a private key already,
    [number] is the number of the next one. *)
Fixpoint inspect_lines (key path : string) (limit : Z) (skip : nat) (number : Z) (lines : list string)
    (findings : list SecretFinding) (w : W) : W * (list SecretFinding * option error) :=
  match lines with
  | [] => (w, (findings, None))
  | raw :: lines =>
      match skip with
      | S skip => inspect_lines key path limit skip (number + 1) lines findings w
      | O =>
          let '(w, e) := ctx_Err w in
          match e with
          | Some e => (w, (findings, Some e))
          | None =>
              if limit <=? Z.of_nat (length findings) then (w, (findings, None)) else
              let line := trim_cr raw in
              match key_marker line with
              | Some endMarker =>
                  let block := key_block endMarker lines in
                  let findings := findings ++ [key_finding key path number (raw :: block)] in
                  if limit <=? Z.of_nat (length findings) then (w, (findings, None))
                  else inspect_lines key path limit (length block) (number + 1) lines findings w
              | None =>
                  inspect_lines key path limit 0 (number + 1) lines
                    (inspect_line key path line number limit findings) w
              end
          end
      end
  end.

Definition inspectText (key path content : string) (limit : Z) (w : W) : W * (list SecretFinding * option error) :=
  let '(w, (findings, e)) := inspect_lines key path limit 0 1 (split_on "010" content) [] w in
  (w, match e with
      | Some e => (findings, Some e)
      | None => (sortSecretFindings findings, None)
      end).
End one_text.

Definition isBinary (content : string) : bool :=
  if in_chars "000" content || negb (valid_utf8 content) then true
  else if slen content =? 0 then false
  else
    let control b := (b <? 0x20) && negb (existsb (Z.eqb b) [10; 13; 9; 12]) in
    let controls := Z.of_nat (length (filter (λ b, control b = true) (bytes content))) in
    10 <? controls * 100 / slen content.

(** ** The secret scan of one text: equivalence with a reference

    The loop over the lines stops in several places when it has enough
    findings; what it finds is a first part of the list that a reference
    without limits gives. *)

Section facts.
Context `{Hash} `{UnicodeLower} {W : Type} (ctx_Err : W → W * option error).

(** ** The reference *)

Definition line_findings (key path line : string) (number : Z) : list SecretFinding :=
  if isComment line then []
  else (tokenDetectors ≫= token_findings key path line number) ++ assignment_finding key path line number.

Fixpoint text_findings (key path : string) (skip : nat) (number : Z) (lines : list string) : list SecretFinding :=
  match lines with
  | [] => []
  | raw :: lines =>
      match skip with
      | S skip => text_findings key path skip (number + 1) lines
      | O =>
          match key_marker (trim_cr raw) with
          | Some endMarker =>
              let block := key_block endMarker lines in
              key_finding key path number (raw :: block)
              :: text_findings key path (length block) (number + 1) lines
          | None => line_findings key path (trim_cr raw) number ++ text_findings key path 0 (number + 1) lines
          end
      end
  end.

(** All that there is to find in a text. *)
Definition all_findings (key path content : string) : list SecretFinding :=
  text_findings key path 0 1 (split_on "010" content).

(** ** The loop finds a first part of it *)

Abbreviation first n l := (take (Z.to_nat n) l).

Lemma first_snoc limit (f : SecretFinding) fs new :
  Z.of_nat (length fs) < limit → limit ≤ Z.of_nat (length (fs ++ [f])) → first limit (fs ++ f :: new) = fs ++ [f].
Proof.
  intros H1 H2. rewrite length_app in H2. cbn [length] in H2. change (f :: new) with ([f] ++ new).
  rewrite app_assoc, take_app_le, take_ge; rewrite ?length_app; cbn [length]; done || lia.
Qed.

Lemma append_until_first limit fs new :
  Z.of_nat (length fs) < limit → append_until limit fs new = first limit (fs ++ new).
Proof.
  revert fs. induction new as [|f new IH]; intros fs Hl; cbn [append_until].
  - rewrite app_nil_r, take_ge by lia. done.
  - destruct (limit <=? _) eqn:E; bool_prop; [by rewrite first_snoc|].
    rewrite IH by done. by rewrite <-app_assoc.
Qed.

(** Enough is enough. *)
Lemma first_full limit (fs new : list SecretFinding) :
  limit ≤ Z.of_nat (length (first limit fs)) → first limit (fs ++ new) = first limit fs.
Proof. rewrite length_take. intros Hl. apply take_app_le. lia. Qed.

Lemma first_short limit (fs : list SecretFinding) :
  Z.of_nat (length (first limit fs)) < limit → first limit fs = fs.
Proof. rewrite length_take. intros Hl. apply take_ge. lia. Qed.

Lemma scan_detectors_first key path line number limit ds fs :
  Z.of_nat (length fs) < limit →
  scan_detectors key path line number limit ds fs =
    first limit (fs ++ (ds ≫= token_findings key path line number)).
Proof.
  revert fs. induction ds as [|d ds IH]; intros fs Hl; cbn [scan_detectors].
  - rewrite app_nil_r, take_ge by lia. done.
  - rewrite append_until_first by done. rewrite bind_cons, app_assoc.
    set (fs' := fs ++ token_findings key path line number d).
    destruct (limit <=? _) eqn:E; bool_prop; [by rewrite first_full|].
    rewrite IH by done. by rewrite (first_short limit fs').
Qed.

Lemma inspect_line_first key path line number limit fs :
  Z.of_nat (length fs) < limit →
  inspect_line key path line number limit fs = first limit (fs ++ line_findings key path line number).
Proof.
  intros Hl. unfold inspect_line, line_findings. destruct (isComment line).
  { rewrite app_nil_r, take_ge by lia. done. }
  cbv zeta. rewrite scan_detectors_first by done. rewrite app_assoc.
  set (fs' := fs ++ _). destruct (_ <? limit) eqn:E; bool_prop.
  - rewrite append_until_first by done. by rewrite (first_short limit fs').
  - by rewrite first_full.
Qed.

Lemma inspect_lines_first key path limit skip number lines fs w w' fs' :
  0 < limit → Z.of_nat (length fs) ≤ limit →
  inspect_lines ctx_Err key path limit skip number lines fs w = (w', (fs', None)) →
  fs' = first limit (fs ++ text_findings key path skip number lines).
Proof.
  intros Hp. revert skip number fs w. induction lines as [|raw lines IH]; intros skip number fs w Hl;
    cbn [inspect_lines text_findings].
  { intros [= _ <-]. by rewrite app_nil_r, take_ge by lia. }
  destruct skip as [|skip]; [|by apply IH].
  destruct (ctx_Err w) as [w1 [e|]]; [done|].
  destruct (limit <=? _) eqn:E; bool_prop.
  { intros [= _ <-]. rewrite take_app_le, take_ge by lia. done. }
  cbv zeta. destruct (key_marker _) as [marker|].
  - set (f := key_finding _ _ _ _). destruct (limit <=? Z.of_nat (length (fs ++ [f]))) eqn:E2; bool_prop.
    + intros [= _ <-]. by rewrite first_snoc.
    + intros Hi. apply IH in Hi as ->; [|lia]. by rewrite <-app_assoc.
  - rewrite inspect_line_first by lia. set (fs1 := fs ++ _). rewrite app_assoc. fold fs1.
    intros Hi. apply IH in Hi as ->; [|rewrite length_take; lia].
    destruct (decide (limit ≤ Z.of_nat (length (first limit fs1)))) as [Hf|Hf].
    + rewrite (first_full limit fs1) by done. rewrite take_app_le, take_take; [|lia].
      f_equal. lia.
    + by rewrite (first_short limit fs1) by lia.
Qed.

Lemma inspect_lines_quiet key path limit skip number lines fs w :
  (∀ w, (ctx_Err w).2 = None) →
  (inspect_lines ctx_Err key path limit skip number lines fs w).2.2 = None.
Proof.
  intros Hq. revert skip number fs w. induction lines as [|raw lines IH]; intros [|skip] number fs w;
    cbn [inspect_lines]; try done.
  destruct (ctx_Err w) as [w1 e] eqn:E. specialize (Hq w). rewrite E in Hq. cbn in Hq. subst e.
  destruct (limit <=? _); [done|]. cbv zeta. destruct (key_marker _); [|done].
  by destruct (limit <=? _).
Qed.

(** The text is not read again: all that happens is that the context is
    polled. *)
Lemma inspectText_polls key path content limit w :
  rtc (λ w w', w' = (ctx_Err w).1) w (inspectText ctx_Err key path content limit w).1.
Proof.
  unfold inspectText.
  assert (∀ skip number lines fs w,
    rtc (λ w w', w' = (ctx_Err w).1) w (inspect_lines ctx_Err key path limit skip number lines fs w).1) as Hp.
  { intros skip number lines. revert skip number.
    induction lines as [|raw lines IH]; intros [|skip] number fs v; cbn [inspect_lines]; [done..| |apply IH].
    assert (rtc (λ w w', w' = (ctx_Err w).1) v (ctx_Err v).1) as Hv by (by apply rtc_once).
    destruct (ctx_Err v) as [v1 [e|]]; [done|]. destruct (limit <=? _); [done|]. cbv zeta. etrans; [exact Hv|].
    destruct (key_marker _); [|apply IH]. destruct (limit <=? _); [done|apply IH]. }
  specialize (Hp O 1 (split_on "010" content) [] w). by destruct (inspect_lines _ _ _ _ _ _ _ _ w) as [w1 [fs e]].
Qed.

(** What the calls of the scan rely on. *)
Lemma inspectText_some key path content limit w w' fs :
  0 < limit → inspectText ctx_Err key path content limit w = (w', (fs, None)) →
  fs = sortSecretFindings (first limit (all_findings key path content)).
Proof.
  intros Hl. unfold inspectText.
  destruct (inspect_lines _ _ _ _ _ _ _ _ _) as [w1 [fs1 [e|]]] eqn:E; [done|]. intros [= _ <-].
  apply inspect_lines_first in E as ->; [done..|cbn; lia].
Qed.

(** C20. However early the scan of a text breaks off, what it reports is what
    a scan without limits finds, cut at the limit and then sorted: the order
    of the lines and of the detectors decides what is kept, a private key
    hides what is inside its block, and comments are skipped for tokens and
    assignments only. *)
Theorem inspectText_reference key path content limit w :
  0 < limit → (∀ w, (ctx_Err w).2 = None) →
  (inspectText ctx_Err key path content limit w).2 =
    (sortSecretFindings (take (Z.to_nat limit) (all_findings key path content)), None).
Proof.
  intros Hl Hq. pose proof (inspect_lines_quiet key path limit 0 1 (split_on "010" content) [] w Hq) as He.
  unfold inspectText. destruct (inspect_lines _ _ _ _ _ _ _ _ _) as [w1 [fs1 e]] eqn:E. cbn in He. subst e.
  apply inspect_lines_first in E as ->; [done..|cbn; lia].
Qed.
End facts.
