(* ===== verification/ScannerScan.v ===== *)
(** * Package scanner: the secret scan of a file system

    [internal/scanner/secret.go]: limits, the walk of the given roots and what
    is done at each path.  The walk takes as much fuel as the depth limit
    allows.  A call that fails returns what it has so far. *)

From S2P Require Import Prelude GoString GoLib GoTime Json Model GoCrypto GoFile ScannerContract ScannerSecret.
#[local] Open Scope Z_scope.

Definition minimumFingerprintKeyBytes : Z := 32.
Definition errStopSecretScan : error := Sentinel "secret scan bound reached".

Record SecretLimits := {
  MaxFileBytes : Z; MaxTotalBytes : Z; MaxDepth : Z; MaxFiles : Z; MaxFindings : Z }.

Definition DefaultSecretLimits : SecretLimits := {|
  MaxFileBytes := 1048576; MaxTotalBytes := 33554432; MaxDepth := 8; MaxFiles := 2000; MaxFindings := 200 |}.

#[export] Instance secret_limits_eq_dec : EqDecision SecretLimits.
Proof. solve_decision. Defined.

Record SecretStats := {
  FilesConsidered : Z; FilesScanned : Z; BytesRead : Z; SymlinksSkipped : Z; NonRegularSkipped : Z;
  BinarySkipped : Z; OversizeSkipped : Z;
}.

Record SecretResult := {
  Schema : string; SchemaVersion : Z; ScannerID : string; Findings : list SecretFinding;
  Coverage : list CoverageLimitFinding; Stats : SecretStats;
}.

Record SecretScanner := { limits : SecretLimits; key : string }.

Definition validateSecretLimits (limits : SecretLimits) : result unit :=
  if MaxFileBytes limits <=? 0 then Err (ErrorsNew "max file bytes must be positive")
  else if MaxTotalBytes limits <=? 0 then Err (ErrorsNew "max total bytes must be positive")
  else if MaxDepth limits <? 0 then Err (ErrorsNew "max depth cannot be negative")
  else if MaxFiles limits <=? 0 then Err (ErrorsNew "max files must be positive")
  else if MaxFindings limits <=? 0 then Err (ErrorsNew "max findings must be positive")
  else Ok tt.

Definition zero_limits : SecretLimits :=
  {| MaxFileBytes := 0; MaxTotalBytes := 0; MaxDepth := 0; MaxFiles := 0; MaxFindings := 0 |}.

Definition NewSecretScanner (given : SecretLimits) (FingerprintKey : string) : result SecretScanner :=
  let limits := if bool_decide (given = zero_limits) then DefaultSecretLimits else given in
  _ ← validateSecretLimits limits;
  _ ← fail_if (slen FingerprintKey <? minimumFingerprintKeyBytes)
        (Errorf "fingerprint key must contain at least %d bytes" [FInt minimumFingerprintKeyBytes]);
  Ok {| limits := limits; key := FingerprintKey |}.

Definition normalizePaths (paths : list string) : list string :=
  sort_by str_ltb (elements (list_to_set (path_Clean <$> filter (λ path, blank path = false) paths) : gset string)).

Definition relativeDepth (root path : string) : result Z :=
  match path_Rel root path with
  | None => Err (Wrapf "resolve scan depth for %q: %w"
                  (ErrorsNew ("Rel: can't make " +:+ path +:+ " relative to " +:+ root)) [FStr path])
  | Some relative =>
      Ok (if String.eqb relative "." then 0 else Z.of_nat (length (split_on "/" relative)))
  end.

Section scan.
Context `{Hash} `{UnicodeLower} {W : Type} `{FileSystem W}.

Definition read_loop (path : string) (limit fd : Z) (w : W) : W * (string * reading) :=
  read_bounded 32768 limit (λ e, Wrapf "inspect bounded file %q: %w" e [FStr path])
    (λ e, Wrapf "read %q: %w" e [FStr path]) fd w.

(** What [readRegularFileBounded] does with the open file: the bytes read, and
    the content, [None] when it exceeds the limit.  Of a file that was
    replaced nothing is read. *)
Definition read_opened (path : string) (before : FileInfo) (limit fd : Z) (w : W)
    : W * (Z * result (option string)) :=
  let '(w, after) := Fstat fd w in
  match after with
  | Err e => (w, (0, Err (Wrapf "inspect opened file %q: %w" e [FStr path])))
  | Ok after =>
      if negb (IsRegular (Info_Mode after)) || negb (SameFile before after) then (w, (0, Ok (Some "")))
      else
        let '(w, (content, r)) := read_loop path limit fd w in
        (w, (slen content, match r with
                           | Stopped e => Err e
                           | Beyond => Ok None
                           | Complete => Ok (Some content)
                           end))
  end.

Definition readRegularFileBounded (path : string) (before : FileInfo) (limit : Z) (w : W)
    : W * (Z * result (option string)) :=
  let '(w, fd) := Open path w in
  match fd with
  | Err e => (w, (0, Err (Wrapf "open %q: %w" e [FStr path])))
  | Ok fd => let '(w, r) := read_opened path before limit fd w in (Close fd w, r)
  end.

(** ** The state of a scan *)

Record scan := {
  stats : SecretStats; found : list SecretFinding; coverage : coverageAccumulator; seenPaths : gset string }.

(** What is counted of a file. *)
Inductive counted := Considered | Scanned | Symlink | NonRegular | Binary | Oversize.

Definition count (what : counted) (bytes : Z) (t : scan) : scan :=
  let st := stats t in
  let one k := match what, k with
    | Considered, Considered | Scanned, Scanned | Symlink, Symlink | NonRegular, NonRegular
    | Binary, Binary | Oversize, Oversize => 1 | _, _ => 0 end in {|
  stats := {| FilesConsidered := FilesConsidered st + one Considered; FilesScanned := FilesScanned st + one Scanned;
              BytesRead := BytesRead st + bytes; SymlinksSkipped := SymlinksSkipped st + one Symlink;
              NonRegularSkipped := NonRegularSkipped st + one NonRegular;
              BinarySkipped := BinarySkipped st + one Binary;
              OversizeSkipped := OversizeSkipped st + one Oversize |};
  found := found t; coverage := coverage t; seenPaths := seenPaths t |}.

Definition read_bytes (bytes : Z) (t : scan) : scan := {|
  stats := {| FilesConsidered := FilesConsidered (stats t); FilesScanned := FilesScanned (stats t);
              BytesRead := BytesRead (stats t) + bytes; SymlinksSkipped := SymlinksSkipped (stats t);
              NonRegularSkipped := NonRegularSkipped (stats t); BinarySkipped := BinarySkipped (stats t);
              OversizeSkipped := OversizeSkipped (stats t) |};
  found := found t; coverage := coverage t; seenPaths := seenPaths t |}.

Definition cover (code path : string) (limit observed : Z) (t : scan) : scan := {|
  stats := stats t; found := found t; coverage := add code path limit (to_int64 observed) (coverage t);
  seenPaths := seenPaths t |}.

Definition report (f : SecretFinding) (t : scan) : scan :=
  {| stats := stats t; found := found t ++ [f]; coverage := coverage t; seenPaths := seenPaths t |}.

Definition see (path : string) (t : scan) : scan :=
  {| stats := stats t; found := found t; coverage := coverage t; seenPaths := {[path]} ∪ seenPaths t |}.

(** The findings of a file are added up to the limit. *)
Fixpoint report_all (s : SecretScanner) (path : string) (fs : list SecretFinding) (t : scan) : scan * walked :=
  match fs with
  | [] => (t, WalkOk)
  | f :: fs =>
      let n := Z.of_nat (length (found t)) in
      if MaxFindings (limits s) <=? n then
        (cover CoverageMaxFindings path (MaxFindings (limits s)) (n + 1) t, WalkErr errStopSecretScan)
      else report_all s path fs (report f t)
  end.

(** The text of a file. *)
Definition visit_text (s : SecretScanner) (path content : string) (t : scan) (w : W) : W * (scan * walked) :=
  if isBinary content then (w, (count Binary 0 t, WalkOk)) else
  let t := count Scanned 0 t in
  let remainingFindings := MaxFindings (limits s) - Z.of_nat (length (found t)) in
  let '(w, (fs, e)) := inspectText ctx_Err (key s) path content (remainingFindings + 1) w in
  match e with
  | Some e => (w, (t, WalkErr e))
  | None => (w, report_all s path fs t)
  end.

(** A file that is not over a limit yet is read. *)
Definition visit_regular (s : SecretScanner) (path : string) (info : FileInfo) (t : scan) (w : W)
    : W * (scan * walked) :=
  let maxFile := MaxFileBytes (limits s) in
  if maxFile <? Info_Size info then
    (w, (cover CoverageMaxFileBytes path maxFile (Info_Size info) (count Oversize 0 t), WalkOk))
  else
    let remaining := MaxTotalBytes (limits s) - BytesRead (stats t) in
    if (remaining <=? 0) || (remaining <? Info_Size info) then
      (w, (cover CoverageMaxTotalBytes path (MaxTotalBytes (limits s)) (BytesRead (stats t) + Info_Size info) t,
           WalkErr errStopSecretScan))
    else
      let '(w, (bytesRead, content)) := readRegularFileBounded path info (Z.min maxFile remaining) w in
      let t := read_bytes bytesRead t in
      match content with
      | Err e => (w, (t, WalkErr e))
      | Ok None =>
          if remaining <? maxFile then
            (w, (cover CoverageMaxTotalBytes path (MaxTotalBytes (limits s)) (BytesRead (stats t) + 1) t,
                 WalkErr errStopSecretScan))
          else (w, (count Oversize 0 (cover CoverageMaxFileBytes path maxFile (bytesRead + 1) t), WalkOk))
      | Ok (Some content) => visit_text s path content t w
      end.

(** [entry.Info] *)
Definition entry_Info (path : string) (entry : DirEntry) (w : W) : W * result FileInfo :=
  match Entry_Info entry with Some info => (w, Ok info) | None => Lstat path w end.

(** A path that is no directory and was not seen before. *)
Definition visit_file (s : SecretScanner) (path : string) (entry : DirEntry) (t : scan) (w : W)
    : W * (scan * walked) :=
  let considered := FilesConsidered (stats t) in
  if MaxFiles (limits s) <=? considered then
    (w, (cover CoverageMaxFiles path (MaxFiles (limits s)) (considered + 1) t, WalkErr errStopSecretScan))
  else
    let t := count Considered 0 t in
    let '(w, info) := entry_Info path entry w in
    match info with
    | Err e => (w, (t, WalkErr (Wrapf "inspect %q: %w" e [FStr path])))
    | Ok info =>
        if negb (IsRegular (Info_Mode info)) then (w, (count NonRegular 0 t, WalkOk))
        else visit_regular s path info t w
    end.

(** The callback of the walk.  There is an entry whenever there is no error. *)
Definition visit (s : SecretScanner) (root path : string) (entry : option DirEntry) (walkErr : option error)
    (t : scan) (w : W) : W * (scan * walked) :=
  let '(w, e) := ctx_Err w in
  match e, walkErr, entry with
  | Some e, _, _ => (w, (t, WalkErr e))
  | None, Some e, _ => (w, (t, WalkErr (Wrapf "inspect %q: %w" e [FStr path])))
  | None, None, None => (w, (t, WalkOk))
  | None, None, Some entry =>
      let skip := if IsDir (Entry_Type entry) then SkipDir else WalkOk in
      match relativeDepth root path with
      | Err e => (w, (t, WalkErr e))
      | Ok depth =>
          if MaxDepth (limits s) <? depth then
            (w, (cover CoverageMaxDepth path (MaxDepth (limits s)) depth t, skip))
          else if mode_has (Entry_Type entry) ModeSymlink then (w, (count Symlink 0 t, skip))
          else if IsDir (Entry_Type entry) then (w, (t, WalkOk))
          else if bool_decide (path ∈ seenPaths t) then (w, (t, WalkOk))
          else visit_file s path entry (see path t) w
      end
  end.

Definition walk_fuel (s : SecretScanner) : nat := S (Z.to_nat (MaxDepth (limits s))).

(** The loop over the roots. *)
Fixpoint scan_roots (s : SecretScanner) (roots : list string) (t : scan) (w : W) : W * (scan * option error) :=
  match roots with
  | [] => (w, (t, None))
  | root :: roots =>
      let root := path_Clean root in
      let '(w, (t, r)) := WalkDir (visit s root) (walk_fuel s) root t w in
      match r with
      | WalkErr e => (w, (t, if errors_is e "secret scan bound reached" then None else Some e))
      | Deeper => (w, (t, Some (ErrorsNew "walk: out of fuel")))
      | _ => scan_roots s roots t w
      end
  end.

Definition zero_stats : SecretStats := {|
  FilesConsidered := 0; FilesScanned := 0; BytesRead := 0; SymlinksSkipped := 0; NonRegularSkipped := 0;
  BinarySkipped := 0; OversizeSkipped := 0 |}.

Definition initial : scan := {|
  stats := zero_stats; found := []; coverage := newCoverageAccumulator SecretScannerID; seenPaths := ∅ |}.

Definition result_of (t : scan) : SecretResult := {|
  Schema := SecretResultSchema; SchemaVersion := SecretResultSchemaVersion; ScannerID := SecretScannerID;
  Findings := sortSecretFindings (found t); Coverage := findings (coverage t); Stats := stats t |}.

Definition Scan (s : SecretScanner) (roots : list string) (w : W) : W * (SecretResult * option error) :=
  let '(w, e) := ctx_Err w in
  match e with
  | Some e => (w, (result_of initial, Some e))
  | None =>
      let '(w, (t, e)) := scan_roots s (normalizePaths roots) initial w in
      (w, (result_of t, e))
  end.
End scan.
