(* ===== verification/ScannerScanFacts.v ===== *)
(** * The secret scan of a file system: bounds, justification and termination

    A report stays within the limits, a finding comes from a text that its file
    gave during the scan, and the walk ends. *)

From S2P Require Import Prelude GoString GoTime Json Model GoLib GoCrypto GoFile ScannerContract.
From S2P Require Import ScannerSecret ScannerScan.
#[local] Open Scope Z_scope.
#[local] Arguments Z.add : simpl never.

(** ** The secret scan of a file system: bounds and justification

    Whatever the file system does, as long as a read fills at most its buffer,
    a report stays within the limits and every finding in it is one of the
    reference for a text that was read during the run. *)

Section facts.
Context `{Hash} `{UnicodeLower} {W : Type} `{FS : FileSystem W}.

(** ** Findings belong to their file *)

Lemma line_findings_path key path line number f : f ∈ line_findings key path line number → Path f = path.
Proof.
  unfold line_findings. destruct (isComment line); [set_solver|].
  intros [(d & Hf & _)%list_elem_of_bind|Hf]%elem_of_app.
  - unfold token_findings in Hf. by apply list_elem_of_fmap in Hf as (token & -> & _).
  - unfold assignment_finding in Hf. repeat case_in Hf; try set_solver.
Qed.

Lemma all_findings_path key path content f : f ∈ all_findings key path content → Path f = path.
Proof.
  unfold all_findings. generalize (split_on "010" content) as lines. intros lines.
  generalize O as skip, 1 as number. induction lines as [|raw lines IH]; intros [|skip] number;
    cbn [text_findings]; [set_solver..| |apply IH].
  destruct (key_marker _).
  - intros [->|Hf]%elem_of_cons; [done|]. by eapply IH.
  - intros [Hf|Hf]%elem_of_app; [by eapply line_findings_path|by eapply IH].
Qed.

(** ** The invariant *)

Definition skips (st : SecretStats) : Z := NonRegularSkipped st + BinarySkipped st + OversizeSkipped st.

(** A finding is one of the reference, for a text that its file gave when it
    was opened and read to its end during the run from [w] to [w'], and its
    path is within the depth limit of a root. *)
Definition finding_ok (s : SecretScanner) (roots : list string) (w w' : W) (f : SecretFinding) : Prop :=
  (∃ root depth, root ∈ roots ∧ relativeDepth root (Path f) = Ok depth ∧ depth ≤ MaxDepth (limits s)) ∧
  ∃ content, read_between nothing_else (Path f) content w w' ∧ slen content ≤ MaxFileBytes (limits s) ∧
    isBinary content = false ∧ f ∈ all_findings (key s) (Path f) content.

(** [k] files are being looked at, in the world [w] of a run from [w0]. *)
Record scan_ok (s : SecretScanner) (roots : list string) (w0 : W) (k : Z) (w : W) (t : scan) : Prop := {
  ok_later : later nothing_else w0 w;
  ok_considered : FilesConsidered (stats t) = FilesScanned (stats t) + skips (stats t) + k;
  ok_files : FilesConsidered (stats t) ≤ MaxFiles (limits s);
  ok_bytes : 0 ≤ BytesRead (stats t) ≤ MaxTotalBytes (limits s);
  ok_found : Z.of_nat (length (found t)) ≤ MaxFindings (limits s);
  ok_sound : Forall (finding_ok s roots w0 w) (found t);
}.

Context (s : SecretScanner) (roots : list string) (w0 : W).
Abbreviation ok := (scan_ok s roots w0).
Abbreviation since := (later (W := W) nothing_else).

Lemma finding_ok_later w w' f : since w w' → finding_ok s roots w0 w f → finding_ok s roots w0 w' f.
Proof.
  intros Hl [Hd (content & Hr & Hc)]. split; [done|]. exists content. split; [|done]. by eapply read_between_later.
Qed.

Lemma scan_ok_later k w w' t : since w w' → ok k w t → ok k w' t.
Proof.
  intros Hl [Hw ? ? ? ? Hs]. split; try done; [by etrans|].
  eapply Forall_impl; [exact Hs|]. intros f. by apply finding_ok_later.
Qed.

Lemma scan_ok_cover k w t code path limit observed : ok k w t → ok k w (cover code path limit observed t).
Proof. by intros [? ? ? ? ? ?]. Qed.
Lemma ok_see k w t path : ok k w t → ok k w (see path t).
Proof. by intros [? ? ? ? ? ?]. Qed.
Lemma ok_symlink k w t : ok k w t → ok k w (count Symlink 0 t).
Proof. intros [? H1 ? ? ? ?]. split; unfold skips in *; cbn in *; try done; lia. Qed.
Lemma scan_ok_consider w t :
  ok 0 w t → FilesConsidered (stats t) < MaxFiles (limits s) → ok 1 w (count Considered 0 t).
Proof. intros [? H1 ? ? ? ?] ?. split; unfold skips in *; cbn in *; try done; lia. Qed.
Lemma ok_done what w t : ok 1 w t → what ∈ [Scanned; NonRegular; Binary; Oversize] → ok 0 w (count what 0 t).
Proof.
  intros [? H1 ? ? ? ?] Hw. split; unfold skips in *; try done;
    destruct what; cbn in *; (lia || (repeat (apply elem_of_cons in Hw as [Hw|Hw]; [done|]); by apply not_elem_of_nil in Hw)).
Qed.
Lemma ok_read w t n :
  ok 1 w t → 0 ≤ n → BytesRead (stats t) + n ≤ MaxTotalBytes (limits s) → ok 1 w (read_bytes n t).
Proof. intros [? H1 ? ? ? ?] ? ?. split; unfold skips in *; cbn in *; try done; lia. Qed.

Lemma ok_report_all path fs w t t' r :
  report_all s path fs t = (t', r) → ok 0 w t → Forall (finding_ok s roots w0 w) fs → ok 0 w t'.
Proof.
  revert t. induction fs as [|f fs IH]; intros t; cbn [report_all]; [by intros [= <- _]|].
  destruct (_ <=? _) eqn:E; [intros [= <- _] ? _; by apply scan_ok_cover|]. bool_prop.
  intros Hr [? H1 ? ? ? ?] [Hf Hfs]%Forall_cons. apply (IH _ Hr); [|done].
  split; cbn; try done; [rewrite length_app; cbn [length]; lia|].
  apply Forall_app_2; [done|by constructor].
Qed.

(** ** One path *)

Context `{!FileLaws W}.

(** The invariant when the walk is broken off. *)
Definition ended (w : W) (t : scan) : Prop := ∃ k, (k = 0 ∨ k = 1) ∧ ok k w t.
Abbreviation sound := (keeps (W := W) (ok 0) ended).

Lemma ok_ended k w t : ok k w t → k = 0 ∨ k = 1 → ended w t.
Proof. by exists k. Qed.

Lemma sound_ok w t r : ok 0 w t → sound (w, (t, r)).
Proof. intros Ht. split; [done|]. apply (ok_ended 0); auto. Qed.

Lemma sound_stop k w t e : ok k w t → k = 0 ∨ k = 1 → sound (w, (t, WalkErr e)).
Proof. intros Ht. split; [by intros [?|?]|]. by apply (ok_ended k). Qed.

Definition within_depth (path : string) : Prop :=
  ∃ root depth, root ∈ roots ∧ relativeDepth root path = Ok depth ∧ depth ≤ MaxDepth (limits s).

(** What is scanned was read, or is nothing: of a file that was replaced. *)
Definition was_read (path content : string) (w : W) : Prop :=
  content = "" ∨ read_between nothing_else path content w0 w.

Lemma all_findings_empty secret path : all_findings secret path "" = [].
Proof. vm_compute. reflexivity. Qed.

Lemma inspectText_later secret path content limit w :
  since w (inspectText ctx_Err secret path content limit w).1.
Proof.
  eapply rtc_subrel; [|apply inspectText_polls]. intros v v' ->. apply call_ctx_Err.
Qed.

Lemma visit_text_sound path content t w :
  ok 1 w t → within_depth path → slen content ≤ MaxFileBytes (limits s) → was_read path content w →
  sound (visit_text s path content t w).
Proof.
  intros Ht Hd Hc Hread. unfold visit_text. destruct (isBinary content) eqn:Eb.
  { apply sound_ok, ok_done; [done|set_solver]. }
  cbv zeta. set (n := MaxFindings _ - _ + 1). set (t1 := count Scanned 0 t).
  pose proof (inspectText_later (key s) path content n w) as Hl.
  destruct (inspectText _ _ _ _ _ w) as [w1 [fs e]] eqn:E. cbn [fst] in Hl.
  assert (ok 0 w1 t1) as H1 by (apply (scan_ok_later _ w); [done|]; apply ok_done; [done|set_solver]).
  destruct e as [e|]; [apply (sound_stop 0); auto|].
  destruct (report_all _ _ _ _) as [t' r] eqn:Er. apply sound_ok.
  apply (ok_report_all _ _ _ _ _ _ Er H1). apply inspectText_some in E as ->.
  - apply Forall_forall. intros f Hf. unfold sortSecretFindings in Hf. apply elem_of_sort_by in Hf.
    apply elem_of_take in Hf as (i & Hf%list_elem_of_lookup_2 & _).
    pose proof (all_findings_path _ _ _ _ Hf) as Hp. split; [by rewrite Hp|]. exists content. rewrite Hp.
    split_and!; [|done..]. destruct Hread as [->|Hread]; [|by eapply read_between_later].
    rewrite all_findings_empty in Hf. set_solver.
  - pose proof (ok_found _ _ _ _ _ _ H1). subst n t1. cbn in *. lia.
Qed.

Lemma read_opened_facts path before limit fd v w w' n content :
  0 ≤ limit → Open path v = (w, Ok fd) → read_opened path before limit fd w = (w', (n, content)) →
  0 ≤ n ≤ limit ∧ since v w' ∧
  ∀ text, content = Ok (Some text) → slen text = n ∧
    (text = "" ∨ ∃ w1 w2, since v w1 ∧ read_whole path text w1 w2 ∧ since w2 w').
Proof.
  intros Hl Ho. pose proof (later_Open (others := nothing_else) _ _ _ _ Ho) as Hv. unfold read_opened.
  destruct (Fstat fd w) as [w1 after] eqn:Ef.
  pose proof (later_Fstat (others := nothing_else) _ _ _ _ Ef) as Hw.
  assert (since v w1) as Hv1 by (by etrans).
  destruct after as [after|e]; [|by intros [= <- <- <-]].
  destruct (_ || _) eqn:Eg.
  { intros [= <- <- <-]. split_and!; [done..|]. intros text [= <-]. split; [done|by left]. }
  unfold read_loop. destruct (read_bounded _ _ _ _ _ _) as [w2 [text r]] eqn:Er. intros [= <- <- <-].
  pose proof (bounded_loop_bound (Z.to_nat limit) 32768 limit
    (λ e, Wrapf "inspect bounded file %q: %w" e [FStr path]) (λ e, Wrapf "read %q: %w" e [FStr path])
    fd "" w1 Hl) as Hb. pose proof Er as Hb'. unfold read_bounded in Hb'. rewrite Hb' in Hb. cbn in Hb. clear Hb'.
  apply (bounded_reads (others := nothing_else)) in Er as (w3 & Hreads & Hl3 & Hend); [|done].
  pose proof (reads_later (others := nothing_else) _ _ _ _ Hreads). split_and!.
  - apply slen_nonneg.
  - done.
  - etrans; [exact Hv1|]. by etrans.
  - intros text'. destruct r; try done. intros [= <-]. split; [done|]. right. exists v, w2.
    split_and!; [done| |done]. bool_prop. eapply whole; try done. by apply Hend.
Qed.

Lemma readRegularFileBounded_facts path before limit w w' n content :
  0 ≤ limit → readRegularFileBounded path before limit w = (w', (n, content)) →
  0 ≤ n ≤ limit ∧ since w w' ∧
  ∀ text, content = Ok (Some text) → slen text = n ∧ (text = "" ∨ read_between nothing_else path text w w').
Proof.
  intros Hl. unfold readRegularFileBounded. destruct (Open path w) as [w1 fd] eqn:Eo.
  destruct fd as [fd|e]; [|intros [= <- <- <-]; split_and!; [done..|by eapply later_Open|done]].
  destruct (read_opened _ _ _ _ _) as [w2 [n2 r]] eqn:E. intros [= <- <- <-].
  destruct (read_opened_facts _ _ _ _ _ _ _ _ _ Hl Eo E) as (Hn & Hw & Hc).
  pose proof (later_Close (others := nothing_else) fd w2) as Hclose. split_and!; [apply Hn|apply Hn|by etrans|].
  intros text Ht. destruct (Hc text Ht) as [? [?|(v1 & v2 & ? & ? & ?)]]; (split; [done|]); [by left|right].
  exists v1, v2. split_and!; [done..|by etrans].
Qed.

Lemma visit_regular_sound path info t w :
  0 ≤ MaxFileBytes (limits s) → ok 1 w t → within_depth path → sound (visit_regular s path info t w).
Proof.
  intros Hm Ht Hd. unfold visit_regular. cbv zeta. destruct (_ <? Info_Size info).
  { apply sound_ok, scan_ok_cover, ok_done; [done|set_solver]. }
  destruct (_ || _) eqn:E; [apply (sound_stop 1); [by apply scan_ok_cover|auto]|]. bool_prop.
  destruct (readRegularFileBounded _ _ _ _) as [w1 [n content]] eqn:Er.
  apply readRegularFileBounded_facts in Er as (Hn & Hw & Hc); [|lia].
  pose proof (ok_later _ _ _ _ _ _ Ht) as Hw0.
  assert (ok 1 w1 (read_bytes n t)) as Hok by (apply ok_read; [by apply (scan_ok_later _ w)|lia..]).
  destruct content as [[content|]|e]; [| |apply (sound_stop 1); auto].
  - destruct (Hc content eq_refl) as [Hlen Hread]. apply visit_text_sound; [done..|lia|].
    destruct Hread as [->|(v1 & v2 & ? & ? & ?)]; [by left|right]. exists v1, v2. split_and!; [by etrans|done..].
  - destruct (_ <? MaxFileBytes _); [apply (sound_stop 1); [by apply scan_ok_cover|auto]|].
    apply sound_ok, ok_done; [by apply scan_ok_cover|set_solver].
Qed.

Lemma entry_Info_later path entry w w' r : entry_Info path entry w = (w', r) → since w w'.
Proof. unfold entry_Info. destruct (Entry_Info entry); [by intros [= <- _]|by apply later_Lstat]. Qed.

Lemma visit_file_sound path entry t w :
  0 ≤ MaxFileBytes (limits s) → ok 0 w t → within_depth path → sound (visit_file s path entry t w).
Proof.
  intros Hm Ht Hd. unfold visit_file. cbv zeta. destruct (MaxFiles _ <=? _) eqn:E.
  { apply (sound_stop 0); [by apply scan_ok_cover|auto]. }
  bool_prop. pose proof (scan_ok_consider w t Ht E) as Hok.
  destruct (entry_Info path entry w) as [w1 info] eqn:Ei. apply entry_Info_later in Ei.
  apply (scan_ok_later _ _ _ _ Ei) in Hok. destruct info as [info|e]; [|apply (sound_stop 1); auto].
  destruct (negb _); [apply sound_ok, ok_done; [done|set_solver]|]. by apply visit_regular_sound.
Qed.

Lemma visit_sound root path entry walkErr t w :
  0 ≤ MaxFileBytes (limits s) → root ∈ roots → ok 0 w t → sound (visit s root path entry walkErr t w).
Proof.
  intros Hm Hr Ht. unfold visit. destruct (ctx_Err w) as [w1 e] eqn:Ec.
  apply (scan_ok_later _ w w1) in Ht; [|by eapply later_ctx_Err].
  assert (∀ r, sound (w1, (t, r))) as Hsame by (intros; by apply sound_ok).
  destruct e as [e|]; [done|]. destruct walkErr as [e|]; [done|]. destruct entry as [entry|]; [|done].
  destruct (relativeDepth root path) as [depth|e] eqn:Ed; [|done].
  destruct (_ <? depth) eqn:El; [apply sound_ok; by apply scan_ok_cover|].
  destruct (mode_has _ _); [apply sound_ok; by apply ok_symlink|].
  destruct (IsDir _); [done|]. destruct (bool_decide _); [done|].
  apply visit_file_sound; [done|by apply ok_see|]. bool_prop. by exists root, depth.
Qed.

(** ** All roots *)

Lemma scan_roots_ended rs t w :
  0 ≤ MaxFileBytes (limits s) → (∀ root, root ∈ rs → path_Clean root ∈ roots) → ok 0 w t →
  ended (scan_roots s rs t w).1 (scan_roots s rs t w).2.1.
Proof.
  intros Hm. revert t w. induction rs as [|root rs IH]; intros t w Hin Ht; cbn [scan_roots].
  { apply (ok_ended 0); auto. }
  pose proof (WalkDir_keeps (visit s (path_Clean root)) (ok 0) ended) as Hw.
  specialize (Hw (λ w t Ht, ok_ended 0 w t Ht (or_introl eq_refl))).
  specialize (Hw (λ path w t, scan_ok_later 0 w _ t (later_call _ _ (call_Lstat _ path w)))).
  specialize (Hw (λ path w t, scan_ok_later 0 w _ t (later_call _ _ (call_ReadDir _ path w)))).
  assert (path_Clean root ∈ roots) as Hroot by (apply Hin; left).
  specialize (Hw (λ path d e t w, visit_sound (path_Clean root) path d e t w Hm Hroot)).
  specialize (Hw (walk_fuel s) (path_Clean root) t w Ht) as [H1 H2].
  destruct (WalkDir _ _ _ _ _) as [w1 [t1 r]]. cbn [fst snd] in *.
  assert (∀ root, root ∈ rs → path_Clean root ∈ roots) as Hin' by (intros; apply Hin; by right).
  destruct r; [apply IH; [done|apply H1; by left]|apply IH; [done|apply H1; by right]|done..].
Qed.
End facts.

#[export] Instance secret_less_strict : StrictLess secret_less.
Proof.
  assert (∀ x y : string, str_ltb x y = false → str_ltb y x = false → x = y) as Hs.
  { intros x y H1 H2. destruct (decide (x = y)) as [|Hn]; [done|]. destruct (str_ltb_total x y); congruence. }
  apply lex_by_strict; [apply str_eqb_eq|exact Hs|apply str_ltb_strict|].
  apply lex_by_strict; [apply Z.eqb_eq|intros; lia|apply Zltb_strict|].
  apply lex_by_strict; [apply str_eqb_eq|exact Hs|apply str_ltb_strict|].
  apply (less_on_strict Fingerprint), str_ltb_strict.
Qed.

Section theorems.
Context `{Hash} `{UnicodeLower} {W : Type} `{FS : FileSystem W} `{!FileLaws W}.

Lemma NewSecretScanner_limits given secret s :
  NewSecretScanner given secret = Ok s →
  0 < MaxFileBytes (limits s) ∧ 0 < MaxTotalBytes (limits s) ∧ 0 ≤ MaxDepth (limits s) ∧
  0 < MaxFiles (limits s) ∧ 0 < MaxFindings (limits s) ∧ 32 ≤ slen (key s).
Proof.
  unfold NewSecretScanner. cbv zeta. intros Hn. ok_inv. cbn [limits key].
  match goal with Hv : validateSecretLimits _ = Ok _ |- _ => revert Hv end.
  unfold validateSecretLimits. intros Hv. repeat (case_in Hv; [done|]). clear Hv.
  unfold minimumFingerprintKeyBytes in *. bool_prop. done.
Qed.

Lemma scan_initial_ok s roots w0 w :
  0 ≤ MaxFiles (limits s) → 0 ≤ MaxTotalBytes (limits s) → 0 ≤ MaxFindings (limits s) →
  later nothing_else w0 w → scan_ok s roots w0 0 w initial.
Proof. intros. split; cbn; try done; try lia. Qed.

(** C19. A secret scan stays within its limits whatever the file system and
    the context do, also when it ends with an error: at most so many findings,
    files considered and bytes read; each file considered is scanned or
      skipped, but for the one the scan ended at; the findings are sorted, and
    each is a finding of the reference for the text that the file of that path
    gave when it was opened and read to its end during the scan, a text within
    the file limit that is not binary, at a path no deeper below one of the
    roots than the depth limit. *)
Theorem Scan_bounded given secret s paths w w' r e :
  NewSecretScanner given secret = Ok s → Scan s paths w = (w', (r, e)) →
  Z.of_nat (length (Findings r)) ≤ MaxFindings (limits s) ∧
  FilesConsidered (Stats r) ≤ MaxFiles (limits s) ∧
  0 ≤ BytesRead (Stats r) ≤ MaxTotalBytes (limits s) ∧
  0 ≤ FilesConsidered (Stats r) - (FilesScanned (Stats r) + skips (Stats r)) ≤ 1 ∧
  StronglySorted (le_by secret_less) (Findings r) ∧
  Forall (finding_ok s (path_Clean <$> normalizePaths paths) w w') (Findings r).
Proof.
  intros (H1 & H2 & _ & H3 & H4 & _)%NewSecretScanner_limits. unfold Scan.
  set (roots := path_Clean <$> normalizePaths paths).
  destruct (ctx_Err w) as [w1 e1] eqn:Ec. apply (later_ctx_Err (others := nothing_else)) in Ec.
  pose proof (scan_initial_ok s roots w w1 ltac:(lia) ltac:(lia) ltac:(lia) Ec) as Hi.
  intros Hs. assert (∃ t, r = result_of t ∧ ended s roots w w' t) as (t & -> & k & Hk & [_ Hc ? ? Hf Hso]).
  { destruct e1 as [e1|]; [injection Hs as <- <- _; exists initial; split; [done|exists 0; auto]|].
    pose proof (scan_roots_ended s roots w (normalizePaths paths) initial w1) as He.
    destruct (scan_roots _ _ _ _) as [w2 [t e2]]. injection Hs as <- <- _. exists t. split; [done|].
    apply He; [lia|intros root Hr; by apply list_elem_of_fmap_2|done]. }
  cbn [result_of Findings Stats]. split_and!; try done; try lia.
  - unfold sortSecretFindings. by rewrite length_sort_by.
  - apply sort_by_sorted, _.
  - unfold sortSecretFindings. by rewrite sort_by_perm.
Qed.
End theorems.

(** ** The walk of the secret scan

    The walk ends before it is out of fuel, since no directory deeper than the
    limit is read; and on a file system that nobody else writes to, a scan
    that reports no limit has found all there is to find. *)

Lemma relativeDepth_below rooted es names :
  normal rooted es → Forall is_name names →
  relativeDepth (render rooted es) (render rooted (es ++ names)) = Ok (Z.of_nat (length names)).
Proof.
  intros Hn Hnames. unfold relativeDepth. rewrite path_Rel_below by done. f_equal. by apply relative_depth.
Qed.

(** ** Termination *)

Section terminates.
Context `{Hash} `{UnicodeLower} {W : Type} `{FS : FileSystem W} `{!FileLaws W}.
Context (s : SecretScanner) (rooted : bool) (es : list string) (Hroot : normal rooted es).
Abbreviation root := (render rooted es).

Lemma report_all_not_deeper path fs t : (report_all s path fs t).2 ≠ Deeper.
Proof. revert t. induction fs as [|f fs IH]; intros t; cbn [report_all]; [done|]. by destruct (_ <=? _). Qed.

Lemma visit_not_deeper path entry e t w : (visit s root path entry e t w).2.2 ≠ Deeper.
Proof.
  unfold visit. destruct (ctx_Err w) as [w1 [e1|]]; [done|]. destruct e, entry as [entry|]; try done.
  destruct (relativeDepth root path) as [depth|]; [|done]. cbv zeta.
  destruct (_ <? depth); [by destruct (IsDir _)|]. destruct (mode_has _ _); [by destruct (IsDir _)|].
  destruct (IsDir _); [done|]. destruct (bool_decide _); [done|].
  unfold visit_file. cbv zeta. destruct (_ <=? _); [done|].
  destruct (entry_Info _ _ _) as [w2 [info|]]; [|done]. destruct (negb _); [done|].
  unfold visit_regular. cbv zeta. destruct (_ <? _); [done|]. destruct (_ || _); [done|].
  destruct (readRegularFileBounded _ _ _ _) as [w3 [n [[content|]|]]]; [|by destruct (_ <? _)|done].
  unfold visit_text. destruct (isBinary content); [done|]. cbv zeta.
  destruct (inspectText _ _ _ _ _ _) as [w4 [fs [?|]]]; [done|].
  pose proof (report_all_not_deeper path fs (count Scanned 0 (read_bytes n (count Considered 0 (see path t))))) as Hr.
  destruct (report_all _ _ _ _). exact Hr.
Qed.

(** A directory is read only within the depth limit. *)
Lemma visit_dir_depth path d t w depth :
  relativeDepth root path = Ok depth → IsDir (Entry_Type d) = true →
  (visit s root path (Some d) None t w).2.2 = WalkOk → depth ≤ MaxDepth (limits s).
Proof.
  intros Hd Hdir. unfold visit. destruct (ctx_Err w) as [w1 [e1|]]; [done|]. rewrite Hd, Hdir. cbv zeta.
  destruct (_ <? depth) eqn:E; [done|]. by bool_prop.
Qed.

Lemma walk_entries_not_deeper walk path dirs t w :
  (∀ d t w, d ∈ dirs → (walk (path_Join path (Entry_Name d)) d t w).2.2 ≠ Deeper) →
  (walk_entries (W := W) (S := scan) walk path dirs t w).2.2 ≠ Deeper.
Proof.
  revert t w. induction dirs as [|d dirs IH]; intros t w Hw; cbn [walk_entries]; [done|].
  pose proof (Hw d t w ltac:(left)) as Hd. destruct (walk _ d t w) as [w1 [t1 r]].
  destruct r; try done. apply IH. intros. apply Hw. by right.
Qed.

Lemma walkDir_not_deeper fuel names d t w :
  Forall is_name names → MaxDepth (limits s) + 1 ≤ Z.of_nat (fuel + length names) →
  (walkDir (visit s root) fuel (render rooted (es ++ names)) d t w).2.2 ≠ Deeper.
Proof.
  revert names d t w. induction fuel as [|fuel IH]; intros names d t w Hn Hf; cbn [walkDir];
    pose proof (visit_not_deeper (render rooted (es ++ names)) (Some d) None t w) as Hv;
    pose proof (visit_dir_depth (render rooted (es ++ names)) d t w _ (relativeDepth_below _ _ _ Hroot Hn)) as Hdir;
    destruct (visit _ _ _ _ _ _ w) as [w1 [t1 r]]; cbn [fst snd] in *;
    (destruct r; [|by cbn; destruct (IsDir _)|done..]);
    destruct (IsDir (Entry_Type d)); cbn [negb]; try done.
  - specialize (Hdir eq_refl eq_refl). lia.
  - pose proof (ReadDir_names (render rooted (es ++ names)) w1) as Hnames.
    destruct (ReadDir _ w1) as [w2 [dirs e]]. cbn [fst snd] in *.
    assert (∀ t w, (walk_entries (walkDir (visit s root) fuel) (render rooted (es ++ names)) dirs t w).2.2 ≠ Deeper) as Hall.
    { intros t' w'. apply walk_entries_not_deeper. intros d' t'' w'' Hd'.
      rewrite path_Join_name by (by apply normal_app || by apply Hnames). rewrite <-app_assoc.
      apply IH; [apply Forall_app_2; [done|constructor; [by apply Hnames|done]]|].
      rewrite length_app. cbn [length]. lia. }
    destruct e as [e|]; [|done].
    pose proof (visit_not_deeper (render rooted (es ++ names)) (Some d) (Some e) t1 w2) as Hv2.
    destruct (visit _ _ _ _ _ t1 w2) as [w3 [t3 r]]. cbn [fst snd] in *. destruct r; try done.
    cbn. by destruct (IsDir _).
Qed.
End terminates.

(** C35. The walk of every root ends by itself: the fuel it is given, one more
    than the depth limit, is never used up, whatever the file system does, if
    the entries of its directories have names. *)
Theorem walk_ends `{Hash} `{UnicodeLower} {W : Type} `{FS : FileSystem W} `{!FileLaws W} s root t (w : W) :
  (WalkDir (visit s (path_Clean root)) (walk_fuel s) (path_Clean root) t w).2.2 ≠ Deeper.
Proof.
  destruct (path_Clean_normal root) as (rooted & es & -> & Hn). unfold WalkDir.
  destruct (Lstat _ w) as [w1 [info|e]].
  - pose proof (walkDir_not_deeper s rooted es Hn (walk_fuel s) [] {| Entry_Name := path_Base (render rooted es);
      Entry_Type := Z.land (Info_Mode info) ModeType; Entry_Info := Some info |} t w1) as Hd.
    rewrite app_nil_r in Hd. destruct (walkDir _ _ _ _ _) as [w2 [t2 r]]. cbn [fst snd] in *.
    destruct r; try done. apply Hd; [done|]. unfold walk_fuel. cbn [length]. lia.
  - pose proof (visit_not_deeper s rooted es (render rooted es) None (Some e) t w1) as Hv.
    destruct (visit _ _ _ _ _ _ _) as [w2 [t2 r]]. by destruct r.
Qed.
