(* ===== verification/ScannerComplete.v ===== *)
(** * Completeness of the secret scan

    On a file system that nobody else writes to, a scan that ends without an
    error and reports no limit has looked at every file its roots lead to. *)

From S2P Require Import Prelude GoString GoLib GoTime Json Model GoCrypto GoFile ScannerContract.
From S2P Require Import ScannerSecret ScannerScan ScannerScanFacts ScannerStill.
#[local] Open Scope Z_scope.
#[local] Arguments Z.add : simpl never.

(** ** The tree below a path *)

Definition same_system (w w' : Still) : Prop :=
  still_files w' = still_files w ∧ still_dirs w' = still_dirs w.

(** What an entry says of itself is so. *)
Definition entry_ok (files : gmap string (FileInfo * string)) (path : string) (d : DirEntry) : Prop :=
  ∀ info, Entry_Info d = Some info → ∃ content, files !! path = Some (info, content).

Definition system_ok (w : Still) : Prop :=
  files_ok (still_files w) ∧
  ∀ path dirs d, still_dirs w !! path = Some dirs → d ∈ dirs →
    entry_ok (still_files w) (path_Join path (Entry_Name d)) d.

(** [reach w path d p d']: going down from the entry [d] at [path], without
    following links, there is the entry [d'] at [p]. *)
Inductive reach (w : Still) : string → DirEntry → string → DirEntry → Prop :=
  | reach_here path d : reach w path d path d
  | reach_in path d dirs d1 p d' :
      IsDir (Entry_Type d) = true → mode_has (Entry_Type d) ModeSymlink = false →
      still_dirs w !! path = Some dirs → d1 ∈ dirs → proper_name (Entry_Name d1) = true →
      reach w (path_Join path (Entry_Name d1)) d1 p d' → reach w path d p d'.

(** An entry that is neither a directory nor a link. *)
Definition plain (d : DirEntry) : Prop :=
  IsDir (Entry_Type d) = false ∧ mode_has (Entry_Type d) ModeSymlink = false.

Lemma same_reach w w' path d p d' : same_system w w' → reach w' path d p d' → reach w path d p d'.
Proof. intros [_ Hd] Hr. induction Hr; [constructor|]. rewrite Hd in *. by eapply reach_in. Qed.

Section complete.
Context `{Hash} `{UnicodeLower} (s : SecretScanner) (w0 : Still) (Hok : system_ok w0).

Definition covered (t : scan) : Prop := byCode (coverage t) ≠ ∅.

(** All there is to find at a path that was seen has been found. *)
Definition searched (t : scan) : Prop := ∀ path info content,
  path ∈ seenPaths t → still_files w0 !! path = Some (info, content) →
  IsRegular (Info_Mode info) = true → isBinary content = false →
  ∀ f, f ∈ all_findings (key s) path content → f ∈ found t.

(** The number of findings is within its limit. *)
Definition few (t : scan) : Prop := Z.of_nat (length (found t)) ≤ MaxFindings (limits s).

(** What a step of the scan does: unless a limit was reached, what was seen
    was searched; [P] is what else holds then. *)
Record step (w : Still) (t : scan) (w' : Still) (t' : scan) (P : Prop) : Prop := {
  step_same : same_system w w';
  step_covered : covered t → covered t';
  step_few : few t → few t';
  step_seen : seenPaths t ⊆ seenPaths t';
  step_searched : covered t' ∨ searched t → covered t' ∨ searched t';
  step_then : covered t' ∨ P;
}.

Lemma hit_covered code path limit observed t : covered (cover code path limit observed t).
Proof. unfold covered, cover, add. cbn. apply insert_non_empty. Qed.

Lemma step_same_state w t w' t' (P : Prop) :
  same_system w w' → coverage t' = coverage t → seenPaths t' = seenPaths t → found t' = found t → P →
  step w t w' t' P.
Proof.
  intros Hs Hc Hp Hf HP. split; unfold covered, searched, few in *; rewrite ?Hc, ?Hp, ?Hf; auto.
Qed.

Lemma step_cover w t w' t' (P : Prop) :
  same_system w w' → (few t → few t') → seenPaths t ⊆ seenPaths t' → covered t' → step w t w' t' P.
Proof. intros. split; auto. Qed.

Lemma step_trans w t w1 t1 w2 t2 (P Q : Prop) :
  step w t w1 t1 P → (P → step w1 t1 w2 t2 Q) → (covered t1 → step w1 t1 w2 t2 Q) → step w t w2 t2 Q.
Proof.
  intros [[H1 H2] H3 Hfew H4 H5 H6] HP Hc.
  assert (step w1 t1 w2 t2 Q) as [[? ?] ? ? ? ? ?] by (destruct H6; auto).
  split; [split; congruence|auto|auto|set_solver| |done].
  intros [?|Hs]; [by left|]. destruct (H5 (or_intror Hs)); auto.
Qed.
(** ** One file *)

Lemma still_read path info content limit w :
  same_system w0 w → still_files w0 !! path = Some (info, content) →
  IsRegular (Info_Mode info) = true → Info_Size info ≤ limit →
  ∃ w', readRegularFileBounded path info limit w = (w', (Info_Size info, Ok (Some content))) ∧ same_system w w'.
Proof.
  intros [Hw Hd] Hf Hr Hl. destruct (proj1 Hok _ _ _ Hf) as [[stat Hs] Hc]. specialize (Hc Hr).
  unfold readRegularFileBounded. cbn [Open StillSystem]. rewrite Hw, Hf. cbn beta iota.
  set (w1 := {| still_files := still_files w0 |}). unfold read_opened.
  assert (still_open w1 !! still_next w = Some (info, content)) as Ho by (cbn; apply lookup_insert_eq).
  cbn [Fstat StillSystem]. rewrite Ho. cbn [no_file fmap result_fmap fst].
  rewrite Hr. cbn [negb orb]. unfold SameFile. rewrite Hs, !Z.eqb_refl. cbn [negb andb].
  unfold read_loop. rewrite (read_bounded_still _ _ _ _ _ content info) by (done || lia).
  rewrite Hc. by eexists.
Qed.

(** A step that saw [path], and found what there is to find. *)
Lemma step_file w t w' t' path (P : Prop) :
  same_system w w' → coverage t' = coverage t → seenPaths t' = {[path]} ∪ seenPaths t →
  (few t → few t') → (∀ f, f ∈ found t → f ∈ found t') →
  (∀ info content, still_files w0 !! path = Some (info, content) → IsRegular (Info_Mode info) = true →
    isBinary content = false → ∀ f, f ∈ all_findings (key s) path content → f ∈ found t') →
  P → step w t w' t' P.
Proof.
  intros Hs Hc Hp Hfew Hf Hall HP. split; unfold covered in *; rewrite ?Hc, ?Hp; [done|auto|auto|set_solver| |auto].
  intros [?|Hse]; [by left|right]. intros p info content Hin. rewrite Hp in Hin.
  apply elem_of_union in Hin as [->%elem_of_singleton|Hin]; [by apply Hall|].
  intros. by eapply Hf, Hse.
Qed.

Lemma report_all_found path fs t t' r :
  report_all s path fs t = (t', r) →
  seenPaths t' = seenPaths t ∧ (few t → few t') ∧ (covered t → covered t') ∧
  (covered t' ∨ r = WalkOk ∧ coverage t' = coverage t ∧ found t' = found t ++ fs ∧
    (fs = [] ∨ Z.of_nat (length (found t) + length fs) ≤ MaxFindings (limits s))).
Proof.
  revert t. induction fs as [|f fs IH]; intros t; cbn [report_all].
  { intros [= <- <-]. split_and!; [done..|]. right. rewrite app_nil_r. auto. }
  destruct (_ <=? _) eqn:E.
  { intros [= <- <-]. split_and!; [done..| |]; [intros _|left]; apply hit_covered. }
  bool_prop. intros (Hs & Hfew & Hc & Ht)%IH. split_and!; [by rewrite Hs| |done|].
  { intros _. apply Hfew. unfold few. cbn. rewrite length_app. cbn [length]. lia. }
  destruct Ht as [?|(-> & Hcov & Hf & Hl)]; [by left|right]. cbn in *.
  rewrite length_app in Hl. cbn [length] in Hl. split_and!; [done..| |].
  - by rewrite Hf, <-app_assoc.
  - right. destruct Hl as [->|Hl]; cbn [length]; lia.
Qed.

Lemma inspect_lines_still path limit skip number lines fs (w : Still) :
  (inspect_lines ctx_Err (key s) path limit skip number lines fs w).1 = w.
Proof.
  revert skip number fs. induction lines as [|l lines IH]; intros skip number fs; [done|].
  destruct skip as [|skip]; cbn [inspect_lines ctx_Err StillSystem]; [|done].
  destruct (limit <=? _); [done|]. cbv zeta. destruct (key_marker _); [|done]. by destruct (limit <=? _).
Qed.

Lemma inspectText_still path content limit (w : Still) :
  (inspectText ctx_Err (key s) path content limit w).1 = w.
Proof.
  unfold inspectText. pose proof (inspect_lines_still path limit 0 1 (split_on "010" content) [] w) as Hi.
  by destruct (inspect_lines _ _ _ _ _ _ _ _ _) as [w1 [fs e]].
Qed.

Definition file_then (path : string) (t' : scan) (r : walked) : Prop :=
  match r with
  | WalkOk => path ∈ seenPaths t'
  | WalkErr e => errors_is e "secret scan bound reached" = false
  | _ => False
  end.

Lemma visit_text_step path content t w w' t' r w1 t1 :
  same_system w1 w → coverage t = coverage t1 → seenPaths t = {[path]} ∪ seenPaths t1 → found t = found t1 →
  (∀ info c, still_files w0 !! path = Some (info, c) → c = content) →
  Z.of_nat (length (found t)) ≤ MaxFindings (limits s) →
  visit_text s path content t w = (w', (t', r)) → step w1 t1 w' t' (file_then path t' r).
Proof.
  intros Hw Hc Hp Hf Hcon Hlen. unfold visit_text. destruct (isBinary content) eqn:Eb.
  { intros [= <- <- <-]. apply (step_file _ _ _ _ path); try done.
    - intros f. cbn. by rewrite Hf.
    - intros info c Hi _ Hb. rewrite (Hcon _ _ Hi) in Hb. congruence.
    - cbn. rewrite Hp. set_solver. }
  cbv zeta. set (limit := _ + 1).
  pose proof (inspectText_reference (W := Still) ctx_Err (key s) path content limit w) as Hi.
  destruct (inspectText _ _ _ _ _ w) as [w2 [fs e]] eqn:Ei.
  assert (w2 = w) as ->.
  { pose proof (inspectText_still path content limit w) as Hw2. by rewrite Ei in Hw2. }
  assert (0 < limit) as Hlim by (subst limit; cbn; lia).
  specialize (Hi Hlim (λ _, eq_refl)). cbn [snd] in Hi. injection Hi as -> ->.
  destruct (report_all _ _ _ _) as [t2 r2] eqn:Er. intros [= <- <- <-].
  apply report_all_found in Er as (Hs2 & Hfew2 & Hc2 & Ht2). cbn in Hs2, Hc2.
  assert (few t1 → few t2) as Hfew by (intros Hx; apply Hfew2; unfold few in *; cbn; by rewrite Hf).
  destruct Ht2 as [Ht2|(-> & Hcov & Hfound & Hl)].
  { apply step_cover; [done|done|set_solver|done]. }
  apply (step_file _ _ _ _ path); [done| | |done| | |].
  - by rewrite Hcov.
  - by rewrite Hs2.
  - intros f Hin. rewrite Hfound. apply elem_of_app. left. cbn. by rewrite Hf.
  - intros info c Hi _ _ f Hin. rewrite (Hcon _ _ Hi) in Hin. rewrite Hfound. apply elem_of_app. right.
    unfold sortSecretFindings. apply elem_of_sort_by.
    set (all := all_findings (key s) path content) in *. rewrite take_ge; [done|].
    unfold sortSecretFindings in Hl. rewrite length_sort_by, length_take in Hl.
    assert (first : take (Z.to_nat limit) all = [] → all = []).
    { destruct all; [done|]. destruct (Z.to_nat limit) eqn:En; [|done]. subst limit. cbn in *. lia. }
    destruct Hl as [Hl|Hl].
    + assert (length (sort_by secret_less (take (Z.to_nat limit) all)) = 0%nat) as Hz by (by rewrite Hl).
      rewrite length_sort_by in Hz. apply length_zero_iff_nil in Hz. rewrite (first Hz). cbn. lia.
    + subst limit. cbn in *. lia.
  - cbn. rewrite Hs2, Hp. set_solver.
Qed.
Lemma visit_regular_step path info content t w w' t' r w1 t1 :
  same_system w0 w → same_system w1 w → coverage t = coverage t1 →
  seenPaths t = {[path]} ∪ seenPaths t1 → found t = found t1 → few t →
  still_files w0 !! path = Some (info, content) → IsRegular (Info_Mode info) = true →
  visit_regular s path info t w = (w', (t', r)) → step w1 t1 w' t' (file_then path t' r).
Proof.
  intros Hw0 Hw Hc Hp Hf Hlen Hfile Hr. unfold visit_regular. cbv zeta.
  destruct (_ <? Info_Size info) eqn:Em.
  { intros [= <- <- <-]. apply step_cover; [done|by unfold few; cbn; rewrite Hf|cbn; set_solver|apply hit_covered]. }
  destruct (_ || _) eqn:E.
  { intros [= <- <- <-]. apply step_cover; [done|by unfold few; cbn; rewrite Hf|cbn; set_solver|apply hit_covered]. }
  bool_prop. destruct (still_read path info content (Z.min (MaxFileBytes (limits s))
    (MaxTotalBytes (limits s) - BytesRead (stats t))) w) as (w2 & -> & Hw2); [done..|lia|].
  intros Hv. eapply visit_text_step; [|..|exact Hv]; try done.
  - destruct Hw, Hw2. split; congruence.
  - intros info' c Hi. rewrite Hi in Hfile. by injection Hfile.
Qed.

Lemma visit_file_step path d t w w' t' r w1 t1 :
  same_system w0 w → same_system w1 w → coverage t = coverage t1 →
  seenPaths t = {[path]} ∪ seenPaths t1 → found t = found t1 → few t →
  entry_ok (still_files w0) path d →
  visit_file s path d t w = (w', (t', r)) → step w1 t1 w' t' (file_then path t' r).
Proof.
  intros Hw0 Hw Hc Hp Hf Hlen Hd. unfold visit_file. cbv zeta. destruct (_ <=? _).
  { intros [= <- <- <-]. apply step_cover; [done|by unfold few; cbn; rewrite Hf|cbn; set_solver|apply hit_covered]. }
  assert (entry_Info path d w = (w, match Entry_Info d with Some info => Ok info
    | None => fst <$> no_file (still_files w0 !! path) end)) as ->.
  { unfold entry_Info. destruct (Entry_Info d); [done|]. destruct Hw0 as [Hw0 _]. cbn. by rewrite Hw0. }
  assert (∀ info, match Entry_Info d with Some info => Ok info | None => fst <$> no_file (still_files w0 !! path) end
    = Ok info → ∃ content, still_files w0 !! path = Some (info, content)) as Hinfo.
  { intros info. destruct (Entry_Info d) as [i|] eqn:Ed; [intros [= ->]; by apply Hd|].
    destruct (still_files w0 !! path) as [[i content]|]; [|done]. intros [= <-]. by exists content. }
  destruct (match Entry_Info d with Some _ => _ | None => _ end) as [info|e] eqn:Ei.
  - destruct (Hinfo info eq_refl) as (content & Hfile). destruct (negb _) eqn:Er.
    + intros [= <- <- <-]. apply (step_file _ _ _ _ path); try done.
      * intros f. cbn. by rewrite Hf.
      * intros info' c Hi Hreg. rewrite Hi in Hfile. injection Hfile as -> _. by rewrite Hreg in Er.
      * cbn. rewrite Hp. set_solver.
    + bool_prop. by apply (visit_regular_step path info content).
  - destruct (Entry_Info d) as [i|]; [done|]. destruct (still_files w0 !! path) as [[i content]|] eqn:Efile; [done|].
    injection Ei as <-. intros [= <- <- <-]. apply (step_file _ _ _ _ path); try done.
    + intros f. cbn. by rewrite Hf.
    + intros info c Hi. congruence.
Qed.

(** ** One path *)

Definition visit_then (path : string) (d : DirEntry) (t' : scan) (r : walked) : Prop :=
  match r with
  | WalkOk => plain d → path ∈ seenPaths t'
  | SkipDir => IsDir (Entry_Type d) = true ∧ mode_has (Entry_Type d) ModeSymlink = true
  | WalkErr e => errors_is e "secret scan bound reached" = false
  | Deeper => False
  end.

Lemma step_weaken w t w' t' (P Q : Prop) : step w t w' t' P → (P → Q) → step w t w' t' Q.
Proof. intros [? ? ? ? ? [?|?]] HPQ; split; auto. Qed.

Lemma visit_step root path d t w w' t' r :
  same_system w0 w → few t → entry_ok (still_files w0) path d →
  visit s root path (Some d) None t w = (w', (t', r)) → step w t w' t' (visit_then path d t' r).
Proof.
  intros Hw Hlen Hd. unfold visit. cbn [ctx_Err StillSystem].
  assert (same_system w w) as Hww by done.
  destruct (relativeDepth root path) as [depth|e] eqn:Er; cbv zeta.
  2: { intros [= <- <- <-]. apply step_same_state; try done. unfold relativeDepth in Er.
       destruct (path_Rel root path); [done|]. by injection Er as <-. }
  destruct (_ <? depth).
  { intros [= <- <- <-]. apply step_cover; [done..|apply hit_covered]. }
  destruct (mode_has _ _) eqn:Es.
  { intros [= <- <- <-]. apply step_same_state; try done. unfold visit_then, plain.
    destruct (IsDir _) eqn:Edir; [done|]. rewrite Es. by intros []. }
  destruct (IsDir _) eqn:Edir.
  { intros [= <- <- <-]. apply step_same_state; try done. unfold visit_then, plain. rewrite Edir. by intros []. }
  destruct (bool_decide _) eqn:Eb.
  { intros [= <- <- <-]. apply step_same_state; try done. cbn. by bool_prop. }
  intros Hv. apply (step_weaken _ _ _ _ (file_then path t' r)); [by eapply (visit_file_step path d (see path t) w)|].
  by destruct r; cbn; try done; intros Hin _.
Qed.

(** ** The walk *)

(** When the walk of an entry is over. *)
Definition walk_then (path : string) (d : DirEntry) (t' : scan) (r : walked) : Prop :=
  match r with
  | WalkOk => ∀ p d', reach w0 path d p d' → plain d' → p ∈ seenPaths t'
  | WalkErr e => errors_is e "secret scan bound reached" = false
  | SkipDir => False
  | Deeper => True
  end.

Definition entries_then (path : string) (dirs : list DirEntry) (t' : scan) (r : walked) : Prop :=
  match r with
  | WalkOk => ∀ d p d', d ∈ dirs → reach w0 (path_Join path (Entry_Name d)) d p d' → plain d' → p ∈ seenPaths t'
  | WalkErr e => errors_is e "secret scan bound reached" = false
  | SkipDir => False
  | Deeper => True
  end.

Lemma same_system_trans w w1 w2 : same_system w w1 → same_system w1 w2 → same_system w w2.
Proof. intros [] []. split; congruence. Qed.

Lemma walk_entries_step walk path dirs t w w' t' r :
  (∀ d t w w' t' r, d ∈ dirs → same_system w0 w → few t →
    walk (path_Join path (Entry_Name d)) d t w = (w', (t', r)) →
    step w t w' t' (walk_then (path_Join path (Entry_Name d)) d t' r)) →
  same_system w0 w → few t →
  walk_entries walk path dirs t w = (w', (t', r)) → step w t w' t' (entries_then path dirs t' r).
Proof.
  intros Hwalk. revert t w. induction dirs as [|d dirs IH]; intros t w Hw Hf; cbn [walk_entries].
  { intros [= <- <- <-]. apply step_same_state; try done. intros d p d' Hd. by apply not_elem_of_nil in Hd. }
  destruct (walk _ d t w) as [w1 [t1 r1]] eqn:E. apply Hwalk in E as Hs; [|left|done..].
  pose proof (step_same _ _ _ _ _ Hs) as Hw1. pose proof (step_few _ _ _ _ _ Hs Hf) as Hf1.
  destruct r1 as [| |e|].
  - intros Hr. apply IH in Hr as Hr2; [|intros; apply Hwalk; [by right|done..]|by eapply same_system_trans|done].
    apply (step_trans _ _ _ _ _ _ _ _ Hs).
    + intros Hd. apply (step_weaken _ _ _ _ _ _ Hr2). intros Hrest. destruct r; try done.
      intros d1 p d' [->|Hin]%elem_of_cons Hreach Hplain; [|by eapply Hrest].
      apply (step_seen _ _ _ _ _ Hr2). by eapply Hd.
    + intros Hc. destruct Hr2. split; auto.
  - intros [= <- <- <-]. apply (step_weaken _ _ _ _ _ _ Hs). by intros [].
  - intros [= <- <- <-]. by apply (step_weaken _ _ _ _ _ _ Hs).
  - intros [= <- <- <-]. by apply (step_weaken _ _ _ _ _ _ Hs).
Qed.

Lemma visit_error root path d e t w :
  visit (W := Still) s root path d (Some e) t w = (w, (t, WalkErr (Wrapf "inspect %q: %w" e [FStr path]))).
Proof. done. Qed.

(** An entry that is not gone into. *)
Lemma walk_then_leaf path d t r :
  visit_then path d t r → (r = WalkOk → IsDir (Entry_Type d) = false) → walk_then path d t (skipped_dir d r).
Proof.
  intros Hv Hr. destruct r as [| |e|]; cbn in *; [|destruct Hv as [-> Hlink]|done..].
  - intros p d' Hreach Hp. inversion Hreach; subst; [by apply Hv|]. specialize (Hr eq_refl). congruence.
  - intros p d' Hreach [Hp1 Hp2]. inversion Hreach; subst; congruence.
Qed.

Lemma walkDir_step root fuel path d t w w' t' r :
  same_system w0 w → few t → entry_ok (still_files w0) path d →
  walkDir (visit s root) fuel path d t w = (w', (t', r)) → step w t w' t' (walk_then path d t' r).
Proof.
  revert path d t w w' t' r. induction fuel as [|fuel IH]; intros path d t w w' t' r Hw Hf Hd; cbn [walkDir];
    destruct (visit s root path (Some d) None t w) as [w1 [t1 r1]] eqn:E; apply visit_step in E as Hs; try done;
    pose proof (step_same _ _ _ _ _ Hs) as Hw1; pose proof (step_few _ _ _ _ _ Hs Hf) as Hf1;
    (destruct r1 as [| |e1|]; [|intros [= <- <- <-]; apply (step_weaken _ _ _ _ _ _ Hs); intros Hv;
       by apply (walk_then_leaf _ _ _ _ Hv)..]);
    (destruct (IsDir (Entry_Type d)) eqn:Edir; cbn [negb];
       [|intros [= <- <- <-]; apply (step_weaken _ _ _ _ _ _ Hs); intros Hv; by apply (walk_then_leaf _ _ _ _ Hv)]).
  { intros [= <- <- <-]. by apply (step_weaken _ _ _ _ _ _ Hs). }
  cbn [ReadDir StillSystem]. assert (still_dirs w1 !! path = still_dirs w0 !! path) as ->.
  { destruct Hw, Hw1. congruence. }
  destruct (still_dirs w0 !! path) as [l|] eqn:El.
  - intros Hr. apply walk_entries_step in Hr as Hr2; [|
      intros d1 t2 w2 w3 t3 r3 [_ Hd1]%list_elem_of_filter Hw2 Hf2; apply IH; [done..|by eapply (proj2 Hok)]|
      by eapply same_system_trans|done].
    apply (step_trans _ _ _ _ _ _ _ _ Hs); [intros _|intros Hc]; (apply (step_weaken _ _ _ _ _ _ Hr2); intros Hall);
      (destruct r; try done); intros p d' Hreach [Hp1 Hp2]; inversion Hreach; subst; try congruence;
      (eapply Hall; [|done|done]); apply list_elem_of_filter; split; try congruence; by apply Is_true_true.
  - rewrite visit_error. intros [= <- <- <-]. by apply (step_weaken _ _ _ _ _ _ Hs).
Qed.
(** ** The roots *)

Definition root_entry (root : string) (info : FileInfo) : DirEntry := {|
  Entry_Name := path_Base root; Entry_Type := Z.land (Info_Mode info) ModeType; Entry_Info := Some info |}.

(** [p] is below [root]. *)
Definition below (root p : string) : Prop := ∃ info content d,
  still_files w0 !! root = Some (info, content) ∧ reach w0 root (root_entry root info) p d ∧ plain d.

Lemma WalkDir_step root fuel t w w' t' r :
  same_system w0 w → few t → WalkDir (visit s root) fuel root t w = (w', (t', r)) →
  step w t w' t' (match r with
    | WalkOk => ∀ p, below root p → p ∈ seenPaths t'
    | WalkErr e => errors_is e "secret scan bound reached" = false
    | SkipDir => False
    | Deeper => True
    end).
Proof.
  intros Hw Hf. unfold WalkDir. cbn [Lstat StillSystem]. destruct Hw as [Hw1 Hw2]. rewrite Hw1.
  destruct (still_files w0 !! root) as [[info content]|] eqn:E; cbn [no_file fmap result_fmap fst].
  - fold (root_entry root info). destruct (walkDir _ _ _ _ _) as [w1 [t1 r1]] eqn:Ed.
    apply walkDir_step in Ed; [|done|done|intros i [= <-]; by exists content].
    intros [= <- <- <-]. apply (step_weaken _ _ _ _ _ _ Ed). destruct r1; cbn; try done.
    intros Hr p (i & c & d & Hi & Hreach & Hp). rewrite Hi in E. injection E as -> ->. by eapply Hr.
  - rewrite visit_error. intros [= <- <- <-]. by apply step_same_state.
Qed.

Lemma scan_roots_step roots t w w' t' :
  same_system w0 w → few t → covered t ∨ searched t →
  scan_roots s roots t w = (w', (t', None)) →
  (covered t → covered t') ∧ seenPaths t ⊆ seenPaths t' ∧ (covered t' ∨ searched t') ∧
  (covered t' ∨ ∀ root p, root ∈ roots → below (path_Clean root) p → p ∈ seenPaths t').
Proof.
  revert t w. induction roots as [|root roots IH]; intros t w Hw Hf Hse; cbn [scan_roots].
  { intros [= <- <-]. split_and!; [done..|right]. intros root p Hr. by apply not_elem_of_nil in Hr. }
  destruct (WalkDir _ _ _ _ _) as [w1 [t1 r]] eqn:E. apply WalkDir_step in E as [Hs Hc Hfew Hsub Hse1 Hthen]; [|done..].
  assert (covered t1 ∨ searched t1) as Hse2 by (apply Hse1; destruct Hse; auto). clear Hse1. specialize (Hfew Hf). pose proof (same_system_trans _ _ _ Hw Hs) as Hw1. destruct r as [| |e|].
  - intros (Hc' & Hsub' & Hse' & Hall)%IH; [|done..]. split_and!; [auto|set_solver|done|].
    destruct Hall as [?|Hall]; [by left|]. destruct Hthen as [Ht|Hthen]; [left; auto|right].
    intros root' p [->|Hin]%elem_of_cons Hp; [by apply Hsub', Hthen|by eapply Hall].
  - intros (Hc' & Hsub' & Hse' & Hall)%IH; [|done..]. split_and!; [auto|set_solver|done|].
    left. destruct Hthen as [Ht|[]]; auto.
  - intros [= <- <- He]. assert (covered t1) as Hcov.
    { destruct Hthen as [?|Hthen]; [done|]. by rewrite Hthen in He. }
    split_and!; auto.
  - done.
Qed.
End complete.

(** C18. A secret scan that ends without an error and reports no limit has
    found everything: on a file system that nobody else writes to, every
    regular file below one of the roots, through directories and not through
    links, that is not binary has all of its secrets in the report. *)
Theorem Scan_complete `{Hash} `{UnicodeLower} given secret s paths w w' r root p info content f :
  NewSecretScanner given secret = Ok s → system_ok w →
  Scan s paths w = (w', (r, None)) → Coverage r = [] →
  root ∈ normalizePaths paths → below w (path_Clean root) p →
  still_files w !! p = Some (info, content) → IsRegular (Info_Mode info) = true → isBinary content = false →
  f ∈ all_findings (key s) p content → f ∈ Findings r.
Proof.
  intros (_ & _ & _ & _ & Hl & _)%NewSecretScanner_limits Hok Hs Hc Hroot Hp Hfile Hreg Hbin Hf.
  unfold Scan in Hs. cbn [ctx_Err StillSystem] in Hs.
  destruct (scan_roots _ _ _ _) as [w1 [t e]] eqn:E. injection Hs as _ <- ->.
  apply (scan_roots_step s w Hok) in E as (_ & _ & Hse & Hseen);
    [|done|unfold few; cbn; lia|right; intros q i c Hq; by apply not_elem_of_empty in Hq].
  assert (¬ covered t) as Hn.
  { intros Hcov. apply Hcov, map_empty. intros code. destruct (byCode _ !! code) as [x|] eqn:Ex; [|done].
    assert (x ∈ findings (coverage t)) as Hin by (apply elem_of_findings; by exists code).
    cbn in Hc. rewrite Hc in Hin. by apply not_elem_of_nil in Hin. }
  destruct Hse as [|Hse]; [done|]. destruct Hseen as [|Hseen]; [done|].
  cbn [Findings result_of]. unfold sortSecretFindings. apply elem_of_sort_by. by eapply Hse; [eapply Hseen|..].
Qed.
