(* ===== verification/Agent.v ===== *)
(** * Command oh-my-safety-agent

    [cmd/oh-my-safety-agent]: the operation that a command line asks for
    ([main.go]), the checks of its arguments and of standard input, the key of
    the secret scan, the scans and exposure checks ([security_modes.go]), and
    the printed policy ([managed_modes.go]).  Parsing the command line is
    package flag: [Flags] is what it leaves.  Printing the outputs as JSON and
    opening the journal are not modelled. *)

From S2P Require Import Prelude GoString GoLib GoUrl GoHttp GoTime Json Profile GoFile.
From S2P Require Import Model GoCrypto ControllerTypes ControllerAuth Managed.
From S2P Require Ingest ScannerSecret ScannerScan ScannerExecutable NotifierHttp Exposure.
#[local] Open Scope Z_scope.

(** ** Arguments *)

(** [filepath.Dir]: what stands up to the last separator, cleaned. *)
Definition path_Dir (path : string) : string :=
  path_Clean (join "/" (removelast (split_on "/" path)) +:+ (if in_chars "/" path then "/" else "")).

Example path_Dir_1 : path_Dir <$> ["/a/b"; "/a"; "a"; "a/b/"; ""; "/"; "//a"] = ["/a"; "/"; "."; "a/b"; "."; "/"; "/"].
Proof. reflexivity. Qed.

Definition validateLocalPathArgument (value label : string) : result string :=
  if String.eqb value "" || negb (String.eqb (trim_space value) value) || in_chars "000" value
     || String.eqb value "-" then
    Err (Errorf "%s is invalid" [FStr label])
  else
    let clean := path_Clean value in
    if negb (IsAbs value) && (String.eqb clean ".." || has_prefix clean "../") then
      Err (Errorf "%s must not traverse outside the current directory" [FStr label])
    else Ok clean.

(** A volume name is empty on Unix. *)
Definition isFilesystemRoot (path : string) : bool := String.eqb (path_Clean path) "/".

Definition validateFileArgument (value label : string) : result unit :=
  clean ← validateLocalPathArgument value label;
  fail_if (isFilesystemRoot clean) (Errorf "%s must name a file" [FStr label]).

Definition defaultFingerprintKeyPath (stateDB : string) : result string :=
  _ ← validateFileArgument stateDB "state database path";
  Ok (path_Join (path_Dir stateDB) "fingerprint.key").

Definition defaultManagedStatePath (stateDB : string) : result string :=
  _ ← validateFileArgument stateDB "state database path";
  Ok (path_Join (path_Dir stateDB) "managed-enrollment.json").

Definition isEnvironmentVariableStart (character : ascii) : bool :=
  Ascii.eqb character "_" || between 65 90 (byte character) || between 97 122 (byte character).

Definition maxEnvironmentVariableNameBytes : Z := 128.

Definition validateEnvironmentVariableName (name : string) : result unit :=
  let invalid := Err (ErrorsNew "HIBP API key environment variable name is invalid") in
  match chars name with
  | [] => invalid
  | first :: rest =>
      if (maxEnvironmentVariableNameBytes <? slen name) || negb (isEnvironmentVariableStart first) then invalid
      else if forallb (λ c, isEnvironmentVariableStart c || is_digit (byte c)) rest then Ok tt
      else invalid
  end.

Definition executableCandidates (paths : list string) : result (list ScannerExecutable.ExecutableCandidate) :=
  if bool_decide (paths = []) then Err (ErrorsNew "triage-executable requires at least one path")
  else mapM (λ path, clean ← validateLocalPathArgument path "executable path";
                     Ok {| ScannerExecutable.Path := clean; ScannerExecutable.New := false |}) paths.

(** ** One value from standard input *)

(** What a reader gives: a text, and whether it then fails instead of ending. *)
Record Reader := { Text : string; Fails : bool }.

(** [io.ReadAll] of an [io.LimitReader]: an error behind the limit is not
    seen. *)
Definition ReadAll (limit : Z) (reader : Reader) : option string :=
  if slen (Text reader) <? limit then (if Fails reader then None else Some (Text reader))
  else Some (str_take (Z.to_nat limit) (Text reader)).

(** Without the line feed that ends it, or the carriage return and line feed. *)
Definition trim_newline (value : string) : string :=
  match str_rev value with
  | String "010" (String "013" rest) => str_rev rest
  | String "010" rest => str_rev rest
  | _ => value
  end.

Definition readOneSensitiveInput (reader : option Reader) (maxBytes : Z) (label : string) : result string :=
  match reader with
  | None => Err (Errorf "%s input is invalid" [FStr label])
  | Some reader =>
      if maxBytes <? 1 then Err (Errorf "%s input is invalid" [FStr label])
      else match ReadAll (maxBytes + 3) reader with
      | None => Err (Errorf "read %s input" [FStr label])
      | Some value =>
          if maxBytes + 2 <? slen value then Err (Errorf "%s input exceeds the maximum length" [FStr label])
          else
            let value := trim_newline value in
            if String.eqb value "" || (maxBytes <? slen value) || negb (valid_utf8 value)
               || in_chars "000" value || in_chars "013" value || in_chars "010" value then
              Err (Errorf "%s input must contain exactly one valid value" [FStr label])
            else Ok value
      end
  end.

(** ** The key of the secret scan *)

(** The calls that write: a directory with its parents, a file that must not
    exist yet, its mode, its content, and a [Close] whose error is looked at. *)
Class WritableSystem (W : Type) := {
  MkdirAll : string → W → W * option error;
  CreateExclusive : string → W → W * result Z;
  Chmod : Z → Z → W → W * option error;
  Write : Z → string → W → W * (Z * option error);
  Sync : Z → W → W * option error;
  CloseWritten : Z → W → W * option error;
}.

Definition fingerprintKeyBytes : Z := 32.
Definition key_mode : Z := 384.

Definition secureFingerprintKeyMode (mode : Z) : bool :=
  IsRegular mode && negb (mode_has mode ModeSymlink) && (Perm mode =? key_mode)
  && negb (mode_has mode (ModeSetuid + ModeSetgid + ModeSticky)).

Section keys.
Context {W : Type} `{FS : FileSystem W} `{WS : !WritableSystem W}.

(** [io.ReadAll] of a file behind a limit: reads that ask for what the limit
    leaves.  Every one adds a byte, so the limit is enough fuel. *)
Fixpoint read_loop (fuel : nat) (limit fd : Z) (content : string) (w : W) : W * result string :=
  if limit - slen content <=? 0 then (w, Ok content) else
  match fuel with
  | O => (w, Ok content)
  | S fuel =>
      let '(w, c) := Read fd (limit - slen content) w in
      match c with
      | Bytes c s => read_loop fuel limit fd (content +:+ String c s) w
      | EndOfFile => (w, Ok content)
      | Broken e => (w, Err e)
      end
  end.

(** [defer file.Close()] *)
Definition closing {A} (fd : Z) (m : eff W A) : eff W A := λ w, let '(w, r) := m w in (Close fd w, r).

Definition read_opened_key (path : string) (before : FileInfo) (fd : Z) : eff W string :=
  opened ← Fstat fd;
  after ← Lstat path;
  _ ← pure_ (fail_if (negb (secureFingerprintKeyMode (Info_Mode opened))
                      || negb (secureFingerprintKeyMode (Info_Mode after))
                      || negb (SameFile before opened) || negb (SameFile after opened))
               (ErrorsNew "fingerprint key changed while opening"));
  key ← read_loop (Z.to_nat (fingerprintKeyBytes + 1)) (fingerprintKeyBytes + 1) fd "";
  _ ← pure_ (fail_if (negb (slen key =? fingerprintKeyBytes)) (ErrorsNew "fingerprint key length is invalid"));
  mret key.

Definition readFingerprintKey (path : string) : eff W string :=
  before ← Lstat path;
  _ ← pure_ (fail_if (negb (secureFingerprintKeyMode (Info_Mode before)))
               (ErrorsNew "fingerprint key metadata is invalid"));
  fd ← Open path;
  closing fd (read_opened_key path before fd).

(** A call that only says what went wrong. *)
Definition call (f : W → W * option error) : eff W unit :=
  λ w, let '(w, e) := f w in (w, match e with Some e => Err e | None => Ok tt end).

Definition writeFingerprintKey (fd : Z) (path key : string) : eff W unit :=
  _ ← call (Chmod fd key_mode);
  written ← (λ w, let '(w, (n, e)) := Write fd key w in (w, match e with Some e => Err e | None => Ok n end));
  _ ← pure_ (fail_if (negb (written =? slen key)) (Sentinel "io.ErrShortWrite"));
  _ ← call (Sync fd);
  info ← Fstat fd;
  pathInfo ← Lstat path;
  pure_ (fail_if (negb (secureFingerprintKeyMode (Info_Mode info))
                  || negb (secureFingerprintKeyMode (Info_Mode pathInfo)) || negb (SameFile info pathInfo))
           (ErrorsNew "fingerprint key permissions are invalid")).

(** A new key in a file that did not exist; the one in it, when it now does. *)
Definition new_key (path key : string) : eff W string := λ w,
  let '(w, file) := CreateExclusive path w in
  match file with
  | Err e =>
      if errors_is e "fs.ErrExist" then
        wrap_err (λ _, ErrorsNew "fingerprint key file is unsafe or invalid") (readFingerprintKey path) w
      else (w, Err (ErrorsNew "create fingerprint key file"))
  | Ok fd =>
      let '(w, written) := writeFingerprintKey fd path key w in
      let '(w, closed) := call (CloseWritten fd) w in
      (w, if is_ok written && is_ok closed then Ok key else Err (ErrorsNew "persist fingerprint key"))
  end.

(** [random] is what thirty-two bytes are read from, [None] when that fails. *)
Definition create_key (path : string) (random : option string) : eff W string :=
  _ ← wrap_err (λ _, ErrorsNew "create fingerprint key directory") (call (MkdirAll (path_Dir path)));
  match random with
  | None => pure_ (Err (ErrorsNew "generate fingerprint key"))
  | Some key => new_key path key
  end.

(** With a source of randomness, as the callers have one. *)
Definition loadOrCreateFingerprintKey (path : string) (random : option string) : eff W string := λ w,
  let '(w, key) := readFingerprintKey path w in
  match key with
  | Ok key => (w, Ok key)
  | Err e =>
      if negb (isNotExist e) then (w, Err (ErrorsNew "fingerprint key file is unsafe or invalid"))
      else create_key path random w
  end.

(** ** The local scans *)

Definition valid_secret_root (root : string) : eff W string :=
  clean ← pure_ (validateLocalPathArgument root "secret scan root");
  _ ← pure_ (fail_if (isFilesystemRoot clean) (ErrorsNew "secret scan root must not be a filesystem root"));
  info ← wrap_err (λ _, ErrorsNew "secret scan root is unavailable") (Lstat clean);
  _ ← pure_ (fail_if (mode_has (Info_Mode info) ModeSymlink) (ErrorsNew "secret scan root must not be a symlink"));
  _ ← pure_ (fail_if (negb (IsDir (Info_Mode info)) && negb (IsRegular (Info_Mode info)))
               (ErrorsNew "secret scan root must be a directory or regular file"));
  mret clean.

Fixpoint valid_secret_roots (roots : list string) : eff W (list string) :=
  match roots with
  | [] => mret []
  | root :: roots =>
      clean ← valid_secret_root root;
      rest ← valid_secret_roots roots;
      mret (clean :: rest)
  end.

Definition validateSecretRoots (roots : list string) : eff W (list string) :=
  _ ← pure_ (fail_if (bool_decide (roots = [])) (ErrorsNew "scan-secrets requires at least one root"));
  valid_secret_roots roots.

(** A scan that fails has a result that nobody prints. *)
Definition scanned {A} (failed : string) (scan : W → W * (A * option error)) : eff W A :=
  λ w, let '(w, (result, e)) := scan w in
       (w, match e with Some _ => Err (ErrorsNew failed) | None => Ok result end).

Definition runSecretScan `{Hash} `{UnicodeLower} (roots : list string) (keyPath : string)
    (random : option string) : eff W ScannerScan.SecretResult :=
  normalizedRoots ← validateSecretRoots roots;
  _ ← pure_ (validateFileArgument keyPath "fingerprint key path");
  key ← loadOrCreateFingerprintKey keyPath random;
  secretScanner ← wrap_err (λ _, ErrorsNew "initialize local secret scanner")
                    (pure_ (ScannerScan.NewSecretScanner ScannerScan.zero_limits key));
  scanned "local secret scan failed" (ScannerScan.Scan secretScanner normalizedRoots).

Definition runExecutableTriage `{Hash} `{Environment} (paths : list string) : eff W ScannerExecutable.ExecutableResult :=
  candidates ← pure_ (executableCandidates paths);
  executableScanner ← wrap_err (λ _, ErrorsNew "initialize executable scanner")
    (pure_ (ScannerExecutable.NewExecutableScanner (W := W) {| ScannerExecutable.MaxFileBytes := 0;
              ScannerExecutable.MaxTotalBytes := 0; ScannerExecutable.MaxFiles := 0 |} None));
  scanned "local executable triage failed" (ScannerExecutable.Triage executableScanner candidates).
End keys.

(** ** Exposure checks *)

Inductive agent_error :=
  | Plain (e : error)
  | FromAdapter (e : Exposure.Adapter.AdapterError).

Record Envelope (A : Type) := {
  Env_Schema : string; Env_SchemaVersion : Z; Env_Contract : Exposure.Adapter.AdapterContract; Env_Result : A }.
Arguments Env_Result {A}.

Definition securityModeSchemaVersion : Z := 1.
Definition maxPasswordInputBytes : Z := 1024.
Definition maxEmailInputBytes : Z := 254.
Definition disabledBreachedAccountAPIKey : string := "00000000000000000000000000000000".

Section exposure.
Import Exposure.Adapter.
Context `{NotifierHttp.HttpDate} {N : Type} `{TR : !Transport N}.
Context (stdin : option Reader) (now : Time).

(** Reading the value, then asking with it. *)
Definition ask {A} (maxBytes : Z) (label schema : string) (contract : AdapterContract)
    (check : string → N → N * attempt A) (net : N) : N * (agent_error + Envelope A) :=
  match readOneSensitiveInput stdin maxBytes label with
  | Err e => (net, inl (Plain e))
  | Ok value =>
      let '(net, r) := check value net in
      (net, match r with
            | inl e => inl (FromAdapter e)
            | inr result => inr {| Env_Schema := schema; Env_SchemaVersion := securityModeSchemaVersion;
                                   Env_Contract := contract; Env_Result := result |}
            end)
  end.

Definition runPwnedPasswordCheck (policy : AccessPolicy) (httpOptions : HTTPOptions) (net : N)
    : N * (agent_error + Envelope PasswordResult) :=
  match NewPwnedPasswordsClient policy httpOptions with
  | inl e => (net, inl (FromAdapter e))
  | inr client =>
      ask maxPasswordInputBytes "password" "io.oh-my-safety/pwned-password-check" (Pwned_contract client)
        (λ password, pwned_Check client true password now) net
  end.

Definition breached_api_key (policy : AccessPolicy) (name : string) (LookupEnv : string → option string)
    : result string :=
  if Enabled policy && negb (Offline policy) then
    match LookupEnv name with
    | Some apiKey => Ok apiKey
    | None => Err (ErrorsNew "breached-account API key is unavailable or invalid")
    end
  else Ok disabledBreachedAccountAPIKey.

Definition runBreachedAccountCheck (policy : AccessPolicy) (apiKeyEnvironment : string)
    (LookupEnv : string → option string) (httpOptions : HTTPOptions) (net : N)
    : N * (agent_error + Envelope BreachedAccountResult) :=
  match validateEnvironmentVariableName apiKeyEnvironment;; breached_api_key policy apiKeyEnvironment LookupEnv with
  | Err e => (net, inl (Plain e))
  | Ok apiKey =>
      match NewBreachedAccountClient {| Breached_Policy := policy; Breached_HTTP := httpOptions;
                                        Breached_APIKey := apiKey; UserAgent := "" |} with
      | inl e => (net, inl (FromAdapter e))
      | inr client =>
          ask maxEmailInputBytes "email" "io.oh-my-safety/breached-account-check" (breached_contract client)
            (λ email, breached_Check client true email now) net
      end
  end.
End exposure.

Definition buildExposureContracts (pwned breached : Exposure.Adapter.HTTPOptions)
    : Exposure.Adapter.AdapterError + list Exposure.Adapter.AdapterContract :=
  let policy := {| Exposure.Adapter.Enabled := false; Exposure.Adapter.Offline := false |} in
  match Exposure.Adapter.NewPwnedPasswordsClient policy pwned with
  | inl e => inl e
  | inr passwordClient =>
      match Exposure.Adapter.NewBreachedAccountClient {|
              Exposure.Adapter.Breached_Policy := policy; Exposure.Adapter.Breached_HTTP := breached;
              Exposure.Adapter.Breached_APIKey := disabledBreachedAccountAPIKey;
              Exposure.Adapter.UserAgent := "" |} with
      | inl e => inl e
      | inr accountClient =>
          inr (sort_by (λ a b, str_ltb (Exposure.Adapter.ID a) (Exposure.Adapter.ID b))
                 [Exposure.Adapter.Pwned_contract passwordClient;
                  Exposure.Adapter.breached_contract accountClient])
      end
  end.

(** ** The operation of a command line *)

(** What [flags.Parse] leaves: the values, the names that were given, and the
    number of arguments that are no flags. *)
Record Flags := {
  stateDB : string; preset : string; ingestScan : string; history : bool; findings : bool; limit : Z;
  secretRoots : list string; fingerprintKey : string; executablePaths : list string;
  checkPwnedPassword : bool; checkBreachedAccount : bool; exposureContracts : bool;
  allowNetwork : bool; offline : bool; hibpAPIKeyEnv : string;
  managedEnroll : bool; managedSync : bool; managedRotateCredential : bool; managedPolicy : bool;
  managedState : string; controllerURL : string; enrollmentTokenEnv : string;
  controllerPolicyKey : string; deviceName : string;
  visited : gset string; NArg : Z;
}.

Inductive operation :=
  | OpIngest (file db : string)
  | OpHistory (db : string) (limit : Z)
  | OpFindings (db : string) (limit : Z)
  | OpScanSecrets (roots : list string) (keyPath : string)
  | OpTriage (paths : list string)
  | OpCheckPassword (policy : Exposure.Adapter.AccessPolicy)
  | OpCheckAccount (policy : Exposure.Adapter.AccessPolicy) (apiKeyEnv : string)
  | OpContracts
  | OpEnroll (state url tokenEnv policyKey deviceName : string)
  | OpSync (state db : string)
  | OpRotate (state : string)
  | OpPolicy (state : string)
  | OpReadiness (db : string) (profile : Profile).

Section flags.
Context (f : Flags).

Definition given (name : string) : bool := bool_decide (name ∈ visited f).

(** The list the modes are counted in. *)
Definition modes : list bool :=
  [given "ingest-scan"; history f; findings f; given "scan-secrets"; given "triage-executable";
   checkPwnedPassword f; checkBreachedAccount f; exposureContracts f;
   managedEnroll f; managedSync f; managedRotateCredential f; managedPolicy f].

Definition modeCount : nat := length (filter (λ active, active = true) modes).

Definition managedMode : bool := managedEnroll f || managedSync f || managedRotateCredential f || managedPolicy f.

Definition check_flags : result unit :=
  let only name := Errorf "%s is only valid with managed-enroll" [FStr name] in
  first_error [
    (negb (NArg f =? 0), ErrorsNew "unexpected positional arguments");
    ((1 <? modeCount)%nat, ErrorsNew "agent operation modes are mutually exclusive");
    (given "ingest-scan" && String.eqb (ingestScan f) "", ErrorsNew "ingest-scan requires a file path or - for stdin");
    (given "scan-secrets" && bool_decide (secretRoots f = []), ErrorsNew "scan-secrets requires at least one root");
    (given "triage-executable" && bool_decide (executablePaths f = []),
      ErrorsNew "triage-executable requires at least one path");
    (given "limit" && negb (history f) && negb (findings f), ErrorsNew "limit is only valid with history or findings");
    (given "fingerprint-key" && negb (given "scan-secrets"), ErrorsNew "fingerprint-key is only valid with scan-secrets");
    (given "fingerprint-key" && String.eqb (fingerprintKey f) "", ErrorsNew "fingerprint-key requires a file path");
    ((given "allow-network" || given "offline") && negb (checkPwnedPassword f || checkBreachedAccount f),
      ErrorsNew "allow-network and offline are only valid with an exposure check");
    (given "hibp-api-key-env" && negb (checkBreachedAccount f),
      ErrorsNew "hibp-api-key-env is only valid with check-breached-account");
    (given "managed-state" && negb managedMode, ErrorsNew "managed-state is only valid with a managed operation");
    (given "controller-url" && negb (managedEnroll f), only "controller-url");
    (given "enrollment-token-env" && negb (managedEnroll f), only "enrollment-token-env");
    (given "controller-policy-key" && negb (managedEnroll f), only "controller-policy-key");
    (given "device-name" && negb (managedEnroll f), only "device-name");
    (managedEnroll f && (String.eqb (controllerURL f) "" || String.eqb (controllerPolicyKey f) ""),
      ErrorsNew "managed-enroll requires controller-url and controller-policy-key")].

Definition managed_state_path : result string :=
  if managedMode && String.eqb (managedState f) "" then defaultManagedStatePath (stateDB f) else Ok (managedState f).

(** The switch. *)
Definition dispatch (state : string) (resolved : Profile) : result operation :=
  let policy := {| Exposure.Adapter.Enabled := allowNetwork f; Exposure.Adapter.Offline := offline f |} in
  if given "scan-secrets" then
    keyPath ← (if String.eqb (fingerprintKey f) "" then defaultFingerprintKeyPath (stateDB f) else Ok (fingerprintKey f));
    Ok (OpScanSecrets (secretRoots f) keyPath)
  else if given "triage-executable" then Ok (OpTriage (executablePaths f))
  else if checkPwnedPassword f then Ok (OpCheckPassword policy)
  else if checkBreachedAccount f then Ok (OpCheckAccount policy (hibpAPIKeyEnv f))
  else if exposureContracts f then Ok OpContracts
  else if managedEnroll f then
    Ok (OpEnroll state (controllerURL f) (enrollmentTokenEnv f) (controllerPolicyKey f) (deviceName f))
  else if managedSync f then Ok (OpSync state (stateDB f))
  else if managedRotateCredential f then Ok (OpRotate state)
  else if managedPolicy f then Ok (OpPolicy state)
  else if given "ingest-scan" then Ok (OpIngest (ingestScan f) (stateDB f))
  else if history f then Ok (OpHistory (stateDB f) (limit f))
  else if findings f then Ok (OpFindings (stateDB f) (limit f))
  else Ok (OpReadiness (stateDB f) resolved).

(** [runWithDependencies] from the parsed flags to the call it makes.  A scan
    is read before the journal is opened, that is, within [OpIngest]. *)
Definition choose : result operation :=
  _ ← check_flags;
  state ← managed_state_path;
  _ ← (if history f || findings f then Ingest.ValidateQueryLimit (limit f) else Ok tt);
  resolved ← Resolve (preset f) [];
  dispatch state resolved.
End flags.

(** ** The printed policy *)

Definition maxFlatPolicyBytes : Z := 131072.
Definition FormatBool (b : bool) : string := if b then "true" else "false".

Definition policy_rows (document : PolicyDocument) : list (list string) := [
  ["schema"; "io.oh-my-safety/managed-policy-flat"; format_int 1];
  ["policy_id"; Policy_ID document];
  ["revision"; format_int (Revision document)];
  ["profile"; Policy_Profile document];
  ["cadence_scan_interval_seconds"; format_int (ScanIntervalSeconds (Cadence document))];
  ["cadence_jitter_seconds"; format_int (JitterSeconds (Cadence document))];
  ["reporting_enabled"; FormatBool (Rep_Enabled (Reporting document))];
  ["reporting_sync_interval_seconds"; format_int (SyncIntervalSeconds (Reporting document))];
  ["remediation"; Policy_Remediation document]].

Definition check_row (check : PolicyCheck) : list string :=
  ["check"; Check_ID check; FormatBool (Check_Enabled check)].

Definition check_less (a b : PolicyCheck) : bool := str_ltb (Check_ID a) (Check_ID b).

Definition row_text (row : list string) : string := join (String "009" "") row +:+ String "010" "".

Definition runManagedPolicy (loaded : result PolicyDocument) : result string :=
  document ← loaded;
  let output := foldl (λ output row, output +:+ row_text row) ""
    (policy_rows document ++ (check_row <$> sort_by check_less (Checks document))) in
  if maxFlatPolicyBytes <? slen output then
    Err (Errorf "managed policy output exceeds %d bytes" [FInt maxFlatPolicyBytes])
  else Ok output.
