(* ===== verification/AgentFacts.v ===== *)
(** * Command oh-my-safety-agent: properties

    Arguments and standard input, the key of the secret scan, the operation of
    a command line and its consent to exposure checks, the printed policy; and
    each of them applied. *)

From S2P Require Import Prelude GoString GoLib GoUrl GoHttp GoTime Json Profile JsonSize GoFile.
From S2P Require Import Model GoCrypto ControllerTypes ControllerAuth Managed DemoCrypto ManagedDemo Agent.
From S2P Require Ingest NotifierHttp Exposure.
#[local] Open Scope Z_scope.

(** ** Paths *)

(** Going up first shows in the first element. *)
Lemma goes_up s :
  String.eqb s ".." || has_prefix s "../" = bool_decide (head (split_on "/" s) = Some "..").
Proof.
  destruct (bool_decide _) eqn:E; bool_prop.
  - destruct s as [|a s]; [done|]. cbn [split_on] in E. destruct (Ascii.eqb a "/") eqn:Ea; [done|].
    destruct s as [|b s]; [done|]. cbn [split_on] in E. destruct (Ascii.eqb b "/") eqn:Eb; [by destruct a|].
    destruct s as [|c s]; cbn [split_on] in E; [by injection E as -> ->|].
    destruct (Ascii.eqb_spec c "/") as [->|Hc]; cbn in E; [injection E as -> ->; by apply orb_true_r|].
    by destruct (split_on "/" s).
  - apply orb_false_iff. split; apply not_true_iff_false; intros Hs; apply E.
    + by apply String.eqb_eq in Hs as ->.
    + unfold has_prefix in Hs. destruct (strip_prefix "../" s) as [t|] eqn:Ht; [|done].
      apply strip_prefix_inv in Ht as ->. change ("../" +:+ t) with (".." +:+ String "/" t).
      by rewrite split_on_cut by apply free_of_dots.
Qed.

(** An argument is accepted when it is a proper text whose path is absolute or
    stays below the current directory, and becomes that path. *)
Lemma validateLocalPathArgument_spec value label clean :
  validateLocalPathArgument value label = Ok clean ↔
  value ≠ "" ∧ trim_space value = value ∧ in_chars "000" value = false ∧ value ≠ "-" ∧
  clean = path_Clean value ∧ ∃ names, Forall is_name names ∧ clean = render (IsAbs value) names.
Proof.
  unfold validateLocalPathArgument, IsAbs.
  destruct (path_Clean_rooted value) as (es & Hc & Hn). rewrite goes_up, Hc.
  destruct (String.eqb_spec value ""); [split; [done|by intros []]|].
  destruct (String.eqb_spec (trim_space value) value); [|split; [done|by intros (_ & ? & _)]].
  destruct (in_chars "000" value); [split; [done|by intros (_ & _ & ? & _)]|].
  destruct (String.eqb_spec value "-"); [split; [done|by intros (_ & _ & _ & ? & _)]|]. cbn [orb negb].
  rewrite split_render by done. pose proof Hn as (k & names & -> & Hnames & Hk).
  destruct (has_prefix value "/"); cbn [negb andb app].
  - rewrite Hk by done. split; [intros [= <-]; eauto 10|by intros (_ & _ & _ & _ & -> & _)].
  - destruct k as [|k]; cbn [replicate app].
    + rewrite bool_decide_eq_false_2; [split; [intros [= <-]; eauto 10|by intros (_ & _ & _ & _ & -> & _)]|].
      destruct names as [|x names]; [done|]. apply Forall_cons in Hnames as [(? & ? & ? & ?) _].
      by intros [= ->].
    + split; [done|]. intros (_ & _ & _ & _ & -> & names' & Hnames' & He). exfalso.
      assert (split_on "/" (render false (replicate (S k) ".." ++ names)) = split_on "/" (render false names')) as Hs
        by (cbn [replicate app]; by rewrite He).
      rewrite (split_render _ _ Hn), (split_render false names') in Hs by (by exists 0%nat, names'). destruct names' as [|x names']; [done|].
      apply Forall_cons in Hnames' as [(? & ? & ? & ?) _]. by injection Hs as <-.
Qed.

(** ** One value from standard input *)

Lemma length_str_take n s : String.length (str_take n s) = Nat.min n (String.length s).
Proof. revert s. induction n as [|n IH]; intros [|c s]; cbn; [done..|]. by rewrite IH. Qed.

Lemma trim_newline_inv t :
  t = trim_newline t ∨ t = trim_newline t +:+ String "010" "" ∨ t = trim_newline t +:+ String "013" (String "010" "").
Proof.
  unfold trim_newline. pose proof (str_rev_involutive t) as Ht. destruct (str_rev t) as [|c s]; [by left|].
  rewrite <-Ht. clear Ht t.
  destruct (Ascii.eqb_spec c "010") as [->|Hc].
  - destruct s as [|d s]; [by right; left|].
    destruct (Ascii.eqb_spec d "013") as [->|Hd].
    + right; right. by rewrite !str_rev_cons, app_str_assoc.
    + right; left. rewrite str_rev_cons. by destruct d as [[] [] [] [] [] [] [] []].
  - left. by destruct c as [[] [] [] [] [] [] [] []].
Qed.

Lemma chars_rev s : chars (str_rev s) = reverse (chars s).
Proof.
  induction s as [|c s IH]; [done|]. rewrite str_rev_cons, chars_app, IH. cbn [chars]. by rewrite reverse_cons.
Qed.

(** The last byte of a text without the byte [c] is another one. *)
Lemma rev_head_free c s d r : in_chars c s = false → str_rev s = String d r → d ≠ c.
Proof.
  intros Hf Hr ->. unfold in_chars in Hf. bool_prop. apply Hf, elem_of_reverse.
  rewrite <-chars_rev, Hr. left.
Qed.

Lemma trim_newline_value v e :
  in_chars "010" v = false → in_chars "013" v = false →
  e ∈ [""; String "010" ""; String "013" (String "010" "")] → trim_newline (v +:+ e) = v.
Proof.
  intros Hn Hc He. unfold trim_newline. rewrite str_rev_app. set_unfold in He.
  destruct He as [->|[->|[->|[]]]].
  - change (str_rev "") with "". rewrite app_str_nil_l, app_str_nil_r.
    destruct (str_rev v) as [|d r] eqn:Hr; [done|]. pose proof (rev_head_free _ _ _ _ Hn Hr).
    by destruct d as [[] [] [] [] [] [] [] []].
  - change (str_rev (String "010" "")) with (String "010" ""). rewrite app_str_cons, app_str_nil_l.
    destruct (str_rev v) as [|d r] eqn:Hr; [by rewrite <-(str_rev_involutive v), Hr|].
    pose proof (rev_head_free _ _ _ _ Hc Hr). rewrite <-Hr, str_rev_involutive.
    by destruct d as [[] [] [] [] [] [] [] []].
  - change (str_rev (String "013" (String "010" ""))) with (String "010" (String "013" "")).
    by rewrite !app_str_cons, app_str_nil_l, str_rev_involutive.
Qed.

Definition one_value (maxBytes : Z) (v : string) : Prop :=
  v ≠ "" ∧ slen v ≤ maxBytes ∧ valid_utf8 v = true ∧
  in_chars "000" v = false ∧ in_chars "013" v = false ∧ in_chars "010" v = false.

Lemma one_value_check maxBytes v :
  (String.eqb v "" || (maxBytes <? slen v) || negb (valid_utf8 v)
   || in_chars "000" v || in_chars "013" v || in_chars "010" v) = false ↔ one_value maxBytes v.
Proof.
  unfold one_value. rewrite !orb_false_iff, negb_false_iff, Z.ltb_ge, String.eqb_neq. tauto.
Qed.

(** Standard input gives the value [v], whatever the label, exactly when it
    ends without an error and is [v] itself, with or without one line ending,
    and [v] is one line of at most [maxBytes] bytes of UTF-8. *)
Theorem readOneSensitiveInput_spec reader maxBytes label v :
  1 ≤ maxBytes →
  readOneSensitiveInput (Some reader) maxBytes label = Ok v ↔
  one_value maxBytes v ∧ Fails reader = false ∧
  ∃ e, e ∈ [""; String "010" ""; String "013" (String "010" "")] ∧ Text reader = v +:+ e.
Proof.
  intros Hmax. unfold readOneSensitiveInput, ReadAll. rewrite (proj2 (Z.ltb_ge _ _)) by lia.
  destruct (slen (Text reader) <? maxBytes + 3) eqn:Hl; bool_prop.
  - destruct (Fails reader); [split; [done|by intros (_ & ? & _)]|].
    rewrite (proj2 (Z.ltb_ge _ _)) by lia. destruct (_ || in_chars "010" _) eqn:Hv.
    + split; [done|]. intros (Hv' & _ & e & He & Ht). exfalso. apply one_value_check in Hv' as Hc.
      destruct Hv' as (_ & _ & _ & _ & ? & ?). by rewrite Ht, trim_newline_value, Hc in Hv.
    + apply one_value_check in Hv. split.
      * intros [= <-]. split_and!; [done..|].
        destruct (trim_newline_inv (Text reader)) as [H|[H|H]]; eexists; (split; [|try exact H]);
          [|rewrite app_str_nil_r; exact H|..]; set_solver.
      * intros (Hv' & _ & e & He & ->). destruct Hv' as (_ & _ & _ & _ & ? & ?). by rewrite trim_newline_value.
  - assert (slen (str_take (Z.to_nat (maxBytes + 3)) (Text reader)) = maxBytes + 3) as ->.
    { unfold slen in *. rewrite length_str_take. lia. }
    rewrite (proj2 (Z.ltb_lt _ _)) by lia. split; [done|]. intros ((_ & Hv & _) & _ & e & He & Ht). exfalso.
    rewrite Ht in Hl. unfold slen in *. rewrite length_app_str in Hl.
    assert (String.length e ≤ 2)%nat by (set_unfold in He; destruct He as [->|[->|[->|[]]]]; cbn; lia). lia.
Qed.

(** ** The printed policy *)

Definition tab : ascii := "009".
Definition newline : ascii := "010".

(** A field of a row: short, and without the bytes that end one. *)
Definition field_ok (n : Z) (s : string) : Prop := free_of tab s ∧ free_of newline s ∧ slen s ≤ n.

Lemma bytes_of_chars s : bytes s = byte <$> chars s.
Proof. induction s as [|c s IH]; [done|]. cbn. by rewrite IH. Qed.

Lemma free_of_all (P : Z → bool) c s : P (byte c) = false → forallb P (bytes s) = true → free_of c s.
Proof.
  intros Hc Hs Hin. apply list_elem_of_In in Hin. rewrite forallb_forall in Hs.
  by rewrite (Hs _ Hin) in Hc.
Qed.

Lemma field_ok_bytes (P : Z → bool) n s :
  P 9 = false → P 10 = false → forallb P (bytes s) = true → slen s ≤ n → field_ok n s.
Proof. intros H9 H10 Hs Hn. split_and!; [by apply (free_of_all P)|by apply (free_of_all P)|done]. Qed.

Lemma field_ok_identifier s : validIdentifier s = true → field_ok 128 s.
Proof.
  intros (_ & Hn & Hr & Ha)%validIdentifier_inv. unfold all_runes in Hr. rewrite is_ascii_runes in Hr by done.
  by apply (field_ok_bytes ident_rune).
Qed.

Lemma field_ok_int n : 0 ≤ n ≤ max_uint64 → field_ok 20 (format_int n).
Proof.
  intros Hn. apply (field_ok_bytes is_digit); [done..| |by apply (slen_int_text n)].
  unfold format_int. rewrite (proj2 (Z.ltb_ge _ _)) by lia.
  pose proof (dec_nonneg_digits n ltac:(lia)) as Hd. clear Hn.
  induction (dec_nonneg n) as [|c s IH]; [done|]. cbn in *. apply andb_true_iff in Hd as [Hc Hd].
  rewrite Hc. by apply IH.
Qed.

Lemma field_ok_const n s :
  forallb (λ b, negb ((b =? 9) || (b =? 10))) (bytes s) && (slen s <=? n) = true → field_ok n s.
Proof. intros [H1 H2]%andb_true_iff. bool_prop. by apply (field_ok_bytes (λ b, negb ((b =? 9) || (b =? 10)))). Qed.

Lemma field_ok_one_of n s l :
  s ∈ l → forallb (λ s, forallb (λ b, negb ((b =? 9) || (b =? 10))) (bytes s) && (slen s <=? n)) l = true →
  field_ok n s.
Proof. intros Hs%list_elem_of_In Hl. apply field_ok_const. rewrite forallb_forall in Hl. by apply Hl. Qed.

Lemma field_ok_bool b : field_ok 5 (FormatBool b).
Proof. destruct b; by apply field_ok_const. Qed.

(** A row is read back from its text. *)
Definition row_ok (n : Z) (row : list string) : Prop :=
  row ≠ [] ∧ Forall (λ s, free_of tab s ∧ free_of newline s) row ∧ slen (row_text row) ≤ n.

Definition rows_text (rows : list (list string)) : string := foldr (λ row text, row_text row +:+ text) "" rows.

Lemma output_rows rows t : foldl (λ output row, output +:+ row_text row) t rows = t +:+ rows_text rows.
Proof.
  revert t. induction rows as [|row rows IH]; intros t; cbn; [by rewrite app_str_nil_r|].
  by rewrite IH, app_str_assoc.
Qed.

Lemma join_free c row : Forall (free_of c) row → c ≠ tab → free_of c (join (String tab "") row).
Proof.
  intros Hr Hc. induction Hr as [|s row Hs Hr IH]; [apply not_elem_of_nil|].
  destruct row as [|x row]; [done|]. rewrite join_cons by done. rewrite !free_of_app. split_and!; [done| |done].
  apply free_of_cons. split; [done|apply not_elem_of_nil].
Qed.

Lemma rows_read n rows :
  Forall (row_ok n) rows → split_on tab <$> split_on newline (rows_text rows) = rows ++ [[""]].
Proof.
  induction 1 as [|row rows (Hn & Hf & _) _ IH]; [done|]. cbn [rows_text foldr].
  unfold row_text at 1. rewrite app_str_assoc.
  change (String "010" "" +:+ foldr (λ row text, row_text row +:+ text) "" rows)
    with (String newline (rows_text rows)).
  rewrite split_on_cut.
  - cbn [fmap list_fmap app]. f_equal; [|exact IH]. apply (split_join tab); [done|].
    eapply Forall_impl; [exact Hf|]. by intros ? [].
  - apply join_free; [|done]. eapply Forall_impl; [exact Hf|]. by intros ? [].
Qed.

Lemma rows_size n rows : Forall (row_ok n) rows → slen (rows_text rows) ≤ n * Z.of_nat (length rows).
Proof.
  induction 1 as [|row rows (_ & _ & Hn) _ IH]; [unfold slen; cbn; lia|]. cbn [rows_text foldr length].
  rewrite slen_app. unfold rows_text in IH. lia.
Qed.

(** The size of a row, from those of its fields. *)
Lemma row_ok_fields row ns n :
  row ≠ [] → Forall2 field_ok ns row → foldr Z.add 0 ns + Z.of_nat (length ns) ≤ n → row_ok n row.
Proof.
  intros Hr Hf Hn. split_and!; [done| |].
  - clear -Hf. induction Hf as [|? ? ? ? (? & ? & _) _ IH]; by constructor.
  - unfold row_text. rewrite slen_app. change (slen (String "010" "")) with 1.
    enough (slen (join (String "009" "") row) + 1 ≤ foldr Z.add 0 ns + Z.of_nat (length ns)) by lia.
    clear n Hn. induction Hf as [|n s ns row (_ & _ & Hs) Hf IH]; [done|]. cbn [foldr length].
    destruct row as [|x row]; [inversion Hf; subst; cbn; lia|]. rewrite join_cons by done.
    rewrite !slen_app. change (slen (String "009" "")) with 1. specialize (IH ltac:(done)). lia.
Qed.

Ltac field_tac :=
  first [by apply field_ok_const | by apply field_ok_identifier | apply field_ok_bool
        | by eapply field_ok_one_of | apply field_ok_int; lia].
Ltac row_tac ns := apply (row_ok_fields _ ns); unfold check_row; [done|rewrite ?Forall2_cons; split_and?; try apply Forall2_nil; try done; field_tac|by vm_compute].

Lemma policy_rows_ok d : policy_ok d → Policy_typed d → Forall (row_ok 200) (policy_rows d).
Proof.
  intros (_ & _ & Hid & _ & _ & _ & _ & _ & Hrem & Hpr & _) (Hr & H1 & H2 & H3). unfold uint32, uint64 in *.
  assert (max_uint64 = 2 ^ 64 - 1) as Hm by done.
  repeat (apply Forall_cons; split); [..|constructor].
  - row_tac [10; 40; 20].
  - row_tac [10; 128].
  - row_tac [10; 20].
  - row_tac [10; 40].
  - row_tac [40; 20].
  - row_tac [40; 20].
  - row_tac [40; 5].
  - row_tac [40; 20].
  - row_tac [40; 40].
Qed.

Lemma check_row_ok c : validIdentifier (Check_ID c) = true → row_ok 141 (check_row c).
Proof. intros Hc. row_tac [5; 128; 5]. Qed.

(** C26.  The policy of an endpoint is printed without an error, and what is
    printed, taken apart at line feeds and tabs, is its fields and its checks
    in the order of their identifiers. *)
Theorem runManagedPolicy_prints `{HashLaws} `{Ed25519Laws} pinned files document :
  LoadPolicy pinned files = Ok document → Policy_typed document →
  ∃ output checks,
    runManagedPolicy (LoadPolicy pinned files) = Ok output ∧
    split_on tab <$> split_on newline output = policy_rows document ++ (check_row <$> checks) ++ [[""]] ∧
    checks ≡ₚ Checks document ∧
    StronglySorted (λ a b, str_ltb a b = true) (Check_ID <$> checks).
Proof.
  intros Hl Ht. assert (policy_ok document) as Hp.
  { apply policy_valid. revert Hl. unfold LoadPolicy. destruct (cached files) as [signed|]; [|done]. intros Hl. ok_inv.
    repeat case_match; try done. ok_inv. unfold verifyPinnedPolicy in *. ok_inv. by eapply VerifySignedPolicy_ok. }
  pose proof Hp as (_ & _ & _ & _ & Hc & _ & _ & _ & _ & _ & Hid & Hn).
  set (checks := sort_by check_less (Checks document)).
  assert (Forall (row_ok 200) (policy_rows document ++ (check_row <$> checks))) as Hrows.
  { apply Forall_app. split; [by apply policy_rows_ok|]. apply Forall_fmap. unfold checks. rewrite sort_by_perm.
    eapply Forall_impl; [exact Hid|]. intros c Hok. destruct (check_row_ok c Hok) as (? & ? & ?). split_and!; [done..|lia]. }
  exists (rows_text (policy_rows document ++ (check_row <$> checks))), checks.
  rewrite Hl. unfold runManagedPolicy. rewrite bind_ok, output_rows. cbv zeta. rewrite app_str_nil_l.
  split_and!.
  - apply rows_size in Hrows. rewrite length_app, length_fmap in Hrows.
    assert (length checks = length (Checks document)) as Hlen by apply length_sort_by.
    change (length (policy_rows document)) with 9%nat in Hrows.
    unfold maxFlatPolicyBytes. fold checks. rewrite (proj2 (Z.ltb_ge _ _)); [done|lia].
  - by erewrite rows_read, <-app_assoc.
  - apply sort_by_perm.
  - by apply sort_by_keys.
Qed.

(** ** The key of the secret scan *)

Lemma read_loop_bound {W} `{FS : FileSystem W, !FileLaws W} fuel limit fd content (w w' : W) key :
  slen content ≤ limit → read_loop fuel limit fd content w = (w', Ok key) → slen key ≤ limit.
Proof.
  revert content w. induction fuel as [|fuel IH]; intros content w Hc; cbn [read_loop];
    (destruct (_ <=? 0) eqn:E; [by intros [= <- <-]|]); [by intros [= <- <-]|].
  destruct (Read _ _ _) as [w1 [c s| |e]] eqn:Er; [|by intros [= <- <-]|done]. apply IH.
  apply Read_bound in Er. rewrite slen_app. bool_prop. lia.
Qed.

(** A file system that nobody else writes to, with the paths of the files that
    are open for writing. *)
Record Disk := { disk : Still; names : gmap Z string }.

Definition on_disk {A} (f : Still → Still * A) (d : Disk) : Disk * A :=
  let '(s, a) := f (disk d) in ({| disk := s; names := names d |}, a).

#[export] Instance DiskSystem : FileSystem Disk := {|
  ctx_Err := on_disk ctx_Err;
  Lstat path := on_disk (Lstat path);
  Open path := on_disk (Open path);
  Fstat fd := on_disk (Fstat fd);
  Read fd n := on_disk (Read fd n);
  Close fd d := {| disk := Close fd (disk d); names := names d |};
  ReadDir path := on_disk (ReadDir path);
|}.

(** The file behind a descriptor, changed; a descriptor that is not open for
    writing changes nothing. *)
Definition change (fd : Z) (f : FileInfo * string → FileInfo * string) (d : Disk) : Disk :=
  match names d !! fd with
  | None => d
  | Some path => {|
      disk := {| still_files := alter f path (still_files (disk d)); still_dirs := still_dirs (disk d);
                 still_open := alter f fd (still_open (disk d)); still_next := still_next (disk d) |};
      names := names d |}
  end.

Definition with_mode (mode : Z) (f : FileInfo * string) : FileInfo * string :=
  ({| Info_Mode := Z.lor (Z.ldiff (Info_Mode f.1) 511) mode; Info_Size := Info_Size f.1; Sys := Sys f.1 |}, f.2).
Definition with_more (text : string) (f : FileInfo * string) : FileInfo * string :=
  ({| Info_Mode := Info_Mode f.1; Info_Size := Info_Size f.1 + slen text; Sys := Sys f.1 |}, f.2 +:+ text).

(** An empty file of a new inode; the mask of the process leaves only the
    owner's bits. *)
Definition created (fd : Z) : FileInfo * string :=
  ({| Info_Mode := key_mode; Info_Size := 0; Sys := Some {| Dev := 1; Ino := fd; Uid := 0; Gid := 0 |} |}, "").

#[export] Instance DiskWrites : WritableSystem Disk := {|
  MkdirAll path d := (d, None);
  CreateExclusive path d :=
    match still_files (disk d) !! path with
    | Some _ => (d, Err (Sentinel "fs.ErrExist"))
    | None =>
        let fd := still_next (disk d) in
        ({| disk := {| still_files := <[path := created fd]> (still_files (disk d)); still_dirs := still_dirs (disk d);
                       still_open := <[fd := created fd]> (still_open (disk d)); still_next := fd + 1 |};
            names := <[fd := path]> (names d) |}, Ok fd)
    end;
  Chmod fd mode d := (change fd (with_mode mode) d, None);
  Write fd text d := (change fd (with_more text) d, (slen text, None));
  Sync fd d := (d, None);
  CloseWritten fd d := (Close fd d, None);
|}.

(** What reading the key comes to: it depends on the file alone. *)
Definition key_of (f : option (FileInfo * string)) : result string :=
  match f with
  | None => Err (Sentinel "fs.ErrNotExist")
  | Some (info, content) =>
      if negb (secureFingerprintKeyMode (Info_Mode info)) then Err (ErrorsNew "fingerprint key metadata is invalid")
      else if negb (SameFile info info) then Err (ErrorsNew "fingerprint key changed while opening")
      else if negb (slen content =? fingerprintKeyBytes) then Err (ErrorsNew "fingerprint key length is invalid")
      else Ok content
  end.

Definition same_files (d d' : Disk) : Prop := still_files (disk d') = still_files (disk d).

Lemma str_take_nil n : str_take n "" = "".
Proof. by destruct n. Qed.

Lemma str_take_all n s : (String.length s ≤ n)%nat → str_take n s = s.
Proof. revert s. induction n as [|n IH]; intros [|c s]; cbn; intros; try done; [lia|]. rewrite IH; [done|lia]. Qed.

Lemma str_drop_short n s : (String.length s ≤ n)%nat → str_drop n s = "".
Proof. revert s. induction n as [|n IH]; intros [|c s]; cbn; intros; try done; try lia. apply IH. lia. Qed.

Lemma read_loop_disk fuel limit fd content info rest d :
  limit - slen content ≤ Z.of_nat fuel → still_open (disk d) !! fd = Some (info, rest) →
  ∃ d', read_loop fuel limit fd content d =
        (d', Ok (content +:+ str_take (Z.to_nat (limit - slen content)) rest)) ∧ same_files d d'.
Proof.
  revert content rest d. induction fuel as [|fuel IH]; intros content rest d Hf Ho; cbn [read_loop].
  all: destruct (limit - slen content <=? 0) eqn:E; bool_prop; try lia.
  1,2: exists d; assert (Z.to_nat (limit - slen content) = O) as -> by lia; by rewrite app_str_nil_r.
  cbn [Read DiskSystem]. unfold on_disk. cbn [Read StillSystem]. rewrite Ho. destruct rest as [|c rest].
  { exists d. rewrite str_take_nil, app_str_nil_r. by destruct d. }
  rewrite (proj2 (Z.leb_gt _ _)) by done.
  set (n := pred (Z.to_nat (limit - slen content))). assert (Z.to_nat (limit - slen content) = S n) as Hn by lia.
  set (d1 := {| disk := _; names := _ |}).
  destruct (IH (content +:+ String c (str_take n rest)) (str_drop n rest) d1) as (d' & H & Hs).
  { rewrite slen_app, slen_cons. pose proof (slen_nonneg (str_take n rest)). lia. }
  { unfold d1, with_open. cbn. by rewrite lookup_insert_eq. }
  exists d'. split; [|exact Hs]. rewrite H, Hn. do 2 f_equal. cbn [str_take].
  enough (str_take (Z.to_nat (limit - slen (content +:+ String c (str_take n rest)))) (str_drop n rest) = "") as ->
    by apply app_str_nil_r.
  rewrite slen_app, slen_cons. destruct (decide (String.length rest ≤ n)%nat).
  - rewrite str_drop_short by done. apply str_take_nil.
  - unfold slen at 2. rewrite length_str_take. replace (Z.to_nat _) with O by lia. by destruct (str_drop n rest).
Qed.

Lemma read_opened_key_disk path info fd content text d :
  still_files (disk d) !! path = Some (info, text) → still_open (disk d) !! fd = Some (info, content) →
  secureFingerprintKeyMode (Info_Mode info) = true →
  ∃ d', read_opened_key path info fd d = (d', key_of (Some (info, content))) ∧ same_files d d'.
Proof.
  intros Hf Ho Hm. unfold read_opened_key, mbind, eff_bind. cbn [Lstat Fstat DiskSystem]. unfold on_disk.
  cbn [Lstat Fstat StillSystem]. rewrite Ho. cbn [no_file fmap result_fmap fst disk names]. rewrite Hf.
  cbn [no_file fmap result_fmap fst]. unfold key_of. rewrite Hm. cbn [negb orb].
  destruct (SameFile info info); cbn [negb orb fail_if]; [|by eexists]. unfold pure_ at 1. cbn [fail_if].
  destruct (read_loop_disk 33 33 fd "" info content {| disk := disk d; names := names d |}) as (d' & H & Hs);
    [done|done|].
  change (Z.to_nat (fingerprintKeyBytes + 1)) with 33%nat. change (fingerprintKeyBytes + 1) with 33.
  rewrite H. rewrite app_str_nil_l. change (Z.to_nat (33 - slen "")) with 33%nat.
  exists d'. split; [|done]. unfold fingerprintKeyBytes, pure_. unfold slen at 1. rewrite length_str_take.
  destruct (slen content =? 32) eqn:El; bool_prop; unfold slen in El.
  - rewrite (proj2 (Z.eqb_eq _ _)) by lia. cbn [negb fail_if]. unfold mret, eff_ret. by rewrite str_take_all by lia.
  - by rewrite (proj2 (Z.eqb_neq _ _)) by lia.
Qed.

Lemma readFingerprintKey_disk path d :
  ∃ d', readFingerprintKey path d = (d', key_of (still_files (disk d) !! path)) ∧ same_files d d'.
Proof.
  unfold readFingerprintKey, mbind, eff_bind. cbn [Lstat Open DiskSystem]. unfold on_disk at 1. cbn [Lstat StillSystem].
  destruct (still_files (disk d) !! path) as [[info content]|] eqn:Hf; cbn [no_file fmap result_fmap fst]; [|by eexists].
  unfold key_of. destruct (secureFingerprintKeyMode (Info_Mode info)) eqn:Hm; cbn [negb fail_if]; [|by eexists].
  unfold pure_, on_disk. cbn [Open StillSystem disk names]. rewrite Hf. unfold closing.
  set (d1 := {| disk := _; names := _ |}).
  destruct (read_opened_key_disk path info (still_next (disk d)) content content d1) as (d' & H & Hs);
    [done|unfold d1; cbn; by rewrite lookup_insert_eq|done|].
  rewrite H. eexists. split; [unfold key_of; by rewrite Hm|]. exact Hs.
Qed.

(** A file that is open for writing, with what it holds. *)
Definition writing (fd : Z) (path : string) (f : FileInfo * string) (d : Disk) : Prop :=
  names d !! fd = Some path ∧ still_files (disk d) !! path = Some f ∧ still_open (disk d) !! fd = Some f.

Lemma writing_change fd path f g d : writing fd path f d → writing fd path (g f) (change fd g d).
Proof.
  intros (Hn & Hf & Ho). unfold change. rewrite Hn. split_and!; cbn; [done|..]; by rewrite lookup_alter_eq, ?Hf, ?Ho.
Qed.

Definition key_info (fd : Z) : FileInfo := {|
  Info_Mode := key_mode; Info_Size := fingerprintKeyBytes; Sys := Some {| Dev := 1; Ino := fd; Uid := 0; Gid := 0 |} |}.

Lemma key_of_new fd key : slen key = fingerprintKeyBytes → key_of (Some (key_info fd, key)) = Ok key.
Proof.
  intros Hk. unfold key_of. change (secureFingerprintKeyMode (Info_Mode (key_info fd))) with true.
  unfold SameFile. cbn [key_info Sys]. by rewrite !Z.eqb_refl, Hk.
Qed.

Lemma writeFingerprintKey_disk fd path key d :
  writing fd path (created fd) d → slen key = fingerprintKeyBytes →
  ∃ d', writeFingerprintKey fd path key d = (d', Ok tt) ∧ writing fd path (key_info fd, key) d'.
Proof.
  intros Hw Hk. apply (writing_change fd path _ (with_mode key_mode)) in Hw.
  apply (writing_change fd path _ (with_more key)) in Hw.
  assert (with_more key (with_mode key_mode (created fd)) = (key_info fd, key)) as E.
  { unfold with_more, with_mode, created. cbn [fst snd Info_Mode Info_Size Sys]. by rewrite Hk, app_str_nil_l. }
  rewrite E in Hw. exists (change fd (with_more key) (change fd (with_mode key_mode) d)). split; [|done].
  destruct Hw as (_ & Hf & Ho).
  unfold writeFingerprintKey, mbind, eff_bind, call. cbn [Chmod Write Sync Fstat Lstat DiskSystem DiskWrites].
  rewrite Z.eqb_refl. cbn [negb fail_if]. unfold pure_, on_disk. cbn [Fstat Lstat StillSystem disk].
  destruct (change _ _ (change _ _ d)) as [s ns]. cbn [disk names] in *. rewrite Ho, Hf.
  cbn [no_file fmap result_fmap fst]. change (secureFingerprintKeyMode (Info_Mode (key_info fd))) with true.
  unfold SameFile. cbn [key_info Sys]. by rewrite !Z.eqb_refl.
Qed.

Lemma new_key_disk path key d :
  still_files (disk d) !! path = None → slen key = fingerprintKeyBytes →
  ∃ d', new_key path key d = (d', Ok key) ∧ key_of (still_files (disk d') !! path) = Ok key.
Proof.
  intros Hf Hk. unfold new_key. cbn [CreateExclusive DiskWrites]. rewrite Hf. set (d1 := {| disk := _; names := _ |}).
  destruct (writeFingerprintKey_disk (still_next (disk d)) path key d1) as (d2 & H & (_ & Hf2 & _)).
  { unfold d1. split_and!; cbn; by rewrite lookup_insert_eq. }
  { done. }
  rewrite H. unfold call. cbn [CloseWritten DiskWrites]. eexists. split; [done|].
  cbn [Close DiskSystem StillSystem with_open disk still_files]. rewrite Hf2. by apply key_of_new.
Qed.

(** C25.  A key that was loaded or created is the one that every later run loads,
    whatever randomness it is given: a fingerprint of a secret stays the same
    as long as nobody else writes the file. *)
Theorem fingerprint_key_stays path random d d' key :
  (∀ r, random = Some r → slen r = fingerprintKeyBytes) →
  loadOrCreateFingerprintKey path random d = (d', Ok key) →
  slen key = fingerprintKeyBytes ∧
  ∀ random', (loadOrCreateFingerprintKey path random' d').2 = Ok key.
Proof.
  intros Hr Hl. assert (key_of (still_files (disk d') !! path) = Ok key) as Hk.
  { unfold loadOrCreateFingerprintKey in Hl. destruct (readFingerprintKey_disk path d) as (d1 & H & Hs).
    rewrite H in Hl. destruct (key_of _) as [k|e] eqn:Ek; [injection Hl as <- <-; by rewrite Hs|].
    destruct (isNotExist e) eqn:He; [|done]. cbn [negb] in Hl.
    assert (still_files (disk d1) !! path = None) as Hn.
    { rewrite Hs. unfold key_of in Ek. destruct (still_files (disk d) !! path) as [[info content]|]; [|done].
      repeat case_match; try done; injection Ek as <-; done. }
    unfold create_key, mbind, eff_bind, wrap_err, call in Hl. cbn [MkdirAll DiskWrites map_err] in Hl.
    destruct random as [r|]; [|done]. destruct (new_key_disk path r d1 Hn (Hr r eq_refl)) as (d2 & Hnew & Hk).
    rewrite Hnew in Hl. by injection Hl as <- <-. }
  split.
  - unfold key_of in Hk. repeat case_match; try done. injection Hk as <-. by bool_prop.
  - intros random'. unfold loadOrCreateFingerprintKey.
    destruct (readFingerprintKey_disk path d') as (d1 & H & _). by rewrite H, Hk.
Qed.

(** ** The operation of a command line *)

(** The place of an operation in the list of modes. *)
Definition mode_of (op : operation) : option nat :=
  match op with
  | OpIngest _ _ => Some 0 | OpHistory _ _ => Some 1 | OpFindings _ _ => Some 2 | OpScanSecrets _ _ => Some 3
  | OpTriage _ => Some 4 | OpCheckPassword _ => Some 5 | OpCheckAccount _ _ => Some 6 | OpContracts => Some 7
  | OpEnroll _ _ _ _ _ => Some 8 | OpSync _ _ => Some 9 | OpRotate _ => Some 10 | OpPolicy _ => Some 11
  | OpReadiness _ _ => None
  end%nat.

Definition only_mode (i : option nat) : list bool := (λ j, bool_decide (i = Some j)) <$> seq 0 12.

Lemma count_one n l :
  (length (filter (λ active, active = true) l) ≤ 1)%nat → l !! n = Some true →
  l = (λ j, bool_decide (n = j)) <$> seq 0 (length l).
Proof.
  revert n. induction l as [|b l IH]; intros n Hc Hn; [done|].
  assert (∀ m, (length (filter (λ active, active = true) m) = 0)%nat → ∀ k, m = (λ _, false) <$> seq k (length m)) as Hz.
  { induction m as [|[] m IHm]; [done|done|]. intros H k. cbn. f_equal. by apply IHm. }
  cbn [length seq fmap list_fmap]. destruct n as [|n]; cbn in Hn.
  - injection Hn as ->. rewrite bool_decide_eq_true_2 by done. f_equal. rewrite filter_cons_True in Hc by done. cbn in Hc.
    rewrite (Hz l ltac:(lia) 1%nat) at 1. apply list_fmap_ext. intros i j Hj%list_elem_of_lookup_2.
    apply elem_of_seq in Hj. rewrite bool_decide_eq_false_2; [done|lia].
  - rewrite bool_decide_eq_false_2 by done. destruct b.
    + exfalso. rewrite filter_cons_True in Hc by done. cbn in Hc.
      assert (true ∈ filter (λ active, active = true) l) as Hin
        by (apply list_elem_of_filter; split; [done|by eapply list_elem_of_lookup_2]).
      destruct (filter _ l); [by apply not_elem_of_nil in Hin|cbn in Hc; lia].
    + f_equal. rewrite filter_cons_False in Hc by done. rewrite (IH n) at 1 by done.
      rewrite <-fmap_S_seq, <-list_fmap_compose. apply list_fmap_ext. intros i j _. cbn.
      apply bool_decide_ext. lia.
Qed.

(** What the checks say of the modes. *)
Lemma check_flags_ok f :
  check_flags f = Ok tt →
  (modeCount f ≤ 1)%nat ∧ (given f "ingest-scan" = true → ingestScan f ≠ "") ∧
  (given f "scan-secrets" = true → secretRoots f ≠ []) ∧
  (given f "triage-executable" = true → executablePaths f ≠ []) ∧
  (managedEnroll f = true → controllerURL f ≠ "" ∧ controllerPolicyKey f ≠ "").
Proof.
  unfold check_flags. intros H%first_error_ok_inv. rewrite !Forall_cons in H. cbn [fst] in H.
  destruct H as (_ & Hm & Hi & Hs & Ht & _ & _ & _ & _ & _ & _ & _ & _ & _ & _ & He & _).
  split_and!.
  - apply Nat.ltb_ge in Hm. lia.
  - intros E. rewrite E in Hi. cbn [andb] in Hi. by bool_prop.
  - intros E. rewrite E in Hs. cbn [andb] in Hs. by bool_prop.
  - intros E. rewrite E in Ht. cbn [andb] in Ht. by bool_prop.
  - intros E. rewrite E in He. cbn [andb] in He. by bool_prop.
Qed.

(** What a mode asks for, from the flags. *)
Definition with_flags (f : Flags) (op : operation) : Prop :=
  match op with
  | OpIngest file db => file = ingestScan f ∧ file ≠ "" ∧ db = stateDB f
  | OpHistory db n | OpFindings db n => db = stateDB f ∧ n = limit f ∧ 1 ≤ n ≤ 1000
  | OpScanSecrets roots _ => roots = secretRoots f ∧ roots ≠ []
  | OpTriage paths => paths = executablePaths f ∧ paths ≠ []
  | OpCheckPassword policy | OpCheckAccount policy _ =>
      Exposure.Adapter.Enabled policy = allowNetwork f ∧ Exposure.Adapter.Offline policy = offline f
  | OpEnroll _ url _ key _ => url = controllerURL f ∧ url ≠ "" ∧ key = controllerPolicyKey f ∧ key ≠ ""
  | OpSync _ db => db = stateDB f
  | OpReadiness _ profile => Resolve (preset f) [] = Ok profile
  | _ => True
  end.

Lemma dispatch_mode f state profile op :
  (modeCount f ≤ 1)%nat → dispatch f state profile = Ok op → modes f = only_mode (mode_of op).
Proof.
  intros Hc Hd. unfold modeCount in Hc.
  assert (∀ n, modes f !! n = Some true → modes f = only_mode (Some n)) as Hone.
  { intros n Hn. rewrite (count_one n (modes f)) by done. change (length (modes f)) with 12%nat.
    apply list_fmap_ext. intros i j _. apply bool_decide_ext. split; [by intros ->|by intros [= ->]]. }
  unfold dispatch in Hd.
  repeat match type of Hd with (if ?b then _ else _) = _ => destruct b eqn:? end; ok_inv;
    try (apply Hone; unfold modes; cbn; congruence).
  change (only_mode _) with (replicate 12 false). unfold modes. cbn [replicate]. congruence.
Qed.

Lemma dispatch_flags f state profile op :
  check_flags f = Ok tt → (history f || findings f = true → 1 ≤ limit f ≤ 1000) →
  Resolve (preset f) [] = Ok profile → dispatch f state profile = Ok op → with_flags f op.
Proof.
  intros (_ & Hi & Hs & Ht & He)%check_flags_ok Hl Hr Hd. unfold dispatch in Hd.
  repeat match type of Hd with (if ?b then _ else _) = _ => destruct b eqn:? end; ok_inv; cbn; tauto.
Qed.

Lemma choose_flags f op : choose f = Ok op → with_flags f op.
Proof.
  unfold choose. intros H. ok_inv. eapply dispatch_flags; [done| |done|done]. intros Hq.
  match goal with Hv : (if _ then _ else _) = Ok _ |- _ => rewrite Hq in Hv; unfold Ingest.ValidateQueryLimit in Hv end.
  ok_inv. unfold Ingest.MaxQueryLimit in *. bool_prop. lia.
Qed.

(** A command line that is accepted asks for exactly one operation, the
    one that is called, or for none and gets the readiness report; and the
    operation is called with what the flags say. *)
Theorem choose_one_mode f op :
  choose f = Ok op → modes f = only_mode (mode_of op) ∧ with_flags f op.
Proof.
  intros Hc. split; [|by apply choose_flags]. unfold choose in Hc. ok_inv.
  eapply dispatch_mode; [by apply check_flags_ok|done].
Qed.

(** ** Consent to exposure checks *)

Section consent.
Import Exposure.Adapter.
Context `{NotifierHttp.HttpDate} {N : Type} `{TR : !Transport N}.
Context (stdin : option Reader) (now : Time).

(** What an operation does to the network as an exposure check, and what it
    reports. *)
Definition expose (op : operation) (LookupEnv : string → option string) (pwned breached : HTTPOptions) (net : N)
    : N * option (agent_error + (Envelope PasswordResult + Envelope BreachedAccountResult)) :=
  match op with
  | OpCheckPassword policy =>
      let '(net, r) := runPwnedPasswordCheck stdin now policy pwned net in
      (net, Some (match r with inl e => inl e | inr x => inr (inl x) end))
  | OpCheckAccount policy name =>
      let '(net, r) := runBreachedAccountCheck stdin now policy name LookupEnv breached net in
      (net, Some (match r with inl e => inl e | inr x => inr (inr x) end))
  | _ => (net, None)
  end.

Definition closed (policy : AccessPolicy) : Prop := Enabled policy = false ∨ Offline policy = true.

Lemma gate_closed policy adapter : closed policy → ∃ u, gate policy adapter = Some u.
Proof. unfold gate. intros [->| ->]; [|by eexists]. destruct (Offline policy); by eexists. Qed.

(** A check that leaves the network alone and gives the same on any. *)
Definition silent {A} (check : N → N * A) : Prop := ∃ r, ∀ net, check net = (net, r).

Lemma ask_silent {A} maxBytes label schema contract (check : string → N → N * attempt A) :
  (∀ value, silent (check value)) → silent (ask stdin maxBytes label schema contract check).
Proof.
  intros Hc. unfold ask. destruct (readOneSensitiveInput _ _ _) as [value|e]; [|by eexists].
  destruct (Hc value) as [r Hr]. eexists. intros net. by rewrite Hr.
Qed.

Lemma pwned_silent client password :
  closed (Pwned_policy client) → silent (pwned_Check client true password now).
Proof. intros [u Hu]%(gate_closed _ AdapterPwnedPasswords). eexists. intros net. unfold pwned_Check. by rewrite Hu. Qed.

Lemma breached_silent client email :
  closed (breached_policy client) → silent (breached_Check client true email now).
Proof.
  intros [u Hu]%(gate_closed _ AdapterBreachedAccount). eexists. intros net. unfold breached_Check. by rewrite Hu.
Qed.

Lemma NewPwned_policy policy options client :
  NewPwnedPasswordsClient policy options = inr client → Pwned_policy client = policy.
Proof. unfold NewPwnedPasswordsClient. repeat case_match; try done. by intros [= <-]. Qed.

Lemma NewBreached_policy config client :
  NewBreachedAccountClient config = inr client → breached_policy client = Breached_Policy config.
Proof. unfold NewBreachedAccountClient. intros Hc. repeat case_in Hc; try done; by injection Hc as <-. Qed.

Lemma runPwned_silent policy options :
  closed policy → silent (runPwnedPasswordCheck stdin now policy options).
Proof.
  intros Hp. unfold runPwnedPasswordCheck.
  destruct (NewPwnedPasswordsClient policy options) as [e|client] eqn:Hc; [by eexists|].
  apply ask_silent. intros value. apply pwned_silent. by rewrite (NewPwned_policy _ _ _ Hc).
Qed.

Lemma closed_key policy name LookupEnv :
  closed policy → breached_api_key policy name LookupEnv = Ok disabledBreachedAccountAPIKey.
Proof. unfold breached_api_key. intros [->| ->]; [done|]. by rewrite andb_false_r. Qed.

Lemma runBreached_silent policy name options :
  closed policy →
  ∃ r, ∀ LookupEnv net, runBreachedAccountCheck stdin now policy name LookupEnv options net = (net, r).
Proof.
  intros Hp.
  assert (silent (runBreachedAccountCheck stdin now policy name (λ _, None) options)) as [r Hr].
  { unfold runBreachedAccountCheck. rewrite closed_key by done.
    destruct (validateEnvironmentVariableName name) as [[]|e]; [|by eexists]. cbn.
    destruct (NewBreachedAccountClient _) as [e|client] eqn:Hc; [by eexists|].
    apply ask_silent. intros value. apply breached_silent. by rewrite (NewBreached_policy _ _ Hc). }
  exists r. intros LookupEnv net. rewrite <-(Hr net). unfold runBreachedAccountCheck. by rewrite !closed_key.
Qed.

(** C24.  Unless the command line has -allow-network and not -offline, the
    operation it asks for, as an exposure check, sends nothing, and what it
    reports depends neither on the network nor on the environment. *)
Theorem exposure_needs_consent f op pwned breached :
  choose f = Ok op → allowNetwork f = false ∨ offline f = true →
  ∃ r, ∀ LookupEnv net, expose op LookupEnv pwned breached net = (net, r).
Proof.
  intros Hc Hf.
  assert (∀ policy, Enabled policy = allowNetwork f ∧ Offline policy = offline f → closed policy) as Hp
    by (intros policy [He Ho]; unfold closed; by rewrite He, Ho).
  assert (with_flags f op) as Hw by (by apply choose_flags).
  destruct op; cbn in Hw; try (by eexists).
  - destruct (runPwned_silent policy pwned (Hp _ Hw)) as [r Hr]. eexists. intros LookupEnv net. cbn. by rewrite Hr.
  - destruct (runBreached_silent policy apiKeyEnv breached (Hp _ Hw)) as [r Hr].
    eexists. intros LookupEnv net. cbn. by rewrite Hr.
Qed.
End consent.

(** ** Worked runs *)

Lemma readOneSensitiveInput_witness :
  one_value 1024 "hunter2" ∧ Fails {| Text := "hunter2" +:+ String "010" ""; Fails := false |} = false ∧
  ∃ e, e ∈ [""; String "010" ""; String "013" (String "010" "")] ∧
       Text {| Text := "hunter2" +:+ String "010" ""; Fails := false |} = "hunter2" +:+ e.
Proof.
  apply (readOneSensitiveInput_spec {| Text := "hunter2" +:+ String "010" ""; Fails := false |} 1024 "password" "hunter2");
    [lia|]. vm_compute. reflexivity.
Defined.

#[local] Existing Instances checksum_hash checksum_laws toy toy_laws.

Lemma runManagedPolicy_prints_witness :
  ∃ output checks,
    runManagedPolicy (Ok (endpoint_policy 3)) = Ok output ∧
    split_on tab <$> split_on newline output = policy_rows (endpoint_policy 3) ++ (check_row <$> checks) ++ [[""]] ∧
    checks ≡ₚ Checks (endpoint_policy 3) ∧
    StronglySorted (λ a b, str_ltb a b = true) (Check_ID <$> checks).
Proof.
  assert (LoadPolicy toy_pinned (files_of 3 (files_of 1 (files_of 2 no_files))) = Ok (endpoint_policy 3)) as L
    by (vm_compute; reflexivity).
  assert (Policy_typed (endpoint_policy 3)) as T.
  { unfold Policy_typed, uint64, uint32, max_uint64. cbn. lia. }
  pose proof (runManagedPolicy_prints toy_pinned _ _ L T) as H. rewrite L in H. exact H.
Defined.

Definition empty_disk : Disk := {|
  disk := {| still_files := ∅; still_dirs := ∅; still_open := ∅; still_next := 3 |}; names := ∅ |}.
Definition random_key : string := "0123456789abcdef0123456789ABCDEF".

Lemma fingerprint_key_stays_witness :
  slen random_key = fingerprintKeyBytes ∧
  ∀ random', (loadOrCreateFingerprintKey "/home/u/fingerprint.key" random'
    (loadOrCreateFingerprintKey "/home/u/fingerprint.key" (Some random_key) empty_disk).1).2 = Ok random_key.
Proof.
  apply (fingerprint_key_stays "/home/u/fingerprint.key" (Some random_key) empty_disk).
  - intros r [= <-]. reflexivity.
  - vm_compute. reflexivity.
Defined.

(** A command line that asks for the check of a password. *)
Definition password_flags (allow : bool) : Flags := {|
  stateDB := "/home/u/journal.db"; preset := PresetPersonalBalanced; ingestScan := ""; history := false; findings := false;
  limit := 100; secretRoots := []; fingerprintKey := ""; executablePaths := []; checkPwnedPassword := true;
  checkBreachedAccount := false; exposureContracts := false; allowNetwork := allow; offline := false;
  hibpAPIKeyEnv := "HIBP_API_KEY"; managedEnroll := false; managedSync := false; managedRotateCredential := false;
  managedPolicy := false; managedState := ""; controllerURL := ""; enrollmentTokenEnv := "OMS_ENROLLMENT_TOKEN";
  controllerPolicyKey := ""; deviceName := ""; visited := {["check-pwned-password"]}; NArg := 0 |}.

Definition password_op (allow : bool) : operation :=
  OpCheckPassword {| Exposure.Adapter.Enabled := allow; Exposure.Adapter.Offline := false |}.

Lemma choose_one_mode_witness :
  modes (password_flags true) = only_mode (mode_of (password_op true)) ∧ with_flags (password_flags true) (password_op true).
Proof. apply choose_one_mode. vm_compute. reflexivity. Defined.

(** A network that counts what is sent. *)
#[local] Instance counting : Transport nat := λ _ n, (S n, NotSent None false).
#[local] Instance no_dates : NotifierHttp.HttpDate := λ _, None.

Definition stdin_password : option Reader := Some {| Text := "hunter2"; Fails := false |}.
Definition default_http : Exposure.Adapter.HTTPOptions :=
  {| Exposure.Adapter.BaseURL := ""; Exposure.Adapter.Timeout := 0; Exposure.Adapter.MaxResponseBytes := 0 |}.

(** With consent the password check sends one request, without it none. *)
Example consent_demo :
  (expose stdin_password (mkTime 0 0) (password_op true) (λ _, None) default_http default_http 0%nat).1 = 1%nat ∧
  (expose stdin_password (mkTime 0 0) (password_op false) (λ _, None) default_http default_http 0%nat).1 = 0%nat.
Proof. vm_compute. auto. Qed.

Lemma exposure_needs_consent_witness :
  ∃ r, ∀ LookupEnv (net : nat),
    expose stdin_password (mkTime 0 0) (password_op false) LookupEnv default_http default_http net = (net, r).
Proof.
  apply (exposure_needs_consent stdin_password (mkTime 0 0) (password_flags false)); [vm_compute; reflexivity|by left].
Defined.
